(* ===== verification/_CoqProject ===== *)
-Q . S2P
Prelude.v
StateMonad.v
Machine.v
Heap.v
Pool.v
Hashtable.v
HashtableRepr.v
HashtableOps.v
HashtableProofs.v
HashtableTable.v
HashtableRehash.v
HashtableSpec.v
Mqueue.v
MqueueRepr.v
MqueueProofs.v
MqueueRemove.v
MqueueSpec.v
MqueueFifo.v
Uthread.v
UthreadLife.v
Async.v
AsyncLocks.v
AsyncProofs.v
AsyncProgress.v
AsyncTerm.v
AsyncSpec.v
AsyncExamples.v
Interfaces.v
Wire.v
RmcastState.v
Rmcast.v
RmcastApi.v
RmcastPool.v
RmcastWire.v
RmcastProofs.v
Gap.v
RmcastNack.v
RmcastSend.v
RmcastSpec.v
RmcastEnd.v
RmcastFifo.v
RmcastSockets.v
RmcastInit.v
RmcastInvariant.v
RmcastLife.v
RmcastHbeat.v
RmcastBeat.v
RmcastFaults.v
RmcastLeave.v
RmcastClose.v
Rmctest.v
RmcastExamples.v
RmctestExamples.v
RmsMsg.v
RmsChannel.v
RmsChannelSpec.v
RmsClose.v
RmsState.v
RmsManager.v
RmsRun.v
RmsNack.v
RmsSpec.v
RmsFaults.v
RmsHbeat.v
RmsExamples.v
RmsInit.v
