(* ===== verification/Prelude.v ===== *)
(** * RMS: the reliable multicast service, verified

    RMS lets applications on several hosts exchange messages over IP multicast,
    reliably and in order.  The program that builds is version 0.1: one daemon
    thread per host ([src/v0.1/rmcast.c]), which talks to its application over a
    pair of connected sockets and to the other daemons over a multicast socket,
    and which rests on a hash table ([src/lib/util/hashtable.c]) and a queue
    ([src/lib/util/mqueue.c]).  Beside it are a library of threads and events
    ([src/lib/util/uthread.c]), a queue on which threads wait
    ([src/lib/util/async.c]), and an unfinished rewrite of the service in three
    threads ([src/rms*.c]), which does not compile.  A terminal program,
    [src/v0.1/rmctest.c], uses version 0.1 for a conversation.  This development
    models version 0.1, its program and its libraries completely and the rewrite as
    far as it can be read, and proves what they guarantee and where they fail.

    ** How the parts interact

    An application calls [rmcast_send]: the length and the bytes go through the
    ipc socket to the daemon ([handle_ipc]), which takes a message from its pool,
    numbers it, multicasts it and keeps it in [outmsgbuf].  Other daemons receive
    it ([handle_mcast], [handle_data]), compare its number with the last one of
    the member it is from, and write it, preceded by its length and its sender,
    to their applications ([rmcast_timed_recvfrom]).  Members are learnt from
    heartbeats ([send_hbeat], [handle_hbeat]); gaps are to be reported by
    negative acknowledgements ([send_nack], [handle_nack]).  The tables
    [members], [outmsgbuf] and [unseq_msgs] are hash tables; [bufmsgq] (the pool
    of messages) and [membersq] are queues.

    In the rewrite [rms_init] starts a manager, a sender and a receiver on one
    control block.  The manager's loop is that of the daemon; the sender and the
    receiver repeat the half of it that reads the ipc socket and the half that
    reads the group.

    ** Files

    - [Prelude]: machine integers, the result type [res] with the faults of C
      (null and dangling pointers, out of bounds, signed overflow, division by
      zero, divergence), record updates, counting loops, tactics.
    - [StateMonad]: computations with a state and faults, in which both versions
      of the service are written, and the rules that run them.  [Machine]: times,
      fresh memory, [float], [realloc].
    - [Heap]: memory for nodes of one type: allocation, loads, stores, [free],
      list segments.
    - [Pool]: the free list of nodes that [hashtable.c] and [mqueue.c] share,
      and the condition under which it is sound.
    - [Hashtable]: every function of [hashtable.c].  [HashtableRepr],
      [HashtableOps], [HashtableProofs], [HashtableTable], [HashtableRehash]: the
      chains as lists, the map a table represents, one lemma per operation.
      [HashtableSpec]: its theorems.
    - [Mqueue]: every function of [mqueue.c].  [MqueueRepr], [MqueueProofs],
      [MqueueRemove]: the list a queue represents.  [MqueueSpec]: its theorems.
      [MqueueFifo]: what a free list does to a queue that is appended to.
    - [Uthread]: the mutexes and events of [uthread.c] as programs of atomic steps,
      and the step relation [cstep] of any number of threads that share an event,
      a mutex and a queue.  [UthreadLife]: its thread objects.  [Async]: the
      functions of [async.c].  [AsyncLocks]: a type system for the use of the two
      mutexes.  [AsyncProofs], [AsyncProgress], [AsyncTerm]: invariant, progress,
      termination.  [AsyncSpec]: the theorems.  [AsyncExamples]: an executable
      scheduler and concrete runs.
    - [Interfaces]: what the daemon needs of its tables and queues, as type
      classes ([PutTable], [Table], [Stack]) with the implementations as
      instances; the daemon's theorems are proved against the classes.
    - [Wire]: messages as bytes, the fields of [rmc_msg_hdr] and [rmc_msg_hbeat],
      [htonl] and the like.
    - [RmcastState]: the control block [rmcastcb], members and messages, the state
      and fault monad [M], the message pool.  [Rmcast]: the handlers of
      [rmcast_daemon], its turn [daemon_iter] and the thread [rmcast_daemon].
      [RmcastApi]: the functions of [rmcast.h].
    - [RmcastPool], [RmcastWire], [RmcastProofs], [RmcastNack], [RmcastSend]: rules
      to run a handler and lemmas on each of its parts.  [Gap]: the arithmetic of
      the loop that lists missing numbers, for both versions.
    - [RmcastSpec] (data messages), [RmcastEnd] (what is read and what is sent),
      [RmcastFifo] (the abstract receiver [Fifo] and the two ends composed),
      [RmcastSockets], [RmcastInit], [RmcastInvariant] and [RmcastLife] (what every
      interleaving preserves), [RmcastHbeat] (a heartbeat that is received),
      [RmcastBeat] (one that is sent, and the service from the start), [RmcastFaults],
      [RmcastLeave] (a member that leaves), [RmcastClose] (the host that leaves and
      closes): the theorems on the daemon.
    - [Rmctest]: the terminal program, its main thread and its reader, with its
      theorems.
    - [RmcastExamples], [RmctestExamples]: concrete hosts that instantiate them.
    - [RmsMsg]: the messages of the rewrite, with their theorems.  [RmsChannel],
      [RmsChannelSpec]: its channels, proved against the class [Stack].  [RmsClose]:
      [rms_channel_close] and [rms_shutdown] of [rms.c].
    - [RmsState]: the control block, the peers and the messages of the rewrite's
      threads, and the functions of [rms_util.c] on them.  [RmsManager]: the
      functions and handlers of [rms_manager.c] ([send_nack], [send_hbeat], one
      [on_...] per message type, [recv_mcast], [recv_ipc], the periodic work), the
      thread [rms_manager], and [rms_receiver] and [rms_sender].
    - [RmsRun] (rules, pool), [RmsNack], [RmsSpec] (negative acknowledgements, data
      and heartbeats that are received), [RmsFaults] (how messages get in and out),
      [RmsHbeat] (heartbeats that are sent): lemmas and theorems.  [RmsExamples]: a
      concrete host that instantiates them.
    - [RmsInit]: [rms_init] of [rms.c], over the thread objects of [UthreadLife].

    ** What is shown

    The hash table without a free list refines a finite map, and the queue a
    list, under any sequence of operations; with a free list they do so under the
    discipline the daemon's pool follows (the queue as a stack) or until the first
    release (the table).  Beyond that they are wrong: a queue with a free list of
    three nodes or more that is used first in, first out returns an item twice
    ([mqueue_fifo_broken]).
    [rmcast_init] establishes, and every interleaving of joins, turns and leaves
    preserves, the invariant of the daemon.  For every member the daemon refines
    a first-in first-out receiver without duplicates: a data message is delivered
    when it is next, dropped when it is old or from an unknown host (and, while the
    first message is awaited, when it is newer: nothing is asked for then); what is sent
    over a network that loses nothing and may duplicate is read at the other end,
    whole, exactly once and in order, and this holds from the start of both hosts
    on, as soon as the first heartbeat of the sender has been heard, which registers
    it ([service_end_to_end]).
    The recovery from losses does not work as written: a gap, and a negative
    acknowledgement, run past the end of a message.  A member that leaves is freed
    and read again when it was the first to be registered.  A host that starts,
    joins, leaves and closes without traffic frees everything, the message that its
    daemon says good-bye with included; one that has sent
    messages keeps about half of them, and one that has only received writes past
    the end of the array it collects its members in.

    The terminal program prints at one host the lines typed at the other,
    complete, in order and once, as long as a line has at most 998 characters;
    longer lines, messages of 1024 bytes and a reader that outlives the group write
    outside a buffer, and the end of the input makes it repeat the last line for
    ever.

    The blocking queue, shared by any number of threads in any interleaving, is
    used under its locks only, with a free list or without: a step can be undefined
    only in the call on the inner queue.  Unless that faults it never deadlocks, and
    its clients finish within 14 steps a call as long as they never wait without a
    timeout; the count of waiting threads is exact.  Without a free list
    ([syncqueue_init(0)]) the inner queue does not fault, and the blocking queue is
    linearizable to a list and first in, first out.  The repository makes its blocking
    queues with free lists of 3, 10 and 20 nodes, and with these it delivers items
    twice, even to a single thread ([syncqueue_pool_repeats]).  A wait
    without a timeout never ends, a signal can come too early to be seen, and a
    deadline whose microseconds exceed a second is refused.

    Of the rewrite: a message gives back the data it was set to and never frees
    memory; a channel is opened with its defaults, or not at all, in which case the
    queues and tables made for it are leaked; it can be opened again; a channel that cannot be connected loses its internal object while it
    stays registered; closing a channel unregisters another, and [rms_shutdown]
    closes every other one, and those that are connected a second time; [rms_init] of [rms_interface.c] initialises nothing, that of
    [rms.c] does not notice that its threads could not be started.  Its negative
    acknowledgement lists exactly the missing numbers but the last; its heartbeat
    announces the host and forgets exactly the messages that are old enough; the
    next message of a peer is delivered, twice when a copy is cached, and what is
    cached behind it never is.  But no message gets that far: a datagram overwrites
    the pointers of the message it is received in, the data of an application is
    replaced by what the buffer held before, the identity of every host arrives as
    0, and a failing ipc socket gives one message to two owners.

    ** Conventions and bounds

    The machine is LP64 and little-endian with signed [char] (x86-64 Linux): an
    [int] is a [Z] between [INT_MIN] and [INT_MAX] whose overflow is a fault,
    unsigned types wrap ([u16], [u32], [u64]), a conversion to [int] wraps
    ([i32]).  Addresses are positive, [NULL] is 0, [malloc] succeeds and returns
    a new address with arbitrary content ([Uninit], [Fresh]), unless it is given a
    negative number of bytes ([int_array]).  Each table and
    queue has its own heap of nodes, since its nodes are reached through it only;
    messages and members have one heap each.  [float] is [SpecFloat] with 24 bits
    of precision.  Answers of the operating system are the classes [Kernel] (how
    much [send] and [sendto] took), [RmsNet] and [Reader] ([recv]) or arguments;
    [KernelOk], [SendsWhole], [RmsNetOk], [ReaderOk] and [link_up] are the
    hypotheses that the theorems on delivery name: a write to a connected local
    socket takes some of its bytes (all of them, in the application), a read of
    available bytes returns them, the network interface takes a datagram of up to
    65507 bytes, the most that UDP carries, whole.  The
    network of [service_end_to_end] is a list of places in what was sent.

    A loop over a list of nodes has fuel [walk_fuel], one more than the number of
    allocated nodes: a list without a cycle is shorter.  [nack_loop] and
    [resend_loop] touch the message in every turn or count a cached message, so
    that the size of the message (and the number of cached messages) is enough;
    [ipc_send_all] needs one turn per byte at most.  Running out of fuel is the
    fault [Diverges], and the theorems prove that a result is returned.  A loop that
    empties a queue has the size of the queue.  The two loops of the terminal
    program, which need not end, are given the number of turns they have taken.

    A step of a thread is one C statement on shared data or one pthread call; a
    call on the inner queue is one step, which is sound since only the owner of the
    mutex makes it ([syncqueue_exclusion]).  The pthread calls do what POSIX says:
    a mutex has one owner, a condition may wake up for no reason, a deadline out
    of range is refused.  The queue counts with an [int]: the theorems on it speak
    of fewer than [INT_MAX] operations.  [reached] takes the argument of
    [syncqueue_init], the size of the free list.

    ** What is not modelled

    The application's calls and the daemon's turns interleave but do not overlap:
    the code shares its state between two threads without a lock, and what it
    does then is undefined; there [inmsgq] appears as the queue inside the blocking
    queue.  The Windows branch of [uthread.c] is left out.  Of the rewrite,
    [rms_send] breaks off in the middle of an expression and is left out;
    [rms_channel_close] lacks two parentheses, which are read as ending the call.
    Where the code of the rewrite uses a field that no header declares, the field is
    there in the model; the functions [htbl_enum_keys] and [mqueue_deq], which no file
    defines, and the priority that its calls of [uthread_init] leave out are
    parameters, and [mqueue_destroy] and [htbl_destroy], which no file defines either
    and whose arguments are not used again, are left out.  Where it passes an object of
    one type to a function for another, the model says what it takes instead: the pool
    of messages ([sq_meta_msg_pool], a [syncqueue_t] that is passed to [mqueue_remove]
    and [mqueue_add]) is an [mqueue_t]; what [syncqueue_deq] answers when it is given
    the address of a field is an argument, and so is what the initialisations of a
    channel's queues and tables answer, of which two return [void].  Its three threads do not
    overlap in the model: they share the control block without a lock.  Its helpers
    [set_sock_ttl] and [join_mcast_group] are one system call each, whose answer is an
    argument of their callers. *)

From stdpp Require Export base tactics numbers option gmap list.

#[global] Open Scope Z_scope.
#[global] Arguments Z.add : simpl never.
#[global] Arguments Z.sub : simpl never.
#[global] Arguments Z.mul : simpl never.
#[global] Arguments Z.of_nat : simpl never.
#[global] Arguments Z.to_nat : simpl never.
#[global] Arguments Z.modulo : simpl never.
#[global] Arguments Z.pow : simpl never.

(** ** Assignment to a field of a struct

    [r <| f := v |>] is [r] with the field [f] set to [v].  A record type
    declares its fields with an instance of [Eta]; the setters are derived from
    it and reduce to the constructor applied to the projections. *)

Class Eta (R : Type) := eta : R → R.
Class Setter {R E : Type} (proj : R → E) := setter : E → R → R.

Ltac derive_setter :=
  match goal with
  | |- @Setter ?R ?E ?proj =>
      let inst := constr:(_ : Eta R) in
      let body := eval hnf in inst in
      match eval pattern proj in body with
      | ?F _ => let t := eval cbv beta in (fun (v : E) (r : R) => F (fun _ => v) r) in
                exact t
      end
  end.
#[global] Hint Extern 1 (Setter _) => derive_setter : typeclass_instances.

Declare Scope struct_scope.
#[global] Open Scope struct_scope.
#[warnings="-postfix-notation-not-level-1"]
Notation "r <| f := v |>" := (setter (proj := f) v r)
  (at level 12, f at next level, v at level 99, left associativity,
   format "r  <| f  :=  v |>") : struct_scope.

(** ** Results: C code either returns a value or hits undefined behaviour *)

(** What goes wrong when it does.  [Diverges] is a loop that never ends. *)
Inductive fault :=
  | NullDeref          (* p->f with p == NULL *)
  | BadPtr             (* a pointer to memory that was freed or never allocated *)
  | OutOfBounds        (* an array or buffer access past its end *)
  | SignedOverflow     (* int arithmetic that leaves the range of int *)
  | DivByZero
  | Diverges.

Inductive res (A : Type) :=
  | Ok (a : A)
  | Fault (f : fault).
Arguments Ok {A} a.
Arguments Fault {A} f.

#[global] Instance fault_eq_dec : EqDecision fault.
Proof. solve_decision. Defined.

#[global] Instance res_eq_dec {A} `{EqDecision A} : EqDecision (res A).
Proof. solve_decision. Defined.

#[global] Instance res_ret : MRet res := @Ok.
#[global] Instance res_bind : MBind res := fun A B k m =>
  match m with Ok a => k a | Fault f => Fault f end.
#[global] Instance res_fmap : FMap res := fun A B k m =>
  match m with Ok a => Ok (k a) | Fault f => Fault f end.

Lemma bind_Ok {A B} (m : res A) (k : A → res B) b :
  m ≫= k = Ok b ↔ ∃ a, m = Ok a ∧ k a = Ok b.
Proof.
  destruct m as [a|f]; cbn; split; [eauto| |discriminate|].
  - by intros (a' & [= <-] & ?).
  - by intros (? & ? & _).
Qed.

(** ** Machine integers (LP64, two's complement) *)

Definition INT_MAX : Z := 2147483647.
Definition INT_MIN : Z := -2147483648.

(** Unsigned conversions drop the high bits. *)
Definition u8 (z : Z) : Z := z mod 2 ^ 8.
Definition u16 (z : Z) : Z := z mod 2 ^ 16.
Definition u32 (z : Z) : Z := z mod 2 ^ 32.
Definition u64 (z : Z) : Z := z mod 2 ^ 64.

(** Conversion to a signed type keeps the low bits and reads them as two's
    complement. *)
Definition i32 (z : Z) : Z := (z + 2 ^ 31) mod 2 ^ 32 - 2 ^ 31.
Definition i64 (z : Z) : Z := (z + 2 ^ 63) mod 2 ^ 64 - 2 ^ 63.

Definition in_int (z : Z) : Prop := INT_MIN ≤ z ≤ INT_MAX.
#[global] Instance in_int_dec z : Decision (in_int z).
Proof. unfold in_int; apply _. Defined.

(** Signed arithmetic is undefined outside the range of [int]. *)
Definition int_check (z : Z) : res Z :=
  if decide (in_int z) then Ok z else Fault SignedOverflow.

Definition add_int (a b : Z) : res Z := int_check (a + b).
Definition sub_int (a b : Z) : res Z := int_check (a - b).
Definition mul_int (a b : Z) : res Z := int_check (a * b).

(** A C condition is true when the value is not zero. *)
Definition truthy (z : Z) : bool := negb (z =? 0).

Definition NULL : Z := 0.

(** A C string without its terminating NUL: [char] values, signed. *)
Abbreviation cstring := (list Z).

Lemma i32_id z : in_int z → i32 z = z.
Proof.
  unfold in_int, INT_MIN, INT_MAX, i32. intros ?.
  rewrite Z.mod_small; lia.
Qed.

Lemma i32_range z : in_int (i32 z).
Proof.
  unfold in_int, INT_MIN, INT_MAX, i32.
  pose proof (Z.mod_pos_bound (z + 2 ^ 31) (2 ^ 32)). lia.
Qed.

Lemma u32_range z : 0 ≤ u32 z < 2 ^ 32.
Proof. apply Z.mod_pos_bound. lia. Qed.

Lemma u64_id z : 0 ≤ z < 2 ^ 64 → u64 z = z.
Proof. apply Z.mod_small. Qed.

Lemma u32_id z : 0 ≤ z < 2 ^ 32 → u32 z = z.
Proof. apply Z.mod_small. Qed.

Lemma u16_id z : 0 ≤ z < 2 ^ 16 → u16 z = z.
Proof. apply Z.mod_small. Qed.

(** An [int] stored in a pointer-sized field and read back as [int]. *)
Lemma i32_u64 z : i32 (u64 z) = i32 z.
Proof.
  unfold i32, u64.
  rewrite <- (Zplus_mod_idemp_l (z mod 2 ^ 64)).
  rewrite <- (Zplus_mod_idemp_l z).
  do 3 f_equal.
  apply Z.mod_mod_divide. exists (2 ^ 32). reflexivity.
Qed.

Lemma int_check_Ok z : in_int z → int_check z = Ok z.
Proof. intros. unfold int_check. by rewrite decide_True. Qed.

Lemma add_int_Ok a b : in_int (a + b) → add_int a b = Ok (a + b).
Proof. apply int_check_Ok. Qed.
Lemma sub_int_Ok a b : in_int (a - b) → sub_int a b = Ok (a - b).
Proof. apply int_check_Ok. Qed.
Lemma mul_int_Ok a b : in_int (a * b) → mul_int a b = Ok (a * b).
Proof. apply int_check_Ok. Qed.

(** ** Arrays: a list read and written at a C index *)

Definition arr_get {A} (l : list A) (i : Z) : res A :=
  if i <? 0 then Fault OutOfBounds
  else match l !! Z.to_nat i with Some x => Ok x | None => Fault OutOfBounds end.

Definition arr_set {A} (l : list A) (i : Z) (x : A) : res (list A) :=
  if (0 <=? i) && (i <? Z.of_nat (length l))
  then Ok (<[Z.to_nat i := x]> l) else Fault OutOfBounds.

Lemma arr_get_Ok {A} (l : list A) (i : nat) x :
  l !! i = Some x → arr_get l (Z.of_nat i) = Ok x.
Proof.
  intros Hi. unfold arr_get.
  destruct (Z.ltb_spec (Z.of_nat i) 0); [lia|].
  by rewrite Nat2Z.id, Hi.
Qed.

Lemma arr_get_Z {A} (l : list A) (i : Z) x :
  0 ≤ i → l !! Z.to_nat i = Some x → arr_get l i = Ok x.
Proof. intros Hi Hl. unfold arr_get. destruct (Z.ltb_spec i 0); [lia|]. by rewrite Hl. Qed.

Lemma arr_set_Ok {A} (l : list A) (i : nat) x :
  (i < length l)%nat → arr_set l (Z.of_nat i) x = Ok (<[i := x]> l).
Proof.
  intros Hi. unfold arr_set. rewrite Nat2Z.id.
  destruct (Z.leb_spec 0 (Z.of_nat i)); [|lia].
  destruct (Z.ltb_spec (Z.of_nat i) (Z.of_nat (length l))); [done|lia].
Qed.

Lemma sum_list_with_insert {A} (f : A → nat) (l : list A) i x y :
  l !! i = Some x →
  (sum_list_with f (<[i := y]> l) + f x = sum_list_with f l + f y)%nat.
Proof.
  intros E. rewrite (insert_take_drop l i y) by (by eapply lookup_lt_Some).
  assert (sum_list_with f l = sum_list_with f (take i l ++ x :: drop (S i) l)) as ->
    by (by rewrite take_drop_middle).
  rewrite !sum_list_with_app. cbn. lia.
Qed.

(** ** Counting loops: [for(i = lo; i < hi; i++) s = body(i, s)] *)

Fixpoint for_n {S} (n : nat) (i : Z) (body : Z → S → res S) (s : S) : res S :=
  match n with
  | O => Ok s
  | S n => s ← body i s; for_n n (i + 1) body s
  end.

Definition for_range {S} (lo hi : Z) (body : Z → S → res S) (s : S) : res S :=
  for_n (Z.to_nat (hi - lo)) lo body s.

(** A loop whose body always succeeds and keeps an invariant ends with it. *)
Lemma for_n_inv {S} (P : Z → S → Prop) n : ∀ i (body : Z → S → res S) s,
  P i s →
  (∀ j s, i ≤ j < i + Z.of_nat n → P j s → ∃ s', body j s = Ok s' ∧ P (j + 1) s') →
  ∃ s', for_n n i body s = Ok s' ∧ P (i + Z.of_nat n) s'.
Proof.
  induction n as [|n IH]; intros i body s Hi Hstep; cbn.
  - exists s. split; [done|]. by rewrite Z.add_0_r.
  - destruct (Hstep i s) as (s1 & E & H1); [lia|done|]. rewrite E. cbn.
    destruct (IH (i + 1) body s1) as (s' & E' & H').
    + done.
    + intros j s2 Hj. apply Hstep. lia.
    + exists s'. split; [done|]. by replace (i + Z.of_nat (Datatypes.S n)) with (i + 1 + Z.of_nat n) by lia.
Qed.

Lemma for_range_inv {S} (P : Z → S → Prop) lo hi (body : Z → S → res S) s :
  lo ≤ hi → P lo s →
  (∀ j s, lo ≤ j < hi → P j s → ∃ s', body j s = Ok s' ∧ P (j + 1) s') →
  ∃ s', for_range lo hi body s = Ok s' ∧ P hi s'.
Proof.
  intros Hle Hlo Hstep. unfold for_range.
  destruct (for_n_inv P (Z.to_nat (hi - lo)) lo body s) as (s' & E & H').
  - done.
  - intros j s1 Hj. apply Hstep. lia.
  - exists s'. split; [done|]. by replace hi with (lo + Z.of_nat (Z.to_nat (hi - lo))) by lia.
Qed.

(** ** Automation shared by the development *)

(** [cint] holds the evaluation rules of checked arithmetic and arrays. *)
Create Rewrite HintDb cint.
#[export] Hint Rewrite @int_check_Ok add_int_Ok sub_int_Ok mul_int_Ok
  using (unfold in_int, INT_MIN, INT_MAX in *; lia) : cint.

(** Solves range side conditions. *)
Ltac int_lia := unfold in_int, INT_MIN, INT_MAX in *; lia.

(** Case analysis on the boolean tests that remain in a goal. *)
Ltac ztest :=
  repeat match goal with
  | |- context [ ?a =? ?b ] => destruct (Z.eqb_spec a b)
  | |- context [ ?a <? ?b ] => destruct (Z.ltb_spec a b)
  | |- context [ ?a <=? ?b ] => destruct (Z.leb_spec a b)
  end.

(** Evaluates the left-hand side of an equation, whose right-hand side may
    have parts that are still to be found. *)
Ltac c_run :=
  match goal with |- ?lhs = _ => let x := eval vm_compute in lhs in
    transitivity x; [vm_compute; reflexivity|reflexivity] end.

Lemma truthy_true z : z ≠ 0 → truthy z = true.
Proof. intros. unfold truthy. by destruct (Z.eqb_spec z 0). Qed.

Lemma truthy_false z : z = 0 → truthy z = false.
Proof. intros ->. done. Qed.
