(* ===== verification/StateMonad.v ===== *)
(** * Computations with a state and faults

    [ST S A]: C code that works on the state [S], returns an [A] or hits a fault.
    The daemon of version 0.1 and the threads of the rewrite are written in it;
    the lemmas run a computation step by step. *)

From S2P Require Import Prelude.

Definition ST (S A : Type) : Type := S → res (A * S).
#[global] Instance M_ret {S} : MRet (ST S) := fun A a s => Ok (a, s).
#[global] Instance M_bind {S} : MBind (ST S) := fun A B k m s =>
  match m s with Ok (a, s) => k a s | Fault f => Fault f end.

Section Combinators.
Context {S : Type}.

Definition lift {A} (r : res A) : ST S A := fun s =>
  match r with Ok a => Ok (a, s) | Fault f => Fault f end.
Definition gets {A} (f : S → A) : ST S A := fun s => Ok (f s, s).
Definition modify (f : S → S) : ST S unit := fun s => Ok (tt, f s).

(** [for(i = lo; i < hi; i++) body(i)] *)
Definition for_m (lo hi : Z) (body : Z → ST S unit) : ST S unit := fun s =>
  for_range lo hi (fun i us => body i us.2) (tt, s).
End Combinators.

(** ** Running a computation *)

Section Run.
Context {S A B : Type}.
Implicit Types (s : S) (k : A → ST S B).

Lemma bind_run (m : ST S A) k s a s' : m s = Ok (a, s') → (m ≫= k) s = k a s'.
Proof. intros E. unfold mbind, M_bind. by rewrite E. Qed.

Lemma bind_fault (m : ST S A) k s f : m s = Fault f → (m ≫= k) s = Fault f.
Proof. intros E. unfold mbind, M_bind. by rewrite E. Qed.

Lemma bind_lift (r : res A) k s a : r = Ok a → (lift r ≫= k) s = k a s.
Proof. intros ->. done. Qed.

Lemma bind_gets (f : S → A) k s : (gets f ≫= k) s = k (f s) s.
Proof. done. Qed.

Lemma bind_ret (a : A) k s : (mret a ≫= k) s = k a s.
Proof. done. Qed.

Lemma bind_modify f (k : unit → ST S B) s : (modify f ≫= k) s = k tt (f s).
Proof. done. Qed.
End Run.

Lemma bind_assoc {S A B C} (m : ST S A) (f : A → ST S B) (k : B → ST S C) s :
  ((m ≫= f) ≫= k) s = (m ≫= fun a => f a ≫= k) s.
Proof. unfold mbind, M_bind. by destruct (m s) as [[a s']|]. Qed.
