(* ===== verification/Machine.v ===== *)
(** * What both versions of the service use of the machine

    Times, the content of fresh memory, and single precision arithmetic, in
    which the heartbeat interval is computed. *)

From Stdlib Require Import SpecFloat.
From S2P Require Import Prelude.

Record timeval := Timeval { tv_sec : Z; tv_usec : Z }.

(** The content of memory that [malloc] hands out. *)
Class Fresh := {
  fresh_bytes : nat → list Z;
  fresh_int : Z;
  fresh_bytes_length : ∀ n, length (fresh_bytes n) = n
}.

(** ** Single precision arithmetic ([float]) *)

Definition f_of_int (z : Z) : spec_float := binary_normalize 24 128 z 0 false.
Definition f_add : spec_float → spec_float → spec_float := SFadd 24 128.
Definition f_sub : spec_float → spec_float → spec_float := SFsub 24 128.
Definition f_div : spec_float → spec_float → spec_float := SFdiv 24 128.

(** Conversion to [int]; out of range it is [INT_MIN], as on x86-64. *)
Definition f_to_int (x : spec_float) : Z :=
  match x with
  | S754_zero _ => 0
  | S754_finite s m e =>
      let a := if 0 <=? e then Z.pos m * 2 ^ e else Z.pos m / 2 ^ (- e) in
      let z := if s then - a else a in
      if (INT_MIN <=? z) && (z <=? INT_MAX) then z else INT_MIN
  | _ => INT_MIN
  end.

(** A time of day in seconds. *)
Definition f_time (t : timeval) : spec_float :=
  f_add (f_of_int (tv_sec t)) (f_div (f_of_int (tv_usec t)) (f_of_int 1000000)).

(** ** Growing a buffer *)

(** [ipc_read * 1.5], truncated. *)
Definition grow (n : Z) : Z :=
  let z := Z.quot (n * 3) 2 in if z <=? INT_MAX then z else INT_MIN.

(** [realloc]: the content is kept up to the smaller size. *)
Definition realloc `{Fresh} (n : Z) (b : list Z) : list Z :=
  take (Z.to_nat n) b ++ drop (length b) (fresh_bytes (Z.to_nat n)).
