(* ===== verification/Heap.v ===== *)
(** * The C heap

    Memory that [malloc] hands out, one typed heap per kind of object: a
    finite map from addresses to objects, with the fresh address [brk].  An
    address is never handed out twice, so an access through a stale pointer is
    always seen as [BadPtr].  [malloc] is assumed to succeed (the code never
    tests its result).  Fresh memory has an arbitrary content, the class
    [Uninit].  Linked structures are described by [lseg]. *)

From S2P Require Import Prelude.

(** The indeterminate content of fresh memory. *)
Class Uninit (A : Type) := uninit : A.

(** Objects that have a [next] pointer. *)
Class Linked (A : Type) := {
  nxt : A → Z;
  set_nxt : Z → A → A;
  nxt_set : ∀ z x, nxt (set_nxt z x) = z;
  set_nxt_nxt : ∀ x, set_nxt (nxt x) x = x;
  set_nxt_twice : ∀ y z x, set_nxt y (set_nxt z x) = set_nxt y x
}.

Record heap (A : Type) := Heap {
  cells : gmap Z A;
  brk : Z
}.
Arguments Heap {A} cells brk.
Arguments cells {A} h.
Arguments brk {A} h.

(** The three ways memory changes: a cell is created at [brk], overwritten or
    removed. *)
Definition h_new {A} (h : heap A) (x : A) : heap A :=
  Heap (<[brk h := x]> (cells h)) (brk h + 1).
Definition h_set {A} (h : heap A) (a : Z) (x : A) : heap A :=
  Heap (<[a := x]> (cells h)) (brk h).
Definition h_del {A} (h : heap A) (a : Z) : heap A :=
  Heap (delete a (cells h)) (brk h).
#[global] Arguments h_new : simpl never.
#[global] Arguments h_set : simpl never.
#[global] Arguments h_del : simpl never.

Section Heap.
Context {A : Type}.
Implicit Types (h : heap A) (p a : Z) (x : A).

Definition heap_empty : heap A := Heap ∅ 1.

(** [malloc]: the content is indeterminate. *)
Definition malloc `{Uninit A} h : Z * heap A := (brk h, h_new h uninit).

Definition h_load h p : res A :=
  if p =? NULL then Fault NullDeref
  else match cells h !! p with Some x => Ok x | None => Fault BadPtr end.

Definition h_store h p x : res (heap A) :=
  if p =? NULL then Fault NullDeref
  else match cells h !! p with
       | Some _ => Ok (h_set h p x)
       | None => Fault BadPtr
       end.

(** [free(NULL)] does nothing. *)
Definition h_free h p : res (heap A) :=
  if p =? NULL then Ok h
  else match cells h !! p with
       | Some _ => Ok (h_del h p)
       | None => Fault BadPtr
       end.

(** Every allocated address is above [NULL] and below [brk]. *)
Definition heap_wf h : Prop :=
  0 < brk h ∧ ∀ a, is_Some (cells h !! a) → 0 < a < brk h.

Lemma lookup_h_set h a x : cells (h_set h a x) !! a = Some x.
Proof. apply lookup_insert_eq. Qed.
Lemma lookup_h_set_ne h a b x : a ≠ b → cells (h_set h a x) !! b = cells h !! b.
Proof. apply lookup_insert_ne. Qed.
Lemma lookup_h_new h x : cells (h_new h x) !! brk h = Some x.
Proof. apply lookup_insert_eq. Qed.
Lemma lookup_h_new_ne h b x : brk h ≠ b → cells (h_new h x) !! b = cells h !! b.
Proof. apply lookup_insert_ne. Qed.
Lemma lookup_h_del h a : cells (h_del h a) !! a = None.
Proof. apply lookup_delete_eq. Qed.
Lemma lookup_h_del_ne h a b : a ≠ b → cells (h_del h a) !! b = cells h !! b.
Proof. apply lookup_delete_ne. Qed.

Lemma h_set_twice h a x y : h_set (h_set h a x) a y = h_set h a y.
Proof. unfold h_set. cbn. by rewrite insert_insert_eq. Qed.
Lemma h_set_id h a x : cells h !! a = Some x → h_set h a x = h.
Proof. intros Ha. unfold h_set. rewrite insert_id by done. by destruct h. Qed.
Lemma h_set_new h x y : h_set (h_new h x) (brk h) y = h_new h y.
Proof. unfold h_set, h_new. cbn. by rewrite insert_insert_eq. Qed.

Lemma heap_empty_wf : heap_wf heap_empty.
Proof.
  split; cbn; [lia|]. intros a [x Hx]. by rewrite lookup_empty in Hx.
Qed.

Lemma heap_wf_pos h a x : heap_wf h → cells h !! a = Some x → a ≠ NULL.
Proof. intros [_ Hw] Ha. specialize (Hw a (mk_is_Some _ _ Ha)). unfold NULL. lia. Qed.

Lemma heap_wf_brk h : heap_wf h → cells h !! brk h = None.
Proof.
  intros [_ Hw]. destruct (cells h !! brk h) eqn:E; [|done].
  specialize (Hw _ (mk_is_Some _ _ E)). lia.
Qed.

(** What is allocated is not the next fresh address. *)
Lemma heap_wf_fresh h b : heap_wf h → is_Some (cells h !! b) → brk h ≠ b.
Proof. intros Hw [x Hx] <-. by rewrite heap_wf_brk in Hx. Qed.

Lemma heap_wf_new h x : heap_wf h → heap_wf (h_new h x).
Proof.
  intros [Hb Hw]. unfold h_new. split; cbn; [lia|]. intros a.
  rewrite lookup_insert_is_Some. intros [<-|[_ Ha]]; [lia|].
  specialize (Hw a Ha). lia.
Qed.

Lemma heap_wf_set h a x : heap_wf h → is_Some (cells h !! a) → heap_wf (h_set h a x).
Proof.
  intros [Hb Hw] Ha. unfold h_set. split; cbn; [lia|]. intros b.
  rewrite lookup_insert_is_Some. intros [<-|[_ Hb']]; auto.
Qed.

Lemma heap_wf_del h a : heap_wf h → heap_wf (h_del h a).
Proof.
  intros [Hb Hw]. unfold h_del. split; cbn; [lia|]. intros b.
  rewrite lookup_delete_is_Some. intros [_ ?]; auto.
Qed.

Lemma h_load_Ok h a x :
  heap_wf h → cells h !! a = Some x → h_load h a = Ok x.
Proof.
  intros Hw Ha. unfold h_load. rewrite Ha.
  destruct (Z.eqb_spec a NULL); [|done].
  by destruct (heap_wf_pos _ _ _ Hw Ha).
Qed.

Lemma h_load_inv h a x : h_load h a = Ok x → a ≠ NULL ∧ cells h !! a = Some x.
Proof.
  unfold h_load. destruct (Z.eqb_spec a NULL); [done|].
  destruct (cells h !! a) eqn:E; [|done]. intros [= ->]. done.
Qed.

Lemma h_store_Ok h a x :
  heap_wf h → is_Some (cells h !! a) → h_store h a x = Ok (h_set h a x).
Proof.
  intros Hw [y Ha]. unfold h_store. rewrite Ha.
  destruct (Z.eqb_spec a NULL); [|done].
  by destruct (heap_wf_pos _ _ _ Hw Ha).
Qed.

Lemma h_free_Ok h a :
  heap_wf h → is_Some (cells h !! a) → h_free h a = Ok (h_del h a).
Proof.
  intros Hw [y Ha]. unfold h_free. rewrite Ha.
  destruct (Z.eqb_spec a NULL); [|done].
  by destruct (heap_wf_pos _ _ _ Hw Ha).
Qed.

(** Distinct allocated addresses are at most as many as the cells: the bound
    that makes [S (size (cells h))] enough fuel to walk a list without a
    cycle. *)
Lemma NoDup_size h (l : list Z) :
  NoDup l → (∀ a, a ∈ l → is_Some (cells h !! a)) → (length l ≤ size (cells h))%nat.
Proof.
  intros Hnd Hin.
  rewrite <- (size_dom (D := gset Z)).
  rewrite <- (size_list_to_set (C := gset Z)) by done.
  apply subseteq_size. intros a. rewrite elem_of_list_to_set, elem_of_dom. auto.
Qed.
End Heap.

#[global] Arguments h_load : simpl never.
#[global] Arguments h_store : simpl never.
#[global] Arguments h_free : simpl never.

(** Fuel for a loop that follows [next] pointers: more steps than there are
    cells means that a cell came twice, and then the C loop never ends. *)
Definition walk_fuel {A} (h : heap A) : nat := S (size (cells h)).

#[global] Arguments walk_fuel : simpl never.

(** ** List segments *)

Section Lseg.
Context {A : Type} `{Linked A}.
Implicit Types (h : heap A) (p q a : Z) (l : list Z).

(** [lseg h p l q]: from [p], the cells [l] are linked in order and the last
    one points to [q]. *)
Fixpoint lseg h p l q : Prop :=
  match l with
  | [] => p = q
  | a :: l' => p = a ∧ ∃ x, cells h !! a = Some x ∧ lseg h (nxt x) l' q
  end.

(** The heaps agree on the addresses of [l]. *)
Definition agree h h' l : Prop := ∀ a, a ∈ l → cells h' !! a = cells h !! a.

Lemma lseg_agree h h' p l q : agree h h' l → lseg h p l q → lseg h' p l q.
Proof.
  revert p. induction l as [|a l IH]; intros p Hag; [done|].
  intros [-> (x & Hx & Hl)]. split; [done|]. exists x. split.
  - rewrite Hag; [done|]. left.
  - apply IH; [|done]. intros b Hb. apply Hag. by right.
Qed.

Lemma agree_set h a x l : a ∉ l → agree h (h_set h a x) l.
Proof. intros Ha c Hc. rewrite lookup_h_set_ne; [done|]. congruence. Qed.

Lemma agree_del h a l : a ∉ l → agree h (h_del h a) l.
Proof. intros Ha c Hc. rewrite lookup_h_del_ne; [done|]. congruence. Qed.

Lemma agree_new h x l : brk h ∉ l → agree h (h_new h x) l.
Proof. intros Ha c Hc. rewrite lookup_h_new_ne; [done|]. congruence. Qed.

Lemma agree_sub h h' l l' : agree h h' l → (∀ a, a ∈ l' → a ∈ l) → agree h h' l'.
Proof. unfold agree. auto. Qed.

Lemma lseg_app h p l1 l2 q :
  lseg h p (l1 ++ l2) q ↔ ∃ r, lseg h p l1 r ∧ lseg h r l2 q.
Proof.
  revert p. induction l1 as [|a l1 IH]; intros p; cbn.
  - split; [eauto|]. by intros (r & -> & ?).
  - setoid_rewrite IH. split.
    + intros (-> & x & Hx & r & ? & ?). eauto 10.
    + intros (r & (-> & x & Hx & ?) & ?). eauto 10.
Qed.

Lemma lseg_allocated h p l q a : lseg h p l q → a ∈ l → is_Some (cells h !! a).
Proof.
  revert p. induction l as [|b l IH]; intros p; [by intros _ ?%elem_of_nil|].
  intros (-> & x & Hx & Hl) [->|Hin]%elem_of_cons; eauto.
Qed.

Lemma lseg_null h l q : heap_wf h → lseg h NULL l q → l = [].
Proof.
  intros Hw. destruct l as [|a l]; [done|]. intros (<- & x & Hx & _).
  by destruct (heap_wf_pos _ _ _ Hw Hx).
Qed.

Lemma lseg_head h p l : p ≠ NULL → lseg h p l NULL → ∃ l', l = p :: l'.
Proof. destruct l as [|a l]; [done|]. intros _ (-> & _). eauto. Qed.

(** Writing the [next] field of the last cell redirects the segment. *)
Lemma lseg_relink h p l a q x q' :
  a ∉ l → cells h !! a = Some x → lseg h p (l ++ [a]) q →
  lseg (h_set h a (set_nxt q' x)) p (l ++ [a]) q'.
Proof.
  intros Ha Hx (r & Hl & Hr)%lseg_app. apply lseg_app. exists r. split.
  - eapply lseg_agree; [by apply agree_set|done].
  - destruct Hr as (-> & y & Hy & _). split; [done|].
    eexists. rewrite lookup_h_set. split; [done|]. cbn. by rewrite nxt_set.
Qed.
End Lseg.
