(* ===== verification/Pool.v ===== *)
(** * The free list of list nodes

    [hashtable.c] and [mqueue.c] recycle their nodes through the same private
    free list: the fields [initbuf]/[init], [nbuf], [entry_front]/[buf_front]
    and [entry_back]/[buf_back] of [struct hashtbl] and [struct mqueue].  They
    are the record [pool] here, and the two copies of the code
    ([alloc_entry]/[mqueue_alloc_item], [release_entry]/[mqueue_free_item], the
    filling loop of [htbl_init]/[mqueue_init]) are one set of definitions over
    any node type with a [next] field.

    [release] links the node after [back] without moving [back].  The
    consequence is the condition [pool_cond]: in [Sane] the list ends at [back]
    or one node after it, and releasing a node is correct (a node that was after
    [back] leaks); [alloc] can take [back] itself off the list while one node is
    left after it, and then ([Stale]) [back] points to a node in use. *)

From S2P Require Import Prelude Heap.

Record pool := Pool {
  p_init : Z;     (* initbuf / init *)
  p_nbuf : Z;     (* nbuf *)
  p_front : Z;    (* entry_front / buf_front *)
  p_back : Z      (* entry_back / buf_back *)
}.

#[global] Instance pool_eta : Eta pool := fun r =>
  Pool (p_init r) (p_nbuf r) (p_front r) (p_back r).

Inductive pool_cond := Sane | Stale.

Section Pool.
Context {A : Type} `{Linked A} `{Uninit A}.
Implicit Types (h : heap A) (pl : pool) (l : list Z) (a e : Z).

Definition pool_alloc pl h : res (Z * pool * heap A) :=
  if truthy (p_init pl) && truthy (p_front pl) then
    let entry := p_front pl in
    x ← h_load h (p_front pl);
    let front := nxt x in
    nbuf ← sub_int (p_nbuf pl) 1;
    let back := if front =? NULL then NULL else p_back pl in
    Ok (entry, pl <| p_front := front |> <| p_nbuf := nbuf |> <| p_back := back |>, h)
  else
    let '(entry, h) := malloc h in
    Ok (entry, pl, h).

(** The test [(initbuf) && (nbuf < 3*initbuf)]. *)
Definition pool_has_room pl : res bool :=
  if truthy (p_init pl) then
    lim ← mul_int 3 (p_init pl);
    Ok (p_nbuf pl <? lim)
  else Ok false.

Definition pool_release pl h e : res (pool * heap A) :=
  x ← h_load h e;
  h ← h_store h e (set_nxt NULL x);
  room ← pool_has_room pl;
  if room : bool then
    '(pl, h) ← (if truthy (p_back pl) then
                  y ← h_load h (p_back pl);
                  h ← h_store h (p_back pl) (set_nxt e y);
                  Ok (pl, h)
                else
                  Ok (pl <| p_front := e |> <| p_back := e |>, h));
    nbuf ← add_int (p_nbuf pl) 1;
    Ok (pl <| p_nbuf := nbuf |>, h)
  else
    h ← h_free h e;
    Ok (pl, h).

(** The loop [for(nbuf=1; nbuf < init; nbuf++)]; [fuel] bounds its turns. *)
Fixpoint pool_fill (fuel : nat) pl h : res (pool * heap A) :=
  if p_nbuf pl <? p_init pl then
    match fuel with
    | O => Fault Diverges
    | S fuel =>
        let '(e, h) := malloc h in
        y ← h_load h (p_back pl);
        h ← h_store h (p_back pl) (set_nxt e y);
        x ← h_load h e;
        h ← h_store h e (set_nxt NULL x);
        nbuf ← add_int (p_nbuf pl) 1;
        pool_fill fuel (pl <| p_back := e |> <| p_nbuf := nbuf |>) h
    end
  else Ok (pl, h).

Definition pool_init (init : Z) h : res (pool * heap A) :=
  if truthy init then
    let '(e, h) := malloc h in
    x ← h_load h e;
    h ← h_store h e (set_nxt NULL x);
    pool_fill (Z.to_nat init) (Pool init 1 e e) h
  else Ok (Pool init 0 NULL NULL, h).

(** The free list [l], front first, and where [back] is. *)
Definition pool_ends (q : pool_cond) (back : Z) l : Prop :=
  match q with
  | Sane => (l = [] ∧ back = NULL) ∨
            (∃ l1, l = l1 ++ [back]) ∨ (∃ l1 e, l = l1 ++ [back; e])
  | Stale => (∃ e, l = [e]) ∧ back ≠ NULL ∧ back ∉ l
  end.

Definition pool_ok (q : pool_cond) pl h l : Prop :=
  lseg h (p_front pl) l NULL ∧ NoDup l ∧ pool_ends q (p_back pl) l ∧
  Z.of_nat (length l) ≤ p_nbuf pl ≤ INT_MAX ∧ in_int (3 * p_init pl).

(** The list ends at [back]: no node was released since it was last empty. *)
Definition pool_exact pl l : Prop := l = [] ∨ ∃ l1, l = l1 ++ [p_back pl].

Lemma pool_ok_allocated q pl h l a : pool_ok q pl h l → a ∈ l → is_Some (cells h !! a).
Proof. intros (Hl & _) Ha. by eapply lseg_allocated. Qed.

(** The pool only depends on the cells of the free list. *)
Lemma pool_ok_agree q pl h h' l : agree h h' l → pool_ok q pl h l → pool_ok q pl h' l.
Proof. intros Hag (? & ? & ? & ?). split; [|done]. by eapply lseg_agree. Qed.

(** Taking the head off the list, with [back] reset when the list becomes
    empty, keeps the pool sane, unless the head was [back] and a node is left. *)
Lemma pool_ends_pop back a l :
  NULL ∉ a :: l → NoDup (a :: l) → pool_ends Sane back (a :: l) →
  ∃ q, pool_ends q (if bool_decide (l = []) then NULL else back) l ∧
       (q = Stale → back = a) ∧
       ((∃ l1, a :: l = l1 ++ [back]) →
        q = Sane ∧ (l = [] ∨ ∃ l1, l = l1 ++ [if bool_decide (l = []) then NULL else back])).
Proof.
  intros Hnull Hnd0 Hends. pose proof Hnd0 as [Ha Hnd]%NoDup_cons.
  destruct l as [|b l]; [exists Sane; split; [by left|split; [done|by split; [|left]]]|].
  rewrite bool_decide_eq_false_2 by done.
  destruct Hends as [[? _]|[[l1 E]|(l1 & e & E)]]; [done| |].
  - destruct l1 as [|c l1]; [discriminate|]. injection E as <- ->.
    exists Sane. split; [right; left; eauto|]. split; [done|]. intros _. split; [done|]. eauto.
  - destruct l1 as [|c l1].
    + injection E as -> -> ->. exists Stale. split; [|split; [done|]].
      * split; [eauto|]. split; [|done]. set_solver.
      * intros [l1 E]. change [back; e] with ([back] ++ [e]) in E. apply app_inj_tail in E as [_ ->].
        destruct Ha. left.
    + assert (Hne : e ≠ back).
      { rewrite E in Hnd0. apply NoDup_app in Hnd0 as (_ & _ & Hd).
        apply NoDup_cons in Hd as [Hd _]. intros ->. apply Hd. left. }
      exists Sane. split; [injection E as <- ->; right; right; eauto|]. split; [done|].
      intros [l2 E2]. destruct Hne. rewrite E in E2.
      change [back; e] with ([back] ++ [e]) in E2. rewrite app_assoc in E2.
      by apply app_inj_tail in E2 as [_ ->].
Qed.

(** A non-empty sane list has at most one node after [back]. *)
Lemma pool_ends_split back l :
  (∃ l1, l = l1 ++ [back]) ∨ (∃ l1 e, l = l1 ++ [back; e]) →
  ∃ l1 tl, l = (l1 ++ [back]) ++ tl ∧ (length tl ≤ 1)%nat.
Proof.
  intros [[l1 ->]|(l1 & e & ->)].
  - exists l1, []. rewrite app_nil_r. cbn. split; [done|lia].
  - exists l1, [e]. rewrite <- app_assoc. cbn. split; [done|lia].
Qed.

(** [alloc] returns a node that nobody uses. *)
Lemma pool_alloc_spec pl h l :
  heap_wf h → pool_ok Sane pl h l →
  ∃ a pl' h' l' q,
    pool_alloc pl h = Ok (a, pl', h') ∧
    heap_wf h' ∧ is_Some (cells h' !! a) ∧ pool_ok q pl' h' l' ∧
    (a ∉ l') ∧ (∀ b, b ∈ l' → b ∈ l) ∧
    (∀ b, is_Some (cells h !! b) → cells h' !! b = cells h !! b) ∧
    (∀ b, is_Some (cells h !! b) → b ∉ l → b ≠ a) ∧
    (∀ b, is_Some (cells h' !! b) → b = a ∨ is_Some (cells h !! b)) ∧
    p_init pl' = p_init pl ∧
    (p_init pl = 0 → q = Sane ∧ pl' = pl ∧ l' = l) ∧
    (q = Stale → p_back pl' = a) ∧
    (pool_exact pl l → q = Sane ∧ pool_exact pl' l').
Proof.
  intros Hw Hok. pose proof Hok as (Hl & Hnd & Hends & Hnb & Hi).
  unfold pool_alloc.
  destruct (truthy (p_init pl) && truthy (p_front pl)) eqn:E.
  - apply andb_true_iff in E as [Ei Ef].
    unfold truthy in *. destruct (Z.eqb_spec (p_init pl) 0); [done|].
    destruct (Z.eqb_spec (p_front pl) 0) as [|Hf]; [done|].
    destruct (lseg_head _ _ _ Hf Hl) as [l' ->].
    pose proof Hl as (_ & x & Hx & Hl'). 
    rewrite (h_load_Ok _ _ _ Hw Hx). cbn -[sub_int].
    cbn [length] in Hnb. rewrite sub_int_Ok by int_lia. cbn.
    assert (Hnull : NULL ∉ p_front pl :: l').
    { intros Hin. destruct (lseg_allocated _ _ _ _ _ Hl Hin) as [y Hy].
      by eapply heap_wf_pos. }
    destruct (pool_ends_pop _ _ _ Hnull Hnd Hends) as (q & Hq & Hst & Hex).
    assert (Hnx : (nxt x =? NULL) = bool_decide (l' = [])).
    { destruct (Z.eqb_spec (nxt x) NULL) as [E|E].
      - rewrite E in Hl'. apply lseg_null in Hl' as ->; done.
      - rewrite bool_decide_eq_false_2; [done|]. intros ->. by apply E. }
    rewrite Hnx.
    apply NoDup_cons in Hnd as [Hnin Hnd'].
    eexists _, _, _, l', q. split; [done|]. split; [done|]. split; [by eexists|].
    split; [|split; [done|]].
    { split; [done|]. split; [done|]. cbn. split; [|int_lia]. by destruct (bool_decide _). }
    split; [by right|]. split; [done|].
    split; [|split; [by right|split; [done|split; [done|]]]].
    { intros b _ Hb ->. apply Hb. left. }
    split.
    + intros ->. cbn. destruct (Hst eq_refl). case_bool_decide; [|done].
      subst l'. by destruct Hq as [[??] _].
    + intros [?|He]; [done|]. exact (Hex He).
  - cbn -[pool_ok].
    eexists _, _, _, l, Sane. split; [done|].
    split; [by apply heap_wf_new|]. split; [rewrite lookup_h_new; by eexists|].
    assert (Hout : ∀ b, is_Some (cells h !! b) → brk h ≠ b) by (intros b; by apply heap_wf_fresh).
    assert (Hnin : brk h ∉ l) by (intros Hin; by eapply Hout; [eapply pool_ok_allocated|]).
    split; [eapply pool_ok_agree; [by apply agree_new|done]|].
    split; [done|]. split; [done|].
    split; [|split; [|split; [|split; [done|split; [done|split; [discriminate|done]]]]]].
    + intros b Hb. rewrite lookup_h_new_ne; auto.
    + intros b Hb _. by apply not_eq_sym, Hout.
    + intros b Hb. destruct (decide (b = brk h)) as [|Hne]; [by left|right].
      by rewrite lookup_h_new_ne in Hb by done.
Qed.

Lemma pool_has_room_Ok pl :
  in_int (3 * p_init pl) →
  pool_has_room pl = Ok (truthy (p_init pl) && (p_nbuf pl <? 3 * p_init pl)).
Proof.
  intros. unfold pool_has_room. destruct (truthy (p_init pl)); [|done].
  by rewrite mul_int_Ok.
Qed.

(** Linking [e], whose [next] is [NULL], after [back] drops what was there. *)
Lemma pool_link_back pl h l1 r e x y :
  lseg h (p_front pl) (l1 ++ [p_back pl]) r → cells h !! p_back pl = Some y →
  cells h !! e = Some (set_nxt NULL x) → NoDup (l1 ++ [p_back pl]) → e ∉ l1 ++ [p_back pl] →
  Z.of_nat (length (l1 ++ [p_back pl])) ≤ p_nbuf pl < INT_MAX → in_int (3 * p_init pl) →
  pool_ok Sane (pl <| p_nbuf := p_nbuf pl + 1 |>) (h_set h (p_back pl) (set_nxt e y))
    ((l1 ++ [p_back pl]) ++ [e]).
Proof.
  intros Hl Hy Hx Hnd He Hn Hi. pose proof Hnd as (_ & Hdis & _)%NoDup_app.
  assert (Hbl : p_back pl ∉ l1) by (intros Hin; specialize (Hdis _ Hin); set_solver).
  split; [|split; [|split]].
  - apply lseg_app. exists e. split; [by eapply lseg_relink|].
    cbn. split; [done|]. exists (set_nxt NULL x). rewrite nxt_set.
    split; [|done]. rewrite lookup_h_set_ne; [done|]. set_solver.
  - apply NoDup_app. split; [done|]. split; [set_solver|]. apply NoDup_singleton.
  - right; right. exists l1, e. by rewrite <- app_assoc.
  - cbn. rewrite !length_app in *. cbn [length] in *. int_lia.
Qed.

(** The first node of an empty list. *)
Lemma pool_link_first pl h e x :
  cells h !! e = Some (set_nxt NULL x) → 0 ≤ p_nbuf pl < INT_MAX → in_int (3 * p_init pl) →
  pool_ok Sane (pl <| p_front := e |> <| p_back := e |> <| p_nbuf := p_nbuf pl + 1 |>) h [e].
Proof.
  intros Hx Hn Hi. split; [|split; [by apply NoDup_singleton|split; [|cbn in *; int_lia]]].
  - cbn. split; [done|]. eexists; split; [done|]. apply nxt_set.
  - right; left. by exists [].
Qed.

(** Releasing a node into a sane pool keeps it sane and touches nothing but
    the node and the free list. *)
Lemma pool_release_spec pl h l e :
  heap_wf h → pool_ok Sane pl h l → is_Some (cells h !! e) → e ∉ l →
  ∃ pl' h' l',
    pool_release pl h e = Ok (pl', h') ∧
    heap_wf h' ∧ pool_ok Sane pl' h' l' ∧
    (∀ b, b ∈ l' → b = e ∨ b ∈ l) ∧
    (∀ b, b ≠ e → b ∉ l → cells h' !! b = cells h !! b) ∧
    (∀ b, b ≠ e → is_Some (cells h' !! b) ↔ is_Some (cells h !! b)) ∧
    p_init pl' = p_init pl ∧
    (p_init pl = 0 → pl' = pl ∧ l' = l ∧ cells h' = delete e (cells h)).
Proof.
  intros Hw Hok [x Hx] He. pose proof Hok as (Hl & Hnd & Hends & Hnb & Hi).
  unfold pool_release. rewrite (h_load_Ok _ _ _ Hw Hx). cbn.
  rewrite h_store_Ok by (try done; by eexists). cbn.
  pose proof (heap_wf_set h e (set_nxt NULL x) Hw (mk_is_Some _ _ Hx)) as Hw1.
  pose proof (lookup_h_set h e (set_nxt NULL x)) as Hx1.
  assert (Hag : agree h (h_set h e (set_nxt NULL x)) l) by by apply agree_set.
  assert (Hfr : ∀ b, b ≠ e → cells (h_set h e (set_nxt NULL x)) !! b = cells h !! b)
    by (intros; by apply lookup_h_set_ne).
  assert (Hdel : delete e (cells (h_set h e (set_nxt NULL x))) = delete e (cells h))
    by apply delete_insert_eq.
  revert Hw1 Hx1 Hag Hfr Hdel. generalize (h_set h e (set_nxt NULL x)) as h1.
  intros h1 Hw1 Hx1 Hag Hfr Hdel.
  rewrite pool_has_room_Ok by done. cbn.
  destruct (truthy (p_init pl)) eqn:Ei; cbn.
  1: destruct (Z.ltb_spec (p_nbuf pl) (3 * p_init pl)) as [Hroom|Hroom].
  2-3: (rewrite h_free_Ok by (try done; by eexists)); cbn;
    eexists _, _, l; (split; [done|]); (split; [by apply heap_wf_del|]);
    (split; [eapply pool_ok_agree; [|by eapply pool_ok_agree]; by apply agree_del|]);
    (split; [by right|]); (split; [|split; [|done]]);
    [ intros b Hb Hbl; rewrite lookup_h_del_ne by done; auto
    | intros b Hb; rewrite lookup_h_del_ne, Hfr by done; done ].
  unfold truthy in *. destruct (Z.eqb_spec (p_init pl) 0) as [|Hi0]; [done|].
  destruct (Z.eqb_spec (p_back pl) 0) as [Hb|Hb]; cbn.
  - (* no back: the list is empty *)
    assert (l = []) as ->.
    { destruct Hends as [[-> _]|[[l1 ->]|(l1 & e' & ->)]]; [done| |];
        exfalso; (destruct (lseg_allocated _ _ _ _ (p_back pl) Hl) as [y Hy]; [set_solver|]);
        exact (heap_wf_pos _ _ _ Hw Hy Hb). }
    rewrite add_int_Ok by int_lia. cbn.
    eexists _, _, [e]. split; [done|]. split; [done|].
    split; [apply (pool_link_first pl h1 e x); [done|cbn in *; int_lia|done]|].
    split; [set_solver|split; [auto|]]. split; [|done]. intros b Hb'. by rewrite Hfr.
  - (* after [back], dropping what was there *)
    destruct Hends as [[-> ?]|Hends]; [done|].
    destruct (pool_ends_split _ _ Hends) as (l1 & tl & -> & Htl).
    apply (lseg_agree _ h1) in Hl; [|done].
    apply lseg_app in Hl as (r & Hl1 & _).
    destruct (lseg_allocated _ _ _ _ (p_back pl) Hl1) as [y Hy]; [set_solver|].
    rewrite (h_load_Ok _ _ _ Hw1 Hy). cbn.
    rewrite h_store_Ok by (try done; by eexists). cbn.
    rewrite add_int_Ok by int_lia. cbn.
    apply NoDup_app in Hnd as (Hnd1 & _ & _).
    eexists _, _, ((l1 ++ [p_back pl]) ++ [e]). split; [done|].
    split; [by apply heap_wf_set|]. split; [|split; [set_solver|split; [|split; [|done]]]].
    + eapply pool_link_back; try done; [set_solver|]. rewrite !length_app in *. cbn [length] in *. int_lia.
    + intros b Hb' Hbl'. rewrite lookup_h_set_ne by set_solver. auto.
    + intros b Hb'. rewrite <- (Hfr b) by done. unfold h_set; cbn.
      rewrite lookup_insert_is_Some'. split; [|by right].
      intros [<-|?]; [by eexists|done].
Qed.

(** The filling loop ends and leaves a list that ends at [back]. *)
Lemma pool_fill_spec fuel : ∀ pl h l1,
  heap_wf h → lseg h (p_front pl) (l1 ++ [p_back pl]) NULL → NoDup (l1 ++ [p_back pl]) →
  p_nbuf pl = Z.of_nat (length (l1 ++ [p_back pl])) → p_nbuf pl ≤ INT_MAX →
  in_int (3 * p_init pl) → p_init pl - p_nbuf pl ≤ Z.of_nat fuel →
  ∃ pl' h' l',
    pool_fill fuel pl h = Ok (pl', h') ∧ heap_wf h' ∧ pool_ok Sane pl' h' l' ∧
    p_init pl' = p_init pl ∧ Z.of_nat (length l') = Z.max (p_nbuf pl) (p_init pl) ∧
    pool_exact pl' l'.
Proof.
  induction fuel as [|fuel IH]; intros pl h l1 Hw Hl Hnd Hlen Hmax Hi Hfuel; cbn [pool_fill];
    (destruct (Z.ltb_spec (p_nbuf pl) (p_init pl)); cycle 1;
     [ eexists _, _, (l1 ++ [p_back pl]); split; [done|]; split; [done|];
       split; [|split; [done|split; [lia|right; eauto]]]; split; [done|]; split; [done|]; split; [right; left; eauto|];
       split; [lia|done]
     | ]); [lia|].
  destruct (lseg_allocated _ _ _ _ (p_back pl) Hl) as [y Hy]; [set_solver|].
  assert (Hb : brk h ∉ l1 ++ [p_back pl]).
  { intros Hin. eapply heap_wf_fresh; [done| |done]. by eapply lseg_allocated. }
  cbn [malloc]. rewrite (h_load_Ok _ (p_back pl) y);
    [|by apply heap_wf_new|rewrite lookup_h_new_ne; [done|set_solver]]. cbn.
  rewrite h_store_Ok; [|by apply heap_wf_new|rewrite lookup_h_new_ne; [by eexists|set_solver]].
  assert (Hw2 : heap_wf (h_set (h_new h uninit) (p_back pl) (set_nxt (brk h) y))).
  { apply heap_wf_set; [by apply heap_wf_new|]. rewrite lookup_h_new_ne; [by eexists|set_solver]. }
  cbn. rewrite (h_load_Ok _ (brk h) uninit); [|done|];
    [|rewrite lookup_h_set_ne; [apply lookup_h_new|set_solver]]. cbn.
  rewrite h_store_Ok; [|done|rewrite lookup_h_set_ne; [rewrite lookup_h_new; by eexists|set_solver]].
  cbn. rewrite add_int_Ok by int_lia. cbn.
  destruct (IH (pl <| p_back := brk h |> <| p_nbuf := p_nbuf pl + 1 |>)
    (h_set (h_set (h_new h uninit) (p_back pl) (set_nxt (brk h) y)) (brk h)
           (set_nxt NULL uninit)) (l1 ++ [p_back pl])) as (pl' & h' & l' & Hf & ? & ? & ? & Hlen' & ?).
  - apply heap_wf_set; [done|].
    rewrite lookup_h_set_ne; [rewrite lookup_h_new; by eexists|set_solver].
  - cbn. apply lseg_app. exists (brk h). split.
    + eapply lseg_agree; [by apply agree_set|].
      eapply lseg_relink; [|rewrite lookup_h_new_ne; [done|set_solver]|].
      * by apply NoDup_app in Hnd as (_ & Hd & _); intros Hin; specialize (Hd _ Hin); set_solver.
      * eapply lseg_agree; [by apply agree_new|done].
    + split; [done|]. eexists. rewrite lookup_h_set. split; [done|]. cbn. apply nxt_set.
  - cbn. apply NoDup_app. split; [done|]. split; [set_solver|]. apply NoDup_singleton.
  - cbn. rewrite length_app, Hlen. cbn. lia.
  - cbn. int_lia.
  - done.
  - cbn. lia.
  - cbn in *. eexists _, _, l'. split; [done|]. split; [done|]. split; [done|].
    split; [done|]. split; [lia|done].
Qed.

(** [pool_init n] makes a sane pool of [n] nodes (one node when [n] is
    negative, none when it is 0). *)
Lemma pool_init_spec n :
  in_int (3 * n) →
  ∃ pl h l, pool_init n heap_empty = Ok (pl, h) ∧ heap_wf h ∧ pool_ok Sane pl h l ∧
    p_init pl = n ∧ Z.of_nat (length l) = (if truthy n then Z.max 1 n else 0) ∧ pool_exact pl l.
Proof.
  intros Hn. unfold pool_init, truthy. destruct (Z.eqb_spec n 0) as [->|Hn0]; cbn [negb].
  - eexists _, _, []. split; [done|]. split; [apply heap_empty_wf|].
    split; [|split; [done|split; [done|by left]]].
    split; [done|]. split; [constructor|]. split; [by left|]. cbn. int_lia.
  - cbn [malloc]. pose proof (heap_wf_new _ (uninit : A) heap_empty_wf) as Hw.
    rewrite (h_load_Ok _ _ uninit); [|done|apply lookup_h_new]. cbn.
    rewrite h_store_Ok; [|done|change 1 with (brk (heap_empty (A:=A))); rewrite lookup_h_new; by eexists].
    cbn. destruct (pool_fill_spec (Z.to_nat n) (Pool n 1 1 1)
      (h_set (h_new heap_empty uninit) 1 (set_nxt NULL uninit)) [])
      as (pl & h & l & ? & ? & ? & ? & ? & ?); cbn; try done; try int_lia.
    + apply heap_wf_set; [done|].
      change 1 with (brk (heap_empty (A:=A))). rewrite lookup_h_new. by eexists.
    + split; [done|]. eexists. rewrite lookup_h_set. split; [done|]. cbn. apply nxt_set.
    + apply NoDup_singleton.
    + eexists _, _, l. split; [done|]. done.
Qed.
End Pool.
