(* ===== verification/Hashtable.v ===== *)
(** * The hash table of [src/lib/util/hashtable.c]: definitions

    A table of singly linked chains, keyed by [int] or by string.  [htbl_t] is
    what the C pointer of that name reaches: the [struct hashtbl], the entries
    it allocated and the copies of its string keys.  Every function of the file
    is a definition with the table as explicit state; an out-parameter is an
    extra result ([None] when the function leaves it alone). *)

From S2P Require Import Prelude Heap Pool.

Definition HTBL_KEY_INT : Z := 1.
Definition HTBL_KEY_STR : Z := 2.

Record htbl_entry := Entry {
  e_type : Z;
  e_hash : Z;
  e_key : Z;     (* void *key: an int, or the address of a string *)
  e_data : Z;
  e_next : Z
}.
#[global] Instance htbl_entry_eta : Eta htbl_entry := fun r =>
  Entry (e_type r) (e_hash r) (e_key r) (e_data r) (e_next r).

#[global] Program Instance htbl_entry_linked : Linked htbl_entry := {
  nxt := e_next;
  set_nxt z e := e <| e_next := z |>
}.
Solve All Obligations with by intros; repeat match goal with x : htbl_entry |- _ => destruct x end.

Record hashtbl := Hashtbl {
  tbl_size : Z;
  n_entries : Z;
  entries : list Z;                  (* htbl_entry **entries *)
  entries_chain_lengths : list Z;    (* int *entries_chain_lengths *)
  t_pool : pool                      (* nbuf, initbuf, entry_front, entry_back *)
}.
#[global] Instance hashtbl_eta : Eta hashtbl := fun r =>
  Hashtbl (tbl_size r) (n_entries r) (entries r) (entries_chain_lengths r) (t_pool r).

Record htbl_t := Htbl {
  tbl : hashtbl;
  ents : heap htbl_entry;
  strs : heap cstring
}.
#[global] Instance htbl_t_eta : Eta htbl_t := fun r => Htbl (tbl r) (ents r) (strs r).

(** [(void * )key] and [(int)entry->key] *)
Definition ptr_of_int (k : Z) : Z := u64 k.
Definition int_of_ptr (p : Z) : Z := i32 p.

Definition hash_string (str : cstring) (m : Z) : res Z :=
  let i := fold_left (fun i c => u32 (131 * i + c)) str 0 in
  if u32 m =? 0 then Fault DivByZero else Ok (i mod u32 m).

Definition hash_int (key m : Z) : res Z :=
  if u32 m =? 0 then Fault DivByZero else Ok (u32 key mod u32 m).

Section Hashtable.
Context `{Uninit htbl_entry}.
Implicit Types (t : htbl_t) (key data : Z).

Definition alloc_entry t : res (Z * htbl_t) :=
  '(entry, pl, h) ← pool_alloc (t_pool (tbl t)) (ents t);
  Ok (entry, t <| tbl := tbl t <| t_pool := pl |> |> <| ents := h |>).

Definition release_entry t (entry : Z) : res htbl_t :=
  '(pl, h) ← pool_release (t_pool (tbl t)) (ents t) entry;
  Ok (t <| tbl := tbl t <| t_pool := pl |> |> <| ents := h |>).

(** The arrays of a table of [init] slots are zeroed by [memset]. *)
Definition htbl_init (init initbuf : Z) : res (Z * htbl_t) :=
  '(pl, h) ← pool_init initbuf heap_empty;
  Ok (0, Htbl (Hashtbl init 0 (replicate (Z.to_nat init) NULL)
                       (replicate (Z.to_nat init) 0) pl) h heap_empty).

Definition htbl_resize_buf t (buf : Z) : Z * htbl_t :=
  (0, t <| tbl := tbl t <| t_pool := t_pool (tbl t) <| p_init := buf |> |> |>).

(** The loop [while(entry) { prev = entry; entry = entry->next; free(prev); }] *)
Fixpoint free_chain (fuel : nat) (h : heap htbl_entry) (entry : Z) : res (heap htbl_entry) :=
  if entry =? NULL then Ok h
  else match fuel with
       | O => Fault Diverges
       | S fuel =>
           e ← h_load h entry;
           h ← h_free h entry;
           free_chain fuel h (e_next e)
       end.

(** What is left in memory after the table is freed. *)
Definition htbl_free t : res (Z * heap htbl_entry * heap cstring) :=
  h ← for_range 0 (tbl_size (tbl t)) (fun itr h =>
        entry ← arr_get (entries (tbl t)) itr;
        free_chain (walk_fuel h) h entry) (ents t);
  Ok (0, h, strs t).

Definition htbl_count t : Z := n_entries (tbl t).

Definition htbl_size t : Z := tbl_size (tbl t).

Definition htbl_empty_slots t : res Z :=
  for_range 0 (tbl_size (tbl t)) (fun itr n =>
    entry ← arr_get (entries (tbl t)) itr;
    if entry =? NULL then add_int n 1 else Ok n) 0.

(** The result and what is stored through [index]; [ix] is not initialised. *)
Definition htbl_longest_chain t : res (Z * option Z) :=
  for_range 0 (tbl_size (tbl t)) (fun itr '(longest, ix) =>
    len ← arr_get (entries_chain_lengths (tbl t)) itr;
    if longest <? len then Ok (len, Some itr) else Ok (longest, ix)) (0, None).

Fixpoint locate_from (fuel : nat) (h : heap htbl_entry) key (entry : Z) : res Z :=
  if entry =? NULL then Ok NULL
  else match fuel with
       | O => Fault Diverges
       | S fuel =>
           e ← h_load h entry;
           if (e_type e =? HTBL_KEY_INT) && (key =? int_of_ptr (e_key e))
           then Ok entry
           else locate_from fuel h key (e_next e)
       end.

Definition locate_entry t key : res Z :=
  h ← hash_int key (tbl_size (tbl t));
  entry ← arr_get (entries (tbl t)) h;
  locate_from (walk_fuel (ents t)) (ents t) key entry.

(** [strcmp(key, (char* )entry->key) == 0], read only for a string entry *)
Definition str_matches (ss : heap cstring) (key : cstring) (e : htbl_entry) : res bool :=
  if e_type e =? HTBL_KEY_STR then
    s ← h_load ss (e_key e);
    Ok (bool_decide (key = s))
  else Ok false.

Fixpoint locate_str_from (fuel : nat) (h : heap htbl_entry) (ss : heap cstring)
    (key : cstring) (entry : Z) : res Z :=
  if entry =? NULL then Ok NULL
  else match fuel with
       | O => Fault Diverges
       | S fuel =>
           e ← h_load h entry;
           eq ← str_matches ss key e;
           if eq : bool then Ok entry
           else locate_str_from fuel h ss key (e_next e)
       end.

Definition locate_str_entry t (key : cstring) : res Z :=
  h ← hash_string key (tbl_size (tbl t));
  entry ← arr_get (entries (tbl t)) h;
  locate_str_from (walk_fuel (ents t)) (ents t) (strs t) key entry.

(** The common end of [htbl_put] and [htbl_str_put]: the fields of the new
    entry, the link at the head of its chain and the counters. *)
Definition link_entry t (entry type keyp h data : Z) : res htbl_t :=
  head ← arr_get (entries (tbl t)) h;
  hp ← h_store (ents t) entry (Entry type h keyp data head);
  es ← arr_set (entries (tbl t)) h entry;
  n ← add_int (n_entries (tbl t)) 1;
  len ← arr_get (entries_chain_lengths (tbl t)) h;
  len ← add_int len 1;
  ls ← arr_set (entries_chain_lengths (tbl t)) h len;
  Ok (t <| ents := hp |>
        <| tbl := tbl t <| entries := es |> <| n_entries := n |>
                       <| entries_chain_lengths := ls |> |>).

Definition htbl_put t key data : res (Z * htbl_t) :=
  entry ← locate_entry t key;
  if truthy entry then Ok (-1, t)
  else
    h ← hash_int key (tbl_size (tbl t));
    '(entry, t) ← alloc_entry t;
    t ← link_entry t entry HTBL_KEY_INT (ptr_of_int key) h data;
    Ok (0, t).

Definition htbl_str_put t (key : cstring) data : res (Z * htbl_t) :=
  entry ← locate_str_entry t key;
  if truthy entry then Ok (-1, t)
  else
    '(entry, t) ← alloc_entry t;
    let kp := brk (strs t) in                 (* malloc(strlen(key)+1), memcpy *)
    let t := t <| strs := h_new (strs t) key |> in
    h ← hash_string key (tbl_size (tbl t));
    t ← link_entry t entry HTBL_KEY_STR kp h data;
    Ok (0, t).

Definition htbl_get t key : res (Z * option Z) :=
  entry ← locate_entry t key;
  if truthy entry then
    e ← h_load (ents t) entry;
    Ok (1, Some (e_data e))
  else Ok (0, None).

Definition htbl_str_get t (key : cstring) : res (Z * option Z) :=
  entry ← locate_str_entry t key;
  if truthy entry then
    e ← h_load (ents t) entry;
    Ok (1, Some (e_data e))
  else Ok (0, None).

(** Taking [entry] out of its chain: [prev->next] or the head of chain [h]. *)
Definition unlink_entry t (h prev : Z) (e : htbl_entry) : res htbl_t :=
  if truthy prev then
    p ← h_load (ents t) prev;
    hp ← h_store (ents t) prev (p <| e_next := e_next e |>);
    Ok (t <| ents := hp |>)
  else
    es ← arr_set (entries (tbl t)) h (e_next e);
    Ok (t <| tbl := tbl t <| entries := es |> |>).

(** [n_entries--; entries_chain_lengths[h]--] *)
Definition uncount_entry t (h : Z) : res htbl_t :=
  n ← sub_int (n_entries (tbl t)) 1;
  len ← arr_get (entries_chain_lengths (tbl t)) h;
  len ← sub_int len 1;
  ls ← arr_set (entries_chain_lengths (tbl t)) h len;
  Ok (t <| tbl := tbl t <| n_entries := n |> <| entries_chain_lengths := ls |> |>).

(** The entry is found: unlink it, give it back and count it out. *)
Definition remove_found t (h prev entry : Z) (e : htbl_entry) : res (Z * option Z * htbl_t) :=
  t ← unlink_entry t h prev e;
  t ← release_entry t entry;
  t ← uncount_entry t h;
  Ok (1, Some (e_data e), t).

Fixpoint remove_from (fuel : nat) t (h key prev entry : Z) : res (Z * option Z * htbl_t) :=
  if entry =? NULL then Ok (0, None, t)
  else match fuel with
       | O => Fault Diverges
       | S fuel =>
           e ← h_load (ents t) entry;
           if (e_type e =? HTBL_KEY_INT) && (key =? int_of_ptr (e_key e)) then
             remove_found t h prev entry e
           else remove_from fuel t h key entry (e_next e)
       end.

Definition htbl_remove t key : res (Z * option Z * htbl_t) :=
  h ← hash_int key (tbl_size (tbl t));
  entry ← arr_get (entries (tbl t)) h;
  remove_from (walk_fuel (ents t)) t h key NULL entry.

(** The same with the copy of the key freed before the entry is given back. *)
Definition remove_str_found t (h prev entry : Z) (e : htbl_entry)
    : res (Z * option Z * htbl_t) :=
  t ← unlink_entry t h prev e;
  ss ← h_free (strs t) (e_key e);
  t ← release_entry (t <| strs := ss |>) entry;
  t ← uncount_entry t h;
  Ok (1, Some (e_data e), t).

Fixpoint remove_str_from (fuel : nat) t (h : Z) (key : cstring) (prev entry : Z)
    : res (Z * option Z * htbl_t) :=
  if entry =? NULL then Ok (0, None, t)
  else match fuel with
       | O => Fault Diverges
       | S fuel =>
           e ← h_load (ents t) entry;
           eq ← str_matches (strs t) key e;
           if eq : bool then remove_str_found t h prev entry e
           else remove_str_from fuel t h key entry (e_next e)
       end.

Definition htbl_str_remove t (key : cstring) : res (Z * option Z * htbl_t) :=
  h ← hash_string key (tbl_size (tbl t));
  entry ← arr_get (entries (tbl t)) h;
  remove_str_from (walk_fuel (ents t)) t h key NULL entry.

(** The branch of [htbl_replace] and [htbl_str_replace] where the key exists. *)
Definition overwrite_entry t (entry type data : Z) : res (Z * htbl_t) :=
  e ← h_load (ents t) entry;
  hp ← h_store (ents t) entry (e <| e_data := data |> <| e_type := type |>);
  Ok (e_data e, t <| ents := hp |>).

(** The second result is what is stored through [replaced] when it is given. *)
Definition htbl_replace t key data : res (Z * option Z * htbl_t) :=
  '(r, t) ← htbl_put t key data;
  if r <? 0 then
    entry ← locate_entry t key;
    '(old, t) ← overwrite_entry t entry HTBL_KEY_INT data;
    Ok (1, Some old, t)
  else Ok (0, None, t).

Definition htbl_str_replace t (key : cstring) data : res (Z * option Z * htbl_t) :=
  '(r, t) ← htbl_str_put t key data;
  if r <? 0 then
    entry ← locate_str_entry t key;
    '(old, t) ← overwrite_entry t entry HTBL_KEY_STR data;
    Ok (1, Some old, t)
  else Ok (0, None, t).

(** One entry of the old chains goes into the new arrays. *)
Definition rehash_entry t (entry : Z) : res htbl_t :=
  e ← h_load (ents t) entry;
  if e_type e =? HTBL_KEY_INT then
    '(_, t) ← htbl_put t (int_of_ptr (e_key e)) (e_data e);
    Ok t
  else
    s ← h_load (strs t) (e_key e);
    '(_, t) ← htbl_str_put t s (e_data e);
    ss ← h_free (strs t) (e_key e);
    Ok (t <| strs := ss |>).

Fixpoint rehash_chain (fuel : nat) t (entry : Z) : res htbl_t :=
  if entry =? NULL then Ok t
  else match fuel with
       | O => Fault Diverges
       | S fuel =>
           t ← rehash_entry t entry;
           e ← h_load (ents t) entry;
           t ← release_entry t entry;
           rehash_chain fuel t (e_next e)
       end.

(** [itr = n * sizeof(..); p = malloc(itr); memset(p, 0, itr);] with [itr] an
    [int]: the number of bytes is cut to 32 bits, and a negative one is more than
    [malloc] has, whose NULL [memset] then writes to. *)
Definition int_array (n width : Z) : res (list Z) :=
  let itr := i32 (n * width) in
  if itr <? 0 then Fault NullDeref else Ok (replicate (Z.to_nat (itr / width)) 0).

Definition htbl_rehash t (newsize : Z) : res (Z * htbl_t) :=
  let old_entries := entries (tbl t) in
  if newsize =? tbl_size (tbl t) then Ok (0, t)
  else
    let oldsize := tbl_size (tbl t) in
    es ← int_array newsize 8;
    lens ← int_array newsize 4;
    let t := t <| tbl := tbl t <| tbl_size := newsize |> <| entries := es |>
                 <| entries_chain_lengths := lens |> <| n_entries := 0 |> |> in
    t ← for_range 0 oldsize (fun itr t =>
          entry ← arr_get old_entries itr;
          rehash_chain (walk_fuel (ents t)) t entry) t;
    Ok (0, t).

(** Both enumerations fill the caller's array [keys] and leave a chain, but not
    the loop over the slots, when [nkeys] is reached.  [f] is what is stored
    for an entry. *)
Fixpoint enum_chain (f : htbl_entry → Z) (fuel : nat) (h : heap htbl_entry) (nkeys : Z)
    (keys : list Z) (count entry : Z) : res (list Z * Z) :=
  if entry =? NULL then Ok (keys, count)
  else match fuel with
       | O => Fault Diverges
       | S fuel =>
           e ← h_load h entry;
           keys ← arr_set keys count (f e);
           count ← add_int count 1;
           if nkeys <=? count then Ok (keys, count)
           else enum_chain f fuel h nkeys keys count (e_next e)
       end.

Definition enum_keys (f : htbl_entry → Z) t (keys : list Z) (nkeys : Z) : res (list Z * Z) :=
  for_range 0 (tbl_size (tbl t)) (fun itr '(keys, count) =>
    entry ← arr_get (entries (tbl t)) itr;
    enum_chain f (walk_fuel (ents t)) (ents t) nkeys keys count entry) (keys, 0).

(** The array is written as an array of [int]; the count is the result. *)
Definition htbl_enum_int_keys t (keys : list Z) (nkeys : Z) : res (list Z * Z) :=
  enum_keys (fun e => if e_type e =? HTBL_KEY_INT then int_of_ptr (e_key e) else 0)
            t keys nkeys.

(** [ikeys = (int* )*keys] reads [keys[0]]. *)
Definition htbl_enum_str_keys t (keys : list Z) (nkeys : Z) : res (list Z * Z) :=
  _ ← arr_get keys 0;
  enum_keys e_key t keys nkeys.

(** The loop runs over [n_entries] slots and ends at the first chain. *)
Fixpoint remove_next_from (n : nat) t (itr : Z) : res (Z * option Z * htbl_t) :=
  match n with
  | O => Ok (0, None, t)
  | S n =>
      entry ← arr_get (entries (tbl t)) itr;
      if truthy entry then
        e ← h_load (ents t) entry;
        t ← (if e_type e =? HTBL_KEY_STR then
               ss ← h_free (strs t) (e_key e);
               Ok (t <| strs := ss |>)
             else Ok t);
        t ← release_entry t entry;
        e' ← h_load (ents t) entry;
        es ← arr_set (entries (tbl t)) itr (e_next e');
        t ← uncount_entry (t <| tbl := tbl t <| entries := es |> |>) itr;
        Ok (0, Some (e_data e), t)
      else remove_next_from n t (itr + 1)
  end.

Definition htbl_remove_next t : res (Z * option Z * htbl_t) :=
  remove_next_from (Z.to_nat (n_entries (tbl t))) t 0.
End Hashtable.
