(* ===== verification/HashtableRepr.v ===== *)
(** * The hash table: what a well-formed table represents

    [holds t css l]: the chains of the table [t] are the cells [css], slot by
    slot, and its free list is [l].  [repr q t m]: the table represents the
    finite map [m] from keys to data, with its free list in condition [q].  The
    lemmas here are the ones the theorems of [HashtableProofs] compose. *)

From S2P Require Import Prelude Heap Pool Hashtable.

(** ** Keys *)

Inductive hkey := KInt (z : Z) | KStr (s : cstring).

#[global] Instance hkey_eq_dec : EqDecision hkey.
Proof. solve_decision. Defined.
#[global] Instance hkey_countable : Countable hkey.
Proof.
  refine (inj_countable'
    (fun k => match k with KInt z => inl z | KStr s => inr s end)
    (fun x => match x with inl z => KInt z | inr s => KStr s end) _).
  by intros [].
Defined.

Definition valid_key (k : hkey) : Prop :=
  match k with KInt z => in_int z | KStr _ => True end.

Definition key_type (k : hkey) : Z :=
  match k with KInt _ => HTBL_KEY_INT | KStr _ => HTBL_KEY_STR end.

Definition hkey_hash (k : hkey) (m : Z) : res Z :=
  match k with KInt z => hash_int z m | KStr s => hash_string s m end.

Lemma hash_in_range k m :
  0 < m ≤ INT_MAX → ∃ i : nat, hkey_hash k m = Ok (Z.of_nat i) ∧ (Z.of_nat i < m).
Proof.
  intros Hm. assert (Hu : u32 m = m) by (apply u32_id; int_lia).
  assert (∃ z, hkey_hash k m = Ok (z mod m)) as [z ->].
  { destruct k; cbn; unfold hash_int, hash_string; rewrite Hu;
      destruct (Z.eqb_spec m 0); [lia|by eexists|lia|by eexists]. }
  pose proof (Z.mod_pos_bound z m).
  exists (Z.to_nat (z mod m)). rewrite Z2Nat.id by lia. split; [done|lia].
Qed.

(** ** Cells and chains *)

(** One entry: its address, its key field, and the key and data it stands for. *)
Record cell := Cell { c_addr : Z; c_ptr : Z; c_key : hkey; c_data : Z }.

#[global] Instance cell_eta : Eta cell := fun r =>
  Cell (c_addr r) (c_ptr r) (c_key r) (c_data r).

Definition key_ptr_ok (ss : heap cstring) (k : hkey) (p : Z) : Prop :=
  match k with
  | KInt z => p = ptr_of_int z ∧ in_int z
  | KStr s => cells ss !! p = Some s
  end.

(** The strings the cells own. *)
Definition str_ptr (c : cell) : option Z :=
  match c_key c with KInt _ => None | KStr _ => Some (c_ptr c) end.
Definition str_ptrs (cs : list cell) : list Z := omap str_ptr cs.

Definition addrs (cs : list cell) : list Z := c_addr <$> cs.
Definition keys_of (cs : list cell) : list hkey := c_key <$> cs.

#[global] Arguments str_ptrs : simpl never.
#[global] Arguments addrs : simpl never.
#[global] Arguments keys_of : simpl never.

(** The entry at [c_addr c] stores [c] and links to [nx]. *)
Definition cell_at (h : heap htbl_entry) (ss : heap cstring) (c : cell) (nx : Z) : Prop :=
  (∃ hsh, cells h !! c_addr c = Some (Entry (key_type (c_key c)) hsh (c_ptr c) (c_data c) nx)) ∧
  key_ptr_ok ss (c_key c) (c_ptr c).

Fixpoint cseg (h : heap htbl_entry) (ss : heap cstring) (p : Z) (cs : list cell) (q : Z) : Prop :=
  match cs with
  | [] => p = q
  | c :: cs => p = c_addr c ∧ ∃ nx, cell_at h ss c nx ∧ cseg h ss nx cs q
  end.

(** A chain ends at [NULL]. *)
Abbreviation chain h ss p cs := (cseg h ss p cs NULL).

Lemma key_ptr_ok_agree ss ss' c :
  agree ss ss' (str_ptrs [c]) → key_ptr_ok ss (c_key c) (c_ptr c) → key_ptr_ok ss' (c_key c) (c_ptr c).
Proof.
  unfold str_ptrs, str_ptr, agree. destruct (c_key c) eqn:E; cbn; [done|].
  rewrite E. cbn. intros Hag. rewrite Hag; [done|]. left.
Qed.

Lemma str_ptrs_cons c cs : str_ptrs (c :: cs) = str_ptrs [c] ++ str_ptrs cs.
Proof. unfold str_ptrs; cbn. by destruct (str_ptr c). Qed.

Lemma str_ptrs_app cs1 cs2 : str_ptrs (cs1 ++ cs2) = str_ptrs cs1 ++ str_ptrs cs2.
Proof. apply omap_app. Qed.

(** A segment only depends on its own entries and strings. *)
Lemma cseg_agree h h' ss ss' p cs q :
  agree h h' (addrs cs) → agree ss ss' (str_ptrs cs) → cseg h ss p cs q → cseg h' ss' p cs q.
Proof.
  revert p. induction cs as [|c cs IH]; intros p Hh Hs; [done|].
  intros (-> & nx & ((hsh & Hc) & Hk) & Hcs). split; [done|]. exists nx. split.
  - split.
    + exists hsh. rewrite Hh; [done|]. left.
    + eapply key_ptr_ok_agree; [|done]. eapply agree_sub; [exact Hs|].
      intros a. rewrite (str_ptrs_cons c cs), elem_of_app. by left.
  - apply IH; [| |done].
    + eapply agree_sub; [exact Hh|]. intros a Ha. by right.
    + eapply agree_sub; [exact Hs|].
      intros a. rewrite (str_ptrs_cons c cs), elem_of_app. by right.
Qed.

Lemma cseg_app h ss p cs1 cs2 q :
  cseg h ss p (cs1 ++ cs2) q ↔ ∃ r, cseg h ss p cs1 r ∧ cseg h ss r cs2 q.
Proof.
  revert p. induction cs1 as [|c cs1 IH]; intros p; cbn.
  - split; [eauto|]. by intros (r & -> & ?).
  - setoid_rewrite IH. split.
    + intros (-> & nx & Hc & r & ? & ?). eauto 10.
    + intros (r & (-> & nx & Hc & ?) & ?). eauto 10.
Qed.

Lemma cseg_allocated h ss p cs q a :
  cseg h ss p cs q → a ∈ addrs cs → is_Some (cells h !! a).
Proof.
  revert p. induction cs as [|c cs IH]; intros p; [by intros _ ?%elem_of_nil|].
  intros (-> & nx & [[hsh Hc] _] & Hcs) [->|Hin]%elem_of_cons; eauto.
Qed.

Lemma cseg_str_allocated h ss p cs q a :
  cseg h ss p cs q → a ∈ str_ptrs cs → is_Some (cells ss !! a).
Proof.
  revert p. induction cs as [|c cs IH]; intros p; [by intros _ ?%elem_of_nil|].
  intros (-> & nx & [_ Hk] & Hcs). rewrite str_ptrs_cons, elem_of_app.
  intros [Ha|Ha]; [|eauto]. unfold str_ptrs, str_ptr in Ha. cbn in Ha.
  destruct (c_key c); cbn in *; [by apply elem_of_nil in Ha|].
  apply list_elem_of_singleton in Ha as ->. by eexists.
Qed.

Lemma chain_null h ss cs : heap_wf h → chain h ss NULL cs → cs = [].
Proof.
  intros Hw. destruct cs as [|c cs]; [done|]. intros (E & nx & [[hsh Hc] _] & _).
  by destruct (heap_wf_pos _ _ _ Hw Hc).
Qed.

Lemma chain_length h ss p cs :
  chain h ss p cs → NoDup (addrs cs) → (length cs ≤ size (cells h))%nat.
Proof.
  intros Hc Hnd. rewrite <- (length_fmap c_addr). apply NoDup_size; [done|].
  intros a Ha. by eapply cseg_allocated.
Qed.

(** Writing the [next] field of the last cell redirects the segment. *)
Lemma cseg_relink h ss p cs c q q' e :
  c_addr c ∉ addrs cs → cells h !! c_addr c = Some e → cseg h ss p (cs ++ [c]) q →
  cseg (h_set h (c_addr c) (e <| e_next := q' |>)) ss p (cs ++ [c]) q'.
Proof.
  intros Ha He (r & Hcs & Hc)%cseg_app. apply cseg_app. exists r. split.
  - eapply cseg_agree; [by apply agree_set|done|done].
  - destruct Hc as (-> & nx & [[hsh Hc] Hk] & _). split; [done|].
    exists q'. split; [|done]. split; [|done]. exists hsh.
    rewrite lookup_h_set. rewrite He in Hc. injection Hc as ->. done.
Qed.

(** ** Tables *)

(** The slot [i] holds the chain [cs]; the other slots follow. *)
Lemma concat_lookup_perm {A} (css : list (list A)) i cs :
  css !! i = Some cs → concat css ≡ₚ cs ++ concat (delete i css).
Proof.
  revert i. induction css as [|x css IH]; intros [|i] Hi; try done; cbn in *.
  - by injection Hi as ->.
  - rewrite (IH _ Hi). rewrite !(assoc app). by rewrite (comm app x cs).
Qed.

Lemma concat_insert_perm {A} (css : list (list A)) i cs cs' :
  css !! i = Some cs → concat (<[i := cs']> css) ≡ₚ cs' ++ concat (delete i css).
Proof.
  revert i. induction css as [|x css IH]; intros [|i] Hi; try done; cbn in *.
  rewrite (IH _ Hi). rewrite !(assoc app). by rewrite (comm app x cs').
Qed.

#[global] Instance addrs_perm : Proper ((≡ₚ) ==> (≡ₚ)) addrs.
Proof. unfold addrs. solve_proper. Qed.
#[global] Instance keys_of_perm : Proper ((≡ₚ) ==> (≡ₚ)) keys_of.
Proof. unfold keys_of. solve_proper. Qed.
#[global] Instance str_ptrs_perm : Proper ((≡ₚ) ==> (≡ₚ)) str_ptrs.
Proof. intros cs cs' Hp. unfold str_ptrs. by rewrite Hp. Qed.

Record table_ok (t : htbl_t) (css : list (list cell)) : Prop := {
  to_size : tbl_size (tbl t) = Z.of_nat (length css);
  to_pos : 0 < tbl_size (tbl t) ≤ INT_MAX;
  to_ents : heap_wf (ents t);
  to_strs : heap_wf (strs t);
  to_chains : Forall2 (fun p cs => chain (ents t) (strs t) p cs) (entries (tbl t)) css;
  to_lens : entries_chain_lengths (tbl t) = (fun cs => Z.of_nat (length cs)) <$> css;
  to_count : n_entries (tbl t) = Z.of_nat (length (concat css));
  to_max : n_entries (tbl t) ≤ INT_MAX;
  to_keys : NoDup (keys_of (concat css));
  to_hash : ∀ i cs c, css !! i = Some cs → c ∈ cs →
              hkey_hash (c_key c) (tbl_size (tbl t)) = Ok (Z.of_nat i);
  to_addrs : NoDup (addrs (concat css));
  to_sptrs : NoDup (str_ptrs (concat css))
}.

(** The free list is apart from the chains. *)
Record holds (q : pool_cond) (t : htbl_t) (css : list (list cell)) (l : list Z) : Prop := {
  ho_table : table_ok t css;
  ho_pool : pool_ok q (t_pool (tbl t)) (ents t) l;
  ho_apart : ∀ a, a ∈ l → a ∉ addrs (concat css)
}.

(** The map of a list of cells. *)
Definition cells_map (cs : list cell) : gmap hkey Z :=
  list_to_map ((fun c => (c_key c, c_data c)) <$> cs).

Definition repr (q : pool_cond) (t : htbl_t) (m : gmap hkey Z) : Prop :=
  ∃ css l, holds q t css l ∧ m = cells_map (concat css).

(** A table without a free list, as [htbl_init(.., .., 0)] makes it, and with
    nothing else in its memory: no entry and no key copy leaks. *)
Definition plain (t : htbl_t) (m : gmap hkey Z) : Prop :=
  ∃ css, holds Sane t css [] ∧ m = cells_map (concat css) ∧
    p_init (t_pool (tbl t)) = 0 ∧
    (∀ a, is_Some (cells (ents t) !! a) → a ∈ addrs (concat css)) ∧
    (∀ a, is_Some (cells (strs t) !! a) → a ∈ str_ptrs (concat css)).

Lemma plain_repr t m : plain t m → repr Sane t m.
Proof. intros (css & ? & ? & _). by exists css, []. Qed.

(** ** Lookup in the represented map *)

Lemma cells_map_lookup cs k d :
  NoDup (keys_of cs) → cells_map cs !! k = Some d ↔ ∃ c, c ∈ cs ∧ c_key c = k ∧ c_data c = d.
Proof.
  intros Hnd. unfold cells_map. rewrite <- elem_of_list_to_map.
  - rewrite list_elem_of_fmap. split.
    + intros (c & [= -> ->] & Hc). eauto.
    + intros (c & Hc & <- & <-). eauto.
  - by rewrite <- list_fmap_compose.
Qed.

Lemma cells_map_None cs k : cells_map cs !! k = None ↔ k ∉ keys_of cs.
Proof.
  unfold cells_map. rewrite <- not_elem_of_list_to_map.
  by rewrite <- list_fmap_compose.
Qed.

Lemma cells_map_perm cs cs' :
  NoDup (keys_of cs) → cs ≡ₚ cs' → cells_map cs = cells_map cs'.
Proof.
  intros Hnd Hp. unfold cells_map. apply list_to_map_proper; [|by rewrite Hp].
  by rewrite <- list_fmap_compose.
Qed.

Lemma cells_map_size cs : NoDup (keys_of cs) → size (cells_map cs) = length cs.
Proof.
  induction cs as [|c cs IH]; [done|]. intros [Hc Hnd]%NoDup_cons.
  change (cells_map (c :: cs)) with (<[c_key c := c_data c]> (cells_map cs)).
  rewrite map_size_insert_None; [by rewrite IH|]. by apply cells_map_None.
Qed.

Section Access.
Context (t : htbl_t) (css : list (list cell)) (Ht : table_ok t css).

(** The slot of a key. *)
Lemma slot_of_key k :
  ∃ i p cs, hkey_hash k (tbl_size (tbl t)) = Ok (Z.of_nat i) ∧
    css !! i = Some cs ∧ entries (tbl t) !! i = Some p ∧
    arr_get (entries (tbl t)) (Z.of_nat i) = Ok p ∧ chain (ents t) (strs t) p cs ∧
    (k ∈ keys_of (concat css) ↔ k ∈ keys_of cs).
Proof.
  destruct (hash_in_range k (tbl_size (tbl t)) (to_pos _ _ Ht)) as (i & Hi & Hlt).
  rewrite (to_size _ _ Ht) in Hlt.
  destruct (lookup_lt_is_Some_2 css i) as [cs Hcs]; [lia|].
  destruct (Forall2_lookup_r _ _ _ _ _ (to_chains _ _ Ht) Hcs) as (p & Hp & Hch).
  exists i, p, cs. do 3 (split; [done|]). split; [by apply arr_get_Ok|]. split; [done|].
  unfold keys_of. rewrite !list_elem_of_fmap. split.
  - intros (c & -> & Hc). exists c. split; [done|].
    apply list_elem_of_In, in_concat in Hc as (cs' & Hcs'%list_elem_of_In & Hc%list_elem_of_In).
    apply list_elem_of_lookup in Hcs' as [j Hj].
    pose proof (to_hash _ _ Ht _ _ _ Hj Hc) as Hh. rewrite Hi in Hh.
    injection Hh as Hh. apply Nat2Z.inj in Hh as ->. by rewrite Hcs in Hj; injection Hj as ->.
  - intros (c & -> & Hc). exists c. split; [done|].
    rewrite (concat_lookup_perm _ _ _ Hcs). apply elem_of_app. by left.
Qed.

Lemma chain_fuel i cs p :
  css !! i = Some cs → chain (ents t) (strs t) p cs → (length cs < walk_fuel (ents t))%nat.
Proof.
  intros Hi Hc. unfold walk_fuel. apply Nat.lt_succ_r. eapply chain_length; [done|].
  pose proof (to_addrs _ _ Ht) as Hnd.
  rewrite (concat_lookup_perm _ _ _ Hi) in Hnd. unfold addrs in *.
  rewrite fmap_app in Hnd. by apply NoDup_app in Hnd as [? _].
Qed.

Lemma slot_lens i cs :
  css !! i = Some cs →
  arr_get (entries_chain_lengths (tbl t)) (Z.of_nat i) = Ok (Z.of_nat (length cs)).
Proof.
  intros Hi. apply arr_get_Ok. rewrite (to_lens _ _ Ht), list_lookup_fmap, Hi. done.
Qed.

Lemma length_slot i cs : css !! i = Some cs → (length cs ≤ length (concat css))%nat.
Proof.
  intros Hi. rewrite (concat_lookup_perm _ _ _ Hi), length_app. lia.
Qed.
End Access.
