(* ===== verification/HashtableOps.v ===== *)
(** * The hash table: each operation on a well-formed table

    The lemmas that run [locate_entry], [htbl_put], [htbl_remove] and their
    string versions on a table that [holds] given chains.  The two versions of
    each function are taken together as one operation on a key ([locate],
    [hput], [hget], [hremove], [hreplace]). *)

From S2P Require Import Prelude Heap Pool Hashtable HashtableRepr.

Section Ops.
Context `{Uninit htbl_entry}.

Definition locate (t : htbl_t) (k : hkey) : res Z :=
  match k with KInt z => locate_entry t z | KStr s => locate_str_entry t s end.
Definition hput (t : htbl_t) (k : hkey) (d : Z) : res (Z * htbl_t) :=
  match k with KInt z => htbl_put t z d | KStr s => htbl_str_put t s d end.
Definition hget (t : htbl_t) (k : hkey) : res (Z * option Z) :=
  match k with KInt z => htbl_get t z | KStr s => htbl_str_get t s end.
Definition hremove (t : htbl_t) (k : hkey) : res (Z * option Z * htbl_t) :=
  match k with KInt z => htbl_remove t z | KStr s => htbl_str_remove t s end.
Definition hreplace (t : htbl_t) (k : hkey) (d : Z) : res (Z * option Z * htbl_t) :=
  match k with KInt z => htbl_replace t z d | KStr s => htbl_str_replace t s d end.

(** ** Finding an entry *)

(** The address of the first cell with key [k], or [NULL]. *)
Fixpoint chain_find (k : hkey) (cs : list cell) : Z :=
  match cs with
  | [] => NULL
  | c :: cs => if decide (c_key c = k) then c_addr c else chain_find k cs
  end.

Lemma int_key_matches z z' :
  in_int z' → (HTBL_KEY_INT =? HTBL_KEY_INT) && (z =? int_of_ptr (ptr_of_int z')) =
  bool_decide (KInt z' = KInt z).
Proof.
  intros Hz. unfold int_of_ptr, ptr_of_int. rewrite i32_u64, i32_id by done. cbn.
  destruct (Z.eqb_spec z z') as [->|]; symmetry;
    [by apply bool_decide_eq_true|apply bool_decide_eq_false; congruence].
Qed.

(** The test of the loops recognises exactly the cell's key. *)
Lemma cell_match_int ss c hsh nx z :
  key_ptr_ok ss (c_key c) (c_ptr c) →
  let e := Entry (key_type (c_key c)) hsh (c_ptr c) (c_data c) nx in
  (e_type e =? HTBL_KEY_INT) && (z =? int_of_ptr (e_key e)) = bool_decide (c_key c = KInt z).
Proof.
  cbn. destruct (c_key c) as [z'|s]; cbn [key_type key_ptr_ok].
  - intros [-> Hz]. by apply int_key_matches.
  - intros _. symmetry. by apply bool_decide_eq_false.
Qed.

Lemma cell_match_str ss c hsh nx s :
  heap_wf ss → key_ptr_ok ss (c_key c) (c_ptr c) →
  str_matches ss s (Entry (key_type (c_key c)) hsh (c_ptr c) (c_data c) nx) =
  Ok (bool_decide (c_key c = KStr s)).
Proof.
  intros Hw. unfold str_matches. destruct (c_key c) as [z'|s']; cbn [key_type key_ptr_ok].
  - intros _. cbn. by rewrite bool_decide_eq_false_2.
  - intros Hs. cbn. rewrite (h_load_Ok _ _ _ Hw Hs). cbn.
    f_equal. apply bool_decide_ext. naive_solver.
Qed.

Lemma locate_from_spec fuel h ss z : ∀ p cs,
  heap_wf h → chain h ss p cs → (length cs ≤ fuel)%nat →
  locate_from fuel h z p = Ok (chain_find (KInt z) cs).
Proof.
  induction fuel as [|fuel IH]; intros p cs Hw Hc Hf;
    (destruct cs as [|c cs]; [cbn in Hc; subst p; done|]); cbn in Hf; [lia|].
  destruct Hc as (-> & nx & [[hsh He] Hk] & Hcs). cbn [locate_from].
  destruct (Z.eqb_spec (c_addr c) NULL) as [E|_]; [by destruct (heap_wf_pos _ _ _ Hw He)|].
  rewrite (h_load_Ok _ _ _ Hw He). cbn -[e_type e_key].
  rewrite (cell_match_int _ _ _ _ _ Hk). cbn [chain_find e_next].
  case_bool_decide; [by rewrite decide_True|]. rewrite decide_False by done.
  apply IH; [done|done|lia].
Qed.

Lemma locate_str_from_spec fuel h ss s : ∀ p cs,
  heap_wf h → heap_wf ss → chain h ss p cs → (length cs ≤ fuel)%nat →
  locate_str_from fuel h ss s p = Ok (chain_find (KStr s) cs).
Proof.
  induction fuel as [|fuel IH]; intros p cs Hw Hws Hc Hf;
    (destruct cs as [|c cs]; [cbn in Hc; subst p; done|]); cbn in Hf; [lia|].
  destruct Hc as (-> & nx & [[hsh He] Hk] & Hcs). cbn [locate_str_from].
  destruct (Z.eqb_spec (c_addr c) NULL) as [E|_]; [by destruct (heap_wf_pos _ _ _ Hw He)|].
  rewrite (h_load_Ok _ _ _ Hw He). cbn -[e_type e_key].
  rewrite (cell_match_str _ _ _ _ _ Hws Hk). cbn [chain_find e_next mbind res_bind].
  case_bool_decide; [by rewrite decide_True|]. rewrite decide_False by done.
  apply IH; [done|done|done|lia].
Qed.

Lemma locate_spec t css k i cs :
  table_ok t css → hkey_hash k (tbl_size (tbl t)) = Ok (Z.of_nat i) → css !! i = Some cs →
  locate t k = Ok (chain_find k cs).
Proof.
  intros Ht Hi Hcs.
  destruct (Forall2_lookup_r _ _ _ _ _ (to_chains _ _ Ht) Hcs) as (p & Hp & Hch).
  pose proof (chain_fuel _ _ Ht _ _ _ Hcs Hch).
  destruct k as [z|s]; cbn in *; unfold locate_entry, locate_str_entry; rewrite Hi; cbn;
    rewrite (arr_get_Ok _ _ _ Hp); cbn.
  - eapply locate_from_spec; [apply Ht|done|lia].
  - eapply locate_str_from_spec; [apply Ht|apply Ht|done|lia].
Qed.

Lemma chain_find_None k cs : k ∉ keys_of cs → chain_find k cs = NULL.
Proof.
  induction cs as [|c cs IH]; [done|]. unfold keys_of in *. cbn. intros Hk.
  rewrite decide_False; [|set_solver]. apply IH. set_solver.
Qed.

(** The first cell with the key splits the chain. *)
Lemma chain_find_split k cs :
  k ∈ keys_of cs →
  ∃ cs1 c cs2, cs = cs1 ++ c :: cs2 ∧ c_key c = k ∧ (k ∉ keys_of cs1) ∧ chain_find k cs = c_addr c.
Proof.
  induction cs as [|c cs IH]; [by intros ?%elem_of_nil|]. unfold keys_of in *. cbn.
  destruct (decide (c_key c = k)) as [<-|Hne].
  - intros _. exists [], c, cs. split; [done|]. split; [done|]. split; [|done].
    apply not_elem_of_nil.
  - intros [E|Hin]%elem_of_cons; [by destruct Hne|].
    destruct (IH Hin) as (cs1 & c' & cs2 & -> & ? & ? & ?).
    exists (c :: cs1), c', cs2. split; [done|]. split; [done|]. split; [|done].
    rewrite fmap_cons. set_solver.
Qed.

Lemma cseg_cell h ss p cs1 c cs2 :
  chain h ss p (cs1 ++ c :: cs2) →
  ∃ nx, cseg h ss p cs1 (c_addr c) ∧ cell_at h ss c nx ∧ chain h ss nx cs2.
Proof.
  intros (r & H1 & (-> & nx & Hc & H2))%cseg_app. eauto.
Qed.

(** [locate] finds a key of the table at a cell that stores it. *)
Lemma locate_found t css k :
  table_ok t css → k ∈ keys_of (concat css) →
  ∃ i cs1 c cs2 nx, hkey_hash k (tbl_size (tbl t)) = Ok (Z.of_nat i) ∧
    css !! i = Some (cs1 ++ c :: cs2) ∧ c_key c = k ∧ (k ∉ keys_of cs1) ∧
    locate t k = Ok (c_addr c) ∧ c_addr c ≠ NULL ∧ cell_at (ents t) (strs t) c nx.
Proof.
  intros Ht Hk. destruct (slot_of_key _ _ Ht k) as (i & p & cs & Hi & Hcs & _ & _ & Hch & Hiff).
  apply Hiff in Hk. destruct (chain_find_split _ _ Hk) as (cs1 & c & cs2 & -> & Hck & Hn & Hf).
  destruct (cseg_cell _ _ _ _ _ _ Hch) as (nx & _ & Hc & _).
  exists i, cs1, c, cs2, nx. do 4 (split; [done|]). split; [|split; [|done]].
  - by rewrite (locate_spec _ _ _ _ _ Ht Hi Hcs), Hf.
  - destruct Hc as [[hsh Hc] _]. eapply heap_wf_pos; [apply Ht|done].
Qed.

Lemma locate_absent t css k :
  table_ok t css → k ∉ keys_of (concat css) → locate t k = Ok NULL.
Proof.
  intros Ht Hk. destruct (slot_of_key _ _ Ht k) as (i & p & cs & Hi & Hcs & _ & _ & Hch & Hiff).
  rewrite (locate_spec _ _ _ _ _ Ht Hi Hcs), chain_find_None; [done|]. by rewrite <- Hiff.
Qed.

Lemma hget_unfold t k :
  hget t k = entry ← locate t k;
             if truthy entry then e ← h_load (ents t) entry; Ok (1, Some (e_data e))
             else Ok (0, None).
Proof. by destruct k. Qed.

Lemma hget_spec t css k :
  table_ok t css →
  hget t k = Ok (match cells_map (concat css) !! k with
                 | Some d => (1, Some d)
                 | None => (0, None)
                 end).
Proof.
  intros Ht. rewrite hget_unfold.
  destruct (decide (k ∈ keys_of (concat css))) as [Hk|Hk].
  - destruct (locate_found _ _ _ Ht Hk) as (i & cs1 & c & cs2 & nx & _ & Hcs & Hck & _ & -> & Hnn & [[hsh Hc] _]).
    cbn. rewrite truthy_true by done. rewrite (h_load_Ok _ _ _ (to_ents _ _ Ht) Hc). cbn.
    assert (cells_map (concat css) !! k = Some (c_data c)) as ->; [|done].
    apply cells_map_lookup; [apply Ht|]. exists c. split; [|done].
    rewrite (concat_lookup_perm _ _ _ Hcs). set_solver.
  - rewrite (locate_absent _ _ _ Ht Hk). cbn.
    by rewrite (proj2 (cells_map_None _ _) Hk).
Qed.

(** ** Changing one slot *)

Lemma elem_of_other_slot {A} (css : list (list A)) i j x c :
  css !! j = Some x → j ≠ i → c ∈ x → c ∈ concat (delete i css).
Proof.
  intros Hj Hne Hc.
  assert (∃ j', delete i css !! j' = Some x) as [j' Hj'].
  { destruct (decide (j < i)%nat).
    - exists j. by rewrite list_lookup_delete_lt.
    - exists (pred j). rewrite list_lookup_delete_ge by lia.
      by replace (S (pred j)) with j by lia. }
  rewrite (concat_lookup_perm _ _ _ Hj'). set_solver.
Qed.

(** The obligations for replacing the chain [cs] of slot [i] by [cs']. *)
Record slot_update (t t' : htbl_t) (css : list (list cell)) (i : nat) (cs cs' : list cell) (p' : Z)
    : Prop := {
  su_slot : css !! i = Some cs;
  su_size : tbl_size (tbl t') = tbl_size (tbl t);
  su_ents : heap_wf (ents t');
  su_strs : heap_wf (strs t');
  su_chain : chain (ents t') (strs t') p' cs';
  su_entries : entries (tbl t') = <[i := p']> (entries (tbl t));
  su_agree : agree (ents t) (ents t') (addrs (concat (delete i css)));
  su_sagree : agree (strs t) (strs t') (str_ptrs (concat (delete i css)));
  su_lens : entries_chain_lengths (tbl t') =
              <[i := Z.of_nat (length cs')]> (entries_chain_lengths (tbl t));
  su_count : n_entries (tbl t') =
               n_entries (tbl t) + Z.of_nat (length cs') - Z.of_nat (length cs);
  su_max : n_entries (tbl t') ≤ INT_MAX;
  su_hash : ∀ c, c ∈ cs' → hkey_hash (c_key c) (tbl_size (tbl t)) = Ok (Z.of_nat i);
  su_keys : NoDup (keys_of (cs' ++ concat (delete i css)));
  su_addrs : NoDup (addrs (cs' ++ concat (delete i css)));
  su_sptrs : NoDup (str_ptrs (cs' ++ concat (delete i css)))
}.

Lemma slot_update_ok t t' css i cs cs' p' :
  table_ok t css → slot_update t t' css i cs cs' p' → table_ok t' (<[i := cs']> css).
Proof.
  intros Ht Hu. pose proof (su_slot _ _ _ _ _ _ _ Hu) as Hi.
  pose proof (lookup_lt_Some _ _ _ Hi) as Hlt.
  pose proof (Forall2_length _ _ _ (to_chains _ _ Ht)) as Hlen.
  pose proof (concat_insert_perm css i cs cs' Hi) as Hperm.
  destruct Hu. split.
  - by rewrite length_insert, su_size0, (to_size _ _ Ht).
  - rewrite su_size0. apply Ht.
  - done.
  - done.
  - rewrite su_entries0. apply Forall2_same_length_lookup. split; [by rewrite !length_insert|].
    intros j p x Hp Hx. destruct (decide (j = i)) as [->|Hne].
    + rewrite list_lookup_insert_eq in Hp by lia. rewrite list_lookup_insert_eq in Hx by lia.
      by simplify_eq.
    + rewrite list_lookup_insert_ne in Hp by done. rewrite list_lookup_insert_ne in Hx by done.
      eapply cseg_agree; [| |by eapply (Forall2_lookup_lr _ _ _ _ _ _ (to_chains _ _ Ht))].
      * eapply agree_sub; [done|]. intros a (c & -> & Hc)%list_elem_of_fmap.
        apply list_elem_of_fmap. exists c. split; [done|]. by eapply elem_of_other_slot.
      * eapply agree_sub; [done|]. intros a. unfold str_ptrs.
        rewrite !list_elem_of_omap. intros (c & Hc & Hs). exists c. split; [|done].
        by eapply elem_of_other_slot.
  - by rewrite su_lens0, (to_lens _ _ Ht), list_fmap_insert.
  - rewrite su_count0, (to_count _ _ Ht), Hperm, (concat_lookup_perm _ _ _ Hi), !length_app. lia.
  - done.
  - by rewrite Hperm.
  - intros j x c Hx Hc. rewrite su_size0. destruct (decide (j = i)) as [->|Hne].
    + rewrite list_lookup_insert_eq in Hx by lia. injection Hx as <-. by apply su_hash0.
    + rewrite list_lookup_insert_ne in Hx by done. by eapply (to_hash _ _ Ht).
  - by rewrite Hperm.
  - by rewrite Hperm.
Qed.

(** ** Putting an entry *)

(** What [put] does to the memory of the table besides the new cell [c]. *)
Record put_frame (t t' : htbl_t) (l : list Z) (c : cell) : Prop := {
  pf_old : ∀ b, is_Some (cells (ents t) !! b) → b ∉ l →
             b ≠ c_addr c ∧ cells (ents t') !! b = cells (ents t) !! b;
  pf_new : ∀ b, is_Some (cells (ents t') !! b) → b = c_addr c ∨ is_Some (cells (ents t) !! b);
  pf_sold : ∀ b, is_Some (cells (strs t) !! b) →
             (b ∉ str_ptrs [c]) ∧ cells (strs t') !! b = cells (strs t) !! b;
  pf_snew : ∀ b, is_Some (cells (strs t') !! b) → b ∈ str_ptrs [c] ∨ is_Some (cells (strs t) !! b);
  pf_size : tbl_size (tbl t') = tbl_size (tbl t);
  pf_init : p_init (t_pool (tbl t')) = p_init (t_pool (tbl t))
}.

Lemma link_entry_ok t css i cs a k kp d :
  table_ok t css → css !! i = Some cs → is_Some (cells (ents t) !! a) →
  a ∉ addrs (concat css) → key_ptr_ok (strs t) k kp →
  (∀ b, b ∈ str_ptrs [Cell a kp k d] → b ∉ str_ptrs (concat css)) →
  k ∉ keys_of (concat css) → hkey_hash k (tbl_size (tbl t)) = Ok (Z.of_nat i) →
  n_entries (tbl t) < INT_MAX →
  ∃ t' hsh nx, link_entry t a (key_type k) kp (Z.of_nat i) d = Ok t' ∧
    table_ok t' (<[i := Cell a kp k d :: cs]> css) ∧
    tbl_size (tbl t') = tbl_size (tbl t) ∧ t_pool (tbl t') = t_pool (tbl t) ∧
    ents t' = h_set (ents t) a (Entry (key_type k) hsh kp d nx) ∧ strs t' = strs t.
Proof.
  intros Ht Hi Ha Hna Hk Hsp Hnk Hhash Hmax.
  pose proof (to_ents _ _ Ht) as Hw.
  destruct (Forall2_lookup_r _ _ _ _ _ (to_chains _ _ Ht) Hi) as (p & Hp & Hch).
  pose proof (lookup_lt_Some _ _ _ Hp) as Hlt.
  pose proof (lookup_lt_Some _ _ _ Hi) as Hlt'.
  pose proof (length_slot css i cs Hi) as Hslot. pose proof (to_count _ _ Ht) as Hcount.
  assert (Hrest : concat css ≡ₚ cs ++ concat (delete i css)) by by apply concat_lookup_perm.
  unfold link_entry. rewrite (arr_get_Ok _ _ _ Hp). cbn.
  rewrite h_store_Ok by done. cbn. rewrite arr_set_Ok by done. cbn.
  rewrite add_int_Ok by int_lia. cbn. rewrite (slot_lens _ _ Ht _ _ Hi). cbn.
  rewrite add_int_Ok by int_lia. cbn.
  rewrite arr_set_Ok by (rewrite (to_lens _ _ Ht), length_fmap; done). cbn.
  eexists _, _, _. split; [reflexivity|]. split; [|done].
  eapply (slot_update_ok t); [done|]. split; cbn; try done.
  - by apply heap_wf_set.
  - apply Ht.
  - split; [done|]. exists p. split.
    + split; [|done]. eexists. apply lookup_h_set.
    + eapply cseg_agree; [apply agree_set|done|done].
      intros Hin. apply Hna. rewrite Hrest. unfold addrs in *. rewrite fmap_app. set_solver.
  - apply agree_set. intros Hin. apply Hna. rewrite Hrest. unfold addrs in *.
    rewrite fmap_app. set_solver.
  - f_equal. lia.
  - lia.
  - int_lia.
  - intros c [->|Hc]%elem_of_cons; [done|]. by eapply (to_hash _ _ Ht).
  - apply (NoDup_cons k). fold (keys_of (cs ++ concat (delete i css))).
    rewrite <- Hrest. split; [done|apply Ht].
  - apply (NoDup_cons a). fold (addrs (cs ++ concat (delete i css))).
    rewrite <- Hrest. split; [done|apply Ht].
  - rewrite str_ptrs_cons, <- Hrest. apply NoDup_app.
    split; [|split; [done|apply Ht]].
    unfold str_ptrs, str_ptr; cbn. destruct k; cbn; [apply NoDup_nil_2|apply NoDup_singleton].
Qed.

(** The chains survive a change of the memory they do not use. *)
Lemma table_ok_frame t t' css :
  table_ok t css →
  tbl_size (tbl t') = tbl_size (tbl t) → n_entries (tbl t') = n_entries (tbl t) →
  entries (tbl t') = entries (tbl t) →
  entries_chain_lengths (tbl t') = entries_chain_lengths (tbl t) →
  heap_wf (ents t') → heap_wf (strs t') →
  agree (ents t) (ents t') (addrs (concat css)) →
  agree (strs t) (strs t') (str_ptrs (concat css)) →
  table_ok t' css.
Proof.
  intros Ht Hs Hn He Hl Hwe Hws Ha Hsa.
  split; rewrite ?Hs, ?Hn, ?Hl; try done; try apply Ht.
  rewrite He. apply Forall2_same_length_lookup. split; [eapply Forall2_length, Ht|].
  intros i p cs Hp Hi.
  eapply cseg_agree; [| |by eapply (Forall2_lookup_lr _ _ _ _ _ _ (to_chains _ _ Ht))];
    (eapply agree_sub; [done|]); intros a; rewrite (concat_lookup_perm _ _ _ Hi).
  - unfold addrs. rewrite fmap_app, elem_of_app. by left.
  - rewrite str_ptrs_app, elem_of_app. by left.
Qed.

Lemma table_allocated t css a :
  table_ok t css → a ∈ addrs (concat css) → is_Some (cells (ents t) !! a).
Proof.
  intros Ht (c & -> & Hc)%list_elem_of_fmap.
  apply list_elem_of_In, in_concat in Hc as (cs & Hcs%list_elem_of_In & Hc%list_elem_of_In).
  apply list_elem_of_lookup in Hcs as [i Hi].
  destruct (Forall2_lookup_r _ _ _ _ _ (to_chains _ _ Ht) Hi) as (p & _ & Hch).
  eapply cseg_allocated; [done|]. apply list_elem_of_fmap. eauto.
Qed.

Lemma table_str_allocated t css a :
  table_ok t css → a ∈ str_ptrs (concat css) → is_Some (cells (strs t) !! a).
Proof.
  intros Ht. unfold str_ptrs. intros (c & Hc & Hs)%list_elem_of_omap.
  apply list_elem_of_In, in_concat in Hc as (cs & Hcs%list_elem_of_In & Hc%list_elem_of_In).
  apply list_elem_of_lookup in Hcs as [i Hi].
  destruct (Forall2_lookup_r _ _ _ _ _ (to_chains _ _ Ht) Hi) as (p & _ & Hch).
  eapply cseg_str_allocated; [done|]. apply list_elem_of_omap. eauto.
Qed.

(** [alloc_entry] gives a fresh entry and leaves the chains alone. *)
Lemma alloc_entry_ok t css l :
  holds Sane t css l →
  ∃ a t' l' q, alloc_entry t = Ok (a, t') ∧ table_ok t' css ∧
    pool_ok q (t_pool (tbl t')) (ents t') l' ∧ is_Some (cells (ents t') !! a) ∧
    (a ∉ addrs (concat css)) ∧ (a ∉ l') ∧ (∀ b, b ∈ l' → b ∈ l) ∧
    strs t' = strs t ∧ tbl_size (tbl t') = tbl_size (tbl t) ∧
    n_entries (tbl t') = n_entries (tbl t) ∧
    p_init (t_pool (tbl t')) = p_init (t_pool (tbl t)) ∧
    (p_init (t_pool (tbl t)) = 0 → q = Sane ∧ l' = l) ∧
    (pool_exact (t_pool (tbl t)) l → q = Sane ∧ pool_exact (t_pool (tbl t')) l') ∧
    (∀ b, is_Some (cells (ents t) !! b) → b ∉ l →
       b ≠ a ∧ cells (ents t') !! b = cells (ents t) !! b) ∧
    (∀ b, is_Some (cells (ents t') !! b) → b = a ∨ is_Some (cells (ents t) !! b)).
Proof.
  intros [Ht Hp Hap].
  destruct (pool_alloc_spec _ _ _ (to_ents _ _ Ht) Hp)
    as (a & pl' & h' & l' & q & E & Hw & Ha & Hp' & Hal & Hsub & Hkeep & Hne & Hnew & Hi & H0 & _ & Hex).
  unfold alloc_entry. rewrite E. cbn.
  eexists _, _, l', q. split; [reflexivity|].
  assert (Hout : ∀ b, b ∈ addrs (concat css) → is_Some (cells (ents t) !! b) ∧ b ∉ l).
  { intros b Hb. split; [by eapply table_allocated|]. intros Hin. by eapply Hap. }
  split.
  { eapply (table_ok_frame t); try done; [apply Ht|]. intros b Hb. by apply Hkeep, Hout. }
  split; [done|]. split; [done|].
  split; [intros Hin; destruct (Hout _ Hin); by eapply Hne|].
  split; [done|]. split; [done|]. do 4 (split; [done|]).
  split; [intros Hz; destruct (H0 Hz) as (? & _ & ?); done|]. split; [done|].
  split; [|done]. intros b Hb Hbl. split; [by apply Hne|by apply Hkeep].
Qed.

Lemma fresh_str_ptr (ss : heap cstring) a s d b :
  heap_wf ss → is_Some (cells ss !! b) → b ∉ str_ptrs [Cell a (brk ss) (KStr s) d].
Proof.
  intros Hw Hb Hin. unfold str_ptrs, str_ptr in Hin. cbn in Hin.
  apply list_elem_of_singleton in Hin as ->. by eapply heap_wf_fresh.
Qed.

Lemma hput_present t css k d :
  table_ok t css → k ∈ keys_of (concat css) → hput t k d = Ok (-1, t).
Proof.
  intros Ht Hk.
  destruct (locate_found _ _ _ Ht Hk) as (i & cs1 & c & cs2 & nx & _ & _ & _ & _ & Hl & Hnn & _).
  destruct k; cbn in *; unfold htbl_put, htbl_str_put; rewrite Hl; cbn; by rewrite truthy_true.
Qed.

(** The key of a new entry: the integer itself, or a copy of the string. *)
Lemma hput_prepared t css l k d i a t1 :
  holds Sane t css l → table_ok t1 css → alloc_entry t = Ok (a, t1) → strs t1 = strs t →
  tbl_size (tbl t1) = tbl_size (tbl t) → valid_key k → k ∉ keys_of (concat css) →
  hkey_hash k (tbl_size (tbl t)) = Ok (Z.of_nat i) →
  ∃ t2 kp, table_ok t2 css ∧ key_ptr_ok (strs t2) k kp ∧ tbl t2 = tbl t1 ∧ ents t2 = ents t1 ∧
    (hput t k d = t' ← link_entry t2 a (key_type k) kp (Z.of_nat i) d; Ok (0, t')) ∧
    (∀ b, is_Some (cells (strs t) !! b) →
       (b ∉ str_ptrs [Cell a kp k d]) ∧ cells (strs t2) !! b = cells (strs t) !! b) ∧
    (∀ b, is_Some (cells (strs t2) !! b) →
       b ∈ str_ptrs [Cell a kp k d] ∨ is_Some (cells (strs t) !! b)).
Proof.
  intros [Ht _ _] Ht1 Ea Es Esz Hv Hk Hi. pose proof (locate_absent _ _ _ Ht Hk) as Hloc.
  destruct k as [z|s]; cbn in *.
  - exists t1, (ptr_of_int z). unfold htbl_put. rewrite Hloc, Hi; cbn. rewrite Ea; cbn.
    rewrite Es. do 5 (split; [done|]). split; [|by right].
    intros b _. split; [apply not_elem_of_nil|done].
  - exists (t1 <| strs := h_new (strs t1) s |>), (brk (strs t1)).
    unfold htbl_str_put. rewrite Hloc; cbn. rewrite Ea; cbn. rewrite Esz, Hi; cbn.
    split; [|split; [apply lookup_h_new|]].
    + eapply (table_ok_frame t1); try done; cbn; [apply Ht1|apply heap_wf_new, Ht1|].
      apply agree_new. intros Hin. eapply (heap_wf_fresh (strs t1)); [apply Ht1| |done].
      by eapply table_str_allocated.
    + rewrite Es. do 3 (split; [done|]). split.
      * intros b Hb. split; [by apply fresh_str_ptr; [apply Ht|]|].
        apply lookup_h_new_ne. by apply heap_wf_fresh; [apply Ht|].
      * intros b Hb. destruct (decide (b = brk (strs t))) as [->|Hne].
        -- left. unfold str_ptrs, str_ptr; cbn. left.
        -- right. by rewrite lookup_h_new_ne in Hb by done.
Qed.

Lemma hput_new t css l k d :
  holds Sane t css l → valid_key k → k ∉ keys_of (concat css) → n_entries (tbl t) < INT_MAX →
  ∃ q t' i cs c l', hput t k d = Ok (0, t') ∧ css !! i = Some cs ∧
    holds q t' (<[i := c :: cs]> css) l' ∧ c_key c = k ∧ c_data c = d ∧
    put_frame t t' l c ∧ (∀ b, b ∈ l' → b ∈ l) ∧
    (p_init (t_pool (tbl t)) = 0 → q = Sane ∧ l' = l) ∧
    (pool_exact (t_pool (tbl t)) l → q = Sane ∧ pool_exact (t_pool (tbl t')) l').
Proof.
  intros Hh Hv Hk Hmax. pose proof Hh as [Ht Hp Hap].
  destruct (slot_of_key _ _ Ht k) as (i & p & cs & Hi & Hcs & _ & _ & _ & _).
  destruct (alloc_entry_ok _ _ _ Hh) as (a & t1 & l' & q & Ea & Ht1 & Hp1 & Ha & Hna & Hal & Hsub &
    Es & Esz & En & Ei & H0 & Hex & Hold & Hnew).
  destruct (hput_prepared t css l k d i a t1 Hh Ht1 Ea Es Esz Hv Hk Hi)
    as (t2 & kp & Ht2 & Hkp & Etbl & Eents & Eput & Hsold & Hsnew).
  destruct (link_entry_ok t2 css i cs a k kp d) as (t' & hsh & nx & El & Ht' & Esz' & Epl & Eh & Ess);
    try done; rewrite ?Etbl, ?Eents; try done.
  { intros b Hb Hin. destruct (Hsold b) as [? _]; [by eapply table_str_allocated|done]. }
  { by rewrite Esz. }
  { lia. }
  exists q, t', i, cs, (Cell a kp k d), l'.
  rewrite Eput, El. split; [done|]. split; [done|]. split.
  { split; [done| |].
    - rewrite Epl, Eh, Etbl, Eents. eapply pool_ok_agree; [|done]. by apply agree_set.
    - intros b Hb. rewrite (concat_insert_perm _ _ _ _ Hcs). cbn.
      change (addrs (?c :: ?x)) with (c_addr c :: addrs x).
      intros [->|Hin]%elem_of_cons; [done|]. apply (Hap b); [by apply Hsub|].
      by rewrite (concat_lookup_perm _ _ _ Hcs). }
  do 2 (split; [done|]). split; [|by rewrite Epl, Etbl]. split; cbn.
  - intros b Hb Hbl. destruct (Hold b Hb Hbl). split; [done|].
    rewrite Eh, Eents, lookup_h_set_ne by done. done.
  - intros b. rewrite Eh, Eents. destruct (decide (b = a)) as [|Hne]; [by left|].
    rewrite lookup_h_set_ne by done. apply Hnew.
  - by rewrite Ess.
  - by rewrite Ess.
  - by rewrite Esz', Etbl.
  - by rewrite Epl, Etbl.
Qed.

(** ** Removing an entry *)

(** The address of the cell before the one that is looked at. *)
Definition last_addr (prev : Z) (cs : list cell) : Z :=
  match last cs with Some c => c_addr c | None => prev end.

Lemma last_addr_cons prev c cs : last_addr prev (c :: cs) = last_addr (c_addr c) cs.
Proof. destruct cs as [|c' cs] using rev_ind; [done|].
  unfold last_addr. rewrite app_comm_cons, !last_snoc. done. Qed.

(** The removal of a found entry, for both kinds of key. *)
Definition hremove_found (k : hkey) (t : htbl_t) (h prev entry : Z) (e : htbl_entry) :=
  match k with
  | KInt _ => remove_found t h prev entry e
  | KStr _ => remove_str_found t h prev entry e
  end.
Definition hremove_from (fuel : nat) (k : hkey) (t : htbl_t) (h prev entry : Z) :=
  match k with
  | KInt z => remove_from fuel t h z prev entry
  | KStr s => remove_str_from fuel t h s prev entry
  end.

(** One turn of the loop. *)
Lemma hremove_from_step fuel k t h prev c nx :
  heap_wf (ents t) → heap_wf (strs t) → cell_at (ents t) (strs t) c nx →
  ∃ e, cells (ents t) !! c_addr c = Some e ∧ e_next e = nx ∧ e_key e = c_ptr c ∧
    e_data e = c_data c ∧
    hremove_from (S fuel) k t h prev (c_addr c) =
      if decide (c_key c = k) then hremove_found k t h prev (c_addr c) e
      else hremove_from fuel k t h (c_addr c) nx.
Proof.
  intros Hw Hws [[hsh He] Hk]. eexists. split; [done|]. do 3 (split; [done|]).
  assert (Hnn : (c_addr c =? NULL) = false).
  { apply Z.eqb_neq. exact (heap_wf_pos _ _ _ Hw He). }
  destruct k as [z|s]; cbn [hremove_from hremove_found remove_from remove_str_from];
    rewrite Hnn, (h_load_Ok _ _ _ Hw He); cbn -[e_type e_key].
  - rewrite (cell_match_int _ _ _ _ _ Hk). case_bool_decide; case_decide; done.
  - rewrite (cell_match_str _ _ _ _ _ Hws Hk). cbn. case_bool_decide; case_decide; done.
Qed.

(** The loop reaches the first cell with the key. *)
Lemma hremove_from_walk k t h : ∀ cs1 fuel prev p c cs2,
  heap_wf (ents t) → heap_wf (strs t) → chain (ents t) (strs t) p (cs1 ++ c :: cs2) →
  c_key c = k → k ∉ keys_of cs1 → (length (cs1 ++ c :: cs2) ≤ fuel)%nat →
  ∃ e, cells (ents t) !! c_addr c = Some e ∧ e_key e = c_ptr c ∧ e_data e = c_data c ∧
    hremove_from fuel k t h prev p = hremove_found k t h (last_addr prev cs1) (c_addr c) e.
Proof.
  induction cs1 as [|c' cs1 IH]; intros [|fuel] prev p c cs2 Hw Hws Hch Hck Hn Hf; cbn in Hf; try lia.
  - destruct Hch as (-> & nx & Hc & _).
    destruct (hremove_from_step fuel k t h prev c nx Hw Hws Hc) as (e & He & _ & ? & ? & ->).
    rewrite decide_True by done. eauto.
  - destruct Hch as (-> & nx & Hc & Hch).
    destruct (hremove_from_step fuel k t h prev c' nx Hw Hws Hc) as (e & He & _ & ? & ? & ->).
    unfold keys_of in Hn. cbn in Hn. rewrite decide_False by set_solver.
    rewrite last_addr_cons. eapply IH; try done; [unfold keys_of; set_solver|lia].
Qed.

(** When no cell has the key, nothing changes. *)
Lemma hremove_from_absent k t h : ∀ cs fuel prev p,
  heap_wf (ents t) → heap_wf (strs t) → chain (ents t) (strs t) p cs →
  k ∉ keys_of cs → (length cs ≤ fuel)%nat →
  hremove_from fuel k t h prev p = Ok (0, None, t).
Proof.
  induction cs as [|c cs IH]; intros fuel prev p Hw Hws Hch Hn Hf.
  - cbn in Hch; subst p. by destruct k, fuel.
  - destruct Hch as (-> & nx & Hc & Hch). destruct fuel as [|fuel]; cbn in Hf; [lia|].
    destruct (hremove_from_step fuel k t h prev c nx Hw Hws Hc) as (e & He & _ & ? & ? & ->).
    unfold keys_of in Hn. cbn in Hn. rewrite decide_False by set_solver.
    apply IH; try done; [unfold keys_of; set_solver|lia].
Qed.

Lemma hremove_unfold t css k i p :
  table_ok t css → hkey_hash k (tbl_size (tbl t)) = Ok (Z.of_nat i) →
  entries (tbl t) !! i = Some p →
  hremove t k = hremove_from (walk_fuel (ents t)) k t (Z.of_nat i) NULL p.
Proof.
  intros Ht Hi Hp.
  destruct k; cbn in *; unfold htbl_remove, htbl_str_remove; rewrite Hi; cbn;
    by rewrite (arr_get_Ok _ _ _ Hp).
Qed.

(** Unlinking a cell leaves the chain without it. *)
Lemma unlink_entry_ok t css i cs1 c cs2 p e :
  table_ok t css → css !! i = Some (cs1 ++ c :: cs2) → entries (tbl t) !! i = Some p →
  cells (ents t) !! c_addr c = Some e →
  ∃ h1 p', unlink_entry t (Z.of_nat i) (last_addr NULL cs1) e =
             Ok (t <| ents := h1 |> <| tbl := tbl t <| entries := <[i := p']> (entries (tbl t)) |> |>) ∧
    heap_wf h1 ∧ chain h1 (strs t) p' (cs1 ++ cs2) ∧
    (∀ b, b ∉ addrs cs1 → cells h1 !! b = cells (ents t) !! b) ∧
    (∀ b, is_Some (cells h1 !! b) ↔ is_Some (cells (ents t) !! b)).
Proof.
  intros Ht Hi Hp He. pose proof (to_ents _ _ Ht) as Hw.
  pose proof (Forall2_lookup_lr _ _ _ _ _ _ (to_chains _ _ Ht) Hp Hi) as Hch.
  pose proof (cseg_cell _ _ _ _ _ _ Hch) as (nx & H1 & [[hsh Hc] Hkp] & H2).
  rewrite He in Hc. injection Hc as ->. unfold unlink_entry.
  destruct cs1 as [|pc cs1 _] using rev_ind.
  - cbn. rewrite arr_set_Ok by (by eapply lookup_lt_Some). cbn.
    exists (ents t), nx. split; [by destruct t|]. done.
  - unfold last_addr. rewrite last_snoc.
    destruct (cseg_allocated _ _ _ _ _ (c_addr pc) H1) as [pe Hpe].
    { unfold addrs. rewrite fmap_app. set_solver. }
    rewrite truthy_true by exact (heap_wf_pos _ _ _ Hw Hpe).
    rewrite (h_load_Ok _ _ _ Hw Hpe). cbn. rewrite h_store_Ok by (try done; by eexists). cbn.
    exists (h_set (ents t) (c_addr pc) (pe <| e_next := nx |>)), p.
    pose proof (to_addrs _ _ Ht) as Hnd. rewrite (concat_lookup_perm _ _ _ Hi) in Hnd.
    assert (Hpc : (c_addr pc ∉ addrs cs1) ∧ (c_addr pc ∉ addrs cs2)).
    { revert Hnd. unfold addrs. rewrite !fmap_app, !fmap_cons, fmap_nil.
      rewrite <- !(assoc app). intros (_ & Hd1 & Hd2)%NoDup_app.
      cbn in Hd2. apply NoDup_cons in Hd2 as [Hd2 _]. split.
      - intros Hin. specialize (Hd1 _ Hin). set_solver.
      - intros Hin. apply Hd2. set_solver. }
    split; [rewrite list_insert_id by done; by destruct t as [[] ? ?]|].
    split; [by apply heap_wf_set|]. split; [|split].
    + apply cseg_app. exists nx. split; [apply cseg_relink with (c_addr c); [apply Hpc|done..]|].
      eapply cseg_agree; [apply agree_set, Hpc|done|done].
    + intros b Hb. apply lookup_h_set_ne. intros <-. apply Hb.
      unfold addrs. rewrite fmap_app. set_solver.
    + intros b. unfold h_set; cbn. rewrite lookup_insert_is_Some'. split; [|by right].
      intros [<-|?]; [by eexists|done].
Qed.

(** The string a removed cell owned is freed. *)
Definition drop_key (ss : heap cstring) (c : cell) : heap cstring :=
  match c_key c with KInt _ => ss | KStr _ => h_del ss (c_ptr c) end.

Lemma drop_key_wf ss c : heap_wf ss → heap_wf (drop_key ss c).
Proof. unfold drop_key. destruct (c_key c); [done|apply heap_wf_del]. Qed.

Lemma drop_key_agree ss c l : (∀ b, b ∈ str_ptrs [c] → b ∉ l) → agree ss (drop_key ss c) l.
Proof.
  unfold drop_key, str_ptrs, str_ptr; cbn. destruct (c_key c); [done|].
  intros Hd. apply agree_del. apply Hd. left.
Qed.

Lemma drop_key_dom ss c b :
  is_Some (cells (drop_key ss c) !! b) ↔ is_Some (cells ss !! b) ∧ (b ∉ str_ptrs [c]).
Proof.
  unfold drop_key, str_ptrs, str_ptr; cbn. destruct (c_key c); cbn.
  - split; [|by intros [? _]]. intros ?. split; [done|apply not_elem_of_nil].
  - unfold h_del; cbn. rewrite lookup_delete_is_Some, list_elem_of_singleton.
    naive_solver.
Qed.

(** Counting an entry out of a slot. *)
Lemma uncount_entry_ok t i len :
  entries_chain_lengths (tbl t) !! i = Some len →
  in_int (n_entries (tbl t) - 1) → in_int (len - 1) →
  uncount_entry t (Z.of_nat i) =
    Ok (t <| tbl := tbl t <| n_entries := n_entries (tbl t) - 1 |>
                        <| entries_chain_lengths := <[i := len - 1]> (entries_chain_lengths (tbl t)) |> |>).
Proof.
  intros Hl Hn Hle. unfold uncount_entry. rewrite sub_int_Ok by done. cbn.
  rewrite (arr_get_Ok _ _ _ Hl). cbn. rewrite sub_int_Ok by done. cbn.
  rewrite arr_set_Ok; [done|by eapply lookup_lt_Some].
Qed.

(** After the unlink, both kinds of removal release the entry and count it out;
    the string kind also frees the key. *)
Lemma hremove_found_unfold t t1 i prev c e :
  unlink_entry t i prev e = Ok t1 → heap_wf (strs t1) →
  key_ptr_ok (strs t1) (c_key c) (c_ptr c) → e_key e = c_ptr c →
  hremove_found (c_key c) t i prev (c_addr c) e =
    t2 ← release_entry (t1 <| strs := drop_key (strs t1) c |>) (c_addr c);
    t3 ← uncount_entry t2 i;
    Ok (1, Some (e_data e), t3).
Proof.
  intros Hu Hws Hk He. unfold hremove_found, remove_found, remove_str_found, drop_key.
  destruct (c_key c); rewrite Hu; cbn; [by destruct t1|].
  rewrite He, h_free_Ok by (try done; by eexists). done.
Qed.

(** Facts about the cell [c] of slot [i] and all the others. *)
Lemma slot_split_apart t css i cs1 c cs2 :
  table_ok t css → css !! i = Some (cs1 ++ c :: cs2) →
  let others := (cs1 ++ cs2) ++ concat (delete i css) in
  concat css ≡ₚ c :: others ∧ NoDup (keys_of others) ∧ NoDup (addrs others) ∧
  NoDup (str_ptrs others) ∧ (c_addr c ∉ addrs others) ∧
  (∀ b, b ∈ str_ptrs [c] → b ∉ str_ptrs others).
Proof.
  intros Ht Hi others.
  assert (Hp : concat css ≡ₚ c :: others).
  { rewrite (concat_lookup_perm _ _ _ Hi). unfold others.
    by rewrite <- Permutation_middle, app_comm_cons. }
  split; [done|]. destruct Ht as [_ _ _ _ _ _ _ _ Hk _ Ha Hs].
  rewrite Hp in Hk, Ha, Hs. unfold keys_of, addrs in *. cbn in Hk, Ha.
  apply NoDup_cons in Hk as [_ ?], Ha as [? ?].
  rewrite str_ptrs_cons in Hs. apply NoDup_app in Hs as (_ & ? & ?). done.
Qed.

(** The table after the entry of [c] was unlinked, given back and counted out. *)
Lemma removed_slot t t' css i cs1 c cs2 h1 p' :
  table_ok t css → css !! i = Some (cs1 ++ c :: cs2) → heap_wf (ents t') →
  chain h1 (strs t) p' (cs1 ++ cs2) →
  (∀ b, b ∉ addrs cs1 → cells h1 !! b = cells (ents t) !! b) →
  agree h1 (ents t') (addrs ((cs1 ++ cs2) ++ concat (delete i css))) →
  strs t' = drop_key (strs t) c → tbl_size (tbl t') = tbl_size (tbl t) →
  entries (tbl t') = <[i := p']> (entries (tbl t)) →
  entries_chain_lengths (tbl t') =
    <[i := Z.of_nat (length (cs1 ++ c :: cs2)) - 1]> (entries_chain_lengths (tbl t)) →
  n_entries (tbl t') = n_entries (tbl t) - 1 →
  table_ok t' (<[i := cs1 ++ cs2]> css).
Proof.
  intros Ht Hcs Hw Hch1 Hfr1 Hag Es Esz Een Elen En.
  destruct (slot_split_apart _ _ _ _ _ _ Ht Hcs) as (Hperm & Hks & Has & Hss & Hca' & Hcs').
  pose proof (to_max _ _ Ht) as Hmx. pose proof (to_count _ _ Ht) as Hcnt.
  assert (Hsa : ∀ l, (∀ b, b ∈ str_ptrs l → b ∈ str_ptrs ((cs1 ++ cs2) ++ concat (delete i css))) →
    agree (strs t) (strs t') (str_ptrs l)).
  { intros l Hl. rewrite Es. apply drop_key_agree. intros b Hb Hin'. eapply Hcs'; [done|]. by apply Hl. }
  eapply slot_update_ok; [exact Ht|]. split; try done.
  - rewrite Es. apply drop_key_wf, Ht.
  - eapply cseg_agree; [| |exact Hch1].
    + eapply agree_sub; [done|]. unfold addrs. rewrite fmap_app. set_solver.
    + apply Hsa. intros b Hb. rewrite str_ptrs_app. set_solver.
  - intros b Hb. rewrite Hag; [|unfold addrs in *; rewrite fmap_app; set_solver].
    apply Hfr1. intros Hb1. revert Has. unfold addrs in *. rewrite !fmap_app.
    intros (_ & Hd & _)%NoDup_app. eapply Hd; [|exact Hb]. set_solver.
  - apply Hsa. intros b Hb. rewrite str_ptrs_app. set_solver.
  - rewrite Elen. f_equal. rewrite !length_app. cbn. lia.
  - rewrite En, !length_app. cbn. lia.
  - int_lia.
  - intros c' Hc'. eapply (to_hash _ _ Ht); [done|]. set_solver.
Qed.

Lemma hremove_present t css l k :
  holds Sane t css l → k ∈ keys_of (concat css) →
  ∃ i cs1 c cs2 t' l', hremove t k = Ok (1, Some (c_data c), t') ∧
    css !! i = Some (cs1 ++ c :: cs2) ∧ c_key c = k ∧
    holds Sane t' (<[i := cs1 ++ cs2]> css) l' ∧
    (∀ b, b ≠ c_addr c → is_Some (cells (ents t') !! b) ↔ is_Some (cells (ents t) !! b)) ∧
    strs t' = drop_key (strs t) c ∧ tbl_size (tbl t') = tbl_size (tbl t) ∧
    p_init (t_pool (tbl t')) = p_init (t_pool (tbl t)) ∧
    (p_init (t_pool (tbl t)) = 0 → l' = l ∧ cells (ents t') !! c_addr c = None).
Proof.
  intros [Ht Hpl Hap] Hk.
  destruct (locate_found _ _ _ Ht Hk) as (i & cs1 & c & cs2 & nx & Hi & Hcs & Hck & Hn & _ & _ & Hca).
  destruct (Forall2_lookup_r _ _ _ _ _ (to_chains _ _ Ht) Hcs) as (p & Hp & Hch).
  pose proof (chain_fuel _ _ Ht _ _ _ Hcs Hch) as Hfuel.
  destruct (slot_split_apart _ _ _ _ _ _ Ht Hcs) as (Hperm & Hks & Has & Hss & Hca' & Hcs').
  rewrite (hremove_unfold _ _ _ _ _ Ht Hi Hp).
  destruct (hremove_from_walk k t (Z.of_nat i) cs1 (walk_fuel (ents t)) NULL p c cs2)
    as (e & He & Hek & Hed & ->); try done; try apply Ht; [lia|].
  destruct (unlink_entry_ok _ _ _ _ _ _ _ _ Ht Hcs Hp He) as (h1 & p' & Hu & Hw1 & Hch1 & Hfr1 & Hdom1).
  rewrite <- Hck. rewrite (hremove_found_unfold _ _ _ _ c e Hu); [|apply Ht|apply Hca|done].
  assert (Hfl : ∀ b, b ∈ l → cells h1 !! b = cells (ents t) !! b).
  { intros b Hb. apply Hfr1. intros Hin. eapply Hap; [done|]. rewrite Hperm.
    unfold addrs in *. rewrite fmap_cons, !fmap_app. set_solver. }
  destruct (pool_release_spec (t_pool (tbl t)) h1 l (c_addr c)) as
    (pl' & h' & l' & Er & Hw' & Hp' & Hsub & Hfr & Hdom & Hin & H0); try done.
  { by eapply pool_ok_agree. }
  { apply Hdom1. by eexists. }
  { intros Hl. eapply Hap; [done|]. rewrite Hperm. left. }
  unfold release_entry. cbn. rewrite Er. cbn.
  assert (Hlen : entries_chain_lengths (tbl t) !! i = Some (Z.of_nat (length (cs1 ++ c :: cs2)))).
  { by rewrite (to_lens _ _ Ht), list_lookup_fmap, Hcs. }
  pose proof (to_count _ _ Ht) as Hcnt. pose proof (to_max _ _ Ht) as Hmx.
  pose proof (length_slot _ _ _ Hcs) as Hls. rewrite length_app in Hls. cbn in Hls.
  erewrite uncount_entry_ok; [|exact Hlen|cbn; int_lia|rewrite length_app; cbn; int_lia]. cbn.
  eexists i, cs1, c, cs2, _, l'. rewrite Hed. split; [reflexivity|].
  do 2 (split; [done|]). cbn. split; [|split; [|split; [done|split; [done|split; [done|]]]]].
  - split; cbn; [|done|].
    + eapply (removed_slot t _ css i cs1 c cs2 h1 p'); try done.
      intros b Hb. cbn. apply Hfr; [by intros ->|]. intros Hbl. eapply Hap; [done|].
      rewrite Hperm. by right.
    + intros b Hb. rewrite (concat_insert_perm _ _ _ _ Hcs). intros Hin'.
      destruct (Hsub _ Hb) as [->|Hbl]; [done|]. eapply Hap; [done|]. rewrite Hperm. by right.
  - intros b Hb. rewrite Hdom by done. apply Hdom1.
  - intros Hz. destruct (H0 Hz) as (_ & -> & Hd). split; [done|]. rewrite Hd. apply lookup_delete_eq.
Qed.

Lemma hremove_absent t css k :
  table_ok t css → k ∉ keys_of (concat css) → hremove t k = Ok (0, None, t).
Proof.
  intros Ht Hk. destruct (slot_of_key _ _ Ht k) as (i & p & cs & Hi & Hcs & Hp & _ & Hch & Hiff).
  rewrite (hremove_unfold _ _ _ _ _ Ht Hi Hp).
  pose proof (chain_fuel _ _ Ht _ _ _ Hcs Hch).
  eapply hremove_from_absent; [apply Ht|apply Ht|done|by rewrite <- Hiff|lia].
Qed.

(** ** Replacing the data of an entry *)

Lemma overwrite_entry_ok t css l k d :
  holds Sane t css l → k ∈ keys_of (concat css) →
  ∃ i cs1 c cs2 t' entry, locate t k = Ok entry ∧
    overwrite_entry t entry (key_type k) d = Ok (c_data c, t') ∧
    css !! i = Some (cs1 ++ c :: cs2) ∧ c_key c = k ∧
    holds Sane t' (<[i := cs1 ++ c <| c_data := d |> :: cs2]> css) l ∧
    tbl t' = tbl t ∧ strs t' = strs t ∧
    (∀ b, is_Some (cells (ents t') !! b) ↔ is_Some (cells (ents t) !! b)).
Proof.
  intros [Ht Hpl Hap] Hk.
  destruct (locate_found _ _ _ Ht Hk) as (i & cs1 & c & cs2 & _ & _ & Hcs & Hck & _ & Hloc & _ & _).
  destruct (Forall2_lookup_r _ _ _ _ _ (to_chains _ _ Ht) Hcs) as (p & Hp & Hch).
  destruct (cseg_cell _ _ _ _ _ _ Hch) as (nx & H1 & [[hsh He] Hkp] & H2).
  destruct (slot_split_apart _ _ _ _ _ _ Ht Hcs) as (Hperm & Hks & Has & Hss & Hca & _).
  unfold overwrite_entry. eexists i, cs1, c, cs2, _, (c_addr c).
  split; [done|]. rewrite (h_load_Ok _ _ _ (to_ents _ _ Ht) He). cbn.
  rewrite h_store_Ok by (try apply Ht; by eexists). cbn. split; [reflexivity|].
  do 2 (split; [done|]). cbn. split; [|split; [done|split; [done|]]].
  - assert (Hal : c_addr c ∉ l).
    { intros Hin. eapply Hap; [done|]. rewrite Hperm. left. }
    revert Hca. unfold addrs. rewrite !fmap_app, !not_elem_of_app. intros [[Hc1 Hc2] Hc3].
    assert (Hperm' : concat (<[i := cs1 ++ c <| c_data := d |> :: cs2]> css) ≡ₚ
                     c <| c_data := d |> :: (cs1 ++ cs2) ++ concat (delete i css)).
    { rewrite (concat_insert_perm _ _ _ _ Hcs). by rewrite <- Permutation_middle. }
    split; cbn; [|eapply pool_ok_agree; [by apply agree_set|done]|].
    2: { intros b Hb. rewrite Hperm'. specialize (Hap b Hb). by rewrite Hperm in Hap. }
    eapply slot_update_ok; [exact Ht|]. split; cbn; try done.
    + apply heap_wf_set; [apply Ht|by eexists].
    + apply Ht.
    + instantiate (1 := p). apply cseg_app. exists (c_addr c).
      split; [eapply cseg_agree; [by apply agree_set|done|done]|].
      split; [done|]. exists nx. split; [|eapply cseg_agree; [by apply agree_set|done|done]].
      split; [|done]. exists hsh. cbn. rewrite lookup_h_set, <- Hck. done.
    + by rewrite list_insert_id.
    + by apply agree_set.
    + rewrite list_insert_id; [done|].
      rewrite (to_lens _ _ Ht), list_lookup_fmap, Hcs. cbn. by rewrite !length_app.
    + rewrite !length_app. cbn. lia.
    + apply Ht.
    + intros c' [Hc'|[->|Hc']%elem_of_cons]%elem_of_app; cbn;
        (eapply (to_hash _ _ Ht); [done|set_solver]).
    + pose proof (to_keys _ _ Ht) as Hnd. rewrite Hperm in Hnd.
      rewrite <- Permutation_middle. exact Hnd.
    + pose proof (to_addrs _ _ Ht) as Hnd. rewrite Hperm in Hnd.
      rewrite <- Permutation_middle. exact Hnd.
    + pose proof (to_sptrs _ _ Ht) as Hnd. rewrite Hperm in Hnd.
      rewrite <- Permutation_middle. exact Hnd.
  - intros b. unfold h_set; cbn. rewrite lookup_insert_is_Some'. split; [|by right].
    intros [<-|?]; [by eexists|done].
Qed.
End Ops.
