(* ===== verification/HashtableProofs.v ===== *)
(** * The hash table: theorems

    The table refines a finite map: every operation of [hashtable.c], on a
    table without a free list ([plain]) and, one by one, on a table with a sane
    free list ([repr Sane]).  Then the operations on the whole table
    ([htbl_rehash], [htbl_free], the enumeration of keys, the statistics), and
    what happens when the free list is stale. *)

From S2P Require Import Prelude Heap Pool Hashtable HashtableRepr HashtableOps.

(** ** The abstract table *)

Module Spec.
Definition put (m : gmap hkey Z) (k : hkey) (d : Z) : Z * gmap hkey Z :=
  match m !! k with Some _ => (-1, m) | None => (0, <[k := d]> m) end.

Definition get (m : gmap hkey Z) (k : hkey) : Z * option Z :=
  match m !! k with Some d => (1, Some d) | None => (0, None) end.

Definition remove (m : gmap hkey Z) (k : hkey) : Z * option Z * gmap hkey Z :=
  match m !! k with Some d => (1, Some d, delete k m) | None => (0, None, m) end.

Definition replace (m : gmap hkey Z) (k : hkey) (d : Z) : Z * option Z * gmap hkey Z :=
  match m !! k with Some o => (1, Some o, <[k := d]> m) | None => (0, None, <[k := d]> m) end.
End Spec.

Lemma cells_map_cons cs cs' c :
  NoDup (keys_of cs') → cs' ≡ₚ c :: cs →
  cells_map cs' = <[c_key c := c_data c]> (cells_map cs).
Proof. intros Hnd Hp. by rewrite (cells_map_perm _ _ Hnd Hp). Qed.

Lemma cells_map_uncons cs cs' c :
  NoDup (keys_of cs) → cs ≡ₚ c :: cs' → cells_map cs' = delete (c_key c) (cells_map cs).
Proof.
  intros Hnd Hp. rewrite (cells_map_cons _ _ _ Hnd Hp).
  rewrite delete_insert_id; [done|]. apply cells_map_None.
  rewrite Hp in Hnd. by apply NoDup_cons in Hnd as [? _].
Qed.

Section Theorems.
Context `{Uninit htbl_entry}.
Implicit Types (t : htbl_t) (m : gmap hkey Z) (k : hkey).

Lemma repr_count q t m : repr q t m → n_entries (tbl t) = Z.of_nat (size m).
Proof.
  intros (css & l & [Ht _ _] & ->). rewrite (to_count _ _ Ht).
  by rewrite cells_map_size by apply Ht.
Qed.

Lemma repr_dec css k : {k ∈ keys_of (concat css)} + {k ∉ keys_of (concat css)}.
Proof. apply decide, _. Defined.

(** *** Put *)

Lemma put_refines q t css l k d :
  q = Sane → holds q t css l → valid_key k → n_entries (tbl t) < INT_MAX →
  ∃ q' t' css' l', hput t k d = Ok ((Spec.put (cells_map (concat css)) k d).1, t') ∧
    holds q' t' css' l' ∧ (Spec.put (cells_map (concat css)) k d).2 = cells_map (concat css') ∧
    p_init (t_pool (tbl t')) = p_init (t_pool (tbl t)) ∧
    (p_init (t_pool (tbl t)) = 0 → q' = Sane ∧ l' = l) ∧
    (pool_exact (t_pool (tbl t)) l → q' = Sane ∧ pool_exact (t_pool (tbl t')) l') ∧
    (p_init (t_pool (tbl t)) = 0 → l = [] →
       (∀ a, is_Some (cells (ents t) !! a) → a ∈ addrs (concat css)) →
       (∀ a, is_Some (cells (strs t) !! a) → a ∈ str_ptrs (concat css)) →
       (∀ a, is_Some (cells (ents t') !! a) → a ∈ addrs (concat css')) ∧
       (∀ a, is_Some (cells (strs t') !! a) → a ∈ str_ptrs (concat css'))).
Proof.
  intros -> Hh Hv Hmax. pose proof (ho_table _ _ _ _ Hh) as Ht. unfold Spec.put.
  destruct (repr_dec css k) as [Hk|Hk].
  - rewrite (hput_present _ _ _ _ Ht Hk).
    destruct (cells_map (concat css) !! k) eqn:E; [|by apply cells_map_None in E].
    exists Sane, t, css, l. done.
  - destruct (hput_new _ _ _ _ d Hh Hv Hk Hmax)
      as (q & t' & i & cs & c & l' & -> & Hcs & Hh' & <- & <- & Hfr & Hsub & H0 & Hex).
    rewrite (proj2 (cells_map_None _ _) Hk).
    assert (Hperm : concat (<[i := c :: cs]> css) ≡ₚ c :: concat css).
    { by rewrite (concat_insert_perm _ _ _ _ Hcs), (concat_lookup_perm _ _ _ Hcs). }
    exists q, t', (<[i := c :: cs]> css), l'. split; [done|]. split; [done|]. split.
    { symmetry. apply cells_map_cons; [apply Hh'|done]. }
    split; [apply Hfr|]. split; [done|]. split; [done|]. intros Hz -> Hea Hsa. split; intros a Ha.
    + rewrite Hperm. destruct (pf_new _ _ _ _ Hfr _ Ha) as [->|Ha']; [left|right; auto].
    + rewrite Hperm, str_ptrs_cons. apply elem_of_app.
      destruct (pf_snew _ _ _ _ Hfr _ Ha); auto.
Qed.

Lemma plain_put t m k d :
  plain t m → valid_key k → Z.of_nat (size m) < INT_MAX →
  ∃ t', hput t k d = Ok ((Spec.put m k d).1, t') ∧ plain t' (Spec.put m k d).2.
Proof.
  intros Hp Hv Hmax. rewrite <- (repr_count _ _ _ (plain_repr _ _ Hp)) in Hmax.
  destruct Hp as (css & Hh & -> & Hz & Hea & Hsa).
  destruct (put_refines _ _ _ _ _ d eq_refl Hh Hv Hmax)
    as (q & t' & css' & l' & -> & Hh' & -> & Hi & H0 & _ & Hleak).
  destruct (H0 Hz) as [-> ->]. destruct (Hleak Hz eq_refl Hea Hsa).
  eexists; split; [done|]. exists css'. split; [done|]. split; [done|]. by rewrite Hi.
Qed.

(** *** Get *)

Lemma repr_get q t m k : repr q t m → hget t k = Ok (Spec.get m k).
Proof. intros (css & l & [Ht _ _] & ->). by rewrite (hget_spec _ _ _ Ht). Qed.

(** *** Remove *)

Lemma remove_refines t css l k :
  holds Sane t css l →
  ∃ t' css' l', hremove t k = Ok ((Spec.remove (cells_map (concat css)) k).1, t') ∧
    holds Sane t' css' l' ∧ (Spec.remove (cells_map (concat css)) k).2 = cells_map (concat css') ∧
    p_init (t_pool (tbl t')) = p_init (t_pool (tbl t)) ∧
    (p_init (t_pool (tbl t)) = 0 → l = [] →
       (∀ a, is_Some (cells (ents t) !! a) → a ∈ addrs (concat css)) →
       (∀ a, is_Some (cells (strs t) !! a) → a ∈ str_ptrs (concat css)) →
       l' = [] ∧
       (∀ a, is_Some (cells (ents t') !! a) → a ∈ addrs (concat css')) ∧
       (∀ a, is_Some (cells (strs t') !! a) → a ∈ str_ptrs (concat css'))).
Proof.
  intros Hh. pose proof (ho_table _ _ _ _ Hh) as Ht. unfold Spec.remove.
  destruct (repr_dec css k) as [Hk|Hk].
  - destruct (hremove_present _ _ _ _ Hh Hk)
      as (i & cs1 & c & cs2 & t' & l' & -> & Hcs & <- & Hh' & Hdom & Hss & _ & Hi & H0).
    destruct (slot_split_apart _ _ _ _ _ _ Ht Hcs) as (Hperm & _).
    assert (cells_map (concat css) !! c_key c = Some (c_data c)) as ->.
    { apply cells_map_lookup; [apply Ht|]. exists c. rewrite Hperm. set_solver. }
    assert (Hperm' : concat css ≡ₚ c :: concat (<[i := cs1 ++ cs2]> css)).
    { by rewrite (concat_insert_perm _ _ _ _ Hcs). }
    exists t', (<[i := cs1 ++ cs2]> css), l'. split; [done|]. split; [done|]. split.
    { symmetry. apply cells_map_uncons; [apply Ht|done]. }
    split; [done|]. intros Hz -> Hea Hsa. destruct (H0 Hz) as [-> Hgone].
    split; [done|]. split; intros a Ha.
    + assert (Hne : a ≠ c_addr c) by (intros ->; rewrite Hgone in Ha; by destruct Ha).
      apply Hdom in Ha; [|done]. apply Hea in Ha. rewrite Hperm' in Ha.
      by apply elem_of_cons in Ha as [?|?].
    + rewrite Hss in Ha. apply drop_key_dom in Ha as [Ha Hn]. apply Hsa in Ha.
      rewrite Hperm', str_ptrs_cons in Ha. by apply elem_of_app in Ha as [?|?].
  - rewrite (hremove_absent _ _ _ Ht Hk), (proj2 (cells_map_None _ _) Hk).
    exists t, css, l. done.
Qed.

Lemma plain_remove t m k :
  plain t m → ∃ t', hremove t k = Ok ((Spec.remove m k).1, t') ∧ plain t' (Spec.remove m k).2.
Proof.
  intros (css & Hh & -> & Hz & Hea & Hsa).
  destruct (remove_refines _ _ _ k Hh) as (t' & css' & l' & -> & Hh' & -> & Hi & Hleak).
  destruct (Hleak Hz eq_refl Hea Hsa) as (-> & ? & ?).
  eexists; split; [done|]. exists css'. split; [done|]. split; [done|]. by rewrite Hi.
Qed.

(** *** Replace *)

Lemma hreplace_unfold t k d :
  hreplace t k d = '(r, t) ← hput t k d;
                   if r <? 0 then
                     entry ← locate t k;
                     '(old, t) ← overwrite_entry t entry (key_type k) d;
                     Ok (1, Some old, t)
                   else Ok (0, None, t).
Proof. by destruct k. Qed.

Lemma plain_replace t m k d :
  plain t m → valid_key k → Z.of_nat (size m) < INT_MAX →
  ∃ t', hreplace t k d = Ok ((Spec.replace m k d).1, t') ∧ plain t' (Spec.replace m k d).2.
Proof.
  intros Hp Hv Hmax. rewrite hreplace_unfold. unfold Spec.replace.
  destruct (m !! k) as [o|] eqn:Hm.
  - destruct Hp as (css & Hh & -> & Hz & Hea & Hsa).
    assert (Hk : k ∈ keys_of (concat css)).
    { destruct (repr_dec css k) as [|Hn]; [done|]. apply cells_map_None in Hn. congruence. }
    rewrite (hput_present _ _ _ _ (ho_table _ _ _ _ Hh) Hk). cbn.
    destruct (overwrite_entry_ok _ _ _ _ d Hh Hk)
      as (i & cs1 & c & cs2 & t' & entry & -> & E & Hcs & <- & Hh' & Etbl & Estrs & Hdom).
    cbn. rewrite E. cbn.
    destruct (slot_split_apart _ _ _ _ _ _ (ho_table _ _ _ _ Hh) Hcs) as (Hperm & _).
    assert (Hperm' : concat (<[i := cs1 ++ c <| c_data := d |> :: cs2]> css) ≡ₚ
                     c <| c_data := d |> :: (cs1 ++ cs2) ++ concat (delete i css)).
    { rewrite (concat_insert_perm _ _ _ _ Hcs). by rewrite <- Permutation_middle. }
    pose proof (cells_map_cons _ _ _ (to_keys _ _ (ho_table _ _ _ _ Hh)) Hperm) as Hm'.
    rewrite Hm', lookup_insert_eq in Hm. injection Hm as ->.
    eexists; split; [done|]. exists (<[i := cs1 ++ c <| c_data := d |> :: cs2]> css).
    split; [done|]. rewrite Etbl, Estrs. split.
    { rewrite (cells_map_cons _ _ _ (to_keys _ _ (ho_table _ _ _ _ Hh')) Hperm'), Hm'. cbn.
      by rewrite insert_insert_eq. }
    split; [done|]. split; intros a Ha.
    + rewrite Hdom in Ha. apply Hea in Ha. rewrite Hperm in Ha. by rewrite Hperm'.
    + apply Hsa in Ha. rewrite Hperm in Ha. by rewrite Hperm'.
  - destruct (plain_put _ _ _ d Hp Hv Hmax) as (t' & -> & Hp').
    unfold Spec.put in *. rewrite Hm in *. cbn in *. eauto.
Qed.

(** ** A new table *)

Lemma repeat_nil_concat (n : nat) : concat (replicate n (@nil cell)) = [].
Proof. by induction n. Qed.

Lemma table_ok_empty size (pl : pool) h :
  0 < size ≤ INT_MAX → heap_wf h →
  table_ok (Htbl (Hashtbl size 0 (replicate (Z.to_nat size) NULL) (replicate (Z.to_nat size) 0) pl)
                 h heap_empty) (replicate (Z.to_nat size) []).
Proof.
  intros Hs Hw. split; cbn; rewrite ?repeat_nil_concat; try done.
  - rewrite length_replicate. lia.
  - apply heap_empty_wf.
  - apply Forall2_replicate. done.
  - by rewrite fmap_replicate.
  - apply NoDup_nil_2.
  - intros i cs c [-> _]%lookup_replicate Hc. by apply elem_of_nil in Hc.
  - apply NoDup_nil_2.
  - apply NoDup_nil_2.
Qed.

Lemma htbl_init_holds init initbuf :
  0 < init ≤ INT_MAX → in_int (3 * initbuf) →
  ∃ t css l, htbl_init init initbuf = Ok (0, t) ∧ holds Sane t css l ∧ concat css = [] ∧
    tbl_size (tbl t) = init ∧ p_init (t_pool (tbl t)) = initbuf ∧
    (initbuf = 0 → l = [] ∧ ents t = heap_empty) ∧ strs t = heap_empty ∧
    pool_exact (t_pool (tbl t)) l.
Proof.
  intros Hs Hb. destruct (pool_init_spec initbuf Hb) as (pl & h & l & E & Hw & Hok & Hi & Hl & Hex).
  unfold htbl_init. rewrite E. cbn.
  eexists _, _, l. split; [done|].
  split; [split; [by apply table_ok_empty|done|]|].
  { intros a _. rewrite repeat_nil_concat. apply not_elem_of_nil. }
  rewrite repeat_nil_concat. do 3 (split; [done|]). split; [|done].
  intros ->. cbn in *. injection E as <- <-. split; [|done].
  destruct l; [done|cbn in Hl; lia].
Qed.
End Theorems.
