(* ===== verification/HashtableTable.v ===== *)
(** * The hash table: operations on the whole table

    [htbl_free], [htbl_rehash], the enumeration of the keys, and the statistics
    [htbl_empty_slots] and [htbl_longest_chain]. *)

From S2P Require Import Prelude Heap Pool Hashtable HashtableRepr HashtableOps HashtableProofs.

Section Table.
Context `{Uninit htbl_entry}.
Implicit Types (t : htbl_t) (m : gmap hkey Z) (k : hkey) (cs : list cell).

(** ** Chains of consecutive slots *)

Definition chains (h : heap htbl_entry) (ss : heap cstring) (ps : list Z) (css : list (list cell)) :=
  Forall2 (fun p cs => chain h ss p cs) ps css.

Lemma chains_agree h h' ss ss' ps css :
  agree h h' (addrs (concat css)) → agree ss ss' (str_ptrs (concat css)) →
  chains h ss ps css → chains h' ss' ps css.
Proof.
  intros Ha Hs. induction 1 as [|p cs ps css Hc Hcs IH]; [constructor|].
  unfold addrs in *. cbn in Ha, Hs. rewrite fmap_app in Ha. rewrite str_ptrs_app in Hs.
  constructor.
  - eapply cseg_agree; [| |done]; (eapply agree_sub; [done|]); set_solver.
  - apply IH; (eapply agree_sub; [done|]); set_solver.
Qed.

(** ** Free *)

Lemma free_chain_spec ss cs : ∀ fuel h p,
  heap_wf h → chain h ss p cs → NoDup (addrs cs) → (length cs ≤ fuel)%nat →
  ∃ h', free_chain fuel h p = Ok h' ∧ heap_wf h' ∧
    (∀ b, b ∈ addrs cs → cells h' !! b = None) ∧
    (∀ b, b ∉ addrs cs → cells h' !! b = cells h !! b).
Proof.
  induction cs as [|c cs IH]; intros fuel h p Hw Hc Hnd Hf.
  - cbn in Hc. subst p. exists h. split; [by destruct fuel|]. split; [done|].
    split; [by intros b ?%elem_of_nil|done].
  - destruct fuel as [|fuel]; cbn in Hf; [lia|].
    destruct Hc as (-> & nx & [[hsh He] Hk] & Hcs). cbn [free_chain].
    destruct (Z.eqb_spec (c_addr c) NULL) as [E|_]; [by destruct (heap_wf_pos _ _ _ Hw He)|].
    rewrite (h_load_Ok _ _ _ Hw He). cbn. rewrite h_free_Ok by (try done; by eexists). cbn.
    change (addrs (c :: cs)) with (c_addr c :: addrs cs) in *.
    apply NoDup_cons in Hnd as [Hn Hnd].
    destruct (IH fuel (h_del h (c_addr c)) nx) as (h' & -> & Hw' & Hgone & Hfr).
    + by apply heap_wf_del.
    + eapply cseg_agree; [by apply agree_del|done|done].
    + done.
    + lia.
    + exists h'. split; [done|]. split; [done|]. split.
      * intros b [->|Hb]%elem_of_cons; [|by apply Hgone].
        rewrite Hfr by done. apply lookup_h_del.
      * intros b [Hb1 Hb2]%not_elem_of_cons. rewrite Hfr by done. by apply lookup_h_del_ne.
Qed.

(** The chains of the slots before [j] are gone, the others are intact. *)
Definition free_inv t css (j : Z) (h : heap htbl_entry) : Prop :=
  heap_wf h ∧
  (∀ b, b ∈ addrs (concat (take (Z.to_nat j) css)) → cells h !! b = None) ∧
  (∀ b, b ∉ addrs (concat (take (Z.to_nat j) css)) → cells h !! b = cells (ents t) !! b).

Lemma htbl_free_holds q t css l :
  holds q t css l →
  ∃ h, htbl_free t = Ok (0, h, strs t) ∧
    (∀ b, b ∈ addrs (concat css) → cells h !! b = None) ∧
    (∀ b, b ∉ addrs (concat css) → cells h !! b = cells (ents t) !! b).
Proof.
  intros [Ht _ _]. unfold htbl_free. pose proof (to_size _ _ Ht) as Hsz.
  destruct (for_range_inv (free_inv t css) 0 (tbl_size (tbl t)) (λ itr h,
        entry ← arr_get (entries (tbl t)) itr; free_chain (walk_fuel h) h entry) (ents t))
    as (h & E & Hw & Hgone & Hfr).
  - lia.
  - split; [apply Ht|]. split; [by intros b ?%elem_of_nil|done].
  - intros j h Hj (Hw & Hgone & Hfr).
    destruct (lookup_lt_is_Some_2 css (Z.to_nat j)) as [cs Hcs]; [lia|].
    destruct (Forall2_lookup_r _ _ _ _ _ (to_chains _ _ Ht) Hcs) as (p & Hp & Hch).
    rewrite (arr_get_Z _ j p) by (done || lia). cbn.
    pose proof (to_addrs _ _ Ht) as Hnd.
    rewrite <- (take_drop_middle _ _ _ Hcs), concat_app in Hnd. unfold addrs in Hnd.
    rewrite fmap_app in Hnd. apply NoDup_app in Hnd as (_ & Hd & Hnd).
    cbn in Hnd, Hd. rewrite fmap_app in Hnd, Hd. apply NoDup_app in Hnd as (Hnd & _ & _).
    assert (Hout : ∀ b, b ∈ addrs cs → b ∉ addrs (concat (take (Z.to_nat j) css))).
    { intros b Hb Hin. apply (Hd _ Hin). set_solver. }
    assert (Hch' : chain h (strs t) p cs).
    { eapply cseg_agree; [|done|done]. intros b Hb. by apply Hfr, Hout. }
    destruct (free_chain_spec (strs t) cs (walk_fuel h) h p) as (h' & -> & Hw' & Hg' & Hf').
    + done.
    + done.
    + done.
    + unfold walk_fuel. pose proof (chain_length _ _ _ _ Hch' Hnd). lia.
    + eexists; split; [done|]. split; [done|].
      replace (Z.to_nat (j + 1)) with (S (Z.to_nat j)) by lia.
      rewrite (take_S_r _ _ _ Hcs), concat_app. cbn. rewrite app_nil_r.
      unfold addrs. rewrite fmap_app. split.
      * intros b [Hb|Hb]%elem_of_app; [|by apply Hg'].
        destruct (decide (b ∈ addrs cs)); [by apply Hg'|].
        rewrite Hf' by done. by apply Hgone.
      * intros b [Hb1 Hb2]%not_elem_of_app. rewrite Hf' by done. by apply Hfr.
  - rewrite E. cbn. exists h. split; [done|].
    rewrite take_ge in Hgone, Hfr by lia. done.
Qed.

(** ** Enumerating the keys *)

(** What [htbl_enum_int_keys] stores for a cell. *)
Definition cell_int (c : cell) : Z :=
  match c_key c with KInt z => z | KStr _ => 0 end.

Lemma cell_int_entry ss c hsh nx :
  key_ptr_ok ss (c_key c) (c_ptr c) →
  (fun e => if e_type e =? HTBL_KEY_INT then int_of_ptr (e_key e) else 0)
    (Entry (key_type (c_key c)) hsh (c_ptr c) (c_data c) nx) = cell_int c.
Proof.
  unfold cell_int. cbn. destruct (c_key c) as [z|s]; cbn; [|done].
  intros [-> Hz]. unfold int_of_ptr, ptr_of_int. by rewrite i32_u64, i32_id.
Qed.

Section Enum.
Context (f : htbl_entry → Z) (v : cell → Z) (h : heap htbl_entry) (ss : heap cstring).
Hypothesis Hf : ∀ c hsh nx, key_ptr_ok ss (c_key c) (c_ptr c) →
  f (Entry (key_type (c_key c)) hsh (c_ptr c) (c_data c) nx) = v c.
Hypothesis Hw : heap_wf h.

(** The values found so far are a prefix of the array; there is room for the
    rest of the chain and [nkeys] is not exceeded. *)
Lemma enum_chain_spec nkeys cs : ∀ fuel pre rest p,
  chain h ss p cs → (length cs ≤ fuel)%nat → (length cs ≤ length rest)%nat →
  Z.of_nat (length pre + length cs) ≤ nkeys ≤ INT_MAX →
  enum_chain f fuel h nkeys (pre ++ rest) (Z.of_nat (length pre)) p =
    Ok ((pre ++ (v <$> cs)) ++ drop (length cs) rest, Z.of_nat (length pre + length cs)).
Proof.
  induction cs as [|c cs IH]; intros fuel pre rest p Hc Hfu Hr Hn.
  - cbn in Hc. subst p. rewrite Nat.add_0_r. cbn. rewrite app_nil_r, drop_0. by destruct fuel.
  - destruct fuel as [|fuel]; cbn in Hfu; [lia|]. destruct rest as [|r rest]; cbn in Hr; [lia|].
    destruct Hc as (-> & nx & [[hsh He] Hk] & Hcs). cbn [enum_chain].
    destruct (Z.eqb_spec (c_addr c) NULL) as [E|_]; [by destruct (heap_wf_pos _ _ _ Hw He)|].
    rewrite (h_load_Ok _ _ _ Hw He). cbn. rewrite (Hf _ _ _ Hk).
    rewrite arr_set_Ok by (rewrite length_app; cbn; lia). cbn. cbn in Hn.
    rewrite add_int_Ok by int_lia. cbn.
    rewrite insert_app_r_alt by lia. rewrite Nat.sub_diag. cbn.
    replace (pre ++ v c :: rest) with ((pre ++ [v c]) ++ rest) by by rewrite <- app_assoc.
    replace (Z.of_nat (length pre) + 1) with (Z.of_nat (length (pre ++ [v c])))
      by (rewrite length_app; cbn; lia).
    specialize (IH fuel (pre ++ [v c]) rest nx Hcs). rewrite length_app in IH |- *. cbn in IH |- *.
    destruct (Z.leb_spec nkeys (Z.of_nat (length pre + 1))).
    + destruct cs; [|cbn in *; lia]. done.
    + rewrite IH by lia. f_equal. f_equal; [by rewrite <- (assoc app pre)|lia].
Qed.
End Enum.

Lemma htbl_enum_int_keys_holds q t css l (keys : list Z) nkeys :
  holds q t css l → (length (concat css) ≤ length keys)%nat →
  Z.of_nat (length (concat css)) ≤ nkeys ≤ INT_MAX →
  htbl_enum_int_keys t keys nkeys =
    Ok ((cell_int <$> concat css) ++ drop (length (concat css)) keys,
        Z.of_nat (length (concat css))).
Proof.
  intros [Ht _ _] Hlen Hn. unfold htbl_enum_int_keys, enum_keys.
  pose proof (to_size _ _ Ht) as Hsz.
  set (f := fun e => if e_type e =? HTBL_KEY_INT then int_of_ptr (e_key e) else 0).
  set (P := fun j (s : list Z * Z) =>
    let cs := concat (take (Z.to_nat j) css) in
    s = ((cell_int <$> cs) ++ drop (length cs) keys, Z.of_nat (length cs))).
  edestruct (for_range_inv P 0 (tbl_size (tbl t))) as (s & -> & ->).
  - lia.
  - unfold P. cbn. by rewrite drop_0.
  - intros j s Hj ->. 
    destruct (lookup_lt_is_Some_2 css (Z.to_nat j)) as [cs Hcs]; [lia|].
    destruct (Forall2_lookup_r _ _ _ _ _ (to_chains _ _ Ht) Hcs) as (p & Hp & Hch).
    pose proof (chain_fuel _ _ Ht _ _ _ Hcs Hch).
    cbn zeta. rewrite (arr_get_Z _ j p) by (done || lia). cbn [mbind res_bind].
    assert (Htot : (length (concat (take (Z.to_nat j) css)) + length cs ≤ length (concat css))%nat).
    { rewrite <- (take_drop_middle _ _ _ Hcs) at 2. rewrite concat_app, !length_app.
      cbn. rewrite length_app. lia. }
    set (pre := cell_int <$> concat (take (Z.to_nat j) css)).
    replace (length (concat (take (Z.to_nat j) css))) with (length pre) in *
      by (unfold pre; by rewrite length_fmap).
    rewrite (enum_chain_spec f cell_int (ents t) (strs t)
               (fun c hsh nx => cell_int_entry (strs t) c hsh nx) (to_ents _ _ Ht) nkeys cs).
    + eexists; split; [done|]. unfold P. cbn zeta.
      replace (Z.to_nat (j + 1)) with (S (Z.to_nat j)) by lia.
      rewrite (take_S_r _ _ _ Hcs), concat_app. cbn [concat]. rewrite app_nil_r, fmap_app.
      fold pre. rewrite length_app, drop_drop. unfold pre. by rewrite length_fmap.
    + done.
    + lia.
    + rewrite length_drop. lia.
    + lia.
  - cbn zeta. by rewrite take_ge by lia.
Qed.

(** ** Statistics *)

(** The keys of [m] that belong to slot [i] of a table of [size] slots. *)
Definition slot_keys m (size : Z) (i : nat) : gset hkey :=
  filter (fun k => hkey_hash k size = Ok (Z.of_nat i)) (dom m).

Lemma slot_keys_chain t css i cs :
  table_ok t css → css !! i = Some cs →
  slot_keys (cells_map (concat css)) (tbl_size (tbl t)) i = list_to_set (keys_of cs).
Proof.
  intros Ht Hi. apply set_eq. intros k. unfold slot_keys.
  rewrite elem_of_filter, elem_of_list_to_set, elem_of_dom.
  destruct (slot_of_key _ _ Ht k) as (j & p & cs' & Hj & Hcs' & _ & _ & _ & Hiff). split.
  - intros [Hk [d Hd]]. rewrite Hj in Hk. injection Hk as Hk. apply Nat2Z.inj in Hk as ->.
    rewrite Hi in Hcs'. injection Hcs' as <-. apply Hiff.
    destruct (repr_dec css k) as [|Hn]; [done|]. apply cells_map_None in Hn. congruence.
  - intros Hk. pose proof Hk as (c & -> & Hc)%list_elem_of_fmap.
    split; [by eapply (to_hash _ _ Ht)|].
    exists (c_data c). apply cells_map_lookup; [apply Ht|]. exists c. split; [|done].
    rewrite (concat_lookup_perm _ _ _ Hi). set_solver.
Qed.

Lemma slot_keys_size t css i cs :
  table_ok t css → css !! i = Some cs →
  size (slot_keys (cells_map (concat css)) (tbl_size (tbl t)) i) = length cs.
Proof.
  intros Ht Hi. rewrite (slot_keys_chain _ _ _ _ Ht Hi).
  rewrite size_list_to_set; [by unfold keys_of; rewrite length_fmap|].
  pose proof (to_keys _ _ Ht) as Hnd. rewrite (concat_lookup_perm _ _ _ Hi) in Hnd.
  unfold keys_of in *. rewrite fmap_app in Hnd. by apply NoDup_app in Hnd as [? _].
Qed.

(** A slot is [NULL] exactly when no key belongs to it. *)
Lemma slot_null t css i cs p :
  table_ok t css → css !! i = Some cs → chain (ents t) (strs t) p cs →
  (p =? NULL) = bool_decide (slot_keys (cells_map (concat css)) (tbl_size (tbl t)) i = ∅).
Proof.
  intros Ht Hi Hch. rewrite (slot_keys_chain _ _ _ _ Ht Hi).
  destruct (Z.eqb_spec p NULL) as [->|Hp]; symmetry.
  - apply bool_decide_eq_true. by rewrite (chain_null _ _ _ (to_ents _ _ Ht) Hch).
  - apply bool_decide_eq_false. destruct cs as [|c cs]; [by destruct Hp|].
    unfold keys_of. set_solver.
Qed.

Lemma htbl_empty_slots_holds q t css l :
  holds q t css l →
  htbl_empty_slots t =
    Ok (Z.of_nat (length (filter (fun i => slot_keys (cells_map (concat css)) (tbl_size (tbl t)) i = ∅)
                                 (seq 0 (Z.to_nat (tbl_size (tbl t))))))).
Proof.
  intros [Ht _ _]. unfold htbl_empty_slots. pose proof (to_size _ _ Ht) as Hsz.
  pose proof (to_pos _ _ Ht) as Hps.
  set (F := filter _). 
  set (P := fun (j : Z) (n : Z) => n = Z.of_nat (length (F (seq 0 (Z.to_nat j))))).
  edestruct (for_range_inv P 0 (tbl_size (tbl t))) as (n & -> & ->); [lia|done| |done].
  intros j n Hj ->.
  destruct (lookup_lt_is_Some_2 css (Z.to_nat j)) as [cs Hcs]; [lia|].
  destruct (Forall2_lookup_r _ _ _ _ _ (to_chains _ _ Ht) Hcs) as (p & Hp & Hch).
  rewrite (arr_get_Z _ j p) by (done || lia). cbn.
  rewrite (slot_null _ _ _ _ _ Ht Hcs Hch). unfold P.
  replace (Z.to_nat (j + 1)) with (S (Z.to_nat j)) by lia.
  rewrite seq_S, Nat.add_0_l. unfold F. rewrite filter_app, length_app.
  rewrite filter_cons, filter_nil.
  pose proof (length_filter (fun i => slot_keys (cells_map (concat css)) (tbl_size (tbl t)) i = ∅)
    (seq 0 (Z.to_nat j))) as Hle. rewrite length_seq in Hle.
  case_bool_decide; case_decide; try done.
  - rewrite add_int_Ok by int_lia. eexists; split; [done|]. cbn. lia.
  - eexists; split; [done|]. cbn. lia.
Qed.

(** The longest chain among the first [j] slots, and the first slot that has it. *)
Definition longest_inv m (size : Z) (j : Z) (s : Z * option Z) : Prop :=
  (∀ i, (Z.of_nat i < j) → Z.of_nat (base.size (slot_keys m size i)) ≤ s.1) ∧
  match s.2 with
  | None => s.1 = 0
  | Some ix => 0 ≤ ix < j ∧ 0 < s.1 ∧ s.1 = Z.of_nat (base.size (slot_keys m size (Z.to_nat ix))) ∧
               ∀ i, Z.of_nat i < ix → Z.of_nat (base.size (slot_keys m size i)) < s.1
  end.

Lemma htbl_longest_chain_holds q t css l :
  holds q t css l →
  ∃ s, htbl_longest_chain t = Ok s ∧
       longest_inv (cells_map (concat css)) (tbl_size (tbl t)) (tbl_size (tbl t)) s.
Proof.
  intros [Ht _ _]. unfold htbl_longest_chain. pose proof (to_size _ _ Ht) as Hsz.
  apply for_range_inv.
  - lia.
  - split; [intros i Hi; lia|done].
  - intros j [longest ix] Hj [Hub Hix].
    destruct (lookup_lt_is_Some_2 css (Z.to_nat j)) as [cs Hcs]; [lia|].
    pose proof (slot_keys_size _ _ _ _ Ht Hcs) as Hks.
    rewrite (arr_get_Z _ j (Z.of_nat (length cs)));
      [|lia|by rewrite (to_lens _ _ Ht), list_lookup_fmap, Hcs].
    cbn [mbind res_bind fst snd] in *. rewrite <- Hks in *.
    assert (Hcase : ∀ i, Z.of_nat i < j + 1 → Z.of_nat i < j ∨ i = Z.to_nat j) by lia.
    destruct (Z.ltb_spec longest (Z.of_nat (size (slot_keys (cells_map (concat css)) (tbl_size (tbl t)) (Z.to_nat j)))));
      (eexists; split; [done|]); split; cbn.
    + intros i [Hi| ->]%Hcase; [|done]. specialize (Hub i Hi). lia.
    + assert (0 ≤ longest) by (destruct ix; lia).
      split; [lia|]. split; [lia|]. split; [done|]. intros i Hi. specialize (Hub i Hi). lia.
    + intros i [Hi| ->]%Hcase; [|done]. by apply Hub.
    + destruct ix; [|done]. destruct Hix as (? & ?). split; [lia|done].
Qed.
End Table.
