(* ===== verification/HashtableRehash.v ===== *)
(** * The hash table: changing the number of slots

    [htbl_rehash] moves the entries one by one from the old chains into new,
    empty ones.  [moving t css rest m]: the new chains [css] and the cells [rest]
    that are still in the old chains make up the map [m]. *)

From S2P Require Import Prelude Heap Pool Hashtable HashtableRepr HashtableOps HashtableProofs.
From S2P Require Import HashtableTable.

Section Rehash.
Context `{Uninit htbl_entry}.
Implicit Types (t : htbl_t) (m : gmap hkey Z) (cs rest : list cell).

Record moving t (css : list (list cell)) rest m : Prop := {
  mv_holds : holds Sane t css [];
  mv_init : p_init (t_pool (tbl t)) = 0;
  mv_keys : NoDup (keys_of (concat css ++ rest));
  mv_addrs : NoDup (addrs (concat css ++ rest));
  mv_sptrs : NoDup (str_ptrs (concat css ++ rest));
  mv_map : m = cells_map (concat css ++ rest);
  mv_max : Z.of_nat (length (concat css ++ rest)) ≤ INT_MAX;
  mv_rest : ∀ a, a ∈ addrs rest → is_Some (cells (ents t) !! a);
  mv_srest : ∀ a, a ∈ str_ptrs rest → is_Some (cells (strs t) !! a);
  mv_ents : ∀ a, is_Some (cells (ents t) !! a) → a ∈ addrs (concat css ++ rest);
  mv_strs : ∀ a, is_Some (cells (strs t) !! a) → a ∈ str_ptrs (concat css ++ rest)
}.

(** Moving an entry is a [put] of its key and data; a string key is freed. *)
Lemma rehash_entry_unfold t c nx :
  heap_wf (ents t) → heap_wf (strs t) → cell_at (ents t) (strs t) c nx →
  (∀ t1 r, hput t (c_key c) (c_data c) = Ok (r, t1) →
     heap_wf (strs t1) ∧ key_ptr_ok (strs t1) (c_key c) (c_ptr c)) →
  rehash_entry t (c_addr c) =
    '(_, t1) ← hput t (c_key c) (c_data c); Ok (t1 <| strs := drop_key (strs t1) c |>).
Proof.
  intros Hw Hws [[hsh He] Hk] Hafter. unfold rehash_entry.
  rewrite (h_load_Ok _ _ _ Hw He). cbn.
  unfold drop_key. destruct (c_key c) as [z|s] eqn:Ek; cbn in *.
  - destruct Hk as [-> Hz]. unfold int_of_ptr, ptr_of_int. rewrite i32_u64, i32_id by done.
    destruct (htbl_put t z (c_data c)) as [[r t1]|]; cbn; [by destruct t1|done].
  - rewrite (h_load_Ok _ _ _ Hws Hk). cbn.
    destruct (htbl_str_put t s (c_data c)) as [[r t1]|] eqn:E; cbn; [|done].
    destruct (Hafter _ _ eq_refl). by rewrite h_free_Ok by (try done; by eexists).
Qed.

(** Giving an entry back to a table without a free list frees it. *)
Lemma release_entry_plain t css a :
  holds Sane t css [] → p_init (t_pool (tbl t)) = 0 → is_Some (cells (ents t) !! a) →
  a ∉ addrs (concat css) →
  ∃ t', release_entry t a = Ok t' ∧ holds Sane t' css [] ∧ tbl t' = tbl t ∧ strs t' = strs t ∧
    cells (ents t') = delete a (cells (ents t)).
Proof.
  intros [Ht Hp Hap] Hz Ha Hn.
  destruct (pool_release_spec _ _ _ _ (to_ents _ _ Ht) Hp Ha) as
    (pl' & h' & l' & E & Hw & Hp' & _ & Hfr & _ & _ & H0); [apply not_elem_of_nil|].
  destruct (H0 Hz) as (-> & -> & Hdel).
  unfold release_entry. rewrite E. cbn. eexists. split; [done|]. cbn.
  split; [|split; [by destruct (tbl t)|done]].
  split; cbn; [|done|done].
  eapply (table_ok_frame t); try done; [apply Ht|].
  intros b Hb. apply Hfr; [by intros ->|apply not_elem_of_nil].
Qed.

(** The cell to move is apart from all the others. *)
Lemma moving_apart t css c rest m :
  moving t css (c :: rest) m →
  (c_key c ∉ keys_of (concat css)) ∧ (c_addr c ∉ addrs (concat css ++ rest)) ∧
  (∀ b, b ∈ str_ptrs [c] → b ∉ str_ptrs (concat css ++ rest)) ∧
  NoDup (keys_of (c :: concat css ++ rest)) ∧
  NoDup (addrs (concat css ++ rest)) ∧ NoDup (str_ptrs (concat css ++ rest)) ∧
  m = <[c_key c := c_data c]> (cells_map (concat css ++ rest)).
Proof.
  intros [_ _ Hk Ha Hs -> _ _ _ _ _].
  assert (Hperm : concat css ++ c :: rest ≡ₚ c :: concat css ++ rest)
    by by rewrite <- Permutation_middle.
  rewrite <- (cells_map_cons _ _ c Hk Hperm).
  rewrite Hperm in Hk, Ha, Hs.
  rewrite str_ptrs_cons in Hs. apply NoDup_app in Hs as (_ & ? & ?).
  pose proof Ha as [? ?]%NoDup_cons. split; [|done].
  apply NoDup_cons in Hk as [Hk _]. change (c_key c ∉ keys_of (concat css ++ rest)) in Hk.
  unfold keys_of in *. rewrite fmap_app in Hk. set_solver.
Qed.

(** First the entry is put into the new table ... *)
Lemma rehash_put t css c nx rest m :
  moving t css (c :: rest) m → cell_at (ents t) (strs t) c nx →
  ∃ t1 css' c', hput t (c_key c) (c_data c) = Ok (0, t1) ∧ holds Sane t1 css' [] ∧
    concat css' ≡ₚ c' :: concat css ∧ c_key c' = c_key c ∧ c_data c' = c_data c ∧
    put_frame t t1 [] c' ∧ length css' = length css.
Proof.
  intros Hmv [_ Hkp]. destruct (moving_apart _ _ _ _ _ Hmv) as (Hnk & _).
  destruct Hmv as [Hh Hz _ _ _ _ Hmax _ _ _ _].
  assert (Hv : valid_key (c_key c)) by (destruct (c_key c); [apply Hkp|done]).
  rewrite length_app in Hmax. cbn in Hmax.
  destruct (hput_new t css [] (c_key c) (c_data c) Hh Hv Hnk) as
    (q & t1 & i & cs & c' & l' & Eput & Hcs & Hh1 & Hck & Hcd & Hfr & _ & H0 & _).
  { rewrite (to_count _ _ (ho_table _ _ _ _ Hh)). lia. }
  destruct (H0 Hz) as [-> ->]. exists t1, (<[i := c' :: cs]> css), c'.
  rewrite length_insert. split; [done|]. split; [done|].
  split; [|done].
  by rewrite (concat_insert_perm _ _ _ _ Hcs), (concat_lookup_perm _ _ _ Hcs).
Qed.

(** ... then its old key and its old entry are freed, neither of which the new
    table uses. *)
Lemma rehash_drop t t1 css css' c c' nx rest m :
  moving t css (c :: rest) m → cell_at (ents t) (strs t) c nx →
  holds Sane t1 css' [] → concat css' ≡ₚ c' :: concat css → put_frame t t1 [] c' →
  ∃ t', release_entry (t1 <| strs := drop_key (strs t1) c |>) (c_addr c) = Ok t' ∧
    holds Sane t' css' [] ∧ tbl t' = tbl t1 ∧
    cells (ents t') = delete (c_addr c) (cells (ents t1)) ∧ strs t' = drop_key (strs t1) c ∧
    cells (ents t1) !! c_addr c = cells (ents t) !! c_addr c ∧
    key_ptr_ok (strs t1) (c_key c) (c_ptr c).
Proof.
  intros Hmv [[hsh He] Hkp] Hh1 Hperm1 Hfr.
  destruct (moving_apart _ _ _ _ _ Hmv) as (_ & Hna & Hns & _).
  destruct (pf_old _ _ _ _ Hfr (c_addr c)) as [Hne Hsame]; [by eexists|apply not_elem_of_nil|].
  unfold addrs in Hna. rewrite fmap_app, not_elem_of_app in Hna.
  assert (Hns1 : ∀ b, b ∈ str_ptrs [c] → b ∉ str_ptrs (concat css')).
  { intros b Hb. rewrite Hperm1, str_ptrs_cons, not_elem_of_app. split.
    - apply (pf_sold _ _ _ _ Hfr). apply (mv_srest _ _ _ _ Hmv). rewrite str_ptrs_cons. set_solver.
    - specialize (Hns b Hb). rewrite str_ptrs_app in Hns. set_solver. }
  pose proof (ho_table _ _ _ _ Hh1) as Ht1.
  assert (Hh2 : holds Sane (t1 <| strs := drop_key (strs t1) c |>) css' []).
  { split; cbn; [|apply Hh1|by intros b ?%elem_of_nil].
    eapply (table_ok_frame t1); try done; [apply Ht1|apply drop_key_wf, Ht1|].
    by apply drop_key_agree. }
  destruct (release_entry_plain _ _ (c_addr c) Hh2) as (t' & Er & Hh' & Et & Es & Ed); cbn in *.
  { rewrite (pf_init _ _ _ _ Hfr). apply Hmv. }
  { rewrite Hsame. by eexists. }
  { rewrite Hperm1. apply not_elem_of_cons. split; [done|apply Hna]. }
  exists t'. do 6 (split; [done|]).
  destruct (c_key c); [done|]. cbn in *.
  by rewrite (proj2 (pf_sold _ _ _ _ Hfr _ (mk_is_Some _ _ Hkp))).
Qed.

(** The cells that are still to be moved are where they were. *)
Lemma rehash_keeps t t1 t' css c c' rest m :
  moving t css (c :: rest) m → put_frame t t1 [] c' →
  cells (ents t') = delete (c_addr c) (cells (ents t1)) → strs t' = drop_key (strs t1) c →
  agree (ents t) (ents t') (addrs rest) ∧ agree (strs t) (strs t') (str_ptrs rest).
Proof.
  intros Hmv Hfr Ed Es. destruct (moving_apart _ _ _ _ _ Hmv) as (_ & Hna & Hns & _). split.
  - intros b Hb. rewrite Ed, lookup_delete_ne.
    + apply (pf_old _ _ _ _ Hfr); [|apply not_elem_of_nil]. apply (mv_rest _ _ _ _ Hmv). by right.
    + intros <-. apply Hna. unfold addrs. rewrite fmap_app. set_solver.
  - intros b Hb. rewrite Es. transitivity (cells (strs t1) !! b).
    + eapply (drop_key_agree _ _ (str_ptrs rest)); [|done].
      intros b' Hb'. specialize (Hns b' Hb'). rewrite str_ptrs_app in Hns. set_solver.
    + apply (pf_sold _ _ _ _ Hfr). apply (mv_srest _ _ _ _ Hmv). rewrite str_ptrs_cons. set_solver.
Qed.

(** The new cell shares neither its entry nor its key with the others. *)
Lemma rehash_apart t t1 css c c' rest m :
  moving t css (c :: rest) m → put_frame t t1 [] c' →
  NoDup (addrs (c' :: concat css ++ rest)) ∧ NoDup (str_ptrs (c' :: concat css ++ rest)).
Proof.
  intros Hmv Hfr. destruct (moving_apart _ _ _ _ _ Hmv) as (_ & _ & _ & _ & Ha & Hs & _).
  pose proof (ho_table _ _ _ _ (mv_holds _ _ _ _ Hmv)) as Ht. split.
  - apply NoDup_cons. split; [|done]. intros Hin.
    destruct (pf_old _ _ _ _ Hfr (c_addr c')) as [? _]; [|apply not_elem_of_nil|done].
    change (c_addr c' ∈ addrs (concat css ++ rest)) in Hin.
    unfold addrs in Hin. rewrite fmap_app, elem_of_app in Hin. destruct Hin as [Hin|Hin].
    + by eapply table_allocated.
    + apply (mv_rest _ _ _ _ Hmv). by right.
  - rewrite str_ptrs_cons. apply NoDup_app. split; [|split; [|done]].
    + unfold str_ptrs, str_ptr. cbn. destruct (c_key c'); cbn; [apply NoDup_nil_2|apply NoDup_singleton].
    + intros b Hb Hin. rewrite str_ptrs_app in Hin.
      destruct (pf_sold _ _ _ _ Hfr b) as [? _]; [|done].
      apply elem_of_app in Hin as [Hin|Hin]; [by eapply table_str_allocated|].
      apply (mv_srest _ _ _ _ Hmv). rewrite str_ptrs_cons. set_solver.
Qed.

(** The table after one cell has moved. *)
Lemma rehash_moved t t1 t' css css' c c' rest m :
  moving t css (c :: rest) m → put_frame t t1 [] c' →
  concat css' ≡ₚ c' :: concat css → c_key c' = c_key c → c_data c' = c_data c →
  holds Sane t' css' [] → tbl t' = tbl t1 →
  cells (ents t') = delete (c_addr c) (cells (ents t1)) → strs t' = drop_key (strs t1) c →
  moving t' css' rest m.
Proof.
  intros Hmv Hfr Hperm Hck Hcd Hh' Et Ed Es.
  destruct (rehash_keeps _ _ _ _ _ _ _ _ Hmv Hfr Ed Es) as [Hkeep Hskeep].
  destruct (rehash_apart _ _ _ _ _ _ _ Hmv Hfr) as [Ha Hs].
  destruct (moving_apart _ _ _ _ _ Hmv) as (_ & _ & _ & Hk & _ & _ & Hm).
  assert (Hperm2 : concat css' ++ rest ≡ₚ c' :: (concat css ++ rest)) by by rewrite Hperm.
  split; rewrite ?Hperm2; try done.
  - rewrite Et, (pf_init _ _ _ _ Hfr). apply Hmv.
  - revert Hk. unfold keys_of. cbn. by rewrite Hck.
  - rewrite Hm, <- Hck, <- Hcd. symmetry. apply cells_map_cons; [|done].
    rewrite Hperm2. revert Hk. unfold keys_of. cbn. by rewrite Hck.
  - pose proof (mv_max _ _ _ _ Hmv). rewrite length_app in *. cbn in *. rewrite length_app. lia.
  - intros a Ha'. rewrite Hkeep by done. apply (mv_rest _ _ _ _ Hmv). by right.
  - intros a Ha'. rewrite Hskeep by done. apply (mv_srest _ _ _ _ Hmv). rewrite str_ptrs_cons. set_solver.
  - intros a. rewrite Hperm2, Ed, lookup_delete_is_Some. intros [Hne [->|Ha']%(pf_new _ _ _ _ Hfr)]; [left|right].
    change (a ∈ addrs (concat css ++ rest)).
    apply (mv_ents _ _ _ _ Hmv) in Ha'. unfold addrs in *. rewrite fmap_app, fmap_cons in Ha'.
    rewrite fmap_app. rewrite elem_of_app, elem_of_cons in *. naive_solver.
  - intros a. rewrite Hperm2, Es, drop_key_dom, (str_ptrs_cons c'). intros [[Ha'|Ha']%(pf_snew _ _ _ _ Hfr) Hn];
      [apply elem_of_app; by left|]. apply (mv_strs _ _ _ _ Hmv) in Ha'.
    rewrite str_ptrs_app, (str_ptrs_cons c rest) in Ha'. rewrite str_ptrs_app.
    rewrite !elem_of_app in *. tauto.
Qed.

(** One turn of the inner loop of [htbl_rehash]. *)
Lemma rehash_step t css c nx rest m :
  moving t css (c :: rest) m → cell_at (ents t) (strs t) c nx →
  ∃ t1 t' css' e, rehash_entry t (c_addr c) = Ok t1 ∧ h_load (ents t1) (c_addr c) = Ok e ∧
    e_next e = nx ∧ release_entry t1 (c_addr c) = Ok t' ∧ moving t' css' rest m ∧
    length css' = length css ∧
    agree (ents t) (ents t') (addrs rest) ∧ agree (strs t) (strs t') (str_ptrs rest).
Proof.
  intros Hmv Hc.
  destruct (rehash_put _ _ _ _ _ _ Hmv Hc) as (t1 & css' & c' & Eput & Hh1 & Hperm & Hck & Hcd & Hfr & Hlen).
  destruct (rehash_drop _ _ _ _ _ _ _ _ _ Hmv Hc Hh1 Hperm Hfr)
    as (t' & Er & Hh' & Et & Ed & Es & Hsame & Hkp1).
  pose proof (ho_table _ _ _ _ (mv_holds _ _ _ _ Hmv)) as Ht.
  pose proof (ho_table _ _ _ _ Hh1) as Ht1. pose proof Hc as [[hsh He] _].
  eexists _, t', css', _. split; [|cbn; split; [|split; [|split; [exact Er|]]]].
  { rewrite (rehash_entry_unfold _ _ nx); [by rewrite Eput|apply Ht|apply Ht|done|].
    intros t1' r E. rewrite Eput in E. injection E as <- <-. split; [apply Ht1|done]. }
  { rewrite <- Hsame in He. exact (h_load_Ok _ _ _ (to_ents _ _ Ht1) He). }
  { done. }
  split; [by eapply rehash_moved|]. split; [done|]. by eapply rehash_keeps.
Qed.

(** A whole old chain. *)
Lemma rehash_chain_spec : ∀ cs fuel t css p rest m,
  moving t css (cs ++ rest) m → chain (ents t) (strs t) p cs → (length cs ≤ fuel)%nat →
  ∃ t' css', rehash_chain fuel t p = Ok t' ∧ moving t' css' rest m ∧ length css' = length css ∧
    agree (ents t) (ents t') (addrs rest) ∧ agree (strs t) (strs t') (str_ptrs rest).
Proof.
  induction cs as [|c cs IH]; intros fuel t css p rest m Hmv Hch Hf.
  - cbn in Hch. subst p. exists t, css. split; [by destruct fuel|]. done.
  - destruct fuel as [|fuel]; cbn in Hf; [lia|]. destruct Hch as (-> & nx & Hc & Hch).
    destruct (rehash_step t css c nx (cs ++ rest) m Hmv Hc)
      as (t1 & t' & css' & e & E1 & E2 & En & E3 & Hmv' & Hlen & Ha & Hs).
    cbn [rehash_chain]. pose proof (to_ents _ _ (ho_table _ _ _ _ (mv_holds _ _ _ _ Hmv))) as Hw.
    destruct (Z.eqb_spec (c_addr c) NULL) as [E|_].
    { destruct Hc as [[hsh He] _]. by destruct (heap_wf_pos _ _ _ Hw He). }
    rewrite E1. cbn. rewrite E2. cbn. rewrite E3. cbn. rewrite En.
    unfold addrs in *. rewrite fmap_app in Ha. rewrite str_ptrs_app in Hs.
    destruct (IH fuel t' css' nx rest m Hmv') as (t2 & css2 & -> & Hmv2 & Hlen2 & Ha2 & Hs2).
    + eapply cseg_agree; [| |done]; (eapply agree_sub; [done|]); set_solver.
    + lia.
    + exists t2, css2. split; [done|]. split; [done|]. split; [congruence|].
      split; intros b Hb; [rewrite Ha2, Ha by set_solver|rewrite Hs2, Hs by set_solver]; done.
Qed.

(** The table at the start of the loop: empty chains, all the cells to move. *)
Lemma moving_start t css newsize :
  holds Sane t css [] → p_init (t_pool (tbl t)) = 0 →
  (∀ a, is_Some (cells (ents t) !! a) → a ∈ addrs (concat css)) →
  (∀ a, is_Some (cells (strs t) !! a) → a ∈ str_ptrs (concat css)) →
  0 < newsize ≤ INT_MAX →
  moving (t <| tbl := tbl t <| tbl_size := newsize |>
                 <| entries := replicate (Z.to_nat newsize) NULL |>
                 <| entries_chain_lengths := replicate (Z.to_nat newsize) 0 |>
                 <| n_entries := 0 |> |>)
         (replicate (Z.to_nat newsize) []) (concat css) (cells_map (concat css)).
Proof.
  intros [Ht Hp Hap] Hz Hea Hsa Hs. split; rewrite ?repeat_nil_concat; cbn; try done; try apply Ht.
  - split; cbn; [|done|by intros a ?%elem_of_nil].
    pose proof (table_ok_empty newsize (t_pool (tbl t)) (ents t) Hs (to_ents _ _ Ht)) as Ht0.
    eapply (table_ok_frame _ _ _ Ht0); cbn; try done; try apply Ht.
    rewrite repeat_nil_concat. by intros a ?%elem_of_nil.
  - rewrite <- (to_count _ _ Ht). apply Ht.
  - intros a Ha. by eapply table_allocated.
  - intros a Ha. by eapply table_str_allocated.
Qed.

Lemma int_array_Ok n width :
  0 ≤ n → 0 < width → n * width ≤ INT_MAX → int_array n width = Ok (replicate (Z.to_nat n) 0).
Proof.
  intros Hn Hw Hm. unfold int_array. rewrite i32_id by int_lia.
  rewrite (proj2 (Z.ltb_ge _ _)) by lia. by rewrite Z.div_mul by lia.
Qed.

(** From [2^28] slots on the bytes of the array of chains are a negative [int]. *)
Lemma int_array_negative n : 2 ^ 28 ≤ n < 2 ^ 29 → int_array n 8 = Fault NullDeref.
Proof.
  intros Hn. unfold int_array. assert (i32 (n * 8) = n * 8 - 2 ^ 32) as ->.
  { unfold i32. replace (n * 8 + 2 ^ 31) with (n * 8 - 2 ^ 31 + 1 * 2 ^ 32) by lia.
    rewrite Z.mod_add, Z.mod_small by lia. lia. }
  by rewrite (proj2 (Z.ltb_lt _ _)) by lia.
Qed.

(** The loop over the old slots: the chains from slot [j] on are to be moved. *)
Lemma htbl_rehash_plain t m newsize :
  plain t m → 0 < newsize < 2 ^ 28 →
  ∃ t', htbl_rehash t newsize = Ok (0, t') ∧ plain t' m ∧ tbl_size (tbl t') = newsize.
Proof.
  intros (css & Hh & -> & Hz & Hea & Hsa) Hs. unfold htbl_rehash.
  destruct (Z.eqb_spec newsize (tbl_size (tbl t))) as [->|Hne].
  { exists t. split; [done|]. split; [|done]. exists css. done. }
  pose proof (moving_start t css newsize Hh Hz Hea Hsa ltac:(int_lia)) as Hstart.
  rewrite !int_array_Ok by int_lia. cbn [mbind res_bind].
  pose proof (ho_table _ _ _ _ Hh) as Ht. pose proof (to_size _ _ Ht) as Hsz.
  set (t0 := t <| tbl := _ |>) in *.
  set (P := fun (j : Z) t' => ∃ css', moving t' css' (concat (drop (Z.to_nat j) css)) (cells_map (concat css)) ∧
    Z.of_nat (length css') = newsize ∧
    chains (ents t') (strs t') (drop (Z.to_nat j) (entries (tbl t))) (drop (Z.to_nat j) css)).
  edestruct (for_range_inv P 0 (tbl_size (tbl t))) as (t' & E & css' & Hmv & Hlen & _);
    [lia| | |rewrite E; cbn].
  - exists (replicate (Z.to_nat newsize) []). rewrite !drop_0, length_replicate.
    split; [done|]. split; [lia|]. apply Ht.
  - intros j t' Hj (css' & Hmv & Hlen & Hch).
    destruct (lookup_lt_is_Some_2 css (Z.to_nat j)) as [cs Hcs]; [lia|].
    destruct (Forall2_lookup_r _ _ _ _ _ (to_chains _ _ Ht) Hcs) as (p & Hp & _).
    rewrite (arr_get_Z _ j p) by (done || lia). cbn.
    rewrite (drop_S _ _ _ Hcs) in Hmv, Hch. rewrite (drop_S _ _ _ Hp) in Hch.
    apply Forall2_cons_1 in Hch as [Hc Hch]. cbn in Hmv.
    assert (Hnd : NoDup (addrs cs)).
    { pose proof (mv_addrs _ _ _ _ Hmv) as Hnd. unfold addrs in *. rewrite !fmap_app in Hnd.
      by apply NoDup_app in Hnd as (_ & _ & (? & _ & _)%NoDup_app). }
    destruct (rehash_chain_spec cs (walk_fuel (ents t')) t' css' p _ _ Hmv Hc)
      as (t2 & css2 & -> & Hmv2 & Hlen2 & Ha2 & Hs2).
    { unfold walk_fuel. pose proof (chain_length _ _ _ _ Hc Hnd). lia. }
    eexists; split; [done|]. exists css2.
    replace (Z.to_nat (j + 1)) with (S (Z.to_nat j)) by lia.
    split; [done|]. split; [lia|]. by eapply chains_agree.
  - rewrite drop_ge in Hmv by lia. cbn in Hmv. destruct Hmv.
    rewrite app_nil_r in *. exists t'. split; [done|].
    split; [exists css'; done|]. rewrite (to_size _ _ (ho_table _ _ _ _ mv_holds0)). done.
Qed.
End Rehash.
