(* ===== verification/HashtableSpec.v ===== *)
(** * The hash table: its contract

    The theorems about [hashtable.c] that the rest of the program relies on,
    each with a concrete instance: the table refines a finite map, the
    operations on the whole table, and the two places where the code does not
    do what it means to (a stale free list, [htbl_remove_next]). *)

From S2P Require Import Prelude Heap Pool Hashtable HashtableRepr HashtableOps HashtableProofs.
From S2P Require Import HashtableTable HashtableRehash.

(** ** Sequences of operations *)

Inductive hop :=
  | HPut (k : hkey) (d : Z)
  | HGet (k : hkey)
  | HRemove (k : hkey)
  | HReplace (k : hkey) (d : Z).

Definition hop_valid (op : hop) : Prop :=
  match op with HPut k _ | HReplace k _ => valid_key k | _ => True end.

(** The integer an operation returns and what it stores for the caller. *)
Definition hout : Type := Z * option Z.

Section Run.
Context `{Uninit htbl_entry}.

Definition exec (t : htbl_t) (op : hop) : res (hout * htbl_t) :=
  match op with
  | HPut k d => '(r, t) ← hput t k d; Ok ((r, None), t)
  | HGet k => o ← hget t k; Ok (o, t)
  | HRemove k => '(r, o, t) ← hremove t k; Ok ((r, o), t)
  | HReplace k d => '(r, o, t) ← hreplace t k d; Ok ((r, o), t)
  end.

Fixpoint exec_all (t : htbl_t) (ops : list hop) : res (list hout * htbl_t) :=
  match ops with
  | [] => Ok ([], t)
  | op :: ops => '(o, t) ← exec t op; '(os, t) ← exec_all t ops; Ok (o :: os, t)
  end.
End Run.

Definition exec_map (m : gmap hkey Z) (op : hop) : hout * gmap hkey Z :=
  match op with
  | HPut k d => let '(r, m) := Spec.put m k d in ((r, None), m)
  | HGet k => (Spec.get m k, m)
  | HRemove k => let '(r, o, m) := Spec.remove m k in ((r, o), m)
  | HReplace k d => let '(r, o, m) := Spec.replace m k d in ((r, o), m)
  end.

Fixpoint exec_map_all (m : gmap hkey Z) (ops : list hop) : list hout * gmap hkey Z :=
  match ops with
  | [] => ([], m)
  | op :: ops => let '(o, m) := exec_map m op in
                 let '(os, m) := exec_map_all m ops in (o :: os, m)
  end.

Lemma size_insert_le (m : gmap hkey Z) k d : (size (<[k := d]> m) ≤ S (size m))%nat.
Proof.
  rewrite map_size_insert. destruct (m !! k); cbn; lia.
Qed.

(** An operation adds at most one key. *)
Lemma exec_map_size m op : (size (exec_map m op).2 ≤ S (size m))%nat.
Proof.
  destruct op as [k d|k|k|k d]; cbn; unfold Spec.put, Spec.remove, Spec.replace.
  - destruct (m !! k); cbn; [lia|apply size_insert_le].
  - lia.
  - destruct (m !! k) eqn:E; cbn; [|lia]. rewrite map_size_delete, E. cbn. lia.
  - destruct (m !! k); cbn; apply size_insert_le.
Qed.

Section Theorems.
Context `{Uninit htbl_entry}.

Lemma exec_refines t m op :
  plain t m → hop_valid op → Z.of_nat (size m) < INT_MAX →
  ∃ t', exec t op = Ok ((exec_map m op).1, t') ∧ plain t' (exec_map m op).2.
Proof.
  intros Hp Hv Hmax. destruct op as [k d|k|k|k d]; cbn in *.
  - destruct (plain_put _ _ _ d Hp Hv Hmax) as (t' & -> & Hp').
    destruct (Spec.put m k d). eauto.
  - rewrite (repr_get _ _ _ k (plain_repr _ _ Hp)). eauto.
  - destruct (plain_remove _ _ k Hp) as (t' & -> & Hp').
    destruct (Spec.remove m k) as [[? ?] ?]. eauto.
  - destruct (plain_replace _ _ _ d Hp Hv Hmax) as (t' & -> & Hp').
    destruct (Spec.replace m k d) as [[? ?] ?]. eauto.
Qed.

(** C5: A hash table without a free list refines a finite map: any sequence of
    [htbl_put], [htbl_get], [htbl_remove], [htbl_replace] and their string
    versions runs without undefined behaviour, returns what the same operations
    on the map return, and ends in a table that represents the map, with no
    entry and no key copy leaked. *)
Theorem htbl_refines_map t m ops :
  plain t m → Forall hop_valid ops → Z.of_nat (size m + length ops) ≤ INT_MAX →
  ∃ t', exec_all t ops = Ok ((exec_map_all m ops).1, t') ∧ plain t' (exec_map_all m ops).2.
Proof.
  intros Hp Hv. revert t m Hp. induction Hv as [|op ops Hop Hv IH]; intros t m Hp Hmax; cbn in *.
  - eauto.
  - destruct (exec_refines _ _ _ Hp Hop) as (t1 & -> & Hp1); [lia|].
    pose proof (exec_map_size m op) as Hsz. cbn.
    destruct (exec_map m op) as [o m1]. cbn in *.
    destruct (IH t1 m1 Hp1) as (t' & -> & Hp'); [lia|]. cbn.
    destruct (exec_map_all m1 ops) as [os m2]. eauto.
Qed.

(** A table made without a free list. *)
Lemma htbl_init_plain init :
  0 < init ≤ INT_MAX → ∃ t, htbl_init init 0 = Ok (0, t) ∧ plain t ∅.
Proof.
  intros Hi. destruct (htbl_init_holds init 0 Hi) as (t & css & l & E & Hh & Hnil & _ & Hin & H0 & Hs & _);
    [int_lia|]. destruct (H0 eq_refl) as [-> He]. exists t. split; [done|]. exists css.
  rewrite Hnil, Hin, He, Hs. split; [done|]. split; [done|]. split; [done|].
  split; intros a [x Hx]; cbn in Hx; by rewrite lookup_empty in Hx.
Qed.

(** [htbl_init] makes an empty table of the given size whatever the size of
    the free list, and [htbl_count] and [htbl_size] report it. *)
Theorem htbl_init_correct init initbuf :
  0 < init ≤ INT_MAX → in_int (3 * initbuf) →
  ∃ t, htbl_init init initbuf = Ok (0, t) ∧ repr Sane t ∅ ∧
    htbl_count t = 0 ∧ htbl_size t = init ∧ (initbuf = 0 → plain t ∅).
Proof.
  intros Hi Hb.
  destruct (htbl_init_holds init initbuf Hi Hb) as (t & css & l & E & Hh & Hnil & Hsz & Hin & H0 & Hs & _).
  assert (Hr : repr Sane t ∅) by (exists css, l; by rewrite Hnil).
  exists t. split; [done|]. split; [done|]. split; [exact (repr_count _ _ _ Hr)|].
  split; [done|]. intros ->. destruct (htbl_init_plain init Hi) as (t' & E' & Hp).
  rewrite E' in E. by injection E as ->.
Qed.

(** On a table whose free list is sane, [htbl_put] and [htbl_str_put] insert
    a new key (result 0) and refuse a key that is present (result -1); the
    table then represents the updated map, even when the free list has become
    stale. *)
Theorem htbl_put_pooled t m k d :
  repr Sane t m → valid_key k → Z.of_nat (size m) < INT_MAX →
  ∃ q t', hput t k d = Ok ((Spec.put m k d).1, t') ∧ repr q t' (Spec.put m k d).2 ∧
    (m !! k ≠ None → t' = t).
Proof.
  intros Hr Hv Hmax. rewrite <- (repr_count _ _ _ Hr) in Hmax. pose proof Hr as (css & l & Hh & ->).
  destruct (put_refines _ _ _ _ _ d eq_refl Hh Hv Hmax) as (q & t' & css' & l' & E & Hh' & Hm & _).
  exists q, t'. split; [done|]. split; [by exists css', l'|]. intros Hk.
  destruct (repr_dec css k) as [Hin|Hn]; [|by apply cells_map_None in Hn].
  rewrite (hput_present _ _ _ _ (ho_table _ _ _ _ Hh) Hin) in E. by injection E as _ <-.
Qed.

(** On a table whose free list is sane, [htbl_remove] and [htbl_str_remove]
    delete the key, return 1 and its data, or return 0 when it is absent, and
    the free list stays sane. *)
Theorem htbl_remove_pooled t m k :
  repr Sane t m →
  ∃ t', hremove t k = Ok ((Spec.remove m k).1, t') ∧ repr Sane t' (Spec.remove m k).2.
Proof.
  intros (css & l & Hh & ->).
  destruct (remove_refines _ _ _ k Hh) as (t' & css' & l' & E & Hh' & Hm & _).
  exists t'. split; [done|]. by exists css', l'.
Qed.

(** C28: [htbl_rehash] of a table without a free list changes the number of slots
    and nothing else, for every new size below [2^28]: the table represents the
    same map, and nothing leaks. The bytes of the new array are counted in an
    [int]: for the sizes from [2^28] to [2^29] the count is negative, nothing can be
    allocated, and the NULL that [malloc] returns is written to. *)
Theorem htbl_rehash_correct t m newsize :
  plain t m →
  (0 < newsize < 2 ^ 28 →
   ∃ t', htbl_rehash t newsize = Ok (0, t') ∧ plain t' m ∧ htbl_size t' = newsize ∧
    htbl_count t' = htbl_count t) ∧
  (2 ^ 28 ≤ newsize < 2 ^ 29 → newsize ≠ htbl_size t → htbl_rehash t newsize = Fault NullDeref).
Proof.
  intros Hp. split; [intros Hs|].
  2: { intros Hs Hne. unfold htbl_rehash. rewrite (proj2 (Z.eqb_neq newsize _)) by exact Hne.
       by rewrite int_array_negative. }
  destruct (htbl_rehash_plain _ _ _ Hp Hs) as (t' & E & Hp' & Hsz).
  exists t'. split; [done|]. split; [done|]. split; [done|]. unfold htbl_count.
  by rewrite (repr_count _ _ _ (plain_repr _ _ Hp)), (repr_count _ _ _ (plain_repr _ _ Hp')).
Qed.

(** [htbl_free] on a table without a free list gives back every entry; the
    copies of its string keys stay allocated. *)
Theorem htbl_free_correct t m :
  plain t m → ∃ h, htbl_free t = Ok (0, h, strs t) ∧ cells h = ∅.
Proof.
  intros (css & Hh & -> & _ & Hea & _).
  destruct (htbl_free_holds _ _ _ _ Hh) as (h & E & Hgone & Hfr). exists h. split; [done|].
  apply map_empty. intros a. destruct (decide (a ∈ addrs (concat css))) as [Ha|Ha]; [by apply Hgone|].
  rewrite Hfr by done. destruct (cells (ents t) !! a) eqn:Ea; [|done].
  destruct Ha. apply Hea. by eexists.
Qed.

(** C29: With an array of [htbl_count] integers, [htbl_enum_int_keys] stores
    each key of a table of integer keys exactly once and returns the count. *)
Theorem htbl_enum_int_keys_correct q t m (keys : list Z) :
  repr q t m → (∀ k, k ∈ dom m → ∃ z, k = KInt z) → Z.of_nat (length keys) = htbl_count t →
  ∃ ks, htbl_enum_int_keys t keys (htbl_count t) = Ok (ks, htbl_count t) ∧
    KInt <$> ks ≡ₚ elements (dom m).
Proof.
  intros (css & l & Hh & ->) Hint Hlen. pose proof (ho_table _ _ _ _ Hh) as Ht.
  unfold htbl_count in *. rewrite (to_count _ _ Ht) in *. pose proof (to_max _ _ Ht) as Hmx.
  rewrite (to_count _ _ Ht) in Hmx.
  rewrite (htbl_enum_int_keys_holds _ _ _ _ keys _ Hh) by lia.
  eexists; split; [done|]. rewrite drop_ge, app_nil_r by lia.
  assert (KInt <$> (cell_int <$> concat css) = keys_of (concat css)) as ->.
  { rewrite <- list_fmap_compose. apply list_fmap_ext. intros i c Hc.
    apply list_elem_of_lookup_2 in Hc. unfold cell_int. cbn.
    destruct (Hint (c_key c)) as [z ->]; [|done].
    apply elem_of_dom. exists (c_data c). apply cells_map_lookup; [apply Ht|eauto]. }
  apply NoDup_Permutation; [apply Ht|apply NoDup_elements|]. intros k.
  rewrite elem_of_elements, elem_of_dom. destruct (repr_dec css k) as [Hk|Hk].
  - split; [|done]. intros _. destruct (cells_map (concat css) !! k) eqn:E; [eauto|].
    by apply cells_map_None in E.
  - rewrite (proj2 (cells_map_None _ _) Hk). split; [done|]. by intros [? ?].
Qed.

(** [htbl_empty_slots] counts the slots that no key hashes to, and
    [htbl_longest_chain] returns the number of keys of the fullest slot and the
    first such slot (an indeterminate index when the table is empty). *)
Theorem htbl_statistics_correct q t m :
  repr q t m →
  htbl_empty_slots t =
    Ok (Z.of_nat (length (filter (fun i => slot_keys m (htbl_size t) i = ∅)
                                 (seq 0 (Z.to_nat (htbl_size t)))))) ∧
  ∃ s, htbl_longest_chain t = Ok s ∧ longest_inv m (htbl_size t) (htbl_size t) s.
Proof.
  intros (css & l & Hh & ->). split.
  - by apply (htbl_empty_slots_holds _ _ _ _ Hh).
  - by apply (htbl_longest_chain_holds _ _ _ _ Hh).
Qed.

(** The loop of [htbl_remove_next] fails at the first slot that is not empty. *)
Lemma remove_next_from_fault t css i cs : ∀ n j,
  holds Sane t css [] → p_init (t_pool (tbl t)) = 0 →
  css !! i = Some cs → cs ≠ [] → (j ≤ i < j + n)%nat →
  remove_next_from n t (Z.of_nat j) = Fault BadPtr.
Proof.
  intros n. induction n as [|n IH]; intros j Hh Hz Hi Hne Hj; [lia|]. cbn.
  pose proof (ho_table _ _ _ _ Hh) as Ht. pose proof (lookup_lt_Some _ _ _ Hi).
  destruct (lookup_lt_is_Some_2 css j) as [cs' Hcs']; [lia|].
  destruct (Forall2_lookup_r _ _ _ _ _ (to_chains _ _ Ht) Hcs') as (p & Hp & Hch).
  rewrite (arr_get_Ok _ _ _ Hp). cbn. destruct cs' as [|c cs'].
  - cbn in Hch. subst p. cbn. replace (Z.of_nat j + 1) with (Z.of_nat (S j)) by lia.
    apply IH; try done. destruct (decide (i = j)) as [->|]; [|lia].
    rewrite Hi in Hcs'. by injection Hcs' as ->.
  - destruct Hch as (-> & nx & [[hsh He] Hk] & _).
    rewrite truthy_true by exact (heap_wf_pos _ _ _ (to_ents _ _ Ht) He).
    rewrite (h_load_Ok _ _ _ (to_ents _ _ Ht) He). cbn.
    assert (∃ ss, (if key_type (c_key c) =? HTBL_KEY_STR
                   then ss ← h_free (strs t) (c_ptr c); Ok (t <| strs := ss |>) else Ok t)
                  = Ok (t <| strs := ss |>)) as [ss ->].
    { destruct (c_key c); cbn in *; [exists (strs t); by destruct t|].
      rewrite h_free_Ok by (try apply Ht; by eexists). eauto. }
    cbn. destruct (pool_release_spec _ _ _ (c_addr c) (to_ents _ _ Ht) (ho_pool _ _ _ _ Hh)) as
      (pl' & h' & l' & E & Hw & _ & _ & _ & _ & _ & Hzero); [by eexists|apply not_elem_of_nil|].
    unfold release_entry. cbn. rewrite E. cbn. unfold h_load.
    destruct (Z.eqb_spec (c_addr c) NULL) as [Ez|_].
    { by destruct (heap_wf_pos _ _ _ (to_ents _ _ Ht) He). }
    destruct (Hzero Hz) as (_ & _ & ->). by rewrite lookup_delete_eq.
Qed.

(** On a table without a free list, [htbl_remove_next] reads an entry it
    has just freed whenever one of the first [htbl_count] slots is in use. *)
Theorem htbl_remove_next_use_after_free t m k i :
  plain t m → k ∈ dom m → hkey_hash k (htbl_size t) = Ok (Z.of_nat i) →
  Z.of_nat i < htbl_count t → htbl_remove_next t = Fault BadPtr.
Proof.
  intros (css & Hh & -> & Hz & _) Hk Hi Hlt. pose proof (ho_table _ _ _ _ Hh) as Ht.
  destruct (slot_of_key _ _ Ht k) as (j & p & cs & Hj & Hcs & _ & _ & _ & Hiff).
  unfold htbl_size in Hi. rewrite Hj in Hi. injection Hi as Hi. apply Nat2Z.inj in Hi as ->.
  unfold htbl_remove_next, htbl_count in *. change 0 with (Z.of_nat 0).
  eapply remove_next_from_fault; try done; [|lia].
  intros ->. apply elem_of_dom in Hk as [d Hd].
  destruct (repr_dec css k) as [Hin|Hn]; [|apply cells_map_None in Hn; congruence].
  apply Hiff in Hin. by apply elem_of_nil in Hin.
Qed.
(** A free list can go stale, and then the table is wrong: with one slot
    and a free list of one entry, the calls below leave the entry of key 3 both
    in the free list and in a chain, so that a key that was just removed is
    still found. *)
Theorem htbl_stale_pool_counterexample :
  ∃ t t', htbl_init 1 1 = Ok (0, t) ∧
    exec_all t [HPut (KInt 1) 10; HPut (KInt 2) 20; HPut (KInt 3) 30; HRemove (KInt 1);
                HRemove (KInt 2); HPut (KInt 4) 40; HRemove (KInt 3); HGet (KInt 3)] =
      Ok ([(0, None); (0, None); (0, None); (1, Some 10);
           (1, Some 20); (0, None); (1, Some 30); (1, Some 30)], t').
Proof. unfold Uninit in *. destruct H. eexists _, _. split; c_run. Qed.

(** [htbl_enum_int_keys] does not keep to the array it is given: with room
    for one key and two slots in use it writes past the end. *)
Theorem htbl_enum_overflow :
  ∃ t t' os, htbl_init 7 0 = Ok (0, t) ∧
    exec_all t [HPut (KInt 3) 30; HPut (KInt 4) 40] = Ok (os, t') ∧
    htbl_enum_int_keys t' [0] 1 = Fault OutOfBounds.
Proof. unfold Uninit in *. destruct H. eexists _, _, _. split; [|split]; c_run. Qed.
End Theorems.

(** ** Concrete tables *)

Module Examples.
#[export] Instance zero_entry : Uninit htbl_entry := Entry 0 0 0 0 0.

Definition table7 : htbl_t :=
  Htbl (Hashtbl 7 0 (replicate 7 NULL) (replicate 7 0) (Pool 0 0 NULL NULL)) heap_empty heap_empty.

Lemma table7_plain : plain table7 ∅.
Proof.
  destruct (htbl_init_plain 7) as (t & E & Hp); [int_lia|]. by injection E as <-.
Qed.

(** [table7] with the keys 3, 10 (same slot) and a string. *)
Definition ops3 : list hop := [HPut (KInt 3) 30; HPut (KInt 10) 100; HPut (KStr [97; 98]) 5].

Definition table7_3 : htbl_t :=
  Eval vm_compute in match exec_all table7 ops3 with Ok (_, t) => t | Fault _ => table7 end.

Definition map3 : gmap hkey Z := (exec_map_all ∅ ops3).2.

Lemma table7_3_plain : plain table7_3 map3.
Proof.
  destruct (exec_refines table7 ∅ (HPut (KInt 3) 30) table7_plain) as (t1 & E1 & H1); [by cbn; int_lia|done|].
  destruct (exec_refines _ _ (HPut (KInt 10) 100) H1) as (t2 & E2 & H2); [by cbn; int_lia|done|].
  destruct (exec_refines _ _ (HPut (KStr [97; 98]) 5) H2) as (t3 & E3 & H3); [done|done|].
  assert (t3 = table7_3) as <-; [|exact H3].
  vm_compute in E1. injection E1 as <-. vm_compute in E2. injection E2 as <-.
  vm_compute in E3. by injection E3 as <-.
Qed.

Definition ops8 : list hop :=
  [HPut (KInt 3) 30; HPut (KInt 3) 31; HReplace (KInt 3) 32; HGet (KInt 3);
   HPut (KStr [97]) 5; HRemove (KInt 3); HGet (KInt 3); HGet (KStr [97])].

Lemma htbl_refines_map_witness :
  ∃ t', exec_all table7 ops8 =
          Ok ([(0, None); (-1, None); (1, Some 30); (1, Some 32);
               (0, None); (1, Some 32); (0, None); (1, Some 5)], t') ∧
        plain t' (exec_map_all ∅ ops8).2.
Proof.
  destruct (htbl_refines_map table7 ∅ ops8 table7_plain) as (t' & E & Hp).
  - repeat constructor; vm_compute; congruence.
  - vm_compute. congruence.
  - exists t'. split; [|exact Hp]. rewrite E. vm_compute. reflexivity.
Defined.

Lemma htbl_init_correct_witness :
  ∃ t, htbl_init 50 20 = Ok (0, t) ∧ repr Sane t ∅ ∧ htbl_count t = 0 ∧ htbl_size t = 50 ∧
       (20 = 0 → plain t ∅).
Proof. apply (htbl_init_correct 50 20); vm_compute; split; congruence. Defined.

Lemma htbl_put_pooled_witness :
  ∃ q t', hput table7_3 (KInt 4) 40 = Ok (0, t') ∧ repr q t' (<[KInt 4 := 40]> map3) ∧
          (map3 !! KInt 4 ≠ None → t' = table7_3).
Proof.
  apply (htbl_put_pooled table7_3 map3 (KInt 4) 40 (plain_repr _ _ table7_3_plain)).
  - vm_compute. split; congruence.
  - vm_compute. reflexivity.
Defined.

Lemma htbl_remove_pooled_witness :
  ∃ t', hremove table7_3 (KInt 10) = Ok ((1, Some 100), t') ∧ repr Sane t' (delete (KInt 10) map3).
Proof. exact (htbl_remove_pooled table7_3 map3 (KInt 10) (plain_repr _ _ table7_3_plain)). Defined.

Lemma htbl_rehash_correct_witness :
  (∃ t', htbl_rehash table7_3 2 = Ok (0, t') ∧ plain t' map3 ∧ htbl_size t' = 2 ∧
    htbl_count t' = htbl_count table7_3) ∧
  htbl_rehash table7_3 (2 ^ 28) = Fault NullDeref.
Proof.
  split.
  - apply (htbl_rehash_correct table7_3 map3 2 table7_3_plain). vm_compute. split; congruence.
  - apply (htbl_rehash_correct table7_3 map3 (2 ^ 28) table7_3_plain); vm_compute; [split; congruence|discriminate].
Defined.

Lemma htbl_free_correct_witness :
  ∃ h, htbl_free table7_3 = Ok (0, h, strs table7_3) ∧ cells h = ∅.
Proof. exact (htbl_free_correct table7_3 map3 table7_3_plain). Defined.

Lemma htbl_statistics_correct_witness :
  htbl_empty_slots table7_3 =
    Ok (Z.of_nat (length (filter (fun i => slot_keys map3 (htbl_size table7_3) i = ∅)
                                 (seq 0 (Z.to_nat (htbl_size table7_3)))))) ∧
  ∃ s, htbl_longest_chain table7_3 = Ok s ∧
       longest_inv map3 (htbl_size table7_3) (htbl_size table7_3) s.
Proof. exact (htbl_statistics_correct Sane table7_3 map3 (plain_repr _ _ table7_3_plain)). Defined.

(** [table7] with the keys 0 and 7, both in slot 0. *)
Definition table7_2 : htbl_t :=
  Eval vm_compute in match exec_all table7 [HPut (KInt 0) 5; HPut (KInt 7) 6] with
                     | Ok (_, t) => t | Fault _ => table7 end.

Definition map2 : gmap hkey Z := {[KInt 7 := 6; KInt 0 := 5]}.

Lemma table7_2_plain : plain table7_2 map2.
Proof.
  destruct (exec_refines table7 ∅ (HPut (KInt 0) 5) table7_plain) as (t1 & E1 & H1); [by cbn; int_lia|done|].
  destruct (exec_refines _ _ (HPut (KInt 7) 6) H1) as (t2 & E2 & H2); [by cbn; int_lia|done|].
  vm_compute in E1. injection E1 as <-. vm_compute in E2. by injection E2 as <-.
Qed.

Lemma map2_int k : k ∈ dom map2 → ∃ z, k = KInt z.
Proof. unfold map2. rewrite dom_insert_L, dom_singleton_L. set_solver. Qed.

Lemma htbl_enum_int_keys_correct_witness :
  ∃ ks, htbl_enum_int_keys table7_2 [0; 0] 2 = Ok (ks, 2) ∧ KInt <$> ks ≡ₚ elements (dom map2).
Proof.
  exact (htbl_enum_int_keys_correct Sane table7_2 map2 [0; 0]
           (plain_repr _ _ table7_2_plain) map2_int eq_refl).
Defined.

Lemma htbl_remove_next_witness : htbl_remove_next table7_2 = Fault BadPtr.
Proof.
  apply (htbl_remove_next_use_after_free table7_2 map2 (KInt 7) 0 table7_2_plain).
  - apply elem_of_dom. vm_compute. eauto.
  - vm_compute. reflexivity.
  - vm_compute. reflexivity.
Defined.
End Examples.
