(* ===== verification/Mqueue.v ===== *)
(** * The message queue of [src/lib/util/mqueue.c]: definitions

    A singly linked queue of pointers with a cached position ([index],
    [indexed]) for indexed access and a private free list of nodes, the [pool]
    of file [Pool].  [mqueue_t] is what the C pointer of that name reaches: the
    [struct mqueue] and the nodes it allocated.  The contents are addresses
    that the queue never follows. *)

From S2P Require Import Prelude Heap Pool.

Record mqueue_item := Item { content : Z; next : Z }.
#[global] Instance mqueue_item_eta : Eta mqueue_item := fun r => Item (content r) (next r).

#[global] Program Instance mqueue_item_linked : Linked mqueue_item := {
  nxt := next;
  set_nxt z x := x <| next := z |>
}.
Solve All Obligations with by intros; repeat match goal with x : mqueue_item |- _ => destruct x end.

Record mqueue := Mqueue {
  count : Z;
  index : Z;
  indexed : Z;
  q_pool : pool;      (* init, nbuf, buf_front, buf_back *)
  first : Z;
  last : Z
}.
#[global] Instance mqueue_eta : Eta mqueue := fun r =>
  Mqueue (count r) (index r) (indexed r) (q_pool r) (first r) (last r).

Record mqueue_t := MqueueT { que : mqueue; items : heap mqueue_item }.
#[global] Instance mqueue_t_eta : Eta mqueue_t := fun r => MqueueT (que r) (items r).

Section Mqueue.
Context `{Uninit mqueue_item}.
Implicit Types (t : mqueue_t) (c : Z).

Definition mqueue_init (nitems : Z) : res mqueue_t :=
  '(pl, h) ← pool_init nitems heap_empty;
  Ok (MqueueT (Mqueue 0 0 NULL pl NULL NULL) h).

(** The loop [while(queue->buf_front)] of [mqueue_free]. *)
Fixpoint free_buf (fuel : nat) (h : heap mqueue_item) (item : Z) : res (heap mqueue_item) :=
  if truthy item then
    match fuel with
    | O => Fault Diverges
    | S fuel =>
        x ← h_load h item;
        h ← h_free h item;
        free_buf fuel h (next x)
    end
  else Ok h.

(** What is left in memory after the queue is freed. *)
Definition mqueue_free t : res (heap mqueue_item) :=
  if truthy (p_init (q_pool (que t)))
  then free_buf (walk_fuel (items t)) (items t) (p_front (q_pool (que t)))
  else Ok (items t).

Definition mqueue_alloc_item t : res (Z * mqueue_t) :=
  '(item, pl, h) ← pool_alloc (q_pool (que t)) (items t);
  Ok (item, t <| que := que t <| q_pool := pl |> |> <| items := h |>).

Definition mqueue_free_item t (item : Z) : res mqueue_t :=
  '(pl, h) ← pool_release (q_pool (que t)) (items t) item;
  Ok (t <| que := que t <| q_pool := pl |> |> <| items := h |>).

Definition mqueue_resize_buffer t (num : Z) : mqueue_t :=
  t <| que := que t <| q_pool := q_pool (que t) <| p_init := num |> |> |>.

(** [while(clear)].  The fuel is [|clear|]: it is enough when [clear] is not
    negative, and a negative [clear] is counted down until it overflows. *)
Fixpoint downsize_loop (fuel : nat) t (clear : Z) : res mqueue_t :=
  if truthy clear then
    match fuel with
    | O => Fault SignedOverflow
    | S fuel =>
        '(item, t) ← mqueue_alloc_item t;
        h ← h_free (items t) item;
        clear ← sub_int clear 1;
        downsize_loop fuel (t <| items := h |>) clear
    end
  else Ok t.

Definition mqueue_downsize_buffer t (percent : Z) : res mqueue_t :=
  prod ← mul_int (p_nbuf (q_pool (que t))) percent;
  let clear := Z.quot prod 100 in
  downsize_loop (Z.to_nat (Z.abs clear)) t clear.

(** The branch [queue->last == NULL] of [mqueue_add] and [mqueue_append]. *)
Definition first_item (q : mqueue) (item : Z) : mqueue :=
  q <| last := item |> <| first := item |> <| index := 0 |> <| indexed := item |>.

Definition mqueue_add t (_content : Z) : res mqueue_t :=
  '(item, t) ← mqueue_alloc_item t;
  h ← h_store (items t) item (Item _content NULL);
  let t := t <| items := h |> in
  t ← (if last (que t) =? NULL then Ok (t <| que := first_item (que t) item |>)
       else
         x ← h_load (items t) item;
         h ← h_store (items t) item (x <| next := first (que t) |>);
         ix ← add_int (index (que t)) 1;
         Ok (t <| items := h |> <| que := que t <| first := item |> <| index := ix |> |>));
  n ← add_int (count (que t)) 1;
  Ok (t <| que := que t <| count := n |> |>).

Definition mqueue_append t (_content : Z) : res mqueue_t :=
  '(item, t) ← mqueue_alloc_item t;
  h ← h_store (items t) item (Item _content NULL);
  let t := t <| items := h |> in
  t ← (if last (que t) =? NULL then Ok (t <| que := first_item (que t) item |>)
       else
         x ← h_load (items t) (last (que t));
         h ← h_store (items t) (last (que t)) (x <| next := item |>);
         Ok (t <| items := h |> <| que := que t <| last := item |> |>));
  n ← add_int (count (que t)) 1;
  Ok (t <| que := que t <| count := n |> |>).

Definition mqueue_remove t : res (Z * mqueue_t) :=
  let item := first (que t) in
  if truthy item then
    x ← h_load (items t) item;
    let q := que t <| first := next x |> in
    let q := if first q =? NULL then q <| last := NULL |> else q in
    let q := q <| index := 0 |> <| indexed := first q |> in
    t ← mqueue_free_item (t <| que := q |>) item;
    n ← sub_int (count (que t)) 1;
    Ok (content x, t <| que := que t <| count := n |> |>)
  else Ok (NULL, t).

Definition mqueue_size t : Z := count (que t).

(** One step of [indexed = indexed->next]. *)
Definition advance t : res mqueue_t :=
  x ← h_load (items t) (indexed (que t));
  Ok (t <| que := que t <| indexed := next x |> |>).

Definition mqueue_peek_at_index t (ix : Z) : res (Z * mqueue_t) :=
  if ix <? count (que t) then
    let t := if ix <? index (que t)
             then t <| que := que t <| indexed := first (que t) |> <| index := 0 |> |> else t in
    t ← for_range (index (que t)) ix (fun _ t =>
          t ← advance t;
          i ← add_int (index (que t)) 1;
          Ok (t <| que := que t <| index := i |> |>)) t;
    x ← h_load (items t) (indexed (que t));
    Ok (content x, t)
  else Ok (NULL, t).

(** The branch [if(0)] is dead; this is its [else]. *)
Definition mqueue_remove_at_index t (ix : Z) : res (Z * mqueue_t) :=
  if ix <? count (que t) then
    let t := t <| que := que t <| indexed := first (que t) |> |> in
    '(prev_item, t) ← for_range 0 ix (fun i '(prev_item, t) =>
        let prev_item := if i =? ix - 1 then indexed (que t) else prev_item in
        t ← advance t;
        Ok (prev_item, t)) (NULL, t);
    let t := t <| que := que t <| indexed := first (que t) |> <| index := 0 |> |> in
    t ← (if negb (prev_item =? NULL) then
           p ← h_load (items t) prev_item;
           x ← h_load (items t) (indexed (que t));
           h ← h_store (items t) prev_item (p <| next := next x |>);
           Ok (t <| items := h |>)
         else
           x ← h_load (items t) (indexed (que t));
           Ok (t <| que := que t <| first := next x |> |>));
    x ← h_load (items t) (indexed (que t));
    t ← mqueue_free_item t (indexed (que t));
    n ← sub_int (count (que t)) 1;
    Ok (content x, t <| que := que t <| count := n |> |>)
  else Ok (NULL, t).

(** The search loop: the index of the item, or [None] when it reaches
    [queue->last], which it does not examine. *)
Fixpoint find_item (fuel : nat) (h : heap mqueue_item) (lst c item ix : Z) : res (option Z) :=
  if item =? lst then Ok None
  else match fuel with
       | O => Fault Diverges
       | S fuel =>
           x ← h_load h item;
           if negb (content x =? c) then
             ix ← add_int ix 1;
             find_item fuel h lst c (next x) ix
           else Ok (Some ix)
       end.

(** [None] is the value of [retval] that is never assigned. *)
Definition mqueue_remove_item t (c : Z) : res (option Z * mqueue_t) :=
  found ← find_item (walk_fuel (items t)) (items t) (last (que t)) c (first (que t)) 0;
  '(retval, t) ← match found with
                 | Some ix => '(r, t) ← mqueue_remove_at_index t ix; Ok (Some r, t)
                 | None => Ok (None, t)
                 end;
  Ok (retval, t <| que := que t <| index := 0 |> <| indexed := first (que t) |> |>).
End Mqueue.
