(* ===== verification/MqueueRepr.v ===== *)
(** * The message queue: what a well-formed queue represents

    [qok t as_ cs fl]: the nodes of the queue [t] are at the addresses [as_],
    first to last, with the contents [cs], and its free list is [fl].  The free
    list may be stale (file [Pool]); [pool_lifo] says how a stale list stays
    harmless as long as nodes are added and removed at the front only. *)

From S2P Require Import Prelude Heap Pool Mqueue.

(** ** The free list under a stack discipline *)

Section PoolLifo.
Context {A : Type} `{Linked A} `{Uninit A}.
Implicit Types (h : heap A) (pl : pool) (fl ds : list Z).

(** A stale [back] is harmless: the node is the newest one in use, or it is in
    no list, or the free list is full and [back] is not followed before the
    next allocation resets it. *)
Definition stale_back pl h ds : Prop :=
  p_init pl ≠ 0 ∧
  (hd_error ds = Some (p_back pl) ∨
   (is_Some (cells h !! p_back pl) ∧ p_back pl ∉ ds) ∨
   3 * p_init pl ≤ p_nbuf pl).

Definition pool_lifo pl h ds fl : Prop :=
  pool_ok Sane pl h fl ∨ (pool_ok Stale pl h fl ∧ stale_back pl h ds).

(** Without a free list the order of use does not matter. *)
Lemma pool_lifo_zero pl h ds ds' fl :
  p_init pl = 0 → pool_lifo pl h ds fl → pool_lifo pl h ds' fl.
Proof. intros Hz [Hs|[_ [Hi _]]]; [by left|done]. Qed.

Lemma pool_lifo_agree pl h h' ds fl :
  agree h h' fl → (∀ a, is_Some (cells h !! a) → is_Some (cells h' !! a)) →
  pool_lifo pl h ds fl → pool_lifo pl h' ds fl.
Proof.
  intros Hag Hdom [Hs|[Hs [Hi Hb]]]; [left|right; split]; try by eapply pool_ok_agree.
  split; [done|]. destruct Hb as [|[[? ?]|]]; auto.
Qed.

(** Taking the only node of a stale list makes it sane again. *)
Lemma pool_alloc_stale pl h fl :
  heap_wf h → pool_ok Stale pl h fl → p_init pl ≠ 0 →
  ∃ a pl', fl = [a] ∧ pool_alloc pl h = Ok (a, pl', h) ∧ is_Some (cells h !! a) ∧
    pool_ok Sane pl' h [] ∧ p_init pl' = p_init pl.
Proof.
  intros Hw (Hl & _ & ([a ->] & _ & _) & Hn & Hi) Hnz. exists a.
  destruct Hl as (Hf & x & Hx & Hnx). cbn in Hnx, Hn.
  unfold pool_alloc. rewrite Hf.
  rewrite (truthy_true _ Hnz), (truthy_true a) by exact (heap_wf_pos _ _ _ Hw Hx). cbn.
  rewrite (h_load_Ok _ _ _ Hw Hx). cbn. rewrite sub_int_Ok by int_lia. cbn.
  rewrite Hnx. cbn. eexists; split; [done|]. split; [done|]. split; [by eexists|].
  split; [|done]. split; [done|]. split; [constructor|]. split; [by left|]. cbn. int_lia.
Qed.

Lemma pool_alloc_lifo pl h ds fl :
  heap_wf h → pool_lifo pl h ds fl →
  ∃ a pl' h' fl',
    pool_alloc pl h = Ok (a, pl', h') ∧ heap_wf h' ∧ is_Some (cells h' !! a) ∧
    pool_lifo pl' h' (a :: ds) fl' ∧ (a ∉ fl') ∧ (∀ b, b ∈ fl' → b ∈ fl) ∧
    (∀ b, is_Some (cells h !! b) → cells h' !! b = cells h !! b) ∧
    (∀ b, is_Some (cells h !! b) → b ∉ fl → b ≠ a) ∧
    (∀ b, is_Some (cells h' !! b) → b = a ∨ is_Some (cells h !! b)) ∧
    p_init pl' = p_init pl ∧ (p_init pl = 0 → fl' = fl).
Proof.
  intros Hw [Hs|[Hs [Hi _]]].
  - destruct (pool_alloc_spec _ _ _ Hw Hs)
      as (a & pl' & h' & l' & q & E & Hw' & Ha & Hok & Hna & Hsub & Hfr & Hne & Hnew & Hin & Hz & Hst & _).
    exists a, pl', h', l'. repeat (split; [done|]). split; [|repeat (split; [done|]); intros; by apply Hz].
    destruct q; [by left|right]. split; [done|]. split.
    + rewrite Hin. intros E0. by destruct (Hz E0).
    + left. cbn. by rewrite Hst.
  - destruct (pool_alloc_stale _ _ _ Hw Hs Hi) as (a & pl' & -> & E & Ha & Hok & Hin).
    exists a, pl', h, []. repeat (split; [done|]). split; [by left|].
    split; [apply not_elem_of_nil|]. split; [by intros ? ?%elem_of_nil|]. split; [done|].
    split; [|split; [by right|done]]. intros b _ Hb ->. apply Hb. left.
Qed.

(** Releasing the newest node when [back] is stale: it is freed, or linked
    after a node that nobody reads. *)
Lemma pool_release_stale pl h d ds fl :
  heap_wf h → pool_ok Stale pl h fl → stale_back pl h (d :: ds) →
  is_Some (cells h !! d) → d ∉ ds → d ∉ fl →
  ∃ pl' h', pool_release pl h d = Ok (pl', h') ∧ heap_wf h' ∧ pool_ok Stale pl' h' fl ∧
    stale_back pl' h' ds ∧ (∀ b, b ∈ ds → cells h' !! b = cells h !! b) ∧ p_init pl' = p_init pl.
Proof.
  intros Hw (Hl & Hnd & Hends & Hn & Hi) (Hnz & Hb) [x Hx] Hds Hfl.
  pose proof Hends as (Hone & Hbn & Hbf).
  unfold pool_release. rewrite (h_load_Ok _ _ _ Hw Hx). cbn.
  rewrite h_store_Ok by (try done; by eexists). cbn.
  pose proof (heap_wf_set h d (set_nxt NULL x) Hw (mk_is_Some _ _ Hx)) as Hw1.
  pose proof (lookup_h_set h d (set_nxt NULL x)) as Hx1.
  assert (Hfr : ∀ b, d ≠ b → cells (h_set h d (set_nxt NULL x)) !! b = cells h !! b)
    by (intros; by apply lookup_h_set_ne).
  assert (Hag : agree h (h_set h d (set_nxt NULL x)) fl) by by apply agree_set.
  revert Hw1 Hx1 Hfr Hag. generalize (h_set h d (set_nxt NULL x)) as h1. intros h1 Hw1 Hx1 Hfr Hag.
  rewrite pool_has_room_Ok, (truthy_true (p_init pl)), (truthy_true (p_back pl)) by done. cbn.
  destruct (Z.ltb_spec (p_nbuf pl) (3 * p_init pl)) as [Hroom|Hroom].
  - assert (Hbk : (d = p_back pl ∨ (is_Some (cells h !! p_back pl) ∧ p_back pl ∉ d :: ds))).
    { destruct Hb as [[= <-]|[?|?]]; [by left|by right|lia]. }
    assert (∃ y, cells h1 !! p_back pl = Some y) as [y Hy].
    { destruct Hbk as [<-|[[y Hy] Hnin]]; [by eexists|]. exists y. rewrite Hfr; [done|].
      intros ->. apply Hnin. left. }
    assert (Hbds : p_back pl ∉ ds).
    { destruct Hbk as [<-|[_ Hnin]]; [done|]. intros Hin. apply Hnin. by right. }
    rewrite (h_load_Ok _ _ _ Hw1 Hy). cbn.
    rewrite h_store_Ok by (try done; by eexists). cbn. rewrite add_int_Ok by int_lia. cbn.
    eexists _, _. split; [done|]. split; [apply heap_wf_set; [done|by eexists]|].
    split; [|split; [|split; [|done]]].
    + split; [|split; [done|split; [done|cbn; int_lia]]]. cbn.
      eapply lseg_agree; [by apply agree_set|]. by eapply lseg_agree.
    + split; [done|]. right; left. cbn. split; [|done].
      rewrite lookup_h_set. by eexists.
    + intros b Hbin. rewrite lookup_h_set_ne by (by intros <-). apply Hfr. by intros ->.
  - rewrite h_free_Ok by (try done; by eexists). cbn. eexists _, _. split; [done|].
    split; [by apply heap_wf_del|]. split; [|split; [|split; [|done]]].
    + split; [|done]. eapply lseg_agree; [by apply agree_del|]. by eapply lseg_agree.
    + split; [done|]. auto.
    + intros b Hbin. assert (d ≠ b) by (by intros ->). rewrite lookup_h_del_ne by done. auto.
Qed.

Lemma pool_release_lifo pl h d ds fl :
  heap_wf h → pool_lifo pl h (d :: ds) fl →
  is_Some (cells h !! d) → d ∉ ds → d ∉ fl → (∀ b, b ∈ ds → b ∉ fl) →
  ∃ pl' h' fl',
    pool_release pl h d = Ok (pl', h') ∧ heap_wf h' ∧ pool_lifo pl' h' ds fl' ∧
    (∀ b, b ∈ fl' → b = d ∨ b ∈ fl) ∧
    (∀ b, b ∈ ds → cells h' !! b = cells h !! b) ∧ p_init pl' = p_init pl ∧
    (p_init pl = 0 → fl' = fl ∧ cells h' = delete d (cells h)).
Proof.
  intros Hw [Hs|[Hs Hb]] Hd Hds Hfl Hdis.
  - destruct (pool_release_spec _ _ _ _ Hw Hs Hd Hfl)
      as (pl' & h' & l' & E & Hw' & Hok & Hsub & Hfr & _ & Hin & Hz).
    exists pl', h', l'. repeat (split; [done|]). split; [by left|]. split; [done|].
    split; [|split; [done|intros E0; by destruct (Hz E0) as (_ & ? & ?)]].
    intros b Hbin. apply Hfr; [by intros ->|auto].
  - destruct (pool_release_stale _ _ _ _ _ Hw Hs Hb Hd Hds Hfl)
      as (pl' & h' & E & Hw' & Hok & Hst & Hfr & Hin).
    exists pl', h', fl. repeat (split; [done|]). split; [by right|]. split; [by right|].
    split; [done|]. split; [done|]. intros E0. by destruct (proj1 Hb).
Qed.
End PoolLifo.

(** ** Queues *)

Record qok (t : mqueue_t) (as_ cs fl : list Z) : Prop := {
  qo_wf : heap_wf (items t);
  qo_seg : lseg (items t) (first (que t)) as_ NULL;
  qo_content : Forall2 (fun a c => content <$> cells (items t) !! a = Some c) as_ cs;
  qo_nodup : NoDup as_;
  qo_last : last (que t) = default NULL (list.last as_);
  qo_count : count (que t) = Z.of_nat (length cs);
  qo_max : count (que t) ≤ INT_MAX;
  qo_index : if bool_decide (as_ = []) then index (que t) = 0 ∧ indexed (que t) = NULL
             else 0 ≤ index (que t) ∧ as_ !! Z.to_nat (index (que t)) = Some (indexed (que t));
  qo_disj : ∀ a, a ∈ as_ → a ∉ fl;
  qo_pool : pool_lifo (q_pool (que t)) (items t) as_ fl
}.

(** The contents only depend on the nodes of the queue. *)
Lemma content_agree h h' as_ cs :
  agree h h' as_ → Forall2 (fun a c => content <$> cells h !! a = Some c) as_ cs →
  Forall2 (fun a c => content <$> cells h' !! a = Some c) as_ cs.
Proof.
  intros Hag Hc. induction Hc as [|a c as_ cs Ha Hc IH]; constructor.
  - rewrite Hag; [done|]. left.
  - apply IH. eapply agree_sub; [exact Hag|]. intros b Hb. by right.
Qed.

Lemma qo_length t as_ cs fl : qok t as_ cs fl → length as_ = length cs.
Proof. intros Hq. exact (Forall2_length _ _ _ (qo_content _ _ _ _ Hq)). Qed.

Lemma qo_allocated t as_ cs fl a : qok t as_ cs fl → a ∈ as_ → is_Some (cells (items t) !! a).
Proof. intros Hq. apply (lseg_allocated _ _ _ _ _ (qo_seg _ _ _ _ Hq)). Qed.

Lemma qo_not_null t as_ cs fl a : qok t as_ cs fl → a ∈ as_ → a ≠ NULL.
Proof.
  intros Hq Ha. destruct (qo_allocated _ _ _ _ _ Hq Ha) as [x Hx].
  exact (heap_wf_pos _ _ _ (qo_wf _ _ _ _ Hq) Hx).
Qed.

(** The node at position [i]: its content, and its link to position [i + 1]. *)
Lemma lseg_lookup {A} `{Linked A} (h : heap A) p l (i : nat) a :
  lseg h p l NULL → l !! i = Some a →
  ∃ x, cells h !! a = Some x ∧ nxt x = default NULL (l !! S i).
Proof.
  revert p i. induction l as [|b l IH]; intros p i; [done|].
  intros (-> & x & Hx & Hl) Hi. destruct i as [|i]; cbn in *.
  - injection Hi as <-. exists x. split; [done|]. destruct l as [|b' l]; [done|]. by destruct Hl.
  - eauto.
Qed.

Lemma qo_item t as_ cs fl (i : nat) a :
  qok t as_ cs fl → as_ !! i = Some a →
  ∃ c, cs !! i = Some c ∧ cells (items t) !! a = Some (Item c (default NULL (as_ !! S i))).
Proof.
  intros Hq Hi. destruct (lseg_lookup _ _ _ _ _ (qo_seg _ _ _ _ Hq) Hi) as (x & Hx & Hn).
  destruct (Forall2_lookup_l _ _ _ _ _ (qo_content _ _ _ _ Hq) Hi) as (c & Hc & Hcc).
  exists c. split; [done|]. rewrite Hx in *. destruct x as [c' n]. cbn in *. by simplify_eq.
Qed.

Lemma qo_load t as_ cs fl (i : nat) a :
  qok t as_ cs fl → as_ !! i = Some a →
  ∃ c, cs !! i = Some c ∧ h_load (items t) a = Ok (Item c (default NULL (as_ !! S i))).
Proof.
  intros Hq Hi. destruct (qo_item _ _ _ _ _ _ Hq Hi) as (c & ? & Hc). exists c.
  split; [done|]. by apply h_load_Ok; [apply Hq|].
Qed.

Lemma qo_first t as_ cs fl : qok t as_ cs fl → first (que t) = default NULL (as_ !! 0%nat).
Proof. intros Hq. pose proof (qo_seg _ _ _ _ Hq) as Hs. destruct as_; [done|]. by destruct Hs. Qed.

(** A queue without a free list that leaks nothing. *)
Definition qplain (t : mqueue_t) (cs : list Z) : Prop :=
  ∃ as_, qok t as_ cs [] ∧ p_init (q_pool (que t)) = 0 ∧
    ∀ a, is_Some (cells (items t) !! a) → a ∈ as_.

(** A queue with a free list of any size, used at its front only. *)
Definition qlifo (t : mqueue_t) (cs : list Z) : Prop := ∃ as_ fl, qok t as_ cs fl.

(** ** The operations on the list of contents *)

Inductive qop :=
  | QAdd (c : Z)
  | QAppend (c : Z)
  | QRemove
  | QSize
  | QPeek (i : Z).

Definition qspec (cs : list Z) (op : qop) : Z * list Z :=
  match op with
  | QAdd c => (0, c :: cs)
  | QAppend c => (0, cs ++ [c])
  | QRemove => match cs with [] => (NULL, []) | c :: cs => (c, cs) end
  | QSize => (Z.of_nat (length cs), cs)
  | QPeek i => (default NULL (cs !! Z.to_nat i), cs)
  end.

Definition qop_valid (op : qop) : Prop := match op with QPeek i => 0 ≤ i | _ => True end.
Definition at_front (op : qop) : Prop := match op with QAppend _ => False | _ => True end.

Section Run.
Context `{Uninit mqueue_item}.

Definition qexec (t : mqueue_t) (op : qop) : res (Z * mqueue_t) :=
  match op with
  | QAdd c => t ← mqueue_add t c; Ok (0, t)
  | QAppend c => t ← mqueue_append t c; Ok (0, t)
  | QRemove => mqueue_remove t
  | QSize => Ok (mqueue_size t, t)
  | QPeek i => mqueue_peek_at_index t i
  end.

Fixpoint qexec_all (t : mqueue_t) (ops : list qop) : res (list Z * mqueue_t) :=
  match ops with
  | [] => Ok ([], t)
  | op :: ops => '(o, t) ← qexec t op; '(os, t) ← qexec_all t ops; Ok (o :: os, t)
  end.
End Run.

Fixpoint qspec_all (cs : list Z) (ops : list qop) : list Z * list Z :=
  match ops with
  | [] => ([], cs)
  | op :: ops => let '(o, cs) := qspec cs op in
                 let '(os, cs) := qspec_all cs ops in (o :: os, cs)
  end.
