(* ===== verification/MqueueProofs.v ===== *)
(** * The message queue: each operation on a well-formed queue

    The lemmas behind the contract of file [MqueueSpec]. *)

From S2P Require Import Prelude Heap Pool Mqueue MqueueRepr.

Section Proofs.
Context `{Uninit mqueue_item}.
Implicit Types (t : mqueue_t) (cs fl : list Z).

(** Allocating a node and writing it leaves the queue as it was. *)
Lemma new_item t as_ cs fl :
  qok t as_ cs fl →
  ∃ a pl h fl',
    mqueue_alloc_item t = Ok (a, t <| que := que t <| q_pool := pl |> |> <| items := h |>) ∧
    heap_wf h ∧ is_Some (cells h !! a) ∧ (a ∉ as_) ∧ (a ∉ fl') ∧
    (∀ b, b ∈ as_ → b ∉ fl') ∧ agree (items t) h as_ ∧
    pool_lifo pl h (a :: as_) fl' ∧ p_init pl = p_init (q_pool (que t)) ∧
    (p_init pl = 0 → fl' = fl ∧ ∀ b, is_Some (cells h !! b) → b = a ∨ is_Some (cells (items t) !! b)).
Proof.
  intros Hq.
  destruct (pool_alloc_lifo _ _ _ _ (qo_wf _ _ _ _ Hq) (qo_pool _ _ _ _ Hq))
    as (a & pl & h & fl' & E & Hw & Ha & Hl & Hnf & Hsub & Hfr & Hne & Hnew & Hin & Hz).
  exists a, pl, h, fl'. unfold mqueue_alloc_item. rewrite E. cbn. split; [done|].
  split; [done|]. split; [done|]. split.
  { intros Hin'. by apply (Hne a); [eapply qo_allocated|by apply (qo_disj _ _ _ _ Hq)|]. }
  split; [done|]. split; [intros b Hb Hf; by eapply (qo_disj _ _ _ _ Hq), Hsub|].
  split; [intros b Hb; apply Hfr; by eapply qo_allocated|].
  split; [done|]. split; [done|]. rewrite Hin. auto.
Qed.

(** Writing a node that is not in the free list keeps the pool. *)
Lemma pool_lifo_set (pl : pool) (h : heap mqueue_item) a x ds fl :
  a ∉ fl → pool_lifo pl h ds fl → pool_lifo pl (h_set h a x) ds fl.
Proof.
  intros Ha. apply pool_lifo_agree; [by apply agree_set|].
  intros b Hb. unfold h_set; cbn. apply lookup_insert_is_Some'. by right.
Qed.

Lemma qo_last_null t as_ cs fl : qok t as_ cs fl → last (que t) = NULL ↔ as_ = [].
Proof.
  intros Hq. rewrite (qo_last _ _ _ _ Hq). split; [|by intros ->].
  destruct as_ as [|a as_] using rev_ind; [done|]. rewrite last_snoc. cbn. intros ->.
  destruct (qo_not_null _ _ _ _ NULL Hq); [|done]. apply elem_of_app. right. left.
Qed.

(** What an insertion leaves in memory when there is no free list. *)
Definition no_leak t (as_ : list Z) : Prop := ∀ a, is_Some (cells (items t) !! a) → a ∈ as_.

(** The first item of an empty queue. *)
Lemma qok_singleton t cs fl a c pl h fl' :
  qok t [] cs fl → heap_wf h → a ∉ fl' → pool_lifo pl h [a] fl' → is_Some (cells h !! a) →
  qok (MqueueT (first_item (que t <| q_pool := pl |>) a <| count := count (que t) + 1 |>)
               (h_set h a (Item c NULL))) [a] [c] fl'.
Proof.
  intros Hq Hw Haf Hl [x Hx]. pose proof (qo_length _ _ _ _ Hq) as Hlen.
  pose proof (qo_count _ _ _ _ Hq) as Hc. rewrite <- Hlen in Hc. cbn in Hc.
  constructor; cbn; try done.
  - apply heap_wf_set; [done|by eexists].
  - split; [done|]. eexists. by rewrite lookup_h_set.
  - constructor; [|constructor]. by rewrite lookup_h_set.
  - apply NoDup_singleton.
  - rewrite Hc. done.
  - rewrite Hc. done.
  - by intros b ->%list_elem_of_singleton.
  - by apply pool_lifo_set.
Qed.

Lemma mqueue_add_ok t as_ cs fl c :
  qok t as_ cs fl → count (que t) < INT_MAX →
  ∃ t' a fl', mqueue_add t c = Ok t' ∧ qok t' (a :: as_) (c :: cs) fl' ∧
    p_init (q_pool (que t')) = p_init (q_pool (que t)) ∧
    (p_init (q_pool (que t)) = 0 → fl' = fl ∧ (no_leak t as_ → no_leak t' (a :: as_))).
Proof.
  intros Hq Hmax. pose proof (qo_length _ _ _ _ Hq) as Hlen.
  pose proof (qo_count _ _ _ _ Hq) as Hcnt.
  destruct (new_item _ _ _ _ Hq)
    as (a & pl & h & fl' & E & Hw & Ha & Has & Haf & Hdis & Hag & Hl & Hin & Hz).
  assert (Hleak : p_init (q_pool (que t)) = 0 → fl' = fl ∧
            (no_leak t as_ → ∀ x b, is_Some (cells (h_set h a x) !! b) → b ∈ a :: as_)).
  { rewrite <- Hin. intros E0. destruct (Hz E0) as [-> Hnew]. split; [done|].
    intros Hnl x b Hb. destruct (decide (a = b)) as [->|Hne]; [left|right].
    rewrite lookup_h_set_ne in Hb by done. apply Hnl. by destruct (Hnew b Hb). }
  unfold mqueue_add. rewrite E. cbn. rewrite h_store_Ok by done. cbn.
  destruct (Z.eqb_spec (last (que t)) NULL) as [El|El].
  - apply (qo_last_null _ _ _ _ Hq) in El as ->. destruct cs; [|done].
    cbn. rewrite add_int_Ok by int_lia. cbn. eexists _, a, fl'. split; [done|].
    split; [|split; [done|intros [-> Hnl]%Hleak; split; [done|]; intros Hnt b; apply (Hnl Hnt)]].
    by eapply (qok_singleton t).
  - assert (Hne : as_ ≠ []) by (by intros ?%(qo_last_null _ _ _ _ Hq)).
    pose proof (qo_index _ _ _ _ Hq) as Hix. rewrite bool_decide_eq_false_2 in Hix by done.
    destruct Hix as [Hi0 Hix]. pose proof (lookup_lt_Some _ _ _ Hix).
    rewrite (h_load_Ok _ a (Item c NULL));
      [|by apply heap_wf_set|apply lookup_h_set]. cbn.
    rewrite h_store_Ok;
      [|by apply heap_wf_set|rewrite lookup_h_set; by eexists].
    rewrite h_set_twice. cbn. rewrite add_int_Ok by int_lia. cbn.
    rewrite add_int_Ok by int_lia. cbn. eexists _, a, fl'. split; [done|].
    split; [|split; [done|intros [-> Hnl]%Hleak; split; [done|]; intros Hnt b; apply (Hnl Hnt)]].
    constructor; cbn -[length bool_decide list.last].
    + by apply heap_wf_set.
    + split; [done|]. eexists. rewrite lookup_h_set. split; [done|]. cbn.
      eapply lseg_agree; [by apply agree_set|]. eapply lseg_agree; [done|apply Hq].
    + constructor; [by rewrite lookup_h_set|].
      eapply content_agree; [by apply agree_set|]. eapply content_agree; [done|apply Hq].
    + apply NoDup_cons. split; [done|apply Hq].
    + rewrite (qo_last _ _ _ _ Hq). by destruct as_.
    + cbn. lia.
    + int_lia.
    + rewrite bool_decide_eq_false_2 by done. split; [int_lia|].
      replace (Z.to_nat (index (que t) + 1)) with (S (Z.to_nat (index (que t)))) by lia. done.
    + intros b [->|Hb]%elem_of_cons; auto.
    + by apply pool_lifo_set.
Qed.
(** Linking a node after the last one. *)
Lemma lseg_append {A} `{Linked A} (h : heap A) p l b a x y :
  NoDup (l ++ [b]) → (a ∉ l ++ [b]) → lseg h p (l ++ [b]) NULL → cells h !! b = Some x →
  cells h !! a = Some y → nxt y = NULL →
  lseg (h_set h b (set_nxt a x)) p (l ++ [b; a]) NULL.
Proof.
  intros Hnd Ha Hl Hx Hy Hn. apply NoDup_app in Hnd as (_ & Hd & _).
  change [b; a] with ([b] ++ [a]). rewrite app_assoc. apply lseg_app. exists a. split.
  - eapply lseg_relink; [|done|done]. intros Hin. by apply (Hd b), list_elem_of_singleton.
  - split; [done|]. exists y. rewrite lookup_h_set_ne; [done|].
    intros ->. apply Ha, elem_of_app. right. left.
Qed.

Lemma content_set_next (h : heap mqueue_item) b x z as_ cs :
  cells h !! b = Some x → Forall2 (fun a c => content <$> cells h !! a = Some c) as_ cs →
  Forall2 (fun a c => content <$> cells (h_set h b (x <| next := z |>)) !! a = Some c) as_ cs.
Proof.
  intros Hx Hc. eapply Forall2_impl; [exact Hc|]. intros a c Ha. cbn in Ha |- *. destruct (decide (b = a)) as [<-|Hne].
  - rewrite lookup_h_set. by rewrite Hx in Ha.
  - by rewrite lookup_h_set_ne.
Qed.

(** The queue with a new last item [a], linked after [b]. *)
Lemma qok_append t l b a c cs fl h x pl :
  qok t (l ++ [b]) cs fl → heap_wf h → a ∉ l ++ [b] → a ∉ fl → cells h !! a = Some (Item c NULL) →
  agree (items t) h (l ++ [b]) → cells h !! b = Some x → p_init pl = 0 → pool_lifo pl h [] fl →
  count (que t) < INT_MAX →
  qok (MqueueT (que t <| q_pool := pl |> <| last := a |> <| count := count (que t) + 1 |>)
               (h_set h b (x <| next := a |>))) ((l ++ [b]) ++ [a]) (cs ++ [c]) fl.
Proof.
  intros Hq Hw Has Haf Ha Hag Hx Hin Hl Hmax. pose proof (qo_count _ _ _ _ Hq) as Hcnt.
  assert (Hb : b ∈ l ++ [b]) by (apply elem_of_app; right; left).
  constructor; cbn -[length bool_decide list.last].
  - by apply heap_wf_set; [|eexists].
  - rewrite <- app_assoc. change (x <| next := a |>) with (set_nxt a x).
    eapply (lseg_append _ _ l b a x (Item c NULL)); try done;
      [apply Hq|eapply lseg_agree; [done|apply Hq]].
  - apply Forall2_app.
    + apply content_set_next; [done|]. eapply content_agree; [done|apply Hq].
    + constructor; [|constructor]. rewrite lookup_h_set_ne by (by intros ->). by rewrite Ha.
  - apply NoDup_app. split; [apply Hq|]. split; [|apply NoDup_singleton].
    by intros d Hd ->%list_elem_of_singleton.
  - by rewrite last_snoc.
  - rewrite length_app. cbn. lia.
  - int_lia.
  - pose proof (qo_index _ _ _ _ Hq) as Hix. rewrite bool_decide_eq_false_2 in * by (by destruct l).
    destruct Hix as [? Hix]. split; [done|]. by apply lookup_app_l_Some.
  - intros d [Hd|Hd%list_elem_of_singleton]%elem_of_app; [|by subst d].
    exact (qo_disj _ _ _ _ Hq d Hd).
  - apply pool_lifo_set; [by apply Hq|]. by eapply pool_lifo_zero.
Qed.

(** Appending is only correct without a free list (or while it is sane). *)
Lemma mqueue_append_ok t as_ cs fl c :
  qok t as_ cs fl → count (que t) < INT_MAX → p_init (q_pool (que t)) = 0 →
  ∃ t' a, mqueue_append t c = Ok t' ∧ qok t' (as_ ++ [a]) (cs ++ [c]) fl ∧
    p_init (q_pool (que t')) = 0 ∧ (no_leak t as_ → no_leak t' (as_ ++ [a])).
Proof.
  intros Hq Hmax Hinit. pose proof (qo_length _ _ _ _ Hq) as Hlen.
  pose proof (qo_count _ _ _ _ Hq) as Hcnt.
  destruct (new_item _ _ _ _ Hq)
    as (a & pl & h & fl' & E & Hw & Ha & Has & Haf & Hdis & Hag & Hl & Hin & Hz).
  rewrite Hinit in Hin. destruct (Hz Hin) as [-> Hnew].
  unfold mqueue_append. rewrite E. cbn. rewrite h_store_Ok by done. cbn.
  assert (Hw1 := heap_wf_set h a (Item c NULL) Hw Ha).
  assert (Hnew1 : ∀ b, is_Some (cells (h_set h a (Item c NULL)) !! b) →
                       b = a ∨ is_Some (cells (items t) !! b)).
  { intros b Hb. destruct (decide (a = b)) as [->|Hne]; [by left|].
    rewrite lookup_h_set_ne in Hb by done. auto. }
  destruct (Z.eqb_spec (last (que t)) NULL) as [El|El].
  - apply (qo_last_null _ _ _ _ Hq) in El as ->. destruct cs; [|done].
    cbn. rewrite add_int_Ok by int_lia. cbn. eexists _, a. split; [done|].
    split; [by eapply (qok_singleton t)|]. split; [done|].
    intros Hnl b [->|Hb]%Hnew1; [left|by apply Hnl, elem_of_nil in Hb].
  - assert (∃ l b, as_ = l ++ [b]) as (l & b & ->).
    { destruct as_ as [|b l _] using rev_ind; [|by eauto].
      by destruct El; apply (qo_last_null _ _ _ _ Hq). }
    rewrite (qo_last _ _ _ _ Hq), last_snoc in *. cbn in El |- *.
    assert (Hb : b ∈ l ++ [b]) by (apply elem_of_app; right; left).
    destruct (qo_allocated _ _ _ _ _ Hq Hb) as [x Hx].
    assert (Hag1 : agree (items t) (h_set h a (Item c NULL)) (l ++ [b])).
    { intros d Hd. rewrite lookup_h_set_ne by (by intros <-). auto. }
    assert (Hx1 : cells (h_set h a (Item c NULL)) !! b = Some x) by (by rewrite Hag1).
    rewrite (h_load_Ok _ _ _ Hw1 Hx1). cbn. rewrite h_store_Ok by (try done; by eexists). cbn.
    rewrite add_int_Ok by int_lia. cbn. eexists _, a. split; [done|]. split; [|split; [done|]].
    + eapply (qok_append t); try done; [apply lookup_h_set|].
      apply pool_lifo_set; [done|]. by eapply pool_lifo_zero.
    + intros Hnl d Hd. cbn in Hd. apply elem_of_app. destruct (decide (b = d)) as [<-|Hne]; [by left|].
      rewrite lookup_h_set_ne in Hd by done. destruct (Hnew1 d Hd) as [->|?]; [right; left|left; auto].
Qed.

Lemma mqueue_remove_empty t cs fl :
  qok t [] cs fl → mqueue_remove t = Ok (NULL, t).
Proof. intros Hq. unfold mqueue_remove. by rewrite (qo_first _ _ _ _ Hq). Qed.

Lemma mqueue_remove_ok t a as_ c cs fl :
  qok t (a :: as_) (c :: cs) fl →
  ∃ t' fl', mqueue_remove t = Ok (c, t') ∧ qok t' as_ cs fl' ∧
    p_init (q_pool (que t')) = p_init (q_pool (que t)) ∧
    (p_init (q_pool (que t)) = 0 → fl' = fl ∧ (no_leak t (a :: as_) → no_leak t' as_)).
Proof.
  intros Hq. pose proof (qo_count _ _ _ _ Hq) as Hcnt. cbn in Hcnt.
  destruct (qo_load _ _ _ _ 0 a Hq eq_refl) as (c' & [= <-] & Hload).
  pose proof (qo_max _ _ _ _ Hq) as Hmax.
  pose proof (qo_nodup _ _ _ _ Hq) as [Hna Hnd]%NoDup_cons.
  destruct (pool_release_lifo _ _ a as_ _ (qo_wf _ _ _ _ Hq) (qo_pool _ _ _ _ Hq))
    as (pl & h & fl' & E & Hw & Hl & Hsub & Hfr & Hin & Hz); [|done|..].
  { eapply qo_allocated; [done|left]. }
  { apply (qo_disj _ _ _ _ Hq). left. }
  { intros b Hb. apply (qo_disj _ _ _ _ Hq). by right. }
  pose proof (qo_first _ _ _ _ Hq) as Hf. cbn in Hf.
  unfold mqueue_remove. rewrite Hf, truthy_true by (eapply (qo_not_null _ _ _ _ _ Hq); left).
  assert (Hnull : (default NULL ((a :: as_) !! 1%nat) =? NULL) = bool_decide (as_ = [])).
  { destruct as_ as [|b as_]; [done|]. rewrite bool_decide_eq_false_2 by done. apply Z.eqb_neq.
    apply (qo_not_null _ _ _ _ _ Hq). right; left. }
  revert Hload Hnull. generalize (default NULL ((a :: as_) !! 1%nat)) as nx. intros nx Hload Hnull.
  rewrite Hload. cbn [mbind res_bind next content]. unfold mqueue_free_item. cbn. rewrite Hnull.
  assert (Hpool : ∀ q, q_pool (if bool_decide (as_ = []) then q <| last := NULL |> else q) = q_pool q)
    by (intros q; by destruct (bool_decide _)).
  assert (Hcount : ∀ q, count (if bool_decide (as_ = []) then q <| last := NULL |> else q) = count q)
    by (intros q; by destruct (bool_decide _)).
  cbn. rewrite Hpool. cbn. rewrite E. cbn. rewrite Hcount. cbn. rewrite sub_int_Ok by int_lia. cbn.
  pose proof (qo_seg _ _ _ _ Hq) as (_ & x & Hx & Hseg).
  apply h_load_inv in Hload as [_ Hload]. rewrite Hx in Hload. injection Hload as ->. cbn in Hseg.
  eexists _, fl'. split; [done|]. split; [|split; [done|]].
  - constructor; cbn.
    + done.
    + destruct (bool_decide _); by eapply lseg_agree.
    + eapply content_agree; [done|]. pose proof (qo_content _ _ _ _ Hq) as Hc. by inversion Hc.
    + done.
    + pose proof (qo_last _ _ _ _ Hq) as Hlast. destruct as_; [done|].
      by rewrite bool_decide_eq_false_2.
    + lia.
    + lia.
    + destruct as_ as [|b as_]; [done|]. rewrite !bool_decide_eq_false_2 by done.
      destruct Hseg as [-> _]. done.
    + intros b Hb [->|Hf']%Hsub; [done|]. apply (qo_disj _ _ _ _ Hq b); [by right|done].
    + done.
  - intros E0. destruct (Hz E0) as [-> Hdel]. split; [done|]. intros Hnl b [y Hb]. cbn in Hb.
    rewrite Hdel in Hb. apply lookup_delete_Some in Hb as [Hne Hb].
    assert (Hin' : b ∈ a :: as_) by (apply Hnl; by eexists).
    by apply elem_of_cons in Hin' as [->|?].
Qed.
(** Moving the cached position forward. *)
Lemma advance_ok t as_ cs fl (i : nat) :
  qok t as_ cs fl → as_ !! i = Some (indexed (que t)) → (S i < length as_)%nat →
  ∃ b, as_ !! S i = Some b ∧ advance t = Ok (t <| que := que t <| indexed := b |> |>).
Proof.
  intros Hq Hi Hlt. destruct (lookup_lt_is_Some_2 as_ (S i)) as [b Hb]; [done|].
  exists b. split; [done|]. unfold advance.
  destruct (qo_load _ _ _ _ _ _ Hq Hi) as (c & _ & ->). cbn. by rewrite Hb.
Qed.

Lemma qok_index t as_ cs fl (i : nat) p :
  qok t as_ cs fl → as_ !! i = Some p →
  qok (t <| que := que t <| indexed := p |> <| index := Z.of_nat i |> |>) as_ cs fl.
Proof.
  intros Hq Hi. constructor; cbn; try apply Hq.
  rewrite bool_decide_eq_false_2 by (by intros ->). split; [lia|]. by rewrite Nat2Z.id.
Qed.

(** The loop of [mqueue_peek_at_index]. *)
Lemma peek_loop t as_ cs fl (j : nat) :
  qok t as_ cs fl → as_ ≠ [] → index (que t) ≤ Z.of_nat j < Z.of_nat (length as_) →
  ∃ t' p, for_range (index (que t)) (Z.of_nat j) (fun _ t =>
            t ← advance t;
            i ← add_int (index (que t)) 1;
            Ok (t <| que := que t <| index := i |> |>)) t = Ok t' ∧
    t' = t <| que := que t <| indexed := p |> <| index := Z.of_nat j |> |> ∧ as_ !! j = Some p.
Proof.
  intros Hq Hne Hj. pose proof (qo_index _ _ _ _ Hq) as Hix.
  rewrite bool_decide_eq_false_2 in Hix by done. destruct Hix as [Hi0 Hix].
  pose proof (qo_count _ _ _ _ Hq) as Hc. pose proof (qo_max _ _ _ _ Hq) as Hm.
  pose proof (qo_length _ _ _ _ Hq) as Hlen.
  destruct (for_range_inv (fun k s => ∃ p,
      s = t <| que := que t <| indexed := p |> <| index := k |> |> ∧ as_ !! Z.to_nat k = Some p)
    (index (que t)) (Z.of_nat j) (fun _ t =>
            t ← advance t;
            i ← add_int (index (que t)) 1;
            Ok (t <| que := que t <| index := i |> |>)) t) as (t' & E & p & Ht' & Hp).
  - lia.
  - exists (indexed (que t)). split; [|done]. by destruct t as [[] ?].
  - intros k s Hk (p & -> & Hp). cbn [advance].
    assert (Hq' : qok (t <| que := que t <| indexed := p |> <| index := k |> |>) as_ cs fl).
    { replace k with (Z.of_nat (Z.to_nat k)) at 1 by lia. by apply qok_index. }
    destruct (advance_ok _ _ _ _ (Z.to_nat k) Hq') as (b & Hb & ->); [done|lia|]. cbn.
    rewrite add_int_Ok by int_lia. cbn. eexists; split; [done|]. exists b. split; [done|].
    by replace (Z.to_nat (k + 1)) with (S (Z.to_nat k)) by lia.
  - rewrite Nat2Z.id in Hp. eauto.
Qed.

(** Peeking reads position [i] and moves nothing but the cached position. *)
Lemma mqueue_peek_ok t as_ cs fl i :
  qok t as_ cs fl → 0 ≤ i →
  ∃ t', mqueue_peek_at_index t i = Ok (default NULL (cs !! Z.to_nat i), t') ∧
    qok t' as_ cs fl ∧ items t' = items t ∧ q_pool (que t') = q_pool (que t).
Proof.
  intros Hq Hi. pose proof (qo_count _ _ _ _ Hq) as Hc. pose proof (qo_length _ _ _ _ Hq) as Hlen.
  unfold mqueue_peek_at_index. destruct (Z.ltb_spec i (count (que t))) as [Hlt|Hge]; cycle 1.
  { exists t. rewrite lookup_ge_None_2 by lia. done. }
  assert (Hne : as_ ≠ []) by (intros ->; cbn in *; lia).
  remember (if i <? index (que t) then _ else t) as t1 eqn:Et1.
  assert (∃ t1', t1 = t1' ∧ qok t1' as_ cs fl ∧ index (que t1') ≤ i ∧ items t1' = items t ∧
            q_pool (que t1') = q_pool (que t)) as (t1' & -> & Hq1 & Hi1 & Hit & Hpl).
  { exists t1. split; [done|]. subst t1. destruct (Z.ltb_spec i (index (que t))); [|done].
    split; [|done]. change 0 with (Z.of_nat 0). apply qok_index; [done|].
    rewrite (qo_first _ _ _ _ Hq). by destruct as_. }
  clear Et1.
  destruct (peek_loop _ _ _ _ (Z.to_nat i) Hq1 Hne) as (t' & p & E & -> & Hp); [lia|].
  rewrite Z2Nat.id in E by lia. rewrite E. cbn.
  destruct (qo_load _ _ _ _ _ _ Hq1 Hp) as (c & Hcc & ->). cbn.
  eexists; split; [by rewrite Hcc|]. split; [|done].
  replace i with (Z.of_nat (Z.to_nat i)) at 1 by lia. by apply qok_index.
Qed.
End Proofs.
