(* ===== verification/MqueueRemove.v ===== *)
(** * The message queue: removal by index and by pointer

    [mqueue_remove_at_index] walks to the item at the index and then resets
    [indexed] to the first item before it unlinks and frees it: at the head it is
    right, further on it frees the head while the head is still linked.
    [mqueue_remove_item] builds on it, and does not look at the last item. *)

From S2P Require Import Prelude Heap Pool Mqueue MqueueRepr MqueueProofs.

(** The search of [mqueue_remove_item] as a function of the contents: the
    position of the first [c] that is not the last item. *)
Fixpoint search (c j : Z) (l : list Z) : option Z :=
  match l with
  | [] => None
  | d :: l' => match l' with
               | [] => None
               | _ => if d =? c then Some j else search c (j + 1) l'
               end
  end.

Lemma search_last c cs : ∀ j, c ∉ removelast cs → search c j cs = None.
Proof.
  induction cs as [|d cs IH]; intros j Hc; [done|]. cbn in *. destruct cs as [|d' cs]; [done|].
  apply not_elem_of_cons in Hc as [Hd Hc].
  destruct (Z.eqb_spec d c) as [->|_]; [done|]. by apply IH.
Qed.

Lemma search_found c pre suf : ∀ j,
  c ∉ pre → suf ≠ [] → search c j (pre ++ c :: suf) = Some (j + Z.of_nat (length pre)).
Proof.
  induction pre as [|d pre IH]; intros j Hc Hs.
  - cbn. destruct suf; [done|]. rewrite Z.eqb_refl. f_equal. cbn. lia.
  - apply not_elem_of_cons in Hc as [Hd Hc]. specialize (IH (j + 1) Hc Hs). cbn.
    destruct (pre ++ c :: suf) eqn:E; [by destruct pre|].
    destruct (Z.eqb_spec d c) as [->|_]; [done|]. rewrite IH. f_equal. cbn. lia.
Qed.

Section Remove.
Context `{Uninit mqueue_item}.
Implicit Types (t : mqueue_t) (cs fl : list Z).

(** Without a free list a node goes back to [free]. *)
Lemma free_item_plain t a x :
  heap_wf (items t) → p_init (q_pool (que t)) = 0 → cells (items t) !! a = Some x →
  ∃ h, mqueue_free_item t a = Ok (t <| items := h |>) ∧ heap_wf h ∧
    cells h = delete a (cells (items t)).
Proof.
  intros Hw Hz Ha. unfold mqueue_free_item, pool_release.
  rewrite (h_load_Ok _ _ _ Hw Ha). cbn. rewrite h_store_Ok by (try done; by eexists). cbn.
  unfold pool_has_room. rewrite Hz. cbn.
  assert (Hw1 := heap_wf_set (items t) a (x <| next := NULL |>) Hw (mk_is_Some _ _ Ha)).
  change (x <| next := NULL |>) with (set_nxt NULL x) in *.
  rewrite h_free_Ok by (try done; rewrite lookup_h_set; by eexists). cbn.
  eexists; split; [by destruct t as [[] ?]|]. split; [by apply heap_wf_del|].
  cbn. apply delete_insert_eq.
Qed.

(** The walk of [mqueue_remove_at_index]: [prev_item] ends as the item before
    the index, [NULL] for index 0. *)
Lemma walk_ok t as_ cs fl (i : nat) :
  qok t as_ cs fl → (i < length as_)%nat →
  ∃ p, for_range 0 (Z.of_nat i) (fun j '(prev_item, t) =>
        t' ← advance t;
        Ok (if j =? Z.of_nat i - 1 then indexed (que t) else prev_item, t')) (NULL, t <| que := que t <| indexed := first (que t) |> |>)
     = Ok (match i with O => NULL | S i' => default NULL (as_ !! i') end,
           t <| que := que t <| indexed := p |> |>) .
Proof.
  intros Hq Hi.
  destruct (for_range_inv (fun j '(prev, s) => ∃ p,
      s = t <| que := que t <| indexed := p |> |> ∧ as_ !! Z.to_nat j = Some p ∧
      prev = if j =? Z.of_nat i then match i with O => NULL | S i' => default NULL (as_ !! i') end
             else NULL)
    0 (Z.of_nat i) (fun j '(prev_item, t) =>
        t' ← advance t;
        Ok (if j =? Z.of_nat i - 1 then indexed (que t) else prev_item, t')) (NULL, t <| que := que t <| indexed := first (que t) |> |>))
    as ([prev s] & E & p & -> & Hp & ->).
  - lia.
  - exists (first (que t)). split; [done|]. split.
    + rewrite (qo_first _ _ _ _ Hq). by destruct as_; [cbn in Hi; lia|].
    + destruct i; [done|]. by destruct (Z.eqb_spec 0 (Z.of_nat (S i))); [lia|].
  - intros j [prev s] Hj (p & -> & Hp & ->). cbn.
    assert (Hq' : advance (t <| que := que t <| indexed := p |> |>) =
                  Ok (t <| que := que t <| indexed := default NULL (as_ !! S (Z.to_nat j)) |> |>)).
    { unfold advance. cbn. by destruct (qo_load _ _ _ _ _ _ Hq Hp) as (c & _ & ->). }
    rewrite Hq'. cbn. eexists; split; [done|]. cbn. eexists; split; [done|]. split.
    + replace (Z.to_nat (j + 1)) with (S (Z.to_nat j)) by lia.
      destruct (lookup_lt_is_Some_2 as_ (S (Z.to_nat j))) as [b ->]; [lia|done].
    + destruct (Z.eqb_spec j (Z.of_nat i - 1)) as [->|Hne].
      * rewrite (proj2 (Z.eqb_eq _ _)) by lia. destruct i as [|i]; [lia|].
        replace (Z.to_nat (Z.of_nat (S i) - 1)) with i in Hp by lia. by rewrite Hp.
      * rewrite !(proj2 (Z.eqb_neq _ _)) by lia. done.
  - exists p. rewrite E. by rewrite Z.eqb_refl.
Qed.

(** At the head, with another item behind it, it does what [mqueue_remove] does,
    but [indexed] is left at the freed item. *)
Lemma remove_at_head t a b as_ c cs fl i :
  qok t (a :: b :: as_) (c :: cs) fl → p_init (q_pool (que t)) = 0 → i ≤ 0 →
  ∃ t', mqueue_remove t = Ok (c, t') ∧
    mqueue_remove_at_index t i = Ok (c, t' <| que := que t' <| indexed := a |> |>) ∧
    cells (items t') !! a = None ∧ index (que t') = 0 ∧ indexed (que t') = first (que t').
Proof.
  intros Hq Hz Hi. pose proof (qo_count _ _ _ _ Hq) as Hc. cbn in Hc.
  pose proof (qo_max _ _ _ _ Hq). pose proof (qo_first _ _ _ _ Hq) as Hf. cbn in Hf.
  destruct (qo_item _ _ _ _ 0 a Hq eq_refl) as (c' & [= <-] & Ha). cbn in Ha.
  pose proof (qo_wf _ _ _ _ Hq) as Hw.
  assert (Hb : b ≠ NULL) by (eapply (qo_not_null _ _ _ _ _ Hq); right; left).
  assert (Hfree : ∃ h, (∀ t1, q_pool (que t1) = q_pool (que t) → items t1 = items t →
      mqueue_free_item t1 a = Ok (t1 <| items := h |>)) ∧ cells h !! a = None).
  { destruct (free_item_plain t a _ Hw Hz Ha) as (h & E & _ & Hdel). exists h. split.
    - intros t1 Hqp Hit. unfold mqueue_free_item in *. rewrite Hqp, Hit.
      destruct (pool_release _ _ _) as [[pl h']|]; [|done]. cbn in *.
      injection E as E1 E2. apply (f_equal q_pool) in E1. cbn in E1.
      rewrite E1, E2, <- Hqp. by destruct t1 as [[] ?].
    - rewrite Hdel. apply lookup_delete_eq. }
  destruct Hfree as (h & Hfree & Hgone).
  unfold mqueue_remove, mqueue_remove_at_index.
  rewrite Hf, (truthy_true a) by exact (heap_wf_pos _ _ _ Hw Ha).
  rewrite (proj2 (Z.ltb_lt _ _)) by lia. rewrite (h_load_Ok _ _ _ Hw Ha).
  unfold for_range. replace (Z.to_nat (i - 0)) with 0%nat by lia. cbn -[mqueue_free_item].
  rewrite Hf, (h_load_Ok _ _ _ Hw Ha). cbn -[mqueue_free_item].
  rewrite (h_load_Ok _ _ _ Hw Ha). cbn -[mqueue_free_item].
  rewrite (proj2 (Z.eqb_neq b NULL) Hb).
  rewrite !Hfree by done. cbn.
  rewrite sub_int_Ok by int_lia. cbn. eexists; split; [done|]. done.
Qed.

(** Further on, the first item is freed but stays first. *)
Lemma remove_at_tail t a as_ c cs fl (i : nat) :
  qok t (a :: as_) (c :: cs) fl → p_init (q_pool (que t)) = 0 → (1 ≤ i < length (c :: cs))%nat →
  ∃ t', mqueue_remove_at_index t (Z.of_nat i) = Ok (c, t') ∧
    first (que t') = a ∧ cells (items t') !! a = None.
Proof.
  intros Hq Hz Hi. pose proof (qo_count _ _ _ _ Hq) as Hc.
  pose proof (qo_max _ _ _ _ Hq). pose proof (qo_first _ _ _ _ Hq) as Hf. cbn in Hf.
  pose proof (qo_length _ _ _ _ Hq) as Hlen. pose proof (qo_wf _ _ _ _ Hq) as Hw.
  destruct (qo_item _ _ _ _ 0 a Hq eq_refl) as (c' & [= <-] & Ha).
  unfold mqueue_remove_at_index. rewrite (proj2 (Z.ltb_lt _ _)) by lia.
  destruct (walk_ok _ _ _ _ i Hq) as [p E]; [lia|]. cbv zeta. rewrite E. cbn -[mqueue_free_item lookup].
  destruct i as [|i]; [lia|].
  destruct (lookup_lt_is_Some_2 (a :: as_) i) as [pv Hpv]; [lia|].
  destruct (qo_item _ _ _ _ _ _ Hq Hpv) as (cp & _ & Hp). rewrite Hpv. cbn -[mqueue_free_item lookup].
  rewrite (proj2 (Z.eqb_neq pv NULL) (heap_wf_pos _ _ _ Hw Hp)). cbn -[mqueue_free_item lookup].
  rewrite (h_load_Ok _ _ _ Hw Hp), Hf. cbn -[mqueue_free_item lookup].
  rewrite (h_load_Ok _ _ _ Hw Ha). cbn -[mqueue_free_item lookup].
  rewrite h_store_Ok by (try done; by eexists). cbn -[mqueue_free_item lookup].
  match goal with |- context [h_set (items t) pv ?x] => set (h1 := h_set (items t) pv x) end.
  assert (Hw1 : heap_wf h1) by (apply heap_wf_set; [done|by eexists]).
  assert (∃ nx, cells h1 !! a = Some (Item c nx)) as [nx Ha1].
  { unfold h1. destruct (decide (pv = a)) as [->|Hne].
    - rewrite lookup_h_set. rewrite Ha in Hp. injection Hp as <-. by eexists.
    - rewrite lookup_h_set_ne by done. by eexists. }
  rewrite (h_load_Ok _ _ _ Hw1 Ha1). cbn -[mqueue_free_item lookup].
  match goal with |- context [mqueue_free_item ?t1 a] =>
    destruct (free_item_plain t1 a (Item c nx)) as (h & -> & _ & Hdel) end; [exact Hw1|exact Hz|exact Ha1|].
  cbn. rewrite sub_int_Ok by (cbn in *; int_lia). cbn. eexists; split; [done|]. cbn.
  rewrite Hdel. split; [done|]. apply lookup_delete_eq.
Qed.

(** The search loop of [mqueue_remove_item] is [search]. *)
Lemma find_item_ok t as_ cs fl c : qok t as_ cs fl →
  ∀ fuel as1 a as2 cs1 cs2, as_ = as1 ++ a :: as2 → cs = cs1 ++ cs2 → length as1 = length cs1 →
  (length as2 < fuel)%nat →
  find_item fuel (items t) (last (que t)) c a (Z.of_nat (length as1)) =
  Ok (search c (Z.of_nat (length as1)) cs2).
Proof.
  intros Hq. pose proof (qo_max _ _ _ _ Hq) as Hm. pose proof (qo_count _ _ _ _ Hq) as Hc.
  pose proof (qo_nodup _ _ _ _ Hq) as Hnd. pose proof (qo_last _ _ _ _ Hq) as Hlast.
  induction fuel as [|fuel IH]; intros as1 a as2 cs1 cs2 Ea Ec Hl Hfuel; [lia|].
  pose proof (qo_length _ _ _ _ Hq) as Hlen. rewrite Ea, Ec, !length_app in Hlen. cbn in Hlen.
  rewrite Ec, length_app in Hc.
  destruct cs2 as [|d cs2]; [cbn in *; lia|]. destruct as2 as [|b as2].
  - rewrite Ea, last_snoc in Hlast. cbn. rewrite Hlast. cbn. rewrite Z.eqb_refl.
    destruct cs2; [done|cbn in *; lia].
  - destruct cs2 as [|d' cs2]; [cbn in *; lia|].
    assert (Hal : a ≠ last (que t)).
    { rewrite Hlast. rewrite Ea in Hnd |- *. apply NoDup_app in Hnd as (_ & _ & Hnd).
      rewrite last_app_cons. intros Ha.
      apply NoDup_cons in Hnd as [Hna _]. apply Hna.
      destruct as2 as [|e as2 _] using rev_ind; [cbn in Ha; subst b; left|].
      change (a :: b :: as2 ++ [e]) with ((a :: b :: as2) ++ [e]) in Ha.
      rewrite last_snoc in Ha. cbn in Ha. subst. right. apply elem_of_app. right; left. }
    cbn. rewrite (proj2 (Z.eqb_neq _ _) Hal).
    destruct (qo_load _ _ _ _ (length as1) a Hq) as (c' & Hc' & ->).
    { rewrite Ea. by apply list_lookup_middle. }
    rewrite Ec, Hl, list_lookup_middle in Hc' by done. injection Hc' as <-. cbn.
    destruct (Z.eqb_spec d c) as [->|_]; [done|]. cbn. cbn in Hc. rewrite add_int_Ok by int_lia. cbn.
    rewrite Ea. rewrite lookup_app_r by lia.
    replace (S (length as1) - length as1)%nat with 1%nat by lia. cbn.
    specialize (IH (as1 ++ [a]) b as2 (cs1 ++ [d]) (d' :: cs2)).
    rewrite !length_app in IH. cbn in IH.
    replace (Z.of_nat (length as1 + 1)) with (Z.of_nat (length as1) + 1) in IH by lia.
    apply IH; [by rewrite <- app_assoc|by rewrite <- app_assoc|lia|cbn in *; lia].
Qed.

Lemma find_item_all t as_ cs fl c :
  qok t as_ cs fl →
  find_item (walk_fuel (items t)) (items t) (last (que t)) c (first (que t)) 0 = Ok (search c 0 cs).
Proof.
  intros Hq. pose proof (qo_length _ _ _ _ Hq) as Hlen. pose proof (qo_first _ _ _ _ Hq) as Hf.
  destruct as_ as [|a as_].
  - destruct cs; [|done]. rewrite Hf. cbn. by rewrite (qo_last _ _ _ _ Hq).
  - rewrite Hf. cbn [lookup list_lookup default from_option id].
    rewrite (find_item_ok _ _ _ _ c Hq _ [] a as_ [] cs); [done..|].
    unfold walk_fuel. apply Nat.lt_succ_r. transitivity (length (a :: as_)); [cbn; lia|].
    apply NoDup_size; [apply Hq|]. intros b Hb. by eapply qo_allocated.
Qed.

(** The loop of [mqueue_free] gives back exactly the free list. *)
Lemma free_buf_ok fuel : ∀ (h : heap mqueue_item) p l,
  heap_wf h → lseg h p l NULL → NoDup l → (length l < fuel)%nat →
  ∃ h', free_buf fuel h p = Ok h' ∧ (∀ a, a ∈ l → cells h' !! a = None) ∧
    (∀ a, a ∉ l → cells h' !! a = cells h !! a).
Proof.
  induction fuel as [|fuel IH]; intros h p l Hw Hl Hnd Hf; [lia|]. destruct l as [|a l].
  - cbn in Hl. subst p. exists h. split; [done|]. split; [by intros ? ?%elem_of_nil|done].
  - destruct Hl as (-> & x & Hx & Hl). apply NoDup_cons in Hnd as [Ha Hnd]. cbn in Hf.
    cbn [free_buf]. rewrite truthy_true by exact (heap_wf_pos _ _ _ Hw Hx).
    rewrite (h_load_Ok _ _ _ Hw Hx). cbn. rewrite h_free_Ok by (try done; by eexists). cbn.
    destruct (IH (h_del h a) (nxt x) l) as (h' & E & Hgone & Hfr);
      [by apply heap_wf_del|eapply lseg_agree; [by apply agree_del|done]|done|lia|].
    exists h'. split; [done|]. split.
    + intros b [->|Hb]%elem_of_cons; [|by apply Hgone]. rewrite Hfr by done. apply lookup_h_del.
    + intros b Hb. apply not_elem_of_cons in Hb as [Hba Hbl]. rewrite Hfr by done.
      by apply lookup_h_del_ne.
Qed.
End Remove.
