(* ===== verification/MqueueSpec.v ===== *)
(** * The message queue: its contract

    The theorems about [mqueue.c]: the queue refines a list, with any free list
    when it is used as a stack; indexed access through the cached position;
    removal by index and by pointer, which only work at the head. *)

From S2P Require Import Prelude Heap Pool Mqueue MqueueRepr MqueueProofs MqueueRemove.

Lemma qspec_length cs op : (length (qspec cs op).2 ≤ S (length cs))%nat.
Proof. destruct op; cbn; rewrite ?length_app; cbn; try lia. destruct cs; cbn; lia. Qed.

Section Theorems.
Context `{Uninit mqueue_item}.

Lemma qexec_ok t as_ cs fl op :
  qok t as_ cs fl → qop_valid op → (at_front op ∨ p_init (q_pool (que t)) = 0) →
  Z.of_nat (length cs) < INT_MAX →
  ∃ t' as' fl', qexec t op = Ok ((qspec cs op).1, t') ∧ qok t' as' (qspec cs op).2 fl' ∧
    p_init (q_pool (que t')) = p_init (q_pool (que t)) ∧
    (p_init (q_pool (que t)) = 0 → fl' = fl ∧ (no_leak t as_ → no_leak t' as')).
Proof.
  intros Hq Hv Hm Hmax. pose proof (qo_count _ _ _ _ Hq) as Hc. rewrite <- Hc in Hmax.
  destruct op as [c|c| | |i]; cbn in *.
  - destruct (mqueue_add_ok _ _ _ _ c Hq Hmax) as (t' & a & fl' & -> & ? & ? & ?). eauto 10.
  - destruct Hm as [[]|Hz].
    destruct (mqueue_append_ok _ _ _ _ c Hq Hmax Hz) as (t' & a & -> & ? & ? & ?).
    rewrite Hz. eauto 10.
  - pose proof (qo_length _ _ _ _ Hq). destruct as_ as [|a as_], cs as [|c cs]; try done.
    + rewrite (mqueue_remove_empty _ _ _ Hq). eauto 10.
    + destruct (mqueue_remove_ok _ _ _ _ _ _ Hq) as (t' & fl' & -> & ? & ? & ?). eauto 10.
  - unfold mqueue_size. rewrite Hc. eauto 10.
  - destruct (mqueue_peek_ok _ _ _ _ i Hq Hv) as (t' & -> & Hq' & Hi & Hp).
    unfold no_leak. rewrite <- Hi, <- Hp. eauto 10.
Qed.

Lemma qexec_all_ok ops : ∀ t as_ cs fl,
  qok t as_ cs fl → Forall qop_valid ops →
  (Forall at_front ops ∨ p_init (q_pool (que t)) = 0) →
  Z.of_nat (length cs + length ops) ≤ INT_MAX →
  ∃ t' as' fl', qexec_all t ops = Ok ((qspec_all cs ops).1, t') ∧
    qok t' as' (qspec_all cs ops).2 fl' ∧
    p_init (q_pool (que t')) = p_init (q_pool (que t)) ∧
    (p_init (q_pool (que t)) = 0 → fl' = fl ∧ (no_leak t as_ → no_leak t' as')).
Proof.
  induction ops as [|op ops IH]; intros t as_ cs fl Hq Hv Hm Hmax; cbn in *.
  - eauto 10.
  - apply Forall_cons in Hv as [Hop Hv].
    assert (Hm1 : at_front op ∨ p_init (q_pool (que t)) = 0)
      by (destruct Hm as [[? _]%Forall_cons|?]; auto).
    destruct (qexec_ok _ _ _ _ op Hq Hop Hm1) as (t1 & as1 & fl1 & -> & Hq1 & Hi1 & Hz1); [lia|].
    pose proof (qspec_length cs op). cbn. destruct (qspec cs op) as [o cs1]. cbn in *.
    destruct (IH t1 as1 cs1 fl1 Hq1 Hv) as (t' & as' & fl' & -> & Hq' & Hi' & Hz').
    { rewrite Hi1. destruct Hm as [[_ ?]%Forall_cons|?]; auto. }
    { lia. }
    cbn. destruct (qspec_all cs1 ops) as [os cs2]. cbn in *.
    eexists t', as', fl'. split; [done|]. split; [done|]. split; [by rewrite Hi'|].
    intros Hz. destruct (Hz1 Hz) as [-> Hn1]. rewrite <- Hi1 in Hz. destruct (Hz' Hz) as [-> Hn'].
    auto.
Qed.

Lemma qplain_run t cs ops :
  qplain t cs → Forall qop_valid ops → Z.of_nat (length cs + length ops) ≤ INT_MAX →
  ∃ t', qexec_all t ops = Ok ((qspec_all cs ops).1, t') ∧ qplain t' (qspec_all cs ops).2.
Proof.
  intros (as_ & Hq & Hz & Hnl) Hv Hmax.
  destruct (qexec_all_ok ops _ _ _ _ Hq Hv (or_intror Hz) Hmax)
    as (t' & as' & fl' & E & Hq' & Hi & Hn). destruct (Hn Hz) as [-> Hn'].
  exists t'. split; [done|]. exists as'. split; [done|]. split; [by rewrite Hi|]. by apply Hn'.
Qed.

Lemma mqueue_init_ok n :
  in_int (3 * n) →
  ∃ t, mqueue_init n = Ok t ∧ qlifo t [] ∧ mqueue_size t = 0 ∧ (n = 0 → qplain t []).
Proof.
  intros Hn. destruct (pool_init_spec n Hn) as (pl & h & l & E & Hw & Hok & Hi & Hl & _).
  unfold mqueue_init. rewrite E. cbn. eexists; split; [done|].
  assert (Hq : qok (MqueueT (Mqueue 0 0 NULL pl NULL NULL) h) [] [] l).
  { constructor; try done; [constructor..|by intros ? ?%elem_of_nil|by left]. }
  split; [by exists [], l|]. split; [done|]. intros ->.
  destruct l as [|b l]; [|cbn in Hl; lia]. exists []. split; [done|]. split; [done|].
  cbn in E. injection E as <- <-. intros a [x Hx]. cbn in Hx. by rewrite lookup_empty in Hx.
Qed.

(** C6: A queue without a free list refines a list: any sequence of
    [mqueue_add] (at the front), [mqueue_append] (at the end), [mqueue_remove]
    (from the front, although the comment in [mqueue.h] says from the end),
    [mqueue_size] and [mqueue_peek_at_index] runs without undefined behaviour and
    returns what the same operations on the list return, and no node leaks. *)
Theorem mqueue_refines_list t cs ops :
  qplain t cs → Forall qop_valid ops → Z.of_nat (length cs + length ops) ≤ INT_MAX →
  ∃ t', qexec_all t ops = Ok ((qspec_all cs ops).1, t') ∧ qplain t' (qspec_all cs ops).2.
Proof. apply qplain_run. Qed.

(** C9: A queue with a free list of any size refines a list as long as it is
    used as a stack ([mqueue_add] and [mqueue_remove], which both work at the
    front whatever the comment on [mqueue_remove] in [mqueue.h] says,
    [mqueue_size], [mqueue_peek_at_index]), although its free list may be stale
    on the way. *)
Theorem mqueue_refines_stack t cs ops :
  qlifo t cs → Forall qop_valid ops → Forall at_front ops →
  Z.of_nat (length cs + length ops) ≤ INT_MAX →
  ∃ t', qexec_all t ops = Ok ((qspec_all cs ops).1, t') ∧ qlifo t' (qspec_all cs ops).2.
Proof.
  intros (as_ & fl & Hq) Hv Hf Hmax.
  destruct (qexec_all_ok ops _ _ _ _ Hq Hv (or_introl Hf) Hmax)
    as (t' & as' & fl' & E & Hq' & _). exists t'. split; [done|]. by exists as', fl'.
Qed.

(** [mqueue_init] makes an empty queue whatever the size of the free list. *)
Theorem mqueue_init_correct n :
  in_int (3 * n) →
  ∃ t, mqueue_init n = Ok t ∧ qlifo t [] ∧ mqueue_size t = 0 ∧ (n = 0 → qplain t []).
Proof. apply mqueue_init_ok. Qed.

(** The caller's pointer [retval] is only set when an item was removed. *)
Definition some_result (r : res (Z * mqueue_t)) : res (option Z * mqueue_t) :=
  '(c, t) ← r; Ok (Some c, t).

(** [mqueue_remove_item] of the item at the head, with others behind it,
    is [mqueue_remove]. *)
Theorem mqueue_remove_item_head t c c' cs :
  qplain t (c :: c' :: cs) → mqueue_remove_item t c = some_result (mqueue_remove t).
Proof.
  intros (as_ & Hq & Hz & _). pose proof (qo_length _ _ _ _ Hq) as Hlen.
  destruct as_ as [|a [|b as_]]; try done. unfold mqueue_remove_item.
  rewrite (find_item_all _ _ _ _ c Hq). cbn -[mqueue_remove_at_index]. rewrite Z.eqb_refl.
  destruct (remove_at_head _ _ _ _ _ _ _ 0 Hq Hz) as (t' & -> & -> & _ & Hix & Hxd); [lia|]. cbn.
  do 2 f_equal. destruct t' as [[] ?]. cbn in *. by subst.
Qed.

Lemma remove_item_last_ok t cs c :
  qplain t cs → c ∉ removelast cs →
  ∃ t', mqueue_remove_item t c = Ok (None, t') ∧ qplain t' cs.
Proof.
  intros (as_ & Hq & Hz & Hnl) Hc. unfold mqueue_remove_item.
  rewrite (find_item_all _ _ _ _ c Hq), search_last by done. cbn.
  eexists; split; [done|]. exists as_. split; [|done].
  destruct as_ as [|a as_].
  - pose proof (qo_first _ _ _ _ Hq) as Hf. constructor; try apply Hq. done.
  - change 0 with (Z.of_nat 0).
    replace (first (que t)) with a at 1 by (by rewrite (qo_first _ _ _ _ Hq)).
    replace (que t <| index := Z.of_nat 0 |> <| indexed := a |>)
      with (que t <| indexed := a |> <| index := Z.of_nat 0 |>) by done.
    by apply qok_index.
Qed.

(** [mqueue_remove_item] never removes the last item, so never the only
    one: an item that is not among the others stays, and the returned pointer
    is indeterminate. *)
Theorem mqueue_remove_item_last t cs c :
  qplain t cs → c ∉ removelast cs →
  ∃ t', mqueue_remove_item t c = Ok (None, t') ∧ qplain t' cs.
Proof. apply remove_item_last_ok. Qed.

(** [mqueue_remove_item] of an item in the middle returns and frees the
    first item instead, which stays at the head of the queue: the next
    [mqueue_remove] reads freed memory. *)
Theorem mqueue_remove_item_middle t c0 pre c suf :
  qplain t (c0 :: pre ++ c :: suf) → (c ∉ c0 :: pre) → suf ≠ [] →
  ∃ t', mqueue_remove_item t c = Ok (Some c0, t') ∧ mqueue_remove t' = Fault BadPtr.
Proof.
  intros (as_ & Hq & Hz & _) Hc Hs. pose proof (qo_length _ _ _ _ Hq) as Hlen.
  destruct as_ as [|a as_]; [done|]. unfold mqueue_remove_item.
  rewrite (find_item_all _ _ _ _ c Hq).
  rewrite (search_found c (c0 :: pre) suf) by done.
  replace (0 + Z.of_nat (length (c0 :: pre))) with (Z.of_nat (length (c0 :: pre))) by lia.
  destruct (remove_at_tail _ _ _ _ _ _ (length (c0 :: pre)) Hq Hz) as (t' & E & Hf & Hgone).
  { cbn. rewrite length_app. cbn. destruct suf; [done|]. lia. }
  cbn [mbind res_bind]. rewrite E. cbn. eexists; split; [done|].
  assert (Ha : a ≠ NULL) by (eapply (qo_not_null _ _ _ _ _ Hq); left).
  unfold mqueue_remove. cbn -[truthy]. rewrite Hf, truthy_true by done. cbn. unfold h_load.
  rewrite (proj2 (Z.eqb_neq a NULL) Ha). by rewrite Hgone.
Qed.

(** [mqueue_remove_at_index] at the head leaves the cached position at the
    freed item: [mqueue_peek_at_index] of the new head reads freed memory. *)
Theorem mqueue_remove_at_index_stale t c c' cs :
  qplain t (c :: c' :: cs) →
  ∃ t', mqueue_remove_at_index t 0 = Ok (c, t') ∧ mqueue_peek_at_index t' 0 = Fault BadPtr.
Proof.
  intros (as_ & Hq & Hz & Hnl). pose proof (qo_length _ _ _ _ Hq) as Hlen.
  destruct as_ as [|a [|b as_]]; try done.
  destruct (remove_at_head _ _ _ _ _ _ _ 0 Hq Hz) as (t' & Er & E & Hgone & Hix & _); [lia|].
  eexists; split; [done|].
  assert (Ha : a ≠ NULL) by (eapply (qo_not_null _ _ _ _ _ Hq); left).
  destruct (mqueue_remove_ok _ _ _ _ _ _ Hq) as (t2 & fl' & Er' & Hq' & _).
  rewrite Er in Er'. injection Er' as <-. pose proof (qo_count _ _ _ _ Hq') as Hc.
  unfold mqueue_peek_at_index. cbn. rewrite Hc, Hix. cbn. unfold for_range.
  rewrite Hix, (proj2 (Z.ltb_lt _ _)) by lia.
  change (Z.to_nat (0 - 0)) with 0%nat. cbn. unfold h_load.
  rewrite (proj2 (Z.eqb_neq a NULL) Ha). by rewrite Hgone.
Qed.

(** [mqueue_free] gives back the nodes of the free list and leaks every
    node that is still in the queue. *)
Theorem mqueue_free_leaks t as_ cs fl :
  qok t as_ cs fl →
  ∃ h, mqueue_free t = Ok h ∧ (∀ a, a ∈ as_ → cells h !! a = cells (items t) !! a) ∧
    (p_init (q_pool (que t)) ≠ 0 → ∀ a, a ∈ fl → cells h !! a = None).
Proof.
  intros Hq. unfold mqueue_free.
  destruct (Z.eqb_spec (p_init (q_pool (que t))) 0) as [Hz|Hnz].
  { rewrite truthy_false by done. exists (items t). split; [done|]. done. }
  rewrite truthy_true by done.
  assert (∃ q, pool_ok q (q_pool (que t)) (items t) fl) as [q (Hl & Hnd & _)].
  { destruct (qo_pool _ _ _ _ Hq) as [?|[? _]]; eauto. }
  destruct (free_buf_ok (walk_fuel (items t)) _ _ _ (qo_wf _ _ _ _ Hq) Hl Hnd) as (h & E & Hgone & Hfr).
  { apply Nat.lt_succ_r, NoDup_size; [done|]. intros a Ha. by eapply lseg_allocated. }
  exists h. split; [done|]. split; [|done]. intros a Ha. apply Hfr. by apply (qo_disj _ _ _ _ Hq).
Qed.

(** With a free list, [mqueue_append] and [mqueue_remove] lose the order of
    the queue: the removed item of the calls below is linked behind the item in
    use, so that an empty queue ([mqueue_size] 0) hands out a released item and
    its count becomes negative. *)
Theorem mqueue_fifo_pool_counterexample :
  ∃ t t', mqueue_init 1 = Ok t ∧
    qexec_all t [QAppend 10; QAppend 20; QAppend 30; QRemove; QRemove; QAppend 40; QRemove;
                 QRemove; QSize; QRemove; QSize] =
      Ok ([0; 0; 0; 10; 20; 0; 30; 40; 0; 30; -1], t').
Proof. unfold Uninit in *. destruct H. eexists _, _. split; c_run. Qed.
End Theorems.

(** ** Concrete queues *)

Module QueueExamples.
#[export] Instance zero_item : Uninit mqueue_item := Item 0 0.

Definition queue0 : mqueue_t :=
  MqueueT (Mqueue 0 0 NULL (Pool 0 0 NULL NULL) NULL NULL) heap_empty.

Lemma queue0_plain : qplain queue0 [].
Proof.
  destruct (mqueue_init_ok 0) as (t & E & _ & _ & Hp); [int_lia|].
  injection E as <-. by apply Hp.
Qed.

(** The queue 10, 20, 30. *)
Definition queue3 : mqueue_t :=
  Eval vm_compute in match qexec_all queue0 [QAppend 10; QAppend 20; QAppend 30] with
                     | Ok (_, t) => t | Fault _ => queue0 end.

Lemma queue3_plain : qplain queue3 [10; 20; 30].
Proof.
  destruct (qplain_run queue0 [] [QAppend 10; QAppend 20; QAppend 30] queue0_plain)
    as (t & E & Hp); [by repeat constructor|done|].
  vm_compute in E. by injection E as <-.
Qed.

Definition qops : list qop := [QAdd 5; QPeek 2; QAppend 40; QPeek 1; QRemove; QSize; QPeek 9].

Lemma mqueue_refines_list_witness :
  ∃ t', qexec_all queue3 qops = Ok ([0; 20; 0; 10; 5; 4; 0], t') ∧
        qplain t' (qspec_all [10; 20; 30] qops).2.
Proof.
  apply (mqueue_refines_list queue3 [10; 20; 30] qops queue3_plain).
  - repeat constructor; vm_compute; congruence.
  - vm_compute. congruence.
Defined.

(** Five items on a stack with a free list of three nodes, of which two are taken
    off and three put on again: the list is emptied, filled and used again. *)
Lemma mqueue_refines_stack_witness :
  ∃ t t', mqueue_init 3 = Ok t ∧
    qexec_all t [QAdd 1; QAdd 2; QAdd 3; QAdd 4; QAdd 5; QRemove; QRemove; QAdd 6; QAdd 7; QAdd 8; QRemove; QPeek 1; QSize] =
      Ok ([0; 0; 0; 0; 0; 5; 4; 0; 0; 0; 8; 6; 5], t') ∧
    qlifo t' [7; 6; 3; 2; 1].
Proof.
  destruct (mqueue_init_ok 3) as (t & E & Hq & _); [int_lia|]. exists t.
  destruct (mqueue_refines_stack t []
    [QAdd 1; QAdd 2; QAdd 3; QAdd 4; QAdd 5; QRemove; QRemove; QAdd 6; QAdd 7; QAdd 8; QRemove; QPeek 1; QSize] Hq)
    as (t' & E' & Hq'); [by repeat constructor|by repeat constructor|by vm_compute|].
  exists t'. split; [exact E|]. split; [exact E'|exact Hq'].
Defined.

Lemma mqueue_init_correct_witness :
  ∃ t, mqueue_init 100 = Ok t ∧ qlifo t [] ∧ mqueue_size t = 0 ∧ (100 = 0 → qplain t []).
Proof. apply (mqueue_init_correct 100). vm_compute. split; congruence. Defined.

Lemma mqueue_remove_item_head_witness :
  mqueue_remove_item queue3 10 = some_result (mqueue_remove queue3).
Proof. exact (mqueue_remove_item_head queue3 10 20 [30] queue3_plain). Defined.

Lemma mqueue_remove_item_last_witness :
  ∃ t', mqueue_remove_item queue3 30 = Ok (None, t') ∧ qplain t' [10; 20; 30].
Proof.
  apply (mqueue_remove_item_last queue3 [10; 20; 30] 30 queue3_plain).
  cbn. rewrite !not_elem_of_cons. split; [lia|]. split; [lia|]. apply not_elem_of_nil.
Defined.

Lemma mqueue_remove_item_middle_witness :
  ∃ t', mqueue_remove_item queue3 20 = Ok (Some 10, t') ∧ mqueue_remove t' = Fault BadPtr.
Proof.
  apply (mqueue_remove_item_middle queue3 10 [] 20 [30] queue3_plain).
  - rewrite not_elem_of_cons. split; [lia|]. apply not_elem_of_nil.
  - congruence.
Defined.

Lemma mqueue_remove_at_index_stale_witness :
  ∃ t', mqueue_remove_at_index queue3 0 = Ok (10, t') ∧ mqueue_peek_at_index t' 0 = Fault BadPtr.
Proof. exact (mqueue_remove_at_index_stale queue3 10 20 [30] queue3_plain). Defined.

(** A queue with a free list of three nodes, one of them in use. *)
Definition queue_buf : mqueue_t :=
  MqueueT (Mqueue 1 0 1 (Pool 3 2 2 3) 1 1)
          (Heap {[1 := Item 7 0; 2 := Item 0 3; 3 := Item 0 0]} 4).

Lemma queue_buf_ok : qok queue_buf [1] [7] [2; 3].
Proof.
  constructor; try done.
  - split; [done|]. intros a. cbn. rewrite !lookup_insert_is_Some', lookup_singleton_is_Some. lia.
  - split; [done|]. by eexists (Item 7 0).
  - repeat constructor.
  - apply NoDup_singleton.
  - intros a Ha%list_elem_of_singleton. subst. rewrite !elem_of_cons, elem_of_nil. lia.
  - left. split; [|split; [|split]].
    + split; [done|]. eexists (Item 0 3). split; [done|]. split; [done|]. by eexists (Item 0 0).
    + repeat constructor; rewrite ?elem_of_cons, ?elem_of_nil; lia.
    + right. left. by exists [2].
    + cbn. int_lia.
Qed.

Lemma mqueue_free_leaks_witness :
  ∃ h, mqueue_free queue_buf = Ok h ∧ (∀ a, a ∈ [1] → cells h !! a = cells (items queue_buf) !! a) ∧
    (3 ≠ 0 → ∀ a, a ∈ [2; 3] → cells h !! a = None).
Proof. exact (mqueue_free_leaks queue_buf [1] [7] [2; 3] queue_buf_ok). Defined.
End QueueExamples.
