(* ===== verification/MqueueFifo.v ===== *)
(** * The message queue with a free list, used first in, first out

    [mqueue_free_item] links a released node after [buf_back] without moving
    [buf_back], and [mqueue_alloc_item] can then take the node at [buf_back]
    into the queue while the list is not empty: from there on every release
    writes the [next] of a node in use.  [mqueue_fifo_broken] runs a queue with
    any free list of at least three nodes into this, with fewer items in the queue
    than the list has nodes. *)

From S2P Require Import Prelude Heap Pool Mqueue MqueueRepr MqueueProofs MqueueSpec.

(** The queue [t] with the nodes [as_] and the contents [cs], whose last node
    points to [z], and the free list [fl] of [nb] nodes by its count; [bk] is
    [buf_back], wherever it points. *)
Record raw (t : mqueue_t) (n nb bk : Z) (as_ : list Z) (z : Z) (cs fl : list Z) : Prop := {
  rw_wf : heap_wf (items t);
  rw_seg : lseg (items t) (first (que t)) as_ z;
  rw_content : Forall2 (fun a c => content <$> cells (items t) !! a = Some c) as_ cs;
  rw_nodup : NoDup (as_ ++ fl);
  rw_last : last (que t) = default NULL (list.last as_);
  rw_count : count (que t) = Z.of_nat (length as_);
  rw_free : lseg (items t) (p_front (q_pool (que t))) fl NULL;
  rw_init : p_init (q_pool (que t)) = n;
  rw_nbuf : p_nbuf (q_pool (que t)) = nb;
  rw_back : p_back (q_pool (que t)) = bk
}.

Section Fifo.
Context `{Uninit mqueue_item}.

Lemma pool_fill_count fuel : ∀ (pl : pool) (h : heap mqueue_item) pl' h',
  p_nbuf pl ≤ p_init pl → pool_fill fuel pl h = Ok (pl', h') → p_nbuf pl' = p_init pl'.
Proof.
  induction fuel as [|fuel IH]; intros pl h pl' h' Hle; cbn;
    destruct (Z.ltb_spec (p_nbuf pl) (p_init pl)); try done; try (intros [= <- _]; lia).
  destruct (h_load _ _) as [y|]; [cbn|done]. destruct (h_store _ _ _) as [h1|]; [cbn|done].
  destruct (h_load _ _) as [x|]; [cbn|done]. destruct (h_store _ _ _) as [h2|]; [cbn|done].
  unfold add_int, int_check. case_decide; [|done]. cbn. apply IH. cbn. lia.
Qed.

(** Appending takes the first node of a free list that has another. *)
Lemma append_take t n nb bk as_ cs b fl c :
  raw t n nb bk as_ NULL cs (b :: fl) → fl ≠ [] → n ≠ 0 → 0 ≤ nb ≤ INT_MAX →
  Z.of_nat (length as_) < INT_MAX →
  ∃ t', mqueue_append t c = Ok t' ∧ raw t' n (nb - 1) bk (as_ ++ [b]) NULL (cs ++ [c]) fl.
Proof.
  intros [Hw Hs Hc Hnd Hl Hn (Hf & x & Hx & Hfl) Hi Hnb Hb] Hne Hn0 Hr Hmax.
  pose proof Hnd as (_ & Hd & [Hbfl _]%NoDup_cons)%NoDup_app.
  assert (Hbas : b ∉ as_) by (intros Hin; apply (Hd b Hin); left).
  assert (Hnx : nxt x ≠ NULL).
  { destruct fl as [|b' fl]; [done|]. destruct Hfl as (-> & y & Hy & _). by eapply heap_wf_pos. }
  unfold mqueue_append, mqueue_alloc_item, pool_alloc. rewrite Hi, Hf, (truthy_true _ Hn0).
  rewrite (truthy_true b) by (by eapply heap_wf_pos). cbn. rewrite (h_load_Ok _ _ _ Hw Hx). cbn.
  rewrite Hnb, sub_int_Ok by int_lia. cbn. cbn in Hnx. rewrite (proj2 (Z.eqb_neq _ _) Hnx).
  rewrite h_store_Ok by (try done; by eexists). cbn.
  set (h1 := h_set (items t) b (Item c NULL)).
  assert (Hw1 : heap_wf h1) by (apply heap_wf_set; [done|by eexists]).
  assert (Hb1 : cells h1 !! b = Some (Item c NULL)) by apply lookup_h_set.
  assert (Hag : agree (items t) h1 as_) by (by apply agree_set).
  assert (Hs1 : lseg h1 (first (que t)) as_ NULL) by (by eapply lseg_agree).
  assert (Hf1 : lseg h1 (next x) fl NULL) by (eapply lseg_agree; [by apply agree_set|done]).
  pose proof (content_agree _ _ _ _ Hag Hc) as Hc1.
  assert (Hnd' : NoDup ((as_ ++ [b]) ++ fl)) by (by rewrite <- app_assoc).
  assert (Hcb : ∀ h, cells h !! b = Some (Item c NULL) → content <$> cells h !! b = Some c) by (by intros h ->).
  destruct as_ as [|b0 l _] using rev_ind.
  - rewrite Hl. cbn. rewrite Hn, add_int_Ok by int_lia. cbn. destruct cs; [|by inversion Hc].
    eexists. split; [reflexivity|]. split; cbn; try done; try (rewrite Hi); try done.
    + split; [done|]. by exists (Item c NULL).
    + repeat constructor. by apply Hcb.
  - rewrite last_snoc in Hl. cbn in Hl.
    assert (Hb0 : b0 ∈ l ++ [b0]) by (apply elem_of_app; right; left).
    destruct (lseg_allocated _ _ _ _ _ Hs1 Hb0) as [y Hy].
    assert (Hneb : b0 ≠ b) by (by intros ->).
    rewrite Hl, (proj2 (Z.eqb_neq b0 NULL)) by (by eapply heap_wf_pos).
    rewrite (h_load_Ok _ _ _ Hw1 Hy). cbn. rewrite h_store_Ok by (try done; by eexists). cbn.
    rewrite Hn, add_int_Ok by (rewrite length_app in *; cbn in *; int_lia). cbn.
    eexists. split; [reflexivity|].
    assert (Hbf : b0 ∉ fl) by (intros Hin; apply (Hd b0 Hb0); by right).
    split; cbn -[list.last]; try done; try (rewrite Hi; done).
    + by apply heap_wf_set; [|eexists].
    + rewrite <- app_assoc. change (y <| next := b |>) with (set_nxt b y).
      apply (lseg_append _ _ l b0 b y (Item c NULL)); try done.
      by apply NoDup_app in Hnd as (? & _ & _).
    + apply Forall2_app; [by apply content_set_next|]. repeat constructor. apply Hcb.
      by rewrite lookup_h_set_ne.
    + by rewrite last_snoc.
    + rewrite !length_app. cbn. lia.
    + eapply lseg_agree; [by apply agree_set|done].
Qed.

(** Removing the first node, while the free list has room and [buf_back] points
    to an allocated node: that node gets the released one as its next. *)
Lemma remove_step t n nb bk a c nx y :
  heap_wf (items t) → first (que t) = a → cells (items t) !! a = Some (Item c nx) →
  p_init (q_pool (que t)) = n → p_nbuf (q_pool (que t)) = nb → p_back (q_pool (que t)) = bk →
  n ≠ 0 → in_int (3 * n) → 0 ≤ nb < 3 * n → in_int (count (que t) - 1) →
  cells (h_set (items t) a (Item c NULL)) !! bk = Some y →
  ∃ t', mqueue_remove t = Ok (c, t') ∧
    items t' = h_set (h_set (items t) a (Item c NULL)) bk (y <| next := a |>) ∧
    first (que t') = nx ∧ last (que t') = (if nx =? NULL then NULL else last (que t)) ∧
    count (que t') = count (que t) - 1 ∧
    q_pool (que t') = Pool n (nb + 1) (p_front (q_pool (que t))) bk.
Proof.
  intros Hw Hf Hx Hi Hnb Hb Hn0 H3 Hr Hmax Hy. unfold mqueue_remove.
  assert (Ha : is_Some (cells (items t) !! a)) by (by eexists).
  rewrite Hf, (truthy_true a) by (by eapply heap_wf_pos). rewrite (h_load_Ok _ _ _ Hw Hx). cbn [mbind res_bind].
  set (q := _ <| index := 0 |> <| indexed := _ |>).
  assert (Hq : q_pool q = q_pool (que t) ∧ count q = count (que t) ∧ first q = nx ∧
    last q = if nx =? NULL then NULL else last (que t)) by (unfold q; cbn; by destruct (nx =? NULL)).
  clearbody q. destruct Hq as (Hq & Hqn & Hqf & Hql).
  unfold mqueue_free_item, pool_release. cbn.
  rewrite (h_load_Ok _ _ _ Hw Hx). cbn. rewrite h_store_Ok by done. cbn.
  pose proof (heap_wf_set _ _ (Item c NULL) Hw Ha) as Hw1.
  unfold pool_has_room. rewrite Hq, Hi, (truthy_true _ Hn0), mul_int_Ok by done. cbn.
  rewrite Hnb, (proj2 (Z.ltb_lt nb _)) by lia. rewrite Hb, (truthy_true bk) by (by eapply heap_wf_pos).
  change (Item c nx <| next := NULL |>) with (Item c NULL).
  rewrite (h_load_Ok _ _ _ Hw1 Hy). cbn. rewrite h_store_Ok by (try done; by eexists). cbn.
  rewrite Hnb, add_int_Ok by int_lia. cbn. rewrite Hqn, sub_int_Ok by done. cbn.
  eexists. split; [reflexivity|]. cbn. split_and!; try done.
  destruct (q_pool (que t)); cbn in *; by subst.
Qed.

(** The first node of a queue. *)
Lemma raw_first t n nb bk a as_ z c cs fl :
  raw t n nb bk (a :: as_) z (c :: cs) fl →
  first (que t) = a ∧ ∃ nx, cells (items t) !! a = Some (Item c nx) ∧ lseg (items t) nx as_ z.
Proof.
  intros [_ (Hf & [c' nx] & Hx & Hs) [Ha _]%Forall2_cons _ _ _ _ _ _ _]. split; [done|]. exists nx.
  rewrite Hx in Ha. by injection Ha as ->.
Qed.

(** The first item of a fresh queue, removed: its node is put behind the last
    node of the free list, which [buf_back] still is. *)
Lemma remove_first t n nb bk a c fl :
  raw t n nb bk [a] NULL [c] (fl ++ [bk]) → n ≠ 0 → in_int (3 * n) → 0 ≤ nb < 3 * n →
  ∃ t', mqueue_remove t = Ok (c, t') ∧ raw t' n (nb + 1) bk [] NULL [] (fl ++ [bk; a]).
Proof.
  intros Hr Hn0 H3 Hnb. pose proof Hr as [Hw _ _ Hnd _ _ Hfl _ _ _]. cbn in Hnd.
  apply NoDup_cons in Hnd as [Ha Hnd].
  assert (Hab : a ≠ bk) by (intros ->; apply Ha, elem_of_app; right; left).
  pose proof Hfl as (r & _ & (_ & y & Hy & _))%lseg_app.
  assert (Hy1 : cells (h_set (items t) a (Item c NULL)) !! bk = Some y) by (by rewrite lookup_h_set_ne).
  destruct (raw_first _ _ _ _ _ _ _ _ _ _ Hr) as (Ef & nx & Hx & Hs). cbn in Hs. subst nx.
  destruct (remove_step t n nb bk a c NULL y) as (t' & E & Hit & Hf & Hl & Hc & Hp); try apply Hr; try done;
    [rewrite (rw_count _ _ _ _ _ _ _ _ Hr); cbn; int_lia|].
  rewrite (rw_count _ _ _ _ _ _ _ _ Hr) in Hc. exists t'. split; [done|]. split; rewrite ?Hit, ?Hp, ?Hf, ?Hl, ?Hc; try done.
  - apply heap_wf_set; [apply heap_wf_set; [done|by eexists]|by eexists].
  - rewrite app_nil_l. replace (fl ++ [bk; a]) with ((fl ++ [bk]) ++ [a]) by (by rewrite <- app_assoc).
    apply NoDup_app. split; [done|]. split; [|apply NoDup_singleton]. by intros b Hb ->%list_elem_of_singleton.
  - cbn [p_front]. change (y <| next := a |>) with (set_nxt a y).
    apply (lseg_append _ _ fl bk a y (Item c NULL)); try done; [|apply lookup_h_set].
    eapply lseg_agree; [by apply agree_set|done].
Qed.

(** Once [buf_back] is the last node of the queue, a removal leaves the queue
    behind it ending in the node that was removed. *)
Lemma remove_stale t n nb bk a l z c cs fl :
  raw t n nb bk (a :: l ++ [bk]) z (c :: cs) fl → n ≠ 0 → in_int (3 * n) → 0 ≤ nb < 3 * n →
  Z.of_nat (length l) + 1 < INT_MAX →
  ∃ t', mqueue_remove t = Ok (c, t') ∧ raw t' n (nb + 1) bk (l ++ [bk]) a cs fl ∧
    content <$> cells (items t') !! a = Some c.
Proof.
  intros Hr Hn0 H3 Hnb Hmax. pose proof Hr as [Hw (_ & x & Hx & Hseg) Hct Hnd Hla _ Hfl _ _ _]. cbn in Hnd.
  apply NoDup_cons in Hnd as [Ha Hnd]. pose proof Hnd as (Hndl & Hd & _)%NoDup_app.
  assert (Hal : a ∉ l ++ [bk]) by (intros Hin; apply Ha, elem_of_app; by left).
  assert (Hab : a ≠ bk) by (intros ->; apply Hal, elem_of_app; right; left).
  assert (Haf : a ∉ fl) by (intros Hin; apply Ha, elem_of_app; by right).
  assert (Hbl : bk ∉ l) by (intros Hin; apply NoDup_app in Hndl as (_ & Hdl & _); by apply (Hdl bk), list_elem_of_singleton).
  assert (Hbf : bk ∉ fl) by (apply Hd, elem_of_app; right; left).
  destruct (lseg_allocated _ _ _ _ bk Hseg) as [y Hy]; [apply elem_of_app; right; left|].
  assert (Hy1 : cells (h_set (items t) a (Item c NULL)) !! bk = Some y) by (by rewrite lookup_h_set_ne).
  destruct (raw_first _ _ _ _ _ _ _ _ _ _ Hr) as (Ef & nx & Hx' & Hs).
  destruct (remove_step t n nb bk a c nx y) as (t' & E & Hit & Hf & Hl & Hc & Hp); try apply Hr; try done;
    [rewrite (rw_count _ _ _ _ _ _ _ _ Hr); cbn; rewrite length_app; cbn; int_lia|].
  rewrite (rw_count _ _ _ _ _ _ _ _ Hr) in Hc.
  assert (nx ≠ NULL) as Hnx.
  { destruct l as [|b l]; destruct Hs as (-> & w & Hw' & _); by eapply heap_wf_pos. }
  exists t'. split; [done|]. split; [split|]; rewrite ?Hit, ?Hp, ?Hf, ?Hl, ?Hc; try done.
  - apply heap_wf_set; [apply heap_wf_set; [done|by eexists]|by eexists].
  - change (y <| next := a |>) with (set_nxt a y).
    eapply lseg_relink; [done|done|]. eapply lseg_agree; [by apply agree_set|exact Hs].
  - apply content_set_next; [done|]. apply Forall2_cons in Hct as [_ Hct].
    eapply content_agree; [by apply agree_set|done].
  - rewrite (proj2 (Z.eqb_neq _ _) Hnx), Hla. change (a :: l ++ [bk]) with ((a :: l) ++ [bk]). by rewrite !last_snoc.
  - cbn [length]. lia.
  - cbn. eapply lseg_agree; [by apply agree_set|]. eapply lseg_agree; [by apply agree_set|done].
  - by rewrite lookup_h_set_ne, lookup_h_set.
Qed.

Lemma qexec_all_app t ops1 ops2 os1 t1 :
  qexec_all t ops1 = Ok (os1, t1) →
  qexec_all t (ops1 ++ ops2) = '(os2, t2) ← qexec_all t1 ops2; Ok (os1 ++ os2, t2).
Proof.
  revert t os1. induction ops1 as [|op ops1 IH]; intros t os1; cbn.
  { intros [= <- ->]. destruct (qexec_all t1 ops2) as [[]|]; reflexivity. }
  destruct (qexec t op) as [[o t2]|f]; [cbn|done].
  destruct (qexec_all t2 ops1) as [[os t3]|f] eqn:E; [cbn|done]. intros [= <- ->].
  rewrite (IH _ _ E). destruct (qexec_all t1 ops2) as [[]|]; reflexivity.
Qed.

(** As many appends as the free list gives nodes, but for one. *)
Lemma append_all ds : ∀ bs t n nb bk as_ cs f fl,
  raw t n nb bk as_ NULL cs (bs ++ f :: fl) → length bs = length ds → n ≠ 0 →
  Z.of_nat (length ds) ≤ nb ≤ INT_MAX → Z.of_nat (length as_ + length ds) < INT_MAX →
  ∃ t', qexec_all t (QAppend <$> ds) = Ok (replicate (length ds) 0, t') ∧
    raw t' n (nb - Z.of_nat (length ds)) bk (as_ ++ bs) NULL (cs ++ ds) (f :: fl).
Proof.
  induction ds as [|d ds IH]; intros [|b bs] t n nb bk as_ cs f fl Hr Hlen Hn0 Hnb Hmax; try done.
  { exists t. cbn. by rewrite !app_nil_r, Z.sub_0_r. }
  cbn [length app] in *. destruct (append_take t n nb bk as_ cs b (bs ++ f :: fl) d Hr) as (t1 & E & Hr1);
    [by destruct bs|done|lia|lia|].
  destruct (IH bs t1 n (nb - 1) bk _ _ f fl Hr1) as (t' & E' & Hr'); [lia|done|lia|rewrite length_app; cbn; lia|].
  exists t'. cbn. rewrite E. cbn. change (list_fmap _ _ QAppend ds) with (QAppend <$> ds). rewrite E'. cbn.
  split; [done|]. rewrite <- !app_assoc in Hr'. cbn in Hr'. by replace (nb - Z.of_nat (S (length ds))) with (nb - 1 - Z.of_nat (length ds)) by lia.
Qed.

(** Removing all the items but the last, with [buf_back] at the last node. *)
Lemma remove_all ds : ∀ as_ t n nb bk z c fl,
  raw t n nb bk (as_ ++ [bk]) z (ds ++ [c]) fl → length as_ = length ds → n ≠ 0 → in_int (3 * n) →
  0 ≤ nb → nb + Z.of_nat (length ds) ≤ 3 * n → Z.of_nat (length ds) + 1 < INT_MAX →
  ∃ t' z', qexec_all t (replicate (length ds) QRemove) = Ok (ds, t') ∧
    raw t' n (nb + Z.of_nat (length ds)) bk [bk] z' [c] fl ∧
    match list.last ds with
    | Some d => content <$> cells (items t') !! z' = Some d ∧ z' ≠ bk
    | None => z' = z ∧ t' = t
    end.
Proof.
  induction ds as [|d ds IH]; intros [|a as_] t n nb bk z c fl Hr Hlen Hn0 H3 Hnb0 Hnb Hmax; try done.
  { exists t, z. cbn. by rewrite Z.add_0_r. }
  cbn [length app] in *.
  assert (Hab : a ≠ bk).
  { pose proof (rw_nodup _ _ _ _ _ _ _ _ Hr) as Hnd. apply NoDup_cons in Hnd as [Ha _]. intros ->.
    apply Ha, elem_of_app. left. apply elem_of_app. right. left. }
  destruct (remove_stale t n nb bk a as_ z d (ds ++ [c]) fl Hr) as (t1 & E & Hr1 & Hd); [done|done|lia|lia|].
  destruct (IH as_ t1 n (nb + 1) bk a c fl Hr1) as (t' & z' & E' & Hr' & Hz'); [lia|done|done|lia|lia|lia|].
  exists t', z'. cbn. rewrite E. cbn. rewrite E'. cbn. split; [done|].
  replace (nb + Z.of_nat (S (length ds))) with (nb + 1 + Z.of_nat (length ds)) by lia. split; [done|].
  destruct ds as [|d' ds]; [destruct Hz' as [-> ->]; by split|].
  change (list.last (d :: d' :: ds)) with (list.last (d' :: ds)).
  destruct (list.last (d' :: ds)) eqn:El; [exact Hz'|by apply last_None in El].
Qed.

(** The last item comes out, and then the one the stale node points to. *)
Lemma remove_last t n nb bk z c b fl :
  raw t n nb bk [bk] z [c] fl → n ≠ 0 → in_int (3 * n) → 0 ≤ nb → nb + 1 < 3 * n →
  content <$> cells (items t) !! z = Some b → z ≠ bk →
  ∃ t', qexec_all t [QRemove; QRemove] = Ok ([c; b], t') ∧ mqueue_size t' = -1.
Proof.
  intros Hr Hn0 H3 Hnb0 Hnb Hz Hne.
  destruct (raw_first _ _ _ _ _ _ _ _ _ _ Hr) as (Ef & nx & Hx & Hs). cbn in Hs. subst nx.
  destruct (remove_step t n nb bk bk c z (Item c NULL)) as (t1 & E & Hit & Hf & Hl & Hc & Hp); try apply Hr; try done;
    [lia|rewrite (rw_count _ _ _ _ _ _ _ _ Hr); cbn; int_lia|apply lookup_h_set|].
  rewrite (rw_count _ _ _ _ _ _ _ _ Hr) in Hc. cbn in Hc.
  destruct (cells (items t) !! z) as [[b' w]|] eqn:Ez; [|done]. injection Hz as ->.
  assert (Hz1 : cells (items t1) !! z = Some (Item b w)) by (by rewrite Hit, !lookup_h_set_ne).
  assert (Hw1 : heap_wf (items t1)).
  { rewrite Hit. apply heap_wf_set; [apply heap_wf_set; [apply Hr|by eexists]|]. rewrite lookup_h_set. by eexists. }
  assert (Hb1 : is_Some (cells (h_set (items t1) z (Item b NULL)) !! bk)).
  { rewrite lookup_h_set_ne, Hit, lookup_h_set by done. by eexists. }
  destruct Hb1 as [y Hy].
  destruct (remove_step t1 n (nb + 1) bk z b w y) as (t' & E' & _ & _ & _ & Hc' & _);
    rewrite ?Hp, ?Hc; try done; [lia|].
  cbn -[mqueue_remove]. rewrite E. cbn -[mqueue_remove]. rewrite E'. cbn. exists t'. split; [done|].
  unfold mqueue_size. rewrite Hc', Hc. done.
Qed.

(** A fresh queue: [n] nodes in the free list, the last one at [buf_back]. *)
Lemma raw_init n :
  2 ≤ n → in_int (3 * n) →
  ∃ t b bs bk, mqueue_init n = Ok t ∧ raw t n n bk [] NULL [] (b :: bs ++ [bk]) ∧ Z.of_nat (length bs) + 2 = n.
Proof.
  intros Hn H3. destruct (pool_init_spec n H3) as (pl & h & l & E & Hw & (Hseg & Hnd & _ & Hnb & _) & Hi & Hl & Hx).
  rewrite (truthy_true n), Z.max_r in Hl by lia.
  assert (Hc : p_nbuf pl = n).
  { rewrite <- Hi. unfold pool_init in E. rewrite (truthy_true n) in E by lia. cbn in E.
    destruct (h_load _ _) as [x|]; [cbn in E|done]. destruct (h_store _ _ _) as [h1|]; [cbn in E|done].
    eapply pool_fill_count; [|exact E]. cbn. lia. }
  destruct Hx as [->|[l1 ->]]; [cbn in Hl; lia|]. rewrite length_app in Hl. cbn in Hl.
  destruct l1 as [|b bs]; cbn in Hl; [lia|]. unfold mqueue_init. rewrite E. cbn.
  eexists _, b, bs, (p_back pl). split; [reflexivity|]. split; [|lia].
  split; cbn; try done.
Qed.

(** The operations that show it: one item in and out, then the items [ds], [b]
    and [c] in, and one removal more than there are items. *)
Definition fifo_ops (a : Z) (ds : list Z) (b c : Z) : list qop :=
  [QAppend a; QRemove] ++ (QAppend <$> ds ++ [b; c]) ++ replicate (length ds + 3) QRemove.

(** What they return. *)
Definition fifo_results (a : Z) (ds : list Z) (b c : Z) : list Z :=
  [0; a] ++ replicate (length ds + 2) 0 ++ ds ++ [b; c; b].

Lemma fifo_repeats n a ds b c :
  Z.of_nat (length ds) + 3 = n → in_int (3 * n) →
  ∃ t t', mqueue_init n = Ok t ∧ qexec_all t (fifo_ops a ds b c) = Ok (fifo_results a ds b c, t') ∧
    mqueue_size t' = -1.
Proof.
  unfold fifo_ops, fifo_results. intros Hn H3. destruct (raw_init n ltac:(lia) H3) as (t & x & bs & bk & Et & Hr & Hlen).
  exists t. cbn -[replicate].
  destruct (append_take t n n bk [] [] x (bs ++ [bk]) a Hr) as (t1 & E1 & Hr1); [by destruct bs|int_lia|int_lia|done|].
  destruct (remove_first t1 n _ bk x a bs Hr1) as (t2 & E2 & Hr2); [int_lia..|].
  rewrite E1. cbn -[replicate]. rewrite E2. cbn -[replicate].
  replace (bs ++ [bk; x]) with ((bs ++ [bk]) ++ [x]) in Hr2 by (by rewrite <- app_assoc).
  destruct (append_all (ds ++ [b; c]) _ t2 n _ bk [] [] x [] Hr2) as (t3 & E3 & Hr3);
    rewrite ?length_app; cbn [length]; [lia|int_lia..|].
  rewrite (qexec_all_app _ _ _ _ _ E3), length_app. cbn [length app] in *.
  replace (ds ++ [b; c]) with ((ds ++ [b]) ++ [c]) in Hr3 by (by rewrite <- app_assoc).
  destruct (remove_all (ds ++ [b]) bs t3 n _ bk NULL c [x] Hr3) as (t4 & z & E4 & Hr4 & Hz);
    rewrite ?length_app; cbn [length]; [lia|int_lia..|].
  rewrite length_app in E4. cbn [length] in E4. rewrite last_snoc in Hz.
  replace (length ds + 3)%nat with ((length ds + 1) + 2)%nat by lia.
  rewrite (replicate_add _ _ QRemove), (qexec_all_app _ _ _ _ _ E4).
  destruct (remove_last t4 n _ bk z c b [x] Hr4) as (t5 & E5 & Hn5);
    rewrite ?length_app; cbn [length]; [int_lia..|apply Hz|apply Hz|].
  change (replicate 2 QRemove) with [QRemove; QRemove]. rewrite E5. cbn -[replicate]. exists t5.
  split; [done|]. split; [|done]. by rewrite <- !app_assoc.
Qed.

(** C14: With a free list the queue is not a queue. For every size of the free
    list from three on (the repository uses 3, 10 and 20), one item is appended
    and removed, then one item fewer than the list has nodes is appended, and
    then items are removed: they come out in order, but after the last one, when
    the queue is empty and [mqueue_remove] should return NULL, the last but one
    comes out a second time, and the size of the queue is -1. *)
Theorem mqueue_fifo_broken n a ds b c :
  Z.of_nat (length ds) + 3 = n → in_int (3 * n) →
  ∃ t t', mqueue_init n = Ok t ∧
    qexec_all t ([QAppend a; QRemove] ++ (QAppend <$> ds ++ [b; c]) ++ replicate (length ds + 3) QRemove) =
      Ok ([0; a] ++ replicate (length ds + 2) 0 ++ ds ++ [b; c; b], t') ∧ mqueue_size t' = -1.
Proof. apply fifo_repeats. Qed.

(** With more items than three times the free list the use of a stale node ends
    in a freed one: with the sizes that the repository uses, the last append of
    these calls writes to a node that was given back to the system. *)
Definition overflow_ops (n : nat) : list qop :=
  (QAppend <$> seqZ 1 (3 * Z.of_nat n + 1)) ++ replicate (3 * n) QRemove ++
  [QAppend 1; QRemove; QRemove; QAppend 2].

Theorem mqueue_pool_use_after_free :
  Forall (λ n, ∃ t, mqueue_init (Z.of_nat n) = Ok t ∧ qexec_all t (overflow_ops n) = Fault BadPtr)
    [1; 3; 10; 20]%nat.
Proof.
  unfold Uninit in *. destruct H.
  repeat constructor; (eexists; split; [vm_compute; reflexivity|vm_compute; reflexivity]).
Qed.
End Fifo.

(** ** A free list of ten nodes *)

Module FifoExamples.
Import QueueExamples.

Lemma mqueue_fifo_broken_witness :
  ∃ t t', mqueue_init 10 = Ok t ∧
    qexec_all t ([QAppend 1; QRemove] ++ (QAppend <$> [2; 3; 4; 5; 6; 7; 8; 9; 10]) ++ replicate 10 QRemove) =
      Ok ([0; 1] ++ replicate 9 0 ++ [2; 3; 4; 5; 6; 7; 8; 9; 10; 9], t') ∧ mqueue_size t' = -1.
Proof.
  apply (mqueue_fifo_broken 10 1 [2; 3; 4; 5; 6; 7; 8] 9 10);
    [reflexivity|vm_compute; split; congruence].
Defined.
End FifoExamples.
