(* ===== verification/Uthread.v ===== *)
(** * Threads, mutexes and events: [src/lib/util/uthread.c]

    The functions of the POSIX branch.  A function that may block is a program
    of type [prog]: a sequence of atomic actions on one event and one mutex, in
    the order of the C statements, with the rest of the thread as its
    continuation.  [cstep] interleaves any number of threads and says what the
    pthread calls do: a mutex has one owner, [pthread_cond_wait] gives the mutex
    up while it waits and may wake up for no reason, [pthread_cond_timedwait]
    refuses a deadline whose nanoseconds are out of range. *)

From S2P Require Import Prelude Heap Pool Mqueue MqueueRepr.

Record clock := Clock { clk_sec : Z; clk_usec : Z }.           (* struct timeval *)
Record timespec := Timespec { ts_sec : Z; ts_nsec : Z }.

Definition EINVAL : Z := 22.
Definition ETIMEDOUT : Z := 110.

(** ** Programs *)

(** The mutex of the event ([evt->cond_var_mutex]) and that of the queue. *)
Inductive mtx := EvtMutex | QueueMutex.
#[global] Instance mtx_eq_dec : EqDecision mtx.
Proof. solve_decision. Defined.

Inductive prog :=
  | Ret (r : Z)
  | Lock (m : mtx) (k : prog)
  | Unlock (m : mtx) (k : prog)
  | IncStatus (k : prog)                                  (* evt->status++ *)
  | DecStatus (k : prog)                                  (* evt->status-- *)
  | GetStatus (k : Z → prog)                              (* reads evt->status *)
  | Now (k : clock → prog)                                (* gettimeofday *)
  | CondSignal (k : prog)
  | CondBroadcast (k : prog)
  | CondWait (k : Z → prog)
  | CondTimedwait (t : timespec) (k : Z → prog)
  | WhileStatus (ret : Z) (k : Z → prog)                  (* while(evt->status) ret = cond_wait *)
  | DoQueue (op : qop) (k : Z → prog).                    (* a call on queue->queue *)

(** ** Mutexes *)

Definition UTHREAD_MUTEX_SUCCESS : Z := 0.

(** [pthread_mutex_lock] and [pthread_mutex_unlock] return 0 when they return;
    [mutex->status] is only ever set, to 0. *)
Definition uthread_mutex_lock (k : Z → prog) : prog := Lock QueueMutex (k 0).
Definition uthread_mutex_unlock (k : Z → prog) : prog := Unlock QueueMutex (k 0).

(** The timeout is not used. *)
Definition uthread_mutex_lock_timed (timeoutms : Z) (k : Z → prog) : prog :=
  if timeoutms <? 0 then uthread_mutex_lock k else Lock QueueMutex (k UTHREAD_MUTEX_SUCCESS).

(** ** Events *)

Definition uthread_evt_signal (k : Z → prog) : prog :=
  Lock EvtMutex (GetStatus (fun status =>
    if truthy status then CondSignal (Unlock EvtMutex (k 0))
    else Unlock EvtMutex (k 0))).

Definition uthread_evt_broadcast (k : Z → prog) : prog :=
  Lock EvtMutex (GetStatus (fun status =>
    if truthy status then CondBroadcast (Unlock EvtMutex (k 0))
    else Unlock EvtMutex (k 0))).

Definition uthread_evt_wait (k : Z → prog) : prog :=
  Lock EvtMutex (IncStatus (WhileStatus 0 (fun ret =>
    DecStatus (Unlock EvtMutex (k ret))))).

(** The deadline of a wait of [timeoutms] milliseconds. *)
Definition deadline (now : clock) (timeoutms : Z) : timespec :=
  Timespec (clk_sec now + Z.quot timeoutms 1000)
           (clk_usec now * 1000 + Z.rem timeoutms 1000 * 1000000).

Definition uthread_evt_timedwait (timeoutms : Z) (k : Z → prog) : prog :=
  if timeoutms <? 0 then uthread_evt_wait k
  else
    Lock EvtMutex (IncStatus (Now (fun now =>
      CondTimedwait (deadline now timeoutms) (fun ret =>
        DecStatus (Unlock EvtMutex (k ret)))))).

Definition uthread_evt_waitcount (k : Z → prog) : prog :=
  Lock EvtMutex (GetStatus (fun ret => Unlock EvtMutex (k ret))).

(** ** Threads that share an event, a mutex and a queue *)

Inductive thread :=
  | Running (p : prog)
  | Blocked (timed : bool) (k : Z → prog)      (* in pthread_cond_wait or _timedwait *)
  | Waking (ret : Z) (k : Z → prog).           (* woken, before it has the mutex again *)

Record config := Config {
  evt_owner : option nat;
  queue_owner : option nat;
  evt_status : Z;
  sq_waiting : Z;
  sq_queue : mqueue_t;
  threads : list thread
}.
#[global] Instance config_eta : Eta config := fun r =>
  Config (evt_owner r) (queue_owner r) (evt_status r) (sq_waiting r) (sq_queue r) (threads r).

Definition owner (m : mtx) (c : config) : option nat :=
  match m with EvtMutex => evt_owner c | QueueMutex => queue_owner c end.
Definition set_owner (m : mtx) (o : option nat) (c : config) : config :=
  match m with
  | EvtMutex => c <| evt_owner := o |>
  | QueueMutex => c <| queue_owner := o |>
  end.
Definition set_thread (i : nat) (th : thread) (c : config) : config :=
  c <| threads := <[i := th]> (threads c) |>.

Definition valid_deadline (t : timespec) : bool := (0 <=? ts_nsec t) && (ts_nsec t <? 1000000000).

Definition wake (th : thread) : thread :=
  match th with Blocked _ k => Waking 0 k | _ => th end.
Definition is_blocked (th : thread) : bool :=
  match th with Blocked _ _ => true | _ => false end.

(** What a step did to the queue, if anything: an operation and its result. *)
Abbreviation event := (qop * Z)%type.

(** The steps of a run, oldest first: the thread that took each and its event. *)
Abbreviation trace := (list (nat * option event)).

Section Steps.
Context `{Uninit mqueue_item}.

(** [cstep c i e c']: thread [i] takes a step. *)
Inductive cstep : config → nat → option event → config → Prop :=
  | st_lock c i m k :
      threads c !! i = Some (Running (Lock m k)) → owner m c = None →
      cstep c i None (set_thread i (Running k) (set_owner m (Some i) c))
  | st_unlock c i m k :
      threads c !! i = Some (Running (Unlock m k)) → owner m c = Some i →
      cstep c i None (set_thread i (Running k) (set_owner m None c))
  | st_inc c i k :
      threads c !! i = Some (Running (IncStatus k)) →
      cstep c i None (set_thread i (Running k) (c <| evt_status := evt_status c + 1 |>))
  | st_dec c i k :
      threads c !! i = Some (Running (DecStatus k)) →
      cstep c i None (set_thread i (Running k) (c <| evt_status := evt_status c - 1 |>))
  | st_get c i k :
      threads c !! i = Some (Running (GetStatus k)) →
      cstep c i None (set_thread i (Running (k (evt_status c))) c)
  | st_now c i k now :
      threads c !! i = Some (Running (Now k)) →
      cstep c i None (set_thread i (Running (k now)) c)
  | st_signal_one c i k j th :
      threads c !! i = Some (Running (CondSignal k)) →
      threads c !! j = Some th → is_blocked th = true →
      cstep c i None (set_thread j (wake th) (set_thread i (Running k) c))
  | st_signal_none c i k :
      threads c !! i = Some (Running (CondSignal k)) →
      Forall (λ th, is_blocked th = false) (threads c) →
      cstep c i None (set_thread i (Running k) c)
  | st_broadcast c i k :
      threads c !! i = Some (Running (CondBroadcast k)) →
      cstep c i None (c <| threads := wake <$> <[i := Running k]> (threads c) |>)
  | st_wait c i k :
      threads c !! i = Some (Running (CondWait k)) → evt_owner c = Some i →
      cstep c i None (set_thread i (Blocked false k) (c <| evt_owner := None |>))
  | st_timedwait c i t k :
      threads c !! i = Some (Running (CondTimedwait t k)) → evt_owner c = Some i →
      valid_deadline t = true →
      cstep c i None (set_thread i (Blocked true k) (c <| evt_owner := None |>))
  | st_timedwait_invalid c i t k :
      threads c !! i = Some (Running (CondTimedwait t k)) → valid_deadline t = false →
      cstep c i None (set_thread i (Running (k EINVAL)) c)
  | st_spurious c i timed k :
      threads c !! i = Some (Blocked timed k) →
      cstep c i None (set_thread i (Waking 0 k) c)
  | st_timeout c i k :
      threads c !! i = Some (Blocked true k) →
      cstep c i None (set_thread i (Waking ETIMEDOUT k) c)
  | st_relock c i ret k :
      threads c !! i = Some (Waking ret k) → evt_owner c = None →
      cstep c i None (set_thread i (Running (k ret)) (c <| evt_owner := Some i |>))
  | st_while_wait c i ret k :
      threads c !! i = Some (Running (WhileStatus ret k)) → evt_status c ≠ 0 →
      cstep c i None (set_thread i (Running (CondWait (fun ret => WhileStatus ret k))) c)
  | st_while_exit c i ret k :
      threads c !! i = Some (Running (WhileStatus ret k)) → evt_status c = 0 →
      cstep c i None (set_thread i (Running (k ret)) c)
  | st_queue c i op k r q :
      threads c !! i = Some (Running (DoQueue op k)) → qexec (sq_queue c) op = Ok (r, q) →
      cstep c i (Some (op, r)) (set_thread i (Running (k r)) (c <| sq_queue := q |>)).

Inductive cruns : config → trace → config → Prop :=
  | cr_refl c : cruns c [] c
  | cr_step c1 tr c2 i e c3 : cruns c1 tr c2 → cstep c2 i e c3 → cruns c1 (tr ++ [(i, e)]) c3.

Definition queue_events (tr : trace) : list event := omap snd tr.

(** A thread of [c] whose next statement is undefined: it unlocks a mutex that
    is not its own, waits without the mutex, or its call on the queue faults. *)
Definition stuck (c : config) : Prop :=
  ∃ i p, threads c !! i = Some (Running p) ∧
    match p with
    | Unlock m _ => owner m c ≠ Some i
    | CondWait _ => evt_owner c ≠ Some i
    | CondTimedwait _ _ => evt_owner c ≠ Some i
    | DoQueue op _ => ∃ f, qexec (sq_queue c) op = Fault f
    | _ => False
    end.

(** A thread whose call on the queue faults. *)
Definition queue_fault (c : config) : Prop :=
  ∃ i op k f, threads c !! i = Some (Running (DoQueue op k)) ∧ qexec (sq_queue c) op = Fault f.
End Steps.
