(* ===== verification/UthreadLife.v ===== *)
(** * Thread objects: the rest of [src/lib/util/uthread.c]

    A [uthread_t] is a pointer to a thread object: [None] once it is destroyed.
    What the pthread calls answer is an argument of the function that makes
    them, in the order of the calls; [created] is the log of the threads that
    [pthread_create] made, and [tls] the values of the thread-specific keys, per
    key and thread. *)

From S2P Require Import Prelude Uthread.

Definition UTHREAD_STATUS_INIT : Z := 0.
Definition UTHREAD_STATUS_RUNNING : Z := 2.
Definition UTHREAD_ERR_ALREADY_STARTED : Z := -11.
Definition SCHED_OTHER : Z := 0.

(** A thread that was made: what it runs, on which argument, detached or not. *)
Record made := Made { mk_run : Z; mk_arg : Z; mk_detached : bool }.

Record pthreads := Pthreads {
  created : list made;
  tls : gmap (Z * Z) Z
}.
#[global] Instance pthreads_eta : Eta pthreads := fun r => Pthreads (created r) (tls r).

(** The fields; [thread_id] is [None] until [pthread_create] sets it, as it is
    read only by the pthread library, for which it is then no thread. *)
Record uthread := Uthread {
  event_status : Z;                     (* event->status *)
  exitCode : Z;
  run : Z;
  attr_detached : bool;                 (* what the attributes say when a thread is made *)
  thread_id : option Z;
  key : Z;
  sched_priority : Z;
  policy : Z;
  stop : Z;
  status : Z;
  priority : Z;
  param : Z
}.
#[global] Instance uthread_eta : Eta uthread := fun r =>
  Uthread (event_status r) (exitCode r) (run r) (attr_detached r) (thread_id r) (key r)
    (sched_priority r) (policy r) (stop r) (status r) (priority r) (param r).

Definition uthread_t : Type := option uthread.

(** [( *thread)->...] *)
Definition deref (t : uthread_t) : res uthread :=
  match t with Some u => Ok u | None => Fault NullDeref end.
Definition need_id (u : uthread) : res Z :=
  match thread_id u with Some t => Ok t | None => Fault BadPtr end.

(** ** Mutexes and events *)

(** The answer of [pthread_mutex_init]; the mutex is free. *)
Definition uthread_mutex_init (init : Z) : Z * option nat := (init, None).
Definition uthread_mutex_destroy (destroy : Z) : Z := destroy.

(** The answer of the first call is overwritten by the second. *)
Definition uthread_evt_init (mutex_init cond_init : Z) : Z * Z :=
  let ret := 0 in
  let status := 0 in
  let ret := mutex_init in
  let ret := cond_init in
  (ret, status).
Definition uthread_evt_destroy : Z := 0.

(** ** Threads *)

(** The scheduling parameters are set in the object whatever the call answers. *)
Definition uthread_set_priority (t : uthread_t) (prio setsched : Z) : res (Z * uthread_t) :=
  u ← deref t;
  let u := u <| sched_priority := prio |> <| policy := SCHED_OTHER |> in
  _ ← need_id u;
  Ok (setsched, Some u).

(** [None]: the function ends without a [return]. *)
Definition uthread_get_priority (t : uthread_t) (getsched pol prio : Z) : res (option Z * uthread_t) :=
  u ← deref t;
  _ ← need_id u;
  if getsched =? 0 then Ok (Some prio, Some (u <| policy := pol |> <| sched_priority := prio |>))
  else Ok (None, Some u).

(** The microseconds that [usleep] gets, an [unsigned int]; the function ends
    without a [return]. *)
Definition uthread_sleep (timeoutms : Z) : Z * option Z := (u32 (i64 (timeoutms * 1000)), None).

(** A sleep of more than 71 minutes is cut short by a multiple of [2^32]
    microseconds. *)
Lemma uthread_sleep_wraps ms :
  0 ≤ ms < 2 ^ 32 →
  (uthread_sleep ms).1 = ms * 1000 ↔ ms ≤ 4294967.
Proof.
  intros Hms. unfold uthread_sleep. cbn [fst]. unfold i64, u32.
  rewrite (Z.mod_small (_ + _)) by lia. replace (ms * 1000 + 2 ^ 63 - 2 ^ 63) with (ms * 1000) by lia.
  pose proof (Z.mod_pos_bound (ms * 1000) (2 ^ 32)). split; [lia|]. intros Hle. apply Z.mod_small. lia.
Qed.

Section Init.
Context `{Heap.Uninit uthread}.

(** What [malloc] hands out has no thread in it. *)
Definition uthread_init (thread_proc prio new_key setsched : Z) : res (Z * uthread_t) :=
  let u := Heap.uninit <| thread_id := None |> <| exitCode := 0 |> <| stop := 0 |> <| priority := prio |>
             <| status := UTHREAD_STATUS_INIT |> <| run := thread_proc |> in
  let u := u <| event_status := (uthread_evt_init 0 0).2 |> in
  '(_, t) ← if prio >? 0 then uthread_set_priority (Some u) prio setsched else Ok (0, Some u);
  u ← deref t;
  Ok (0, Some (u <| attr_detached := false |> <| key := new_key |>)).
End Init.

Definition uthread_destroy (t : uthread_t) : res (Z * uthread_t) :=
  _ ← deref t;
  Ok (0, None).

(** [pthread_create]: its answer, and the thread it makes when that is 0. *)
Definition pthread_create (answer id : Z) (u : uthread) (p : pthreads) : Z * uthread * pthreads :=
  if answer =? 0
  then (0, u <| thread_id := Some id |>,
        p <| created := created p ++ [Made (run u) (param u) (attr_detached u)] |>)
  else (answer, u, p).

Definition uthread_start (t : uthread_t) (arg setscope create id : Z) (p : pthreads)
    : res (Z * uthread_t * pthreads) :=
  u ← deref t;
  if negb (status u =? UTHREAD_STATUS_INIT) then Ok (UTHREAD_ERR_ALREADY_STARTED, Some u, p)
  else
    let u := u <| param := arg |> in
    let ret := setscope in
    if ret =? 0 then
      let '(ret, u, p) := pthread_create create id u p in
      Ok (ret, Some (u <| status := UTHREAD_STATUS_RUNNING |>), p)
    else Ok (ret, Some u, p).

(** The status is not set. *)
Definition uthread_start_detached (t : uthread_t) (arg setinherit setscope setdetach create id : Z) (p : pthreads)
    : res (Z * uthread_t * pthreads) :=
  u ← deref t;
  if negb (status u =? UTHREAD_STATUS_INIT) then Ok (UTHREAD_ERR_ALREADY_STARTED, Some u, p)
  else
    let u := u <| param := arg |> in
    let ret := setinherit in
    let ret := if ret =? 0 then setscope else ret in
    let '(ret, u) :=
      if ret =? 0 then (setdetach, if setdetach =? 0 then u <| attr_detached := true |> else u)
      else (ret, u) in
    if ret =? 0 then
      let '(ret, u, p) := pthread_create create id u p in Ok (ret, Some u, p)
    else Ok (ret, Some u, p).

(** [self] is the calling thread. *)
Definition uthread_join (t : uthread_t) (self join : Z) : res Z :=
  u ← deref t; id ← need_id u;
  Ok (if self =? id then -1 else join).
Definition uthread_detach (t : uthread_t) (self detach : Z) : res Z :=
  u ← deref t; id ← need_id u;
  Ok (if self =? id then -1 else detach).

(** The event of a thread object is used as any other. *)
Definition uthread_signal (k : Z → prog) : prog := uthread_evt_signal k.
Definition uthread_wait (k : Z → prog) : prog := uthread_evt_wait k.
Definition uthread_timedwait (msec : Z) (k : Z → prog) : prog := uthread_evt_timedwait msec k.

Definition uthread_kill (t : uthread_t) (sig : Z) : Z := 0.
Definition uthread_stop (t : uthread_t) : res (Z * uthread_t) :=
  u ← deref t; Ok (0, Some (u <| stop := 1 |>)).

(** The value is that of the key for the calling thread, under [key_mutex]. *)
Definition uthread_set_local (t : uthread_t) (self value setspecific : Z) (p : pthreads) : res (Z * pthreads) :=
  u ← deref t;
  Ok (setspecific, if setspecific =? 0 then p <| tls := <[(key u, self) := value]> (tls p) |> else p).
Definition uthread_get_local (t : uthread_t) (self : Z) (p : pthreads) : res Z :=
  u ← deref t;
  Ok (default NULL (tls p !! (key u, self))).

Definition uthread_set_param (t : uthread_t) (obj : Z) : res uthread_t :=
  u ← deref t; Ok (Some (u <| param := obj |>)).
Definition uthread_get_param (t : uthread_t) : res Z :=
  u ← deref t; Ok (param u).

(** ** What starting a thread does *)

(** Starts detached with answers 0, one argument and thread id after the other. *)
Fixpoint start_detached_all (t : uthread_t) (l : list (Z * Z)) (p : pthreads) : res (uthread_t * pthreads) :=
  match l with
  | [] => Ok (t, p)
  | (arg, id) :: l => '(_, t, p) ← uthread_start_detached t arg 0 0 0 0 id p; start_detached_all t l p
  end.

Lemma start_detached_all_ok l : ∀ u p,
  status u = UTHREAD_STATUS_INIT →
  ∃ u', start_detached_all (Some u) l p =
    Ok (Some u', p <| created := created p ++ ((λ a, Made (run u) a.1 true) <$> l) |>) ∧
  status u' = UTHREAD_STATUS_INIT.
Proof.
  induction l as [|[arg id] l IH]; intros u p Hs; cbn [start_detached_all].
  - exists u. rewrite app_nil_r. by destruct p.
  - unfold uthread_start_detached. cbn [deref mbind res_bind]. rewrite Hs. cbn.
    edestruct IH as (u' & E & Hs'); [|exists u'; split; [rewrite E|exact Hs']]; [done|].
    cbn. by rewrite <- app_assoc.
Qed.

(** C25: a thread object is started once, if at all.  When
    [pthread_attr_setscope] succeeds, the first [uthread_start] of a fresh object
    hands its function and argument to [pthread_create] and returns what that
    answers, and marks the object as running even when no thread was made, so that
    every later start is refused and makes none.  When [pthread_attr_setscope]
    fails (the scope asked for is one that Linux does not support), its error is
    returned, no thread is made, the object stays as fresh as it was, and a later
    start does what the first would have done.  [uthread_start_detached] leaves no
    mark: when the calls on the attributes succeed every call makes one more thread
    on the same object, when one of them fails none is made. *)
Theorem uthread_start_once u arg setscope create id p :
  status u = UTHREAD_STATUS_INIT →
  (setscope = 0 →
   ∃ u1 p1, uthread_start (Some u) arg setscope create id p = Ok (create, Some u1, p1) ∧
    status u1 = UTHREAD_STATUS_RUNNING ∧
    created p1 = created p ++ (if create =? 0 then [Made (run u) arg (attr_detached u)] else []) ∧
    (∀ arg' a b id', uthread_start (Some u1) arg' a b id' p1 = Ok (UTHREAD_ERR_ALREADY_STARTED, Some u1, p1)) ∧
    (∀ arg' a b d e id', uthread_start_detached (Some u1) arg' a b d e id' p1 =
       Ok (UTHREAD_ERR_ALREADY_STARTED, Some u1, p1))) ∧
  (setscope ≠ 0 →
   ∃ u1, uthread_start (Some u) arg setscope create id p = Ok (setscope, Some u1, p) ∧
    status u1 = UTHREAD_STATUS_INIT ∧
    ∀ arg' a b id', uthread_start (Some u1) arg' a b id' p = uthread_start (Some u) arg' a b id' p) ∧
  (∀ l, ∃ u' p', start_detached_all (Some u) l p = Ok (Some u', p') ∧
    created p' = created p ++ ((λ a, Made (run u) a.1 true) <$> l)) ∧
  (∀ a b d, ¬ (a = 0 ∧ b = 0 ∧ d = 0) → ∃ r u1, r ≠ 0 ∧
    uthread_start_detached (Some u) arg a b d create id p = Ok (r, Some u1, p) ∧ status u1 = UTHREAD_STATUS_INIT).
Proof.
  intros Hs. split_and!.
  - intros ->. unfold uthread_start at 1, pthread_create. cbn. rewrite Hs. cbn.
    destruct (create =? 0) eqn:E; cbn; do 2 eexists; (split; [try apply Z.eqb_eq in E as ->; done|]);
      cbn; rewrite ?app_nil_r; done.
  - intros Hne. exists (u <| param := arg |>). unfold uthread_start. cbn. rewrite Hs. cbn.
    by rewrite (proj2 (Z.eqb_neq _ _) Hne).
  - intros l. destruct (start_detached_all_ok l u p Hs) as (u' & E & _). eauto.
  - intros a b d Hne. unfold uthread_start_detached. cbn. rewrite Hs. cbn.
    destruct (Z.eqb_spec a 0); [destruct (Z.eqb_spec b 0); [destruct (Z.eqb_spec d 0)|]|];
      rewrite ?(proj2 (Z.eqb_neq _ _)) by done; [tauto|..]; by eexists _, _.
Qed.

(** A thread object made with a priority above 0 is handed to
    [pthread_setschedparam] before it has a thread; one made without is fresh, can
    be started, stopped and destroyed, and is gone after that. *)
Theorem uthread_init_lifecycle `{Heap.Uninit uthread} thread_proc prio new_key setsched :
  (0 < prio → uthread_init thread_proc prio new_key setsched = Fault BadPtr) ∧
  (prio ≤ 0 → ∃ u, uthread_init thread_proc prio new_key setsched = Ok (0, Some u) ∧
    status u = UTHREAD_STATUS_INIT ∧ stop u = 0 ∧ run u = thread_proc ∧ thread_id u = None ∧
    event_status u = 0 ∧ attr_detached u = false ∧
    uthread_stop (Some u) = Ok (0, Some (u <| stop := 1 |>)) ∧
    uthread_destroy (Some u) = Ok (0, None) ∧
    ∀ arg a b id p, uthread_start None arg a b id p = Fault NullDeref).
Proof.
  unfold uthread_init. split; intros Hp.
  - by rewrite (proj2 (Z.gtb_gt _ _)) by lia.
  - destruct (prio >? 0) eqn:E; [apply Z.gtb_gt in E; lia|]. cbn. by eexists.
Qed.

(** The local value of a key is the calling thread's own. *)
Lemma uthread_local_get t self value p p' :
  uthread_set_local t self value 0 p = Ok (0, p') →
  uthread_get_local t self p' = Ok value ∧
  ∀ other, other ≠ self → uthread_get_local t other p' = uthread_get_local t other p.
Proof.
  destruct t as [u|]; [|done]. cbn. intros [= <-]. split.
  - cbn. by simplify_map_eq.
  - intros other Ho. cbn. by rewrite lookup_insert_ne by congruence.
Qed.

Module ThreadExamples.
Definition fresh : uthread := Uthread 0 0 77 false None 5 0 0 0 UTHREAD_STATUS_INIT 0 0.
#[export] Instance any_thread : Heap.Uninit uthread := fresh.

(** [pthread_create] fails; or the scope is refused, and the second start works. *)
Lemma uthread_start_once_witness :
  (∃ u1 p1, uthread_start (Some fresh) 9 0 11 1 (Pthreads [] ∅) = Ok (11, Some u1, p1) ∧ created p1 = [] ∧
    uthread_start (Some u1) 9 0 0 1 p1 = Ok (UTHREAD_ERR_ALREADY_STARTED, Some u1, p1)) ∧
  (∃ u1, uthread_start (Some fresh) 9 95 0 1 (Pthreads [] ∅) = Ok (95, Some u1, Pthreads [] ∅) ∧
    status u1 = UTHREAD_STATUS_INIT).
Proof.
  split.
  - destruct (uthread_start_once fresh 9 0 11 1 (Pthreads [] ∅) eq_refl) as [Hs _].
    destruct (Hs eq_refl) as (u1 & p1 & E & _ & Hc & Hr & _). eauto 10.
  - destruct (uthread_start_once fresh 9 95 0 1 (Pthreads [] ∅) eq_refl) as (_ & Hs & _).
    destruct (Hs ltac:(done)) as (u1 & E & Hi & _). eauto.
Defined.

Lemma uthread_init_lifecycle_witness :
  uthread_init 77 1 5 0 = Fault BadPtr ∧ ∃ u, uthread_init 77 0 5 0 = Ok (0, Some u) ∧ run u = 77.
Proof.
  split; [by apply (uthread_init_lifecycle 77 1 5 0)|].
  destruct (uthread_init_lifecycle 77 0 5 0) as [_ Hu]. destruct Hu as (u & E & _ & _ & Hr & _); [lia|]. eauto.
Defined.
End ThreadExamples.
