(* ===== verification/Async.v ===== *)
(** * The blocking queue of [src/lib/util/async.c]

    A queue with a mutex, and an event on which consumers wait.  Each function
    is a program (see [Uthread]) that ends in its continuation; [client] is a
    thread that makes a list of calls. *)

From S2P Require Import Prelude Heap Pool Mqueue MqueueRepr Uthread.

Definition syncqueue_size (k : Z → prog) : prog :=
  uthread_mutex_lock (fun _ => DoQueue QSize (fun ret => uthread_mutex_unlock (fun _ => k ret))).

Definition syncqueue_signal (k : prog) : prog := uthread_evt_signal (fun _ => k).

Definition syncqueue_enq (data : Z) (k : prog) : prog :=
  uthread_mutex_lock (fun _ => DoQueue (QAppend data) (fun _ => uthread_mutex_unlock (fun _ => k))).

Definition syncqueue_deq (k : Z → prog) : prog :=
  uthread_mutex_lock (fun _ => DoQueue QRemove (fun data => uthread_mutex_unlock (fun _ => k data))).

Definition syncqueue_signal_data (data : Z) (k : prog) : prog :=
  syncqueue_enq data (uthread_evt_signal (fun _ => k)).

Definition syncqueue_wait_count (k : Z → prog) : prog := uthread_evt_waitcount k.

Definition syncqueue_wait_data (k : Z → prog) : prog :=
  syncqueue_size (fun n =>
    if n <? 1 then uthread_evt_wait (fun _ => syncqueue_deq k) else syncqueue_deq k).

Definition syncqueue_timedwait_data (timeoutms : Z) (k : Z → prog) : prog :=
  syncqueue_size (fun n =>
    if n <? 1 then uthread_evt_timedwait timeoutms (fun _ => syncqueue_deq k) else syncqueue_deq k).

Section Lifetime.
Context `{Uninit mqueue_item}.

(** The queue, its event and its mutex, before any thread uses them. *)
Definition syncqueue_init (init : Z) : res config :=
  q ← mqueue_init init;
  Ok (Config None None 0 0 q []).

(** The items that stay allocated. *)
Definition syncqueue_destroy (c : config) : res (heap mqueue_item) := mqueue_free (sq_queue c).
End Lifetime.

(** ** Clients *)

Inductive call :=
  | CSize
  | CSignal
  | CEnq (data : Z)
  | CDeq
  | CSignalData (data : Z)
  | CWaitCount
  | CWaitData
  | CTimedwaitData (timeoutms : Z)
  | CBroadcast
  | CEvtWait
  | CEvtTimedwait (timeoutms : Z).

Definition call_prog (a : call) (k : prog) : prog :=
  match a with
  | CSize => syncqueue_size (fun _ => k)
  | CSignal => syncqueue_signal k
  | CEnq data => syncqueue_enq data k
  | CDeq => syncqueue_deq (fun _ => k)
  | CSignalData data => syncqueue_signal_data data k
  | CWaitCount => syncqueue_wait_count (fun _ => k)
  | CWaitData => syncqueue_wait_data (fun _ => k)
  | CTimedwaitData ms => syncqueue_timedwait_data ms (fun _ => k)
  | CBroadcast => uthread_evt_broadcast (fun _ => k)
  | CEvtWait => uthread_evt_wait (fun _ => k)
  | CEvtTimedwait ms => uthread_evt_timedwait ms (fun _ => k)
  end.

Fixpoint client (calls : list call) : prog :=
  match calls with
  | [] => Ret 0
  | a :: calls => call_prog a (client calls)
  end.

(** Threads that make these calls. *)
Definition start (c : config) (clients : list (list call)) : config :=
  c <| threads := Running ∘ client <$> clients |>.
