(* ===== verification/AsyncLocks.v ===== *)
(** * The blocking queue: its locks

    [locked e q w p]: the program [p] is at a point where its thread holds the
    event's mutex ([e]), the queue's mutex ([q]) and is counted in
    [evt->status] ([w]), and it goes on to use them in a disciplined way: never
    both mutexes, the status and the condition only under the event's mutex, the
    queue only under its own.  Every function of [async.c] has such a type, and
    every step preserves it. *)

From S2P Require Import Prelude Heap Pool Mqueue MqueueRepr Uthread Async.

(** The operations of [async.c] on the queue. *)
Definition sync_op (op : qop) : bool := match op with QAdd _ | QPeek _ => false | _ => true end.

Lemma sync_op_valid op : sync_op op = true → qop_valid op.
Proof. by destruct op. Qed.

Inductive locked : bool → bool → nat → prog → Prop :=
  | lk_ret r : locked false false 0 (Ret r)
  | lk_lock_evt k : locked true false 0 k → locked false false 0 (Lock EvtMutex k)
  | lk_lock_queue k : locked false true 0 k → locked false false 0 (Lock QueueMutex k)
  | lk_unlock_evt k : locked false false 0 k → locked true false 0 (Unlock EvtMutex k)
  | lk_unlock_queue k : locked false false 0 k → locked false true 0 (Unlock QueueMutex k)
  | lk_inc k : locked true false 1 k → locked true false 0 (IncStatus k)
  | lk_dec k : locked true false 0 k → locked true false 1 (DecStatus k)
  | lk_get k : (∀ n, locked true false 0 (k n)) → locked true false 0 (GetStatus k)
  | lk_now w k : (∀ t, locked true false w (k t)) → locked true false w (Now k)
  | lk_signal w k : locked true false w k → locked true false w (CondSignal k)
  | lk_broadcast w k : locked true false w k → locked true false w (CondBroadcast k)
  | lk_wait k : (∀ r, locked true false 1 (k r)) → locked true false 1 (CondWait k)
  | lk_timedwait t k : (∀ r, locked true false 1 (k r)) → locked true false 1 (CondTimedwait t k)
  | lk_while r k : (∀ r, locked true false 1 (k r)) → locked true false 1 (WhileStatus r k)
  | lk_queue op k : sync_op op = true → (∀ r, locked false true 0 (k r)) → locked false true 0 (DoQueue op k).

Create HintDb locks.
#[export] Hint Constructors locked : locks.
#[export] Hint Extern 2 (locked _ _ _ (if ?b then _ else _)) => destruct b : locks.

(** ** The functions *)

Lemma evt_wait_locked k : (∀ r, locked false false 0 (k r)) → locked false false 0 (uthread_evt_wait k).
Proof. unfold uthread_evt_wait. auto 10 with locks. Qed.

Lemma evt_timedwait_locked ms k :
  (∀ r, locked false false 0 (k r)) → locked false false 0 (uthread_evt_timedwait ms k).
Proof.
  unfold uthread_evt_timedwait. pose proof (evt_wait_locked k). destruct (ms <? 0); auto 10 with locks.
Qed.
#[export] Hint Resolve evt_wait_locked evt_timedwait_locked : locks.

Lemma queue_op_locked op k :
  sync_op op = true → (∀ r, locked false false 0 (k r)) →
  locked false false 0 (uthread_mutex_lock (fun _ => DoQueue op (fun r => uthread_mutex_unlock (fun _ => k r)))).
Proof. intros Hv Hk. unfold uthread_mutex_lock, uthread_mutex_unlock. auto 10 with locks. Qed.

Lemma evt_signal_locked k : (∀ r, locked false false 0 (k r)) → locked false false 0 (uthread_evt_signal k).
Proof. unfold uthread_evt_signal. auto 10 with locks. Qed.

Lemma evt_broadcast_locked k :
  (∀ r, locked false false 0 (k r)) → locked false false 0 (uthread_evt_broadcast k).
Proof. unfold uthread_evt_broadcast. auto 10 with locks. Qed.

Lemma evt_waitcount_locked k :
  (∀ r, locked false false 0 (k r)) → locked false false 0 (uthread_evt_waitcount k).
Proof. unfold uthread_evt_waitcount. auto 10 with locks. Qed.
#[export] Hint Resolve evt_signal_locked evt_broadcast_locked evt_waitcount_locked : locks.

Lemma call_locked a k : locked false false 0 k → locked false false 0 (call_prog a k).
Proof.
  intros Hk.
  assert (Hdeq : locked false false 0 (syncqueue_deq (fun _ => k))) by (by apply queue_op_locked).
  destruct a; cbn; unfold syncqueue_signal, syncqueue_wait_count; auto with locks;
    apply queue_op_locked; auto with locks; done.
Qed.

Lemma client_locked calls : locked false false 0 (client calls).
Proof. induction calls; cbn; auto using call_locked with locks. Qed.

(** ** Configurations *)

(** What a thread holds: the event's mutex, the queue's mutex, a place in
    [evt->status]. *)
Record held := Held { h_evt : bool; h_queue : bool; h_wait : nat }.

Definition thread_ok (th : thread) (x : held) : Prop :=
  match th with
  | Running p => locked (h_evt x) (h_queue x) (h_wait x) p
  | Blocked _ k | Waking _ k => x = Held false false 1 ∧ ∀ r, locked true false 1 (k r)
  end.

Definition owns (m : mtx) (x : held) : bool :=
  match m with EvtMutex => h_evt x | QueueMutex => h_queue x end.

Record config_ok (c : config) (xs : list held) : Prop := {
  co_threads : Forall2 thread_ok (threads c) xs;
  co_owner : ∀ m i, owner m c = Some i ↔ ∃ x, xs !! i = Some x ∧ owns m x = true;
  co_status : evt_status c = Z.of_nat (sum_list_with h_wait xs)
}.

Lemma owner_set_thread m i th c : owner m (set_thread i th c) = owner m c.
Proof. by destruct m. Qed.

(** A step of thread [i] from holding [x] to holding [y]. *)
Lemma config_ok_step c c' xs i x y th :
  config_ok c xs → xs !! i = Some x → threads c' = <[i := th]> (threads c) → thread_ok th y →
  (∀ m, (owner m c' = owner m c ∧ owns m y = owns m x) ∨
        (owner m c = None ∧ owner m c' = Some i ∧ owns m y = true) ∨
        (owner m c = Some i ∧ owner m c' = None ∧ owns m y = false)) →
  evt_status c' = evt_status c + Z.of_nat (h_wait y) - Z.of_nat (h_wait x) →
  config_ok c' (<[i := y]> xs).
Proof.
  intros [Ht Ho Hs] Hx Et Hth Hm Es. pose proof (lookup_lt_Some _ _ _ Hx) as Hlt. split.
  - rewrite Et. by apply Forall2_insert.
  - intros m j. destruct (decide (i = j)) as [<-|Hne].
    + rewrite list_lookup_insert_eq by done.
      destruct (Hm m) as [[-> E]|[(_ & -> & E)|(_ & -> & E)]].
      * rewrite Ho. split; intros (z & Hz & E'); simplify_eq; eexists; split; eauto; congruence.
      * split; [by eauto|done].
      * split; [done|]. intros (z & ? & ?). simplify_eq. congruence.
    + rewrite list_lookup_insert_ne by done.
      destruct (Hm m) as [[-> E]|[(En & -> & E)|(En & -> & E)]]; rewrite <- Ho; [done|..];
        rewrite En; split; congruence.
  - pose proof (sum_list_with_insert h_wait xs i x y Hx). rewrite Es, Hs. lia.
Qed.

Lemma wake_ok th x : thread_ok th x → thread_ok (wake th) x.
Proof. by destruct th. Qed.

(** A thread's type, and the types its next statement allows. *)
Lemma config_ok_thread c xs i th :
  config_ok c xs → threads c !! i = Some th → ∃ x, xs !! i = Some x ∧ thread_ok th x.
Proof. intros Hc Hi. by destruct (Forall2_lookup_l _ _ _ _ _ (co_threads _ _ Hc) Hi) as (x & ? & ?); eauto. Qed.

Lemma config_ok_wake c xs i th :
  config_ok c xs → threads c !! i = Some th → config_ok (set_thread i (wake th) c) xs.
Proof.
  intros Hc Hi. destruct (config_ok_thread _ _ _ _ Hc Hi) as (x & Hx & Hok).
  rewrite <- (list_insert_id xs i x) by done.
  eapply config_ok_step; try done; [by apply wake_ok| |cbn; lia].
  intros m. left. by rewrite owner_set_thread.
Qed.

Section Preservation.
Context `{Uninit mqueue_item}.

(** The step is the one of thread [i], which goes from [x] to [y]. *)
Ltac by_step y :=
  eexists; eapply (config_ok_step _ _ _ _ _ y); [eassumption|eassumption|reflexivity|..];
  [cbn; auto with locks | intros []; cbn; auto | cbn; lia].

Lemma cstep_ok c i e c' xs : cstep c i e c' → config_ok c xs → ∃ xs', config_ok c' xs'.
Proof.
  intros Hst Hc.
  destruct Hst as [c i m k Hi Ho|c i m k Hi Ho|c i k Hi|c i k Hi|c i k Hi|c i k now Hi|c i k j th Hi Hj Hb
    |c i k Hi _|c i k Hi|c i k Hi Ho|c i t k Hi Ho _|c i t k Hi _|c i timed k Hi|c i k Hi|c i r k Hi Ho
    |c i r k Hi _|c i r k Hi _|c i op k r q Hi Hq];
    destruct (config_ok_thread _ _ _ _ Hc Hi) as ([e1 q1 w1] & Hx & Hok); cbn in Hok;
    try (inversion Hok; subst); try (destruct Hok as [Hxe Hk]; injection Hxe as -> -> ->).
  - by_step (Held true false 0).
  - by_step (Held false true 0).
  - by_step (Held false false 0).
  - by_step (Held false false 0).
  - by_step (Held true false 1).
  - by_step (Held true false 0).
  - by_step (Held true false 0).
  - by_step (Held true false w1).
  - assert (Hne : i ≠ j) by (intros ->; rewrite Hi in Hj; by injection Hj as <-).
    assert (∃ xs', config_ok (set_thread i (Running k) c) xs') as [xs' Hc'] by by_step (Held true false w1).
    exists xs'. apply config_ok_wake; [done|]. cbn. by rewrite list_lookup_insert_ne.
  - by_step (Held true false w1).
  - assert (∃ xs', config_ok (set_thread i (Running k) c) xs') as [xs' [Ht Ho Hs]] by by_step (Held true false w1).
    exists xs'. split; [|exact Ho|done]. apply Forall2_fmap_l. eapply Forall2_impl; [exact Ht|].
    intros th x. apply wake_ok.
  - by_step (Held false false 1).
  - by_step (Held false false 1).
  - by_step (Held true false 1).
  - by_step (Held false false 1).
  - by_step (Held false false 1).
  - by_step (Held true false 1).
  - by_step (Held true false 1).
  - by_step (Held true false 1).
  - by_step (Held false true 0).
Qed.

Lemma start_ok c clients :
  owner EvtMutex c = None → owner QueueMutex c = None → evt_status c = 0 →
  config_ok (start c clients) (replicate (length clients) (Held false false 0)).
Proof.
  intros He Hq Hs. split.
  - cbn. apply Forall2_fmap_l. apply Forall2_replicate_r; [done|]. apply Forall_forall.
    intros calls _. apply client_locked.
  - intros m i. split.
    + destruct m; cbn in *; congruence.
    + intros (x & Hx & Ho). apply lookup_replicate in Hx as [-> _]. by destruct m.
  - cbn. rewrite Hs. induction clients; cbn; lia.
Qed.

Lemma cruns_ok c tr c' xs : cruns c tr c' → config_ok c xs → ∃ xs', config_ok c' xs'.
Proof. induction 1 as [|c1 tr c2 i e c3 _ IH Hst]; [by eauto|]. intros [xs' Hc']%IH. by eapply cstep_ok. Qed.
End Preservation.
