(* ===== verification/AsyncProgress.v ===== *)
(** * The blocking queue: progress, termination and the wait that never ends

    Whoever holds a mutex can go on ([holder_steps]), so some thread always can
    ([progress]).  [bounded n p]: the program [p] takes at most [n] steps,
    whatever the other threads do; every call has such a bound but those that
    wait without a timeout, whose thread never leaves [in_wait]. *)

From S2P Require Import Prelude Heap Pool Mqueue MqueueRepr Uthread Async AsyncLocks.

(** ** What a type says about a thread *)

Lemma locked_outside q w p : locked false q w p → w = 0%nat.
Proof. by inversion 1. Qed.

Definition is_waiting (th : thread) : bool :=
  match th with Running _ => false | Blocked _ _ | Waking _ _ => true end.
Definition waiting_threads (c : config) : nat := length (filter (λ th, is_waiting th = true) (threads c)).

Definition finished (th : thread) : bool :=
  match th with Running (Ret _) => true | _ => false end.

(** When nobody but threads in a wait is counted, the status is their number. *)
Lemma status_waiting c xs :
  config_ok c xs → Forall (λ x, h_evt x = true → h_wait x = 0%nat) xs →
  evt_status c = Z.of_nat (waiting_threads c).
Proof.
  intros [Ht _ ->] Hx. f_equal. unfold waiting_threads.
  induction Ht as [|th x ths xs Hth Ht IH]; [done|]. apply Forall_cons in Hx as [Hw Hx].
  rewrite filter_cons. cbn [sum_list_with]. rewrite (IH Hx).
  destruct th as [p|tm k|r k]; cbn in *; [|by destruct Hth as [-> _]..].
  destruct (h_evt x); [by rewrite Hw|by rewrite (locked_outside _ _ _ Hth)].
Qed.

(** The one that holds the event's mutex. *)
Lemma evt_holder c xs i x :
  config_ok c xs → evt_owner c = Some i → xs !! i = Some x → h_wait x = 0%nat →
  Forall (λ x, h_evt x = true → h_wait x = 0%nat) xs.
Proof.
  intros [_ Ho _] He Hx Hw. apply Forall_lookup_2. intros j y Hy Ee.
  assert (owner EvtMutex c = Some j) as Ej by (apply Ho; by exists y). cbn in Ej. by simplify_eq.
Qed.

(** ** Progress *)

Section Progress.
Context `{Uninit mqueue_item}.

Definition can_step (c : config) (i : nat) : Prop := ∃ e c', cstep c i e c'.

Lemma signal_steps c i k : threads c !! i = Some (Running (CondSignal k)) → can_step c i.
Proof.
  intros Hi. destruct (decide (Forall (λ th, is_blocked th = false) (threads c))) as [Hf|Hf].
  - do 2 eexists. by eapply st_signal_none.
  - apply not_Forall_Exists in Hf; [|apply _]. apply Exists_exists in Hf as (th & Hth & Hb).
    apply list_elem_of_lookup in Hth as (j & Hj). apply not_false_is_true in Hb.
    do 2 eexists. by eapply st_signal_one.
Qed.

Lemma now_steps c i k : threads c !! i = Some (Running (Now k)) → can_step c i.
Proof. intros Hi. do 2 eexists. by apply (st_now c i k (Clock 0 0)). Qed.

Create HintDb steps.
#[local] Hint Extern 0 (can_step _ _) => eapply now_steps; eassumption : steps.
#[local] Hint Unfold can_step : steps.
#[local] Hint Constructors cstep : steps.
#[local] Hint Resolve signal_steps : steps.

(** A running thread goes on, unless it is finished or wants a mutex that is
    taken. *)
Lemma running_steps c xs i p x :
  config_ok c xs → ¬ queue_fault c → threads c !! i = Some (Running p) → xs !! i = Some x →
  thread_ok (Running p) x →
  can_step c i ∨ (∃ r, p = Ret r) ∨ (∃ m k j, p = Lock m k ∧ owner m c = Some j).
Proof.
  intros [_ Ho _] Hq Hi Hx Hok.
  assert (Hown : ∀ m, owns m x = true → owner m c = Some i) by (intros m Em; apply Ho; eauto).
  destruct x as [e q w]; cbn in *.
  assert (He := Hown EvtMutex). assert (Hu := Hown QueueMutex). cbn in He, Hu.
  destruct Hok; auto; try (by left; eauto with steps).
  - by eauto.
  - destruct (evt_owner c) eqn:E; [by eauto 10|left; eauto with steps].
  - destruct (queue_owner c) eqn:E; [by eauto 10|left; eauto with steps].
  - left. do 2 eexists. by eapply (st_unlock _ _ EvtMutex); [|apply He].
  - left. do 2 eexists. by eapply (st_unlock _ _ QueueMutex); [|apply Hu].
  - left. do 2 eexists. by eapply st_wait; [|apply He].
  - specialize (He eq_refl). left. destruct (valid_deadline t) eqn:E; eauto with steps.
  - left. destruct (decide (evt_status c = 0)); eauto with steps.
  - left. destruct (qexec (sq_queue c) op) as [[r q]|f] eqn:E; [by eauto with steps|].
    destruct Hq. by exists i, op, k, f.
Qed.

Lemma holder_prog m x p :
  owns m x = true → thread_ok (Running p) x →
  finished (Running p) = false ∧ ∀ m' k, p ≠ Lock m' k.
Proof. intros Hm Hok. destruct x as [e q w], m; cbn in *; inversion Hok; by subst. Qed.

(** The holder of a mutex goes on. *)
Lemma holder_steps c xs m j :
  config_ok c xs → ¬ queue_fault c → owner m c = Some j →
  can_step c j ∧ ∃ p, threads c !! j = Some (Running p) ∧ finished (Running p) = false.
Proof.
  intros Hc Hq Hm. destruct (proj1 (co_owner _ _ Hc m j) Hm) as (x & Hx & Hown).
  destruct (Forall2_lookup_r _ _ _ _ _ (co_threads _ _ Hc) Hx) as (th & Hth & Hok).
  destruct th as [p|tm k|r k]; [|destruct Hok as [-> _]; by destruct m..].
  destruct (holder_prog _ _ _ Hown Hok) as [Hf Hl].
  destruct (running_steps _ _ _ _ _ Hc Hq Hth Hx Hok) as [Hs|[[r ->]|(m' & k & o & -> & _)]];
    [by eauto|done|by destruct (Hl m' k)].
Qed.

(** Unless every thread is finished or blocked, one of the others can go on. *)
Lemma progress_ok c xs i th :
  config_ok c xs → ¬ queue_fault c → threads c !! i = Some th →
  finished th = false → is_blocked th = false →
  ∃ j th', threads c !! j = Some th' ∧ finished th' = false ∧ is_blocked th' = false ∧ can_step c j.
Proof.
  intros Hc Hq Hi Hf Hb. destruct (config_ok_thread _ _ _ _ Hc Hi) as (x & Hx & Hok).
  assert (Hholder : ∀ m j, owner m c = Some j → ∃ j th', threads c !! j = Some th' ∧
    finished th' = false ∧ is_blocked th' = false ∧ can_step c j).
  { intros m j Hm. destruct (holder_steps _ _ _ _ Hc Hq Hm) as (Hs & p & Hp & Hfp). eauto 10. }
  destruct th as [p|tm k|r k]; [|done|].
  - destruct (running_steps _ _ _ _ _ Hc Hq Hi Hx Hok) as [Hs|[[r ->]|(m & k & j & -> & Hm)]];
      [by eauto 10|done|by eauto].
  - destruct (evt_owner c) as [j|] eqn:E; [by apply (Hholder EvtMutex j)|].
    exists i, (Waking r k). split_and!; try done. do 2 eexists. by eapply st_relock.
Qed.
End Progress.
