(* ===== verification/AsyncTerm.v ===== *)
(** * The blocking queue: termination, and the wait that never ends

    [bounded n p]: the program [p] takes at most [n] steps, whatever the other
    threads do.  Every call has such a bound but those that wait without a
    timeout, whose thread never leaves [in_wait]. *)

From S2P Require Import Prelude Heap Pool Mqueue MqueueRepr Uthread Async AsyncLocks.

(** ** Programs with a bound *)

Inductive bounded : nat → prog → Prop :=
  | bd_ret n r : bounded n (Ret r)
  | bd_lock n m k : bounded n k → bounded (S n) (Lock m k)
  | bd_unlock n m k : bounded n k → bounded (S n) (Unlock m k)
  | bd_inc n k : bounded n k → bounded (S n) (IncStatus k)
  | bd_dec n k : bounded n k → bounded (S n) (DecStatus k)
  | bd_get n k : (∀ s, bounded n (k s)) → bounded (S n) (GetStatus k)
  | bd_now n k : (∀ t, bounded n (k t)) → bounded (S n) (Now k)
  | bd_signal n k : bounded n k → bounded (S n) (CondSignal k)
  | bd_broadcast n k : bounded n k → bounded (S n) (CondBroadcast k)
  | bd_timedwait n t k : (∀ r, bounded n (k r)) → bounded (S (S (S n))) (CondTimedwait t k)
  | bd_queue n op k : (∀ r, bounded n (k r)) → bounded (S n) (DoQueue op k).

Create HintDb bounds.
#[export] Hint Constructors bounded : bounds.

Lemma bounded_mono n p : bounded n p → ∀ m, (n ≤ m)%nat → bounded m p.
Proof.
  induction 1 as [|? ? ? ? IH|? ? ? ? IH|? ? ? IH|? ? ? IH|? ? ? IH|? ? ? IH|? ? ? IH|? ? ? IH|? ? ? ? IH|? ? ? ? IH];
    intros b Hb; [by constructor|..]; destruct b as [|b]; try lia;
    try (by constructor; intros; apply IH; lia).
  destruct b as [|[|b]]; try lia. constructor. intros r. apply IH. lia.
Qed.

(** The calls that wait without a timeout. *)
Definition untimed (a : call) : bool :=
  match a with
  | CWaitData | CEvtWait => true
  | CTimedwaitData ms | CEvtTimedwait ms => ms <? 0
  | _ => false
  end.

(** The longest call, [syncqueue_timedwait_data] on an empty queue: 3 steps for
    the size, 8 for the wait, 3 for the removal. *)
Definition call_steps : nat := 14.

Lemma queue_op_bounded n op k :
  (∀ r, bounded n (k r)) →
  bounded (3 + n) (uthread_mutex_lock (fun _ => DoQueue op (fun r => uthread_mutex_unlock (fun _ => k r)))).
Proof. intros Hk. cbn. unfold uthread_mutex_lock, uthread_mutex_unlock. auto with bounds. Qed.

Lemma evt_signal_bounded n k : (∀ r, bounded n (k r)) → bounded (4 + n) (uthread_evt_signal k).
Proof.
  intros Hk. cbn. do 2 constructor. intros s. destruct (truthy s); [by auto with bounds|].
  apply (bounded_mono (S n)); [by auto with bounds|lia].
Qed.

Lemma evt_broadcast_bounded n k : (∀ r, bounded n (k r)) → bounded (4 + n) (uthread_evt_broadcast k).
Proof.
  intros Hk. cbn. do 2 constructor. intros s. destruct (truthy s); [by auto with bounds|].
  apply (bounded_mono (S n)); [by auto with bounds|lia].
Qed.

Lemma evt_waitcount_bounded n k : (∀ r, bounded n (k r)) → bounded (3 + n) (uthread_evt_waitcount k).
Proof. intros Hk. unfold uthread_evt_waitcount. cbn. auto with bounds. Qed.

Lemma evt_timedwait_bounded n ms k :
  (ms <? 0) = false → (∀ r, bounded n (k r)) → bounded (8 + n) (uthread_evt_timedwait ms k).
Proof. intros Hms Hk. unfold uthread_evt_timedwait. rewrite Hms. cbn. auto 10 with bounds. Qed.

Lemma call_bounded a n k : untimed a = false → bounded n k → bounded (call_steps + n) (call_prog a k).
Proof.
  intros Ha Hk.
  assert (Hs : ∀ m p, bounded (m + n) p → (m ≤ 14)%nat → bounded (call_steps + n) p)
    by (intros m p Hp Hm; eapply bounded_mono; [done|unfold call_steps; lia]).
  assert (Hd : bounded (3 + n) (syncqueue_deq (fun _ => k))) by (by apply queue_op_bounded).
  destruct a; cbn in Ha; try done; cbn [call_prog].
  - apply (Hs 3%nat); [by apply queue_op_bounded|lia].
  - apply (Hs 4%nat); [by apply evt_signal_bounded|lia].
  - apply (Hs 3%nat); [by apply queue_op_bounded|lia].
  - apply (Hs 3%nat); [done|lia].
  - apply (Hs 7%nat); [by apply (queue_op_bounded (4 + n)); intros _; apply evt_signal_bounded|lia].
  - apply (Hs 3%nat); [by apply evt_waitcount_bounded|lia].
  - apply (Hs 14%nat); [|lia]. apply (queue_op_bounded (8 + (3 + n))). intros r. destruct (r <? 1).
    + by apply evt_timedwait_bounded.
    + apply (bounded_mono _ _ Hd). lia.
  - apply (Hs 4%nat); [by apply evt_broadcast_bounded|lia].
  - apply (Hs 8%nat); [by apply evt_timedwait_bounded|lia].
Qed.

Lemma client_bounded calls :
  Forall (λ a, untimed a = false) calls → bounded (call_steps * length calls) (client calls).
Proof.
  induction 1 as [|a calls Ha _ IH]; cbn [client length]; [by constructor|].
  rewrite Nat.mul_succ_r, Nat.add_comm. by apply call_bounded.
Qed.

(** ** Threads and configurations with a bound *)

Inductive thread_bound : nat → thread → Prop :=
  | tb_running n p : bounded n p → thread_bound n (Running p)
  | tb_blocked n k : (∀ r, bounded n (k r)) → thread_bound (S (S n)) (Blocked true k)
  | tb_waking n r k : (∀ r, bounded n (k r)) → thread_bound (S n) (Waking r k).
#[export] Hint Constructors thread_bound : bounds.

Definition config_bound (ns : list nat) (c : config) : Prop := Forall2 thread_bound ns (threads c).

Definition total (ns : list nat) : nat := sum_list_with (fun n => n) ns.

(** One thread moves and its bound goes down. *)
Lemma bound_insert ns c c' i n m th :
  config_bound ns c → ns !! i = Some n → threads c' = <[i := th]> (threads c) →
  thread_bound m th → (m < n)%nat →
  ∃ ns', config_bound ns' c' ∧ (total ns' < total ns)%nat.
Proof.
  intros Hc Hn Et Hth Hm. exists (<[i := m]> ns). split.
  - unfold config_bound. rewrite Et. by apply Forall2_insert.
  - pose proof (sum_list_with_insert (fun n => n) ns i n m Hn). unfold total. lia.
Qed.

Lemma wake_bound ns ths :
  Forall2 thread_bound ns ths →
  ∃ ns', Forall2 thread_bound ns' (wake <$> ths) ∧ (total ns' ≤ total ns)%nat.
Proof.
  induction 1 as [|n th ns ths Hth _ (ns' & Hb & Hle)]; [by exists []|].
  destruct Hth as [n p Hp|n k Hk|n r k Hk].
  - exists (n :: ns'). split; [constructor; eauto with bounds|unfold total in *; cbn; lia].
  - exists (S n :: ns'). split; [constructor; eauto with bounds|unfold total in *; cbn; lia].
  - exists (S n :: ns'). split; [constructor; eauto with bounds|unfold total in *; cbn; lia].
Qed.

Section Termination.
Context `{Uninit mqueue_item}.

Ltac by_insert :=
  eapply bound_insert; [eassumption|eassumption|reflexivity|by eauto with bounds|lia].

Lemma cstep_bound ns c i e c' :
  cstep c i e c' → config_bound ns c →
  ∃ ns', config_bound ns' c' ∧ (total ns' < total ns)%nat.
Proof.
  intros Hst Hc.
  destruct Hst as [c i m k Hi _|c i m k Hi _|c i k Hi|c i k Hi|c i k Hi|c i k now Hi|c i k j th Hi Hj Hb
    |c i k Hi _|c i k Hi|c i k Hi _|c i t k Hi _ _|c i t k Hi _|c i timed k Hi|c i k Hi|c i r k Hi _
    |c i r k Hi _|c i r k Hi _|c i op k r q Hi _];
    destruct (Forall2_lookup_r _ _ _ _ _ Hc Hi) as (n & Hn & Hth);
    inversion Hth as [? ? Hp|? ? Hk|? ? ? Hk]; subst; try (inversion Hp; subst).
  all: try by_insert.
  all: try (destruct m; by_insert).
  - assert (∃ ns1, config_bound ns1 (set_thread i (Running k) c) ∧ (total ns1 < total ns)%nat)
      as (ns1 & Hc1 & Hlt) by by_insert.
    assert (Hj1 : threads (set_thread i (Running k) c) !! j = Some th).
    { cbn. rewrite list_lookup_insert_ne; [done|]. intros ->. rewrite Hi in Hj. by simplify_eq. }
    destruct (Forall2_lookup_r _ _ _ _ _ Hc1 Hj1) as (n & Hn1 & Hth1).
    destruct Hth1 as [|n k1 Hk1|]; [done| |done].
    destruct (bound_insert ns1 (set_thread i (Running k) c)
      (set_thread j (Waking 0 k1) (set_thread i (Running k) c)) j _ (S n) (Waking 0 k1) Hc1 Hn1)
      as (ns2 & Hc2 & Hlt2); [done|by constructor|lia|]. exists ns2. split; [exact Hc2|lia].
  - assert (∃ ns1, config_bound ns1 (set_thread i (Running k) c) ∧ (total ns1 < total ns)%nat)
      as (ns1 & Hc1 & Hlt) by by_insert.
    destruct (wake_bound _ _ Hc1) as (ns2 & Hc2 & Hle). exists ns2. split; [exact Hc2|lia].
Qed.

Lemma cruns_bound ns c tr c' :
  cruns c tr c' → config_bound ns c →
  ∃ ns', config_bound ns' c' ∧ (total ns' + length tr ≤ total ns)%nat.
Proof.
  intros Hr Hc. induction Hr as [|c1 tr c2 i e c3 _ IH Hst]; [by exists ns; cbn; split; [|lia]|].
  destruct (IH Hc) as (ns2 & Hc2 & Hle). destruct (cstep_bound _ _ _ _ _ Hst Hc2) as (ns3 & Hc3 & Hlt).
  exists ns3. rewrite length_app. cbn. split; [done|lia].
Qed.

(** The steps that the calls of all the clients can take. *)
Definition clients_steps (clients : list (list call)) : nat :=
  total ((fun calls => call_steps * length calls)%nat <$> clients).

Lemma start_bound c clients :
  Forall (Forall (λ a, untimed a = false)) clients →
  config_bound ((fun calls => call_steps * length calls)%nat <$> clients) (start c clients).
Proof.
  intros Hu. unfold config_bound. cbn. induction Hu as [|calls clients Hc _ IH]; cbn; [constructor|].
  constructor; [|done]. constructor. by apply client_bounded.
Qed.
End Termination.

(** ** The wait without a timeout *)

(** Where a thread in [uthread_evt_wait] can be. *)
Definition wait_loop (k : Z → prog) : Z → prog := fun ret => WhileStatus ret (fun ret =>
  DecStatus (Unlock EvtMutex (k ret))).

Inductive in_wait (k : Z → prog) : thread → Prop :=
  | iw_call : in_wait k (Running (uthread_evt_wait k))
  | iw_inc : in_wait k (Running (IncStatus (wait_loop k 0)))
  | iw_while ret : in_wait k (Running (wait_loop k ret))
  | iw_wait : in_wait k (Running (CondWait (wait_loop k)))
  | iw_blocked : in_wait k (Blocked false (wait_loop k))
  | iw_waking : in_wait k (Waking 0 (wait_loop k)).

Lemma in_wait_wake k th : in_wait k th → in_wait k (wake th).
Proof. destruct 1; constructor. Qed.

Section Forever.
Context `{Uninit mqueue_item}.

(** A thread that is counted keeps the status above 0. *)
Lemma counted c xs i x : config_ok c xs → xs !! i = Some x → (1 ≤ h_wait x)%nat → evt_status c ≠ 0.
Proof.
  intros [_ _ ->] Hx Hw. pose proof (sum_list_with_insert h_wait xs i x (Held false false 0) Hx). cbn in *. lia.
Qed.

(** What the other threads do to this one: at most wake it up. *)
Lemma cstep_other c i e c' j th :
  cstep c j e c' → i ≠ j → threads c !! i = Some th →
  threads c' !! i = Some th ∨ threads c' !! i = Some (wake th).
Proof.
  intros Hst Hne Hi.
  destruct Hst as [| | | | | |c j k l th' Hj Hl Hb| |c j k Hj| | | | | | | | |];
    try (left; cbn; by rewrite list_lookup_insert_ne).
  - left. by destruct m; cbn; rewrite list_lookup_insert_ne.
  - left. by destruct m; cbn; rewrite list_lookup_insert_ne.
  - cbn. destruct (decide (i = l)) as [->|Hl'].
    + right. rewrite list_lookup_insert_eq by (rewrite length_insert; by eapply lookup_lt_Some). by simplify_eq.
    + left. by rewrite !list_lookup_insert_ne.
  - right. cbn. rewrite list_lookup_fmap, list_lookup_insert_ne by done. by rewrite Hi.
Qed.

Lemma in_wait_step c xs i e c' j k th :
  config_ok c xs → cstep c j e c' → threads c !! i = Some th → in_wait k th →
  ∃ th', threads c' !! i = Some th' ∧ in_wait k th'.
Proof.
  intros Hc Hst Hi Hw. destruct (decide (i = j)) as [<-|Hne].
  2: { destruct (cstep_other _ _ _ _ _ _ Hst Hne Hi); eauto using in_wait_wake. }
  pose proof (lookup_lt_Some _ _ _ Hi) as Hlt. destruct (config_ok_thread _ _ _ _ Hc Hi) as (x & Hx & Hok).
  assert (Hset : ∀ th' c1, threads c1 = threads c → in_wait k th' →
    ∃ th'', threads (set_thread i th' c1) !! i = Some th'' ∧ in_wait k th'').
  { intros th' c1 E Hth'. exists th'. cbn. by rewrite E, list_lookup_insert_eq. }
  destruct Hw; inversion Hst; simplify_eq; try (apply Hset; [by try destruct m|by constructor]).
  (* it leaves the loop only when nobody is counted, and it is counted itself *)
  exfalso. eapply (counted _ _ _ _ Hc Hx); [|eassumption].
  destruct x as [e q w]. cbn in Hok. inversion Hok. cbn. lia.
Qed.

Lemma in_wait_forever c xs i k th tr c' :
  config_ok c xs → threads c !! i = Some th → in_wait k th → cruns c tr c' →
  ∃ th', threads c' !! i = Some th' ∧ in_wait k th'.
Proof.
  intros Hc Hi Hw Hr.
  assert (∃ th' xs', threads c' !! i = Some th' ∧ in_wait k th' ∧ config_ok c' xs') as (th' & _ & ? & ? & _);
    [|by eauto].
  induction Hr as [c|c tr c2 j e c3 _ IH Hst]; [by eauto 10|].
  destruct (IH Hc Hi) as (th2 & xs2 & Hi2 & Hw2 & Hc2).
  destruct (in_wait_step _ _ _ _ _ _ _ _ Hc2 Hst Hi2 Hw2) as (th3 & ? & ?).
  destruct (cstep_ok _ _ _ _ _ Hst Hc2) as [xs3 ?]. eauto 10.
Qed.
End Forever.
