(* ===== verification/AsyncSpec.v ===== *)
(** * The blocking queue: its contract

    The theorems about [async.c] and the events and mutexes of [uthread.c] it is
    built on, for any number of threads that share one queue and any order of
    their steps. *)

From S2P Require Import Prelude Heap Pool Mqueue MqueueRepr MqueueProofs MqueueSpec MqueueFifo.
From S2P Require Import Uthread Async AsyncLocks AsyncProofs AsyncProgress AsyncTerm.

(** The mutex that protects what a statement touches. *)
Definition uses (m : mtx) (p : prog) : bool :=
  match p with
  | DoQueue _ _ => bool_decide (m = QueueMutex)
  | IncStatus _ | DecStatus _ | GetStatus _ | CondSignal _ | CondBroadcast _
  | CondWait _ | CondTimedwait _ _ | WhileStatus _ _ => bool_decide (m = EvtMutex)
  | _ => false
  end.

Lemma uses_owns m p x : uses m p = true → thread_ok (Running p) x → owns m x = true.
Proof. destruct x as [e q w]. intros Hu Hok. cbn in *. destruct m; by inversion Hok; subst. Qed.

(** The data taken out of the queue and put into it, oldest first. *)
Definition taken (es : list event) : list Z :=
  omap (λ e, match e with (QRemove, r) => if truthy r then Some r else None | _ => None end) es.
Definition put (es : list event) : list Z :=
  omap (λ e, match e with (QAppend d, _) => if truthy d then Some d else None | _ => None end) es.
Definition data (cs : list Z) : list Z := filter (λ z, truthy z = true) cs.

Lemma taken_put ops : ∀ cs,
  Forall (λ op, sync_op op = true) ops →
  taken (zip ops (qspec_all cs ops).1) ++ data (qspec_all cs ops).2 = data cs ++ put (zip ops (qspec_all cs ops).1).
Proof.
  unfold taken, put, data. induction ops as [|op ops IH]; intros cs Hs; cbn; [by rewrite app_nil_r|].
  apply Forall_cons in Hs as [Hop Hs]. destruct (qspec cs op) as [r cs1] eqn:E.
  specialize (IH cs1 Hs). destruct (qspec_all cs1 ops) as [rs cs2]. cbn in *.
  destruct op as [d|d| | |i]; cbn in Hop; try done; cbn in E.
  - injection E as <- <-. rewrite filter_app, <- app_assoc in IH. rewrite IH. f_equal.
    rewrite filter_cons, filter_nil. by destruct (truthy d).
  - destruct cs as [|d cs]; injection E as <- <-; [done|].
    rewrite filter_cons. destruct (truthy d); cbn; by rewrite IH.
  - by injection E as <- <-.
Qed.

Section Theorems.
Context `{Uninit mqueue_item}.

(** Without a free list no call on the queue faults. *)
Lemma no_queue_fault clients tr c :
  reached 0 clients tr c → Z.of_nat (length (queue_events tr)) < INT_MAX → ¬ queue_fault c.
Proof.
  intros Hr Hm (i & op & k & f & Hi & Hf). pose proof (reached_inv _ _ _ Hr) as Hinv.
  destruct (reached_locks _ _ _ _ Hr) as [xs Hc].
  destruct (config_ok_thread _ _ _ _ Hc Hi) as (x & _ & Hok). pose proof (contents_length tr).
  destruct (qplain_step (sq_queue c) (contents tr) op) as (t' & E & _); [apply Hinv; lia| |lia|congruence].
  cbn in Hok. inversion Hok. by apply sync_op_valid.
Qed.

Lemma decide_queue_fault c : queue_fault c ∨ ¬ queue_fault c.
Proof.
  pose (faulty th := match th with
    | Running (DoQueue op _) => match qexec (sq_queue c) op with Fault _ => true | Ok _ => false end
    | _ => false
    end).
  assert (Hq : queue_fault c ↔ Exists (λ th, faulty th = true) (threads c)).
  { rewrite Exists_exists. split.
    - intros (i & op & k & f & Hi & Hf). exists (Running (DoQueue op k)).
      split; [by eapply list_elem_of_lookup_2|]. cbn. by rewrite Hf.
    - intros (th & [i Hi]%list_elem_of_lookup & Hf). unfold faulty in Hf. repeat case_match; try done.
      by eexists _, _, _, _. }
  rewrite Hq. destruct (decide (Exists (λ th, faulty th = true) (threads c))); [by left|by right].
Qed.

(** The locks are used as they should be, so nothing but the queue is wrong. *)
Lemma config_ok_safe c xs : config_ok c xs → stuck c → queue_fault c.
Proof.
  intros Hc (i & p & Hi & Hs). destruct (config_ok_thread _ _ _ _ Hc Hi) as (x & Hx & Hok).
  assert (Hown : ∀ m, owns m x = true → owner m c = Some i) by (intros m Em; apply (co_owner _ _ Hc); eauto).
  destruct p; try done; [exfalso..|].
  - apply Hs, Hown. destruct x as [e q w], m; cbn in *; by inversion Hok.
  - apply Hs, (Hown EvtMutex), (uses_owns _ (CondWait k)); [done|exact Hok].
  - apply Hs, (Hown EvtMutex), (uses_owns _ (CondTimedwait t k)); [done|exact Hok].
  - destruct Hs as [f Hf]. by eexists _, _, _, _.
Qed.

(** C8: any number of threads that call the functions of [async.c] on one fresh
    queue, made with a free list of any size, use its locks as they should, in
    every order of their steps: what a mutex protects (the queue, the event's
    status and condition) is only touched by its one owner, so that two threads
    never touch it at once, and no thread unlocks a mutex it does not hold or
    waits without it: a step can be undefined only in the call on the inner
    queue. Without a free list ([syncqueue_init(0)]) that call does not fault
    either, for the first [INT_MAX] calls. *)
Theorem syncqueue_exclusion init clients tr c :
  reached init clients tr c →
  (∀ m i p, threads c !! i = Some (Running p) → uses m p = true → owner m c = Some i) ∧
  (∀ m i j p q, threads c !! i = Some (Running p) → threads c !! j = Some (Running q) →
    uses m p = true → uses m q = true → i = j) ∧
  (stuck c → queue_fault c) ∧
  (init = 0 → Z.of_nat (length (queue_events tr)) < INT_MAX → ¬ stuck c).
Proof.
  intros Hr. destruct (reached_locks _ _ _ _ Hr) as [xs Hc].
  assert (Hown : ∀ m i p, threads c !! i = Some (Running p) → uses m p = true → owner m c = Some i).
  { intros m i p Hp Hu. destruct (config_ok_thread _ _ _ _ Hc Hp) as (x & Hx & Hok).
    apply (co_owner _ _ Hc). exists x. split; [done|]. by apply (uses_owns m p). }
  split; [done|]. split; [|split; [by eapply config_ok_safe|]].
  - intros m i j p q Hp Hq Hup Huq. apply Some_inj. rewrite <- (Hown m i p) by done. by apply (Hown m j q).
  - intros -> Hm Hs. eapply no_queue_fault; [done..|]. by eapply config_ok_safe.
Qed.

(** C7: a blocking queue without a free list ([syncqueue_init(0)]) is
    linearizable and first in, first out, for its first [INT_MAX] operations.  The
    operations of all the threads, in the order in which they reach the inner
    queue, get the results that the list of contents gives one after the other,
    the queue then holds the contents of that list, and the data taken out,
    followed by what is left, is the data put in, in the same order: nothing is
    lost, duplicated or overtaken (a NULL means that the queue was empty).  The
    queues of the repository are made with free lists of 3, 10 and 20 nodes, for
    which this is false ([mqueue_fifo_broken], [syncqueue_pool_repeats]). *)
Theorem syncqueue_linearizable clients tr c :
  reached 0 clients tr c → Z.of_nat (length (queue_events tr)) ≤ INT_MAX →
  let es := queue_events tr in
  let '(results, cs) := qspec_all [] es.*1 in
  es.*2 = results ∧ qplain (sq_queue c) cs ∧ taken es ++ data cs = put es.
Proof.
  intros Hr Hm es. destruct (reached_inv _ _ _ Hr) as [_ Hops Hq Hres].
  specialize (Hq Hm). specialize (Hres Hm). pose proof (taken_put es.*1 [] Hops) as Hfifo.
  unfold contents in Hq. fold es in Hq, Hres. rewrite <- Hres, zip_fst_snd in Hfifo.
  destruct (qspec_all [] es.*1) as [results cs]. by split_and!.
Qed.

(** C20: no deadlock.  With a free list of any size, as long as some thread is
    neither finished nor blocked on the condition, one such thread can take a
    step, unless the inner queue faults; and without a free list
    ([syncqueue_init(0)]) it does not fault for the first [INT_MAX] calls. *)
Theorem syncqueue_progress init clients tr c i th :
  reached init clients tr c →
  threads c !! i = Some th → finished th = false → is_blocked th = false →
  (¬ queue_fault c → ∃ j th' e c', threads c !! j = Some th' ∧ finished th' = false ∧ is_blocked th' = false ∧
     cstep c j e c') ∧
  (init = 0 → Z.of_nat (length (queue_events tr)) < INT_MAX → ¬ queue_fault c).
Proof.
  intros Hr Hi Hf Hb. destruct (reached_locks _ _ _ _ Hr) as [xs Hc]. split.
  - intros Hq. destruct (progress_ok c xs i th Hc Hq) as (j & th' & ? & ? & ? & e & c' & ?); [done..|].
    by exists j, th', e, c'.
  - intros -> Hm. by eapply no_queue_fault.
Qed.

(** C19: clients that never wait without a timeout finish.  With a free list of
    any size every run of theirs is finite, with at most 14 steps a call whatever
    the order of the steps, and a run that cannot go on has finished all the calls
    of all the clients, unless the inner queue faults.  Without a free list
    ([syncqueue_init(0)]) and with calls for fewer than [INT_MAX] steps it does not
    fault, so that every run ends with all the calls made. *)
Theorem syncqueue_terminates init clients tr c :
  Forall (Forall (λ a, untimed a = false)) clients →
  reached init clients tr c →
  (length tr ≤ clients_steps clients)%nat ∧
  ((∃ i e c', cstep c i e c') ∨ Forall (λ th, finished th = true) (threads c) ∨ queue_fault c) ∧
  (init = 0 → Z.of_nat (clients_steps clients) < INT_MAX → ¬ queue_fault c).
Proof.
  intros Hu Hr. destruct (reached_locks _ _ _ _ Hr) as [xs Hc]. pose proof Hr as (c0 & _ & Hrun).
  destruct (cruns_bound _ _ _ _ Hrun (start_bound _ _ Hu)) as (ns & Hb & Hle).
  assert (Hlen : (length tr ≤ clients_steps clients)%nat) by (unfold clients_steps; lia). split; [done|].
  pose proof (queue_events_length tr) as Hev. split; [|intros -> Hm; eapply no_queue_fault; [done|lia]].
  destruct (decide (Forall (λ th, finished th = true) (threads c))) as [?|Hf]; [by auto|].
  apply not_Forall_Exists in Hf; [|apply _]. apply Exists_exists in Hf as (th & Hth & Hf%not_true_is_false).
  apply list_elem_of_lookup in Hth as (i & Hi).
  destruct (is_blocked th) eqn:Hbl.
  - left. destruct (Forall2_lookup_r _ _ _ _ _ Hb Hi) as (n & _ & Hth). destruct Hth as [|n k _|]; try done.
    exists i, None, (set_thread i (Waking ETIMEDOUT k) c). by apply st_timeout.
  - destruct (decide_queue_fault c) as [?|Hq]; [by auto|left].
    destruct (progress_ok c xs i th Hc Hq) as (j & th' & ? & ? & ? & e & c' & ?); [done..|]. by eauto.
Qed.

(** C23: a wait without a timeout never ends.  A thread that calls
    [uthread_evt_wait] counts itself in [evt->status] before the loop
    [while(evt->status)], so whatever the other threads do, however often they
    signal or broadcast, it stays in that loop. *)
Theorem evt_wait_forever init clients tr c i k tr' c' :
  reached init clients tr c → threads c !! i = Some (Running (uthread_evt_wait k)) → cruns c tr' c' →
  ∃ th, threads c' !! i = Some th ∧ in_wait k th ∧ finished th = false.
Proof.
  intros Hr Hi Hr'. destruct (reached_locks _ _ _ _ Hr) as [xs Hc].
  destruct (in_wait_forever _ _ _ _ _ _ _ Hc Hi (iw_call k) Hr') as (th & Hth & Hw).
  exists th. split; [done|]. split; [done|]. by destruct Hw.
Qed.

(** C22: the status of the event counts the waiting threads.  Whenever a thread
    reads it ([uthread_evt_waitcount], the test of signal and broadcast) and
    whenever the event's mutex is free, it is the number of threads in a wait:
    blocked, or woken and not yet back with the mutex. *)
Theorem waitcount_exact init clients tr c :
  reached init clients tr c →
  (evt_owner c = None ∨ ∃ i k, threads c !! i = Some (Running (GetStatus k))) →
  evt_status c = Z.of_nat (waiting_threads c).
Proof.
  intros Hr Hcase. destruct (reached_locks _ _ _ _ Hr) as [xs Hc].
  apply (status_waiting c xs Hc). destruct Hcase as [Hn|(i & k & Hi)].
  - apply Forall_lookup_2. intros i x Hx He.
    assert (owner EvtMutex c = Some i) as E by (apply (co_owner _ _ Hc); eauto). cbn in E. congruence.
  - destruct (config_ok_thread _ _ _ _ Hc Hi) as (x & Hx & Hok). apply (evt_holder c xs i x Hc); [|done|].
    + apply (co_owner _ _ Hc EvtMutex). exists x. split; [done|]. by apply (uses_owns EvtMutex (GetStatus k)).
    + destruct x as [e q w]. cbn in Hok. by inversion Hok.
Qed.

(** ** A call that is not disturbed *)

Lemma cruns_trans c1 tr1 c2 tr2 c3 : cruns c1 tr1 c2 → cruns c2 tr2 c3 → cruns c1 (tr1 ++ tr2) c3.
Proof.
  intros H1 H2. induction H2 as [|c2 tr c4 i e c5 _ IH Hst]; [by rewrite app_nil_r|].
  rewrite app_assoc. econstructor; eauto.
Qed.

Lemma cruns_one c i e c' : cstep c i e c' → cruns c [(i, e)] c'.
Proof. intros Hst. apply (cr_step c [] c i e c'); [constructor|done]. Qed.

(** Thread [i] alone goes from [c] to [c']. *)
Definition solo (c : config) (i : nat) (c' : config) : Prop :=
  ∃ tr, cruns c tr c' ∧ Forall (λ s, s.1 = i) tr.

Lemma solo_step c i e c1 c' : cstep c i e c1 → solo c1 i c' → solo c i c'.
Proof.
  intros Hst (tr & Hr & Hi). exists ((i, e) :: tr). split; [|by constructor].
  apply (cruns_trans _ [(i, e)] c1); [by apply cruns_one|done].
Qed.

Lemma solo_refl c i : solo c i c.
Proof. exists []. split; constructor. Qed.

Lemma solo_trans c1 i c2 c3 : solo c1 i c2 → solo c2 i c3 → solo c1 i c3.
Proof.
  intros (tr1 & Hr1 & Hi1) (tr2 & Hr2 & Hi2). exists (tr1 ++ tr2).
  split; [by eapply cruns_trans|by apply Forall_app_2].
Qed.

(** Its call has returned to [p], nothing else has changed but the contents. *)
Definition returned (c : config) (i : nat) (p : prog) (cs : list Z) (c' : config) : Prop :=
  solo c i c' ∧ qplain (sq_queue c') cs ∧
  ∃ q, c' = set_thread i (Running p) (c <| sq_queue := q |>).

Lemma set_thread_lookup c i th th' :
  threads c !! i = Some th → threads (set_thread i th' c) !! i = Some th'.
Proof. intros Hi. cbn. apply list_lookup_insert_eq. by eapply lookup_lt_Some. Qed.

Lemma queue_op_returns c i op k cs :
  threads c !! i =
    Some (Running (uthread_mutex_lock (fun _ => DoQueue op (fun r => uthread_mutex_unlock (fun _ => k r))))) →
  queue_owner c = None → qplain (sq_queue c) cs → qop_valid op → Z.of_nat (length cs) < INT_MAX →
  ∃ c', returned c i (k (qspec cs op).1) (qspec cs op).2 c'.
Proof.
  intros Hi Ho Hq Hv Hm. destruct (qplain_step _ _ _ Hq Hv Hm) as (q & E & Hq').
  exists (set_thread i (Running (k (qspec cs op).1)) (c <| sq_queue := q |>)). split; [|by eauto].
  eapply solo_step; [by apply (st_lock c i QueueMutex)|].
  eapply solo_step; [by eapply st_queue; [eapply set_thread_lookup, Hi|]|].
  eapply solo_step; [by eapply (st_unlock _ i QueueMutex); [eapply set_thread_lookup, set_thread_lookup, Hi|]|].
  destruct c as [eo qo st w q0 ths]. cbn in *. subst. unfold set_thread. cbn.
  rewrite !list_insert_insert_eq. apply solo_refl.
Qed.

Lemma returned_trans c i p cs c1 p' cs' c2 :
  returned c i p cs c1 → returned c1 i p' cs' c2 → returned c i p' cs' c2.
Proof.
  intros (H1 & _ & q1 & ->) (H2 & Hq & q2 & ->). split; [by eapply solo_trans|]. split; [done|].
  exists q2. destruct c. unfold set_thread. cbn. by rewrite list_insert_insert_eq.
Qed.

Lemma returned_next c i p cs c' th :
  returned c i p cs c' → threads c !! i = Some th → queue_owner c = None →
  threads c' !! i = Some (Running p) ∧ queue_owner c' = None ∧ qplain (sq_queue c') cs.
Proof. intros (_ & Hq & q & ->) Hi Ho. split; [|done]. by eapply (set_thread_lookup _ i th). Qed.

(** C21: what each function of [async.c] does when no other thread interferes, on
    a queue without a free list ([qplain]), which is not how the repository makes
    its queues. With the mutex of the queue free and contents [cs]: [syncqueue_size] returns
    their number, [syncqueue_enq] appends its data, [syncqueue_deq] removes and
    returns the first (NULL when there is none), and the two waits return the
    first without waiting when there is one; nothing else changes. *)
Theorem syncqueue_calls c i cs :
  queue_owner c = None → qplain (sq_queue c) cs → Z.of_nat (length cs) < INT_MAX →
  (∀ k, threads c !! i = Some (Running (syncqueue_size k)) →
     ∃ c', returned c i (k (Z.of_nat (length cs))) cs c') ∧
  (∀ d k, threads c !! i = Some (Running (syncqueue_enq d k)) → ∃ c', returned c i k (cs ++ [d]) c') ∧
  (∀ k, threads c !! i = Some (Running (syncqueue_deq k)) →
     ∃ c', returned c i (k (default NULL (head cs))) (tail cs) c') ∧
  (∀ k, threads c !! i = Some (Running (syncqueue_wait_data k)) → cs ≠ [] →
     ∃ c', returned c i (k (default NULL (head cs))) (tail cs) c') ∧
  (∀ ms k, threads c !! i = Some (Running (syncqueue_timedwait_data ms k)) → cs ≠ [] →
     ∃ c', returned c i (k (default NULL (head cs))) (tail cs) c').
Proof.
  intros Ho Hq Hm.
  assert (Hdeq : ∀ c k, queue_owner c = None → qplain (sq_queue c) cs →
    threads c !! i = Some (Running (syncqueue_deq k)) →
    ∃ c', returned c i (k (default NULL (head cs))) (tail cs) c').
  { intros c1 k Ho1 Hq1 Hi. destruct (queue_op_returns c1 i QRemove k cs Hi Ho1 Hq1) as [c' Hr]; [done..|].
    exists c'. by destruct cs. }
  assert (Hwait : ∀ k w, threads c !! i =
      Some (Running (syncqueue_size (fun n => if n <? 1 then w else syncqueue_deq k))) → cs ≠ [] →
    ∃ c', returned c i (k (default NULL (head cs))) (tail cs) c').
  { intros k w Hi Hne. destruct (queue_op_returns c i QSize _ cs Hi Ho Hq) as [c1 Hr]; [done..|]. cbn in Hr.
    rewrite (proj2 (Z.ltb_ge _ _)) in Hr by (destruct cs; [done|cbn; lia]).
    destruct (returned_next _ _ _ _ _ _ Hr Hi Ho) as (Hi1 & Ho1 & Hq1).
    destruct (Hdeq c1 k Ho1 Hq1 Hi1) as [c' Hr']. exists c'. by eapply returned_trans. }
  split_and!.
  - intros k Hi. by apply (queue_op_returns c i QSize k cs).
  - intros d k Hi. by apply (queue_op_returns c i (QAppend d) (fun _ => k) cs).
  - intros k Hi. by apply Hdeq.
  - intros k Hi. by apply (Hwait k (uthread_evt_wait (fun _ => syncqueue_deq k))).
  - intros ms k Hi. by apply (Hwait k (uthread_evt_timedwait ms (fun _ => syncqueue_deq k))).
Qed.

(** The call that performs an operation on the queue. *)
Definition as_call (op : qop) : call :=
  match op with QAppend d => CEnq d | QRemove => CDeq | _ => CSize end.

Definition basic (op : qop) : Prop := match op with QAdd _ | QPeek _ => False | _ => True end.

(** A thread that is alone performs its operations one after the other. *)
Lemma client_ops ops : ∀ q0 os q eo st w,
  Forall basic ops → qexec_all q0 ops = Ok (os, q) →
  ∃ tr, cruns (Config eo None st w q0 [Running (client (as_call <$> ops))]) tr
              (Config eo None st w q [Running (Ret 0)]) ∧ queue_events tr = zip ops os.
Proof.
  induction ops as [|op ops IH]; intros q0 os q eo st w Hb E; cbn in E.
  { injection E as <- <-. exists []. split; [constructor|done]. }
  apply Forall_cons in Hb as [Hop Hb]. destruct (qexec q0 op) as [[o q1]|f] eqn:Eo; [cbn in E|done].
  destruct (qexec_all q1 ops) as [[os1 q2]|f] eqn:Eos; [cbn in E|done]. injection E as <- <-.
  destruct (IH _ _ _ eo st w Hb Eos) as (tr & Hr & Hev).
  exists ([(0%nat, None); (0%nat, Some (op, o)); (0%nat, None)] ++ tr).
  split; [|cbn; by rewrite <- Hev]. eapply cruns_trans; [|exact Hr].
  eapply (cruns_trans _ [_]); [apply cruns_one|eapply (cruns_trans _ [_]); apply cruns_one].
  - destruct op; try done; by apply (st_lock _ 0 QueueMutex).
  - destruct op; try done; by eapply st_queue.
  - match goal with |- cstep ?c1 _ _ ?c2 =>
      change c2 with (set_thread 0 (Running (client (as_call <$> ops))) (set_owner QueueMutex None c1)) end.
    destruct op; try done; by apply (st_unlock _ 0 QueueMutex).
Qed.


Lemma blocked_counted c xs j timed k :
  config_ok c xs → threads c !! j = Some (Blocked timed k) → evt_status c ≠ 0.
Proof.
  intros Hc Hj. destruct (config_ok_thread _ _ _ _ Hc Hj) as (x & Hx & Hok).
  apply (counted c xs j x Hc Hx). destruct Hok as [-> _]. cbn. lia.
Qed.

(** What a signal and a broadcast do.  With the event's mutex free, when
    some thread is blocked on the event, [uthread_evt_signal] can wake any one of
    the blocked threads and changes nothing else, and [uthread_evt_broadcast]
    wakes them all. *)
Theorem evt_wakes init clients tr c i j timed k' :
  reached init clients tr c → evt_owner c = None → threads c !! j = Some (Blocked timed k') →
  (∀ k, threads c !! i = Some (Running (uthread_evt_signal k)) →
    solo c i (set_thread j (Waking 0 k') (set_thread i (Running (k 0)) c))) ∧
  (∀ k, threads c !! i = Some (Running (uthread_evt_broadcast k)) →
    solo c i (set_thread i (Running (k 0)) (c <| threads := wake <$> threads c |>))).
Proof.
  intros Hr Ho Hj. destruct (reached_locks _ _ _ _ Hr) as [xs Hc].
  pose proof (truthy_true _ (blocked_counted _ _ _ _ _ Hc Hj)) as Hst.
  split; intros k Hi; assert (Hij : i ≠ j) by (by intros ->; simplify_eq);
    (eapply solo_step; [by apply (st_lock c i EvtMutex)|]);
    (eapply solo_step; [by apply st_get; eapply set_thread_lookup, Hi|]);
    cbv beta; match goal with |- context [truthy (evt_status ?x)] => change (evt_status x) with (evt_status c) end;
    rewrite Hst.
  - eapply solo_step.
    { eapply (st_signal_one _ i _ j (Blocked timed k')); [eapply set_thread_lookup, set_thread_lookup, Hi| |done].
      cbn. by rewrite !list_lookup_insert_ne. }
    eapply solo_step.
    { eapply (st_unlock _ i EvtMutex); [|done]. cbn. rewrite list_lookup_insert_ne by done.
      rewrite list_lookup_insert_eq; [done|]. rewrite !length_insert. by eapply lookup_lt_Some. }
    destruct c as [eo qo st w q0 ths]. cbn in *. subst. unfold set_thread. cbn.
    rewrite (list_insert_insert_ne _ i j), !list_insert_insert_eq by done. apply solo_refl.
  - eapply solo_step.
    { eapply st_broadcast. by eapply set_thread_lookup, set_thread_lookup, Hi. }
    eapply solo_step.
    { eapply (st_unlock _ i EvtMutex); [|done]. cbn. rewrite list_lookup_fmap, list_lookup_insert_eq; [done|].
      rewrite !length_insert. by eapply lookup_lt_Some. }
    destruct c as [eo qo st w q0 ths]. cbn in *. subst. unfold set_thread. cbn.
    rewrite !list_fmap_insert, !list_insert_insert_eq. apply solo_refl.
Qed.

(** C24: the deadline of a timed wait.  It is the time of day plus the timeout,
    to the millisecond, and it is one that [pthread_cond_timedwait] accepts
    exactly when the microseconds of the clock and of the timeout add up to less
    than a second, since the carry into the seconds is missing; otherwise the wait
    does not wait: it returns EINVAL at once, with the mutex never given up. *)
Theorem timedwait_deadline now ms :
  0 ≤ ms → 0 ≤ clk_usec now < 1000000 →
  let t := deadline now ms in
  ts_sec t * 1000000000 + ts_nsec t
    = clk_sec now * 1000000000 + clk_usec now * 1000 + ms * 1000000 ∧
  (valid_deadline t = true ↔ clk_usec now + (ms mod 1000) * 1000 < 1000000) ∧
  (∀ c i k e c', threads c !! i = Some (Running (CondTimedwait t k)) → valid_deadline t = false →
    cstep c i e c' → c' = set_thread i (Running (k EINVAL)) c).
Proof.
  intros Hms Hus t. subst t. unfold deadline, valid_deadline. cbn [ts_sec ts_nsec].
  rewrite Z.quot_div_nonneg, Z.rem_mod_nonneg by lia.
  pose proof (Z.div_mod ms 1000 ltac:(lia)). pose proof (Z.mod_pos_bound ms 1000 ltac:(lia)).
  split_and!; [lia| |].
  - rewrite andb_true_iff, Z.leb_le, Z.ltb_lt. lia.
  - intros c i k e c' Hi Hv Hst. by inversion Hst; unfold valid_deadline in *; simplify_eq/=; congruence.
Qed.
End Theorems.
