(* ===== verification/AsyncExamples.v ===== *)
(** * The blocking queue: concrete runs

    A scheduler that executes the steps of [Uthread.cstep], and the runs that
    show the theorems of [AsyncSpec] at work. *)

From S2P Require Import Prelude Heap Pool Mqueue MqueueRepr MqueueProofs MqueueSpec MqueueFifo.
From S2P Require Import Uthread Async AsyncLocks AsyncProofs AsyncProgress AsyncTerm AsyncSpec.

(** ** A scheduler *)

Section Scheduler.
Context `{Uninit mqueue_item}.

(** Which thread moves, the time of day it sees, the thread that its signal
    wakes; a thread that is blocked times out when the last is 0. *)
Record pick := Pick { pk_thread : nat; pk_now : clock; pk_wake : nat }.

Definition exec_signal (c : config) (i : nat) (k : prog) (j : nat) : option (option event * config) :=
  match threads c !! j with
  | Some th =>
      if is_blocked th then Some (None, set_thread j (wake th) (set_thread i (Running k) c))
      else if forallb (λ th, negb (is_blocked th)) (threads c) then Some (None, set_thread i (Running k) c)
      else None
  | None => None
  end.

Definition exec_prog (c : config) (i : nat) (s : pick) (p : prog) : option (option event * config) :=
  let next p c := Some (None, set_thread i (Running p) c) in
  match p with
  | Ret _ => None
  | Lock m k => match owner m c with None => next k (set_owner m (Some i) c) | Some _ => None end
  | Unlock m k => if bool_decide (owner m c = Some i) then next k (set_owner m None c) else None
  | IncStatus k => next k (c <| evt_status := evt_status c + 1 |>)
  | DecStatus k => next k (c <| evt_status := evt_status c - 1 |>)
  | GetStatus k => next (k (evt_status c)) c
  | Now k => next (k (pk_now s)) c
  | CondSignal k => exec_signal c i k (pk_wake s)
  | CondBroadcast k => Some (None, c <| threads := wake <$> <[i := Running k]> (threads c) |>)
  | CondWait k =>
      if bool_decide (evt_owner c = Some i)
      then Some (None, set_thread i (Blocked false k) (c <| evt_owner := None |>)) else None
  | CondTimedwait t k =>
      if valid_deadline t then
        if bool_decide (evt_owner c = Some i)
        then Some (None, set_thread i (Blocked true k) (c <| evt_owner := None |>)) else None
      else next (k EINVAL) c
  | WhileStatus ret k =>
      if evt_status c =? 0 then next (k ret) c else next (CondWait (fun ret => WhileStatus ret k)) c
  | DoQueue op k =>
      match qexec (sq_queue c) op with
      | Ok (r, q) => Some (Some (op, r), set_thread i (Running (k r)) (c <| sq_queue := q |>))
      | Fault _ => None
      end
  end.

Definition exec (c : config) (s : pick) : option (option event * config) :=
  let i := pk_thread s in
  match threads c !! i with
  | Some (Running p) => exec_prog c i s p
  | Some (Blocked timed k) =>
      Some (None, set_thread i (Waking (if timed && (pk_wake s =? 0)%nat then ETIMEDOUT else 0) k) c)
  | Some (Waking ret k) =>
      match evt_owner c with
      | None => Some (None, set_thread i (Running (k ret)) (c <| evt_owner := Some i |>))
      | Some _ => None
      end
  | None => None
  end.

Fixpoint exec_all (c : config) (l : list pick) : option (trace * config) :=
  match l with
  | [] => Some ([], c)
  | s :: l =>
      match exec c s with
      | Some (e, c) => match exec_all c l with
                       | Some (tr, c) => Some ((pk_thread s, e) :: tr, c)
                       | None => None
                       end
      | None => None
      end
  end.

Lemma exec_signal_sound c i k j e c' :
  threads c !! i = Some (Running (CondSignal k)) → exec_signal c i k j = Some (e, c') → cstep c i e c'.
Proof.
  intros Hi E. unfold exec_signal in E. destruct (threads c !! j) as [th|] eqn:Hj; [|done].
  destruct (is_blocked th) eqn:Hb; [injection E as <- <-; by eapply st_signal_one|].
  destruct (forallb _ _) eqn:Hf; [|done]. injection E as <- <-. apply st_signal_none; [done|].
  apply Forall_forall. intros th' Hth'. apply negb_true_iff. apply list_elem_of_In in Hth'.
  by apply (proj1 (forallb_forall _ _) Hf).
Qed.

Lemma exec_sound c s e c' : exec c s = Some (e, c') → cstep c (pk_thread s) e c'.
Proof.
  unfold exec. destruct (threads c !! pk_thread s) as [[p|timed k|ret k]|] eqn:Hi; [| | |done].
  - destruct p; cbn; intros E; try discriminate E.
    all: try (by eapply exec_signal_sound).
    all: repeat (case_match; simplify_eq/=); try case_bool_decide; simplify_eq; try done;
      try (by econstructor; eauto).
    + by eapply st_while_exit; [|apply Z.eqb_eq].
    + by eapply st_while_wait; [|apply Z.eqb_neq].
  - intros [= <- <-]. destruct (timed && _) eqn:Et; [|by eapply st_spurious].
    apply andb_true_iff in Et as [-> _]. by apply st_timeout.
  - destruct (evt_owner c) eqn:Ho; [done|]. intros [= <- <-]. by apply st_relock.
Qed.

Lemma exec_all_sound l : ∀ c tr c', exec_all c l = Some (tr, c') → cruns c tr c'.
Proof.
  induction l as [|s l IH]; intros c tr c' E; cbn in E; [by injection E as <- <-; constructor|].
  destruct (exec c s) as [[e c1]|] eqn:Es; [|done]. destruct (exec_all c1 l) as [[tr1 c2]|] eqn:El; [|done].
  injection E as <- <-. apply (cruns_trans _ [(pk_thread s, e)] c1); [|by apply IH].
  by apply cruns_one, exec_sound.
Qed.
End Scheduler.

(** ** Runs *)

Module SyncExamples.
#[export] Instance zero_item : Uninit mqueue_item := Item 0 0.

Definition sync0 : config := Config None None 0 0 QueueExamples.queue0 [].

Lemma sync0_init : syncqueue_init 0 = Ok sync0.
Proof. reflexivity. Qed.

(** Thread [i] takes [n] steps; its timed waits start at 10 s, 500 ms, and its
    signals wake thread [j]. *)
Definition go (i n j : nat) : list pick := replicate n (Pick i (Clock 10 500000) j).

Definition after (clients : list (list call)) (l : list pick) : trace * config :=
  default ([], sync0) (exec_all (start sync0 clients) l).

Lemma after_reached clients l :
  (if exec_all (start sync0 clients) l is Some _ then true else false) = true →
  reached 0 clients (after clients l).1 (after clients l).2.
Proof.
  intros E. exists sync0. split; [exact sync0_init|]. unfold after.
  destruct (exec_all (start sync0 clients) l) as [[tr c]|] eqn:Er; [|done]. by eapply exec_all_sound.
Qed.

(** A consumer with a timeout waits (7 steps), a producer puts 7 into the queue
    (3 steps) and is about to signal; a third thread has not started. *)
Definition three : list (list call) := [[CTimedwaitData 100]; [CSignalData 7]; [CSize; CDeq; CWaitCount]].
Definition waiting3 : list pick := go 0 7 0 ++ go 1 3 0.

Lemma waiting3_reached : reached 0 three (after three waiting3).1 (after three waiting3).2.
Proof. apply after_reached. by vm_compute. Qed.

Lemma syncqueue_exclusion_witness :
  ¬ stuck (after three waiting3).2 ∧
  ∀ m i j p q, threads (after three waiting3).2 !! i = Some (Running p) →
    threads (after three waiting3).2 !! j = Some (Running q) → uses m p = true → uses m q = true → i = j.
Proof.
  destruct (syncqueue_exclusion 0 three _ _ waiting3_reached) as (_ & Hx & _ & Hs).
  split; [|exact Hx]. apply Hs; [reflexivity|by vm_compute].
Defined.

(** The producer signals, the third thread takes the data before the consumer
    is back, which finds the queue empty. *)
Definition overtaken : list pick := waiting3 ++ go 1 4 0 ++ go 2 6 0 ++ go 0 6 0.

Lemma overtaken_reached : reached 0 three (after three overtaken).1 (after three overtaken).2.
Proof. apply after_reached. by vm_compute. Qed.

Lemma syncqueue_linearizable_witness :
  queue_events (after three overtaken).1 =
    [(QSize, 0); (QAppend 7, 0); (QSize, 1); (QRemove, 7); (QRemove, 0)] ∧
  qplain (sq_queue (after three overtaken).2) [].
Proof.
  assert (E : queue_events (after three overtaken).1 =
    [(QSize, 0); (QAppend 7, 0); (QSize, 1); (QRemove, 7); (QRemove, 0)]) by (by vm_compute).
  split; [exact E|]. pose proof (syncqueue_linearizable three _ _ overtaken_reached) as Hl.
  cbv zeta in Hl. rewrite E in Hl. by destruct (Hl ltac:(by vm_compute)) as (_ & Hq & _).
Defined.

Lemma syncqueue_progress_witness :
  ∃ j th' e c', threads (after three waiting3).2 !! j = Some th' ∧ finished th' = false ∧
    is_blocked th' = false ∧ cstep (after three waiting3).2 j e c'.
Proof.
  destruct (threads (after three waiting3).2 !! 1%nat) as [th|] eqn:E; [|by vm_compute in E].
  destruct (syncqueue_progress 0 three _ _ 1%nat th waiting3_reached E) as [Hp Hq];
    [vm_compute in E; by injection E as <-..|]. apply Hp, Hq; [reflexivity|by vm_compute].
Defined.

Lemma syncqueue_terminates_witness :
  (length (after three overtaken).1 ≤ 70)%nat ∧
  ((∃ i e c', cstep (after three overtaken).2 i e c') ∨
   Forall (λ th, finished th = true) (threads (after three overtaken).2)).
Proof.
  destruct (syncqueue_terminates 0 three _ _ ltac:(by repeat constructor) overtaken_reached) as (Hl & Hc & Hq).
  split; [exact Hl|]. destruct Hc as [Hc|[Hc|Hc]]; [by left|by right|].
  destruct (Hq eq_refl ltac:(by vm_compute) Hc).
Defined.

Lemma evt_wakes_witness :
  ∃ k k', solo (after three waiting3).2 1
    (set_thread 0 (Waking 0 k') (set_thread 1 (Running k) (after three waiting3).2)).
Proof.
  destruct (threads (after three waiting3).2 !! 0%nat) as [[|timed k'|]|] eqn:E0; try (by vm_compute in E0).
  exists (Ret 0), k'.
  destruct (evt_wakes 0 three _ _ 1 0 timed k' waiting3_reached ltac:(by vm_compute) E0) as [Hs _].
  apply (Hs (fun _ => Ret 0)). by vm_compute.
Defined.

Lemma waitcount_exact_witness :
  evt_status (after three waiting3).2 = 1 ∧ waiting_threads (after three waiting3).2 = 1%nat.
Proof.
  assert (E : waiting_threads (after three waiting3).2 = 1%nat) by (by vm_compute). split; [|exact E].
  rewrite (waitcount_exact 0 three _ _ waiting3_reached); [by rewrite E|]. left. by vm_compute.
Defined.

(** A consumer without a timeout waits for data; the producer's signal wakes it
    up, and it waits again. *)
Definition two : list (list call) := [[CWaitData]; [CSignalData 7]].

Lemma two_reached : reached 0 two (after two (go 0 3 0)).1 (after two (go 0 3 0)).2.
Proof. apply after_reached. by vm_compute. Qed.

Lemma evt_wait_forever_witness :
  ∃ tr c, exec_all (after two (go 0 3 0)).2 (go 0 4 0 ++ go 1 7 0 ++ go 0 3 0) = Some (tr, c) ∧
    ∃ th, threads c !! 0%nat = Some th ∧ finished th = false ∧ sq_queue c ≠ QueueExamples.queue0.
Proof.
  destruct (exec_all (after two (go 0 3 0)).2 (go 0 4 0 ++ go 1 7 0 ++ go 0 3 0)) as [[tr c]|] eqn:E;
    [|by vm_compute in E].
  exists tr, c. split; [done|].
  destruct (evt_wait_forever 0 two _ _ 0 (fun _ => syncqueue_deq (fun _ => Ret 0)) tr c two_reached)
    as (th & Hth & _ & Hf); [by vm_compute|by eapply exec_all_sound|].
  exists th. split; [done|]. split; [done|]. vm_compute in E. by injection E as _ <-.
Defined.

Lemma syncqueue_calls_witness :
  ∃ c', returned (start (Config None None 0 0 QueueExamples.queue3 []) [[CWaitData]]) 0 (Ret 0) [20; 30] c'.
Proof.
  destruct (syncqueue_calls (start (Config None None 0 0 QueueExamples.queue3 []) [[CWaitData]]) 0 [10; 20; 30])
    as (_ & _ & _ & Hw & _); [done|exact QueueExamples.queue3_plain|done|].
  by apply (Hw (fun _ => Ret 0)).
Defined.


(** 300 ms from a clock at half a second is a deadline, 600 ms is not. *)
Lemma timedwait_deadline_witness :
  valid_deadline (deadline (Clock 10 500000) 300) = true ∧
  valid_deadline (deadline (Clock 10 500000) 600) ≠ true.
Proof.
  destruct (timedwait_deadline (Clock 10 500000) 300) as (_ & [_ H1] & _); [lia|cbn; lia|].
  destruct (timedwait_deadline (Clock 10 500000) 600) as (_ & [H2 _] & _); [lia|cbn; lia|].
  split; [by apply H1; cbn|]. intros Hv. by specialize (H2 Hv).
Defined.

(** The signal can be lost: the consumer finds the queue empty, the producer
    puts its data and signals while nobody is counted as waiting, and the
    consumer then waits although there is data. *)
Definition lost : list pick := go 0 3 0 ++ go 1 6 0 ++ go 0 4 0.
Definition pair2 : list (list call) := [[CTimedwaitData 100]; [CSignalData 7]].

Theorem lost_wakeup :
  reached 0 pair2 (after pair2 lost).1 (after pair2 lost).2 ∧
  contents (after pair2 lost).1 = [7] ∧
  is_blocked <$> threads (after pair2 lost).2 = [true; false] ∧
  finished <$> threads (after pair2 lost).2 = [false; true].
Proof. split; [apply after_reached; by vm_compute|]. by vm_compute. Qed.
End SyncExamples.
