(* ===== verification/Interfaces.v ===== *)
(** * What the containers promise to the daemon

    The daemon keeps messages and members in hash tables and queues.  Its
    theorems are proved against the classes of this file: [PutTable] (a table
    that is looked up and filled), [Table] (one that entries are removed from as
    well) and [Stack] (a queue used at its front).  The instances discharge them
    with the theorems about [hashtable.c] and [mqueue.c]. *)

From S2P Require Import Prelude Heap Pool Hashtable HashtableRepr HashtableOps HashtableProofs.
From S2P Require Import Mqueue MqueueRepr MqueueProofs MqueueSpec.

(** ** Tables with integer keys *)

Class PutTable `{Uninit htbl_entry} (rep : htbl_t → gmap hkey Z → Prop) := {
  pt_get t m k : rep t m → htbl_get t k = Ok (Spec.get m (KInt k));
  pt_put t m k d : rep t m → in_int k → Z.of_nat (size m) < INT_MAX →
    ∃ t', htbl_put t k d = Ok ((Spec.put m (KInt k) d).1, t') ∧ rep t' (Spec.put m (KInt k) d).2;
  pt_count t m : rep t m → htbl_count t = Z.of_nat (size m)
}.

Class Table `{Uninit htbl_entry} (rep : htbl_t → gmap hkey Z → Prop) := {
  tb_put :: PutTable rep;
  tb_remove t m k : rep t m →
    ∃ t', htbl_remove t k = Ok ((Spec.remove m (KInt k)).1, t') ∧ rep t' (Spec.remove m (KInt k)).2
}.

(** A table whose free list was never given an entry back. *)
Definition unreleased (t : htbl_t) (m : gmap hkey Z) : Prop :=
  ∃ css l, holds Sane t css l ∧ pool_exact (t_pool (tbl t)) l ∧ m = cells_map (concat css).

#[export] Instance plain_table `{Uninit htbl_entry} : Table plain.
Proof.
  split; [split|].
  - intros t m k Hp. exact (repr_get _ _ _ (KInt k) (plain_repr _ _ Hp)).
  - intros t m k d Hp Hk Hm. exact (plain_put _ _ (KInt k) d Hp Hk Hm).
  - intros t m Hp. exact (repr_count _ _ _ (plain_repr _ _ Hp)).
  - intros t m k Hp. exact (plain_remove _ _ (KInt k) Hp).
Qed.

#[export] Instance unreleased_table `{Uninit htbl_entry} : PutTable unreleased.
Proof.
  assert (Hr : ∀ t m, unreleased t m → repr Sane t m).
  { intros t m (css & l & ? & _ & ?). by exists css, l. }
  split.
  - intros t m k Hp. exact (repr_get _ _ _ (KInt k) (Hr _ _ Hp)).
  - intros t m k d Hp Hk Hm. rewrite <- (repr_count _ _ _ (Hr _ _ Hp)) in Hm.
    destruct Hp as (css & l & Hh & Hex & ->).
    destruct (put_refines _ _ _ _ (KInt k) d eq_refl Hh Hk Hm)
      as (q & t' & css' & l' & E & Hh' & Em & _ & _ & Hex' & _).
    exists t'. split; [exact E|]. destruct (Hex' Hex) as [-> He]. by exists css', l'.
  - intros t m Hp. exact (repr_count _ _ _ (Hr _ _ Hp)).
Qed.

(** ** Queues used as stacks *)

Class Stack `{Uninit mqueue_item} (rep : mqueue_t → list Z → Prop) := {
  st_add t cs c : rep t cs → Z.of_nat (length cs) < INT_MAX →
    ∃ t', mqueue_add t c = Ok t' ∧ rep t' (c :: cs);
  st_remove t cs : rep t cs →
    ∃ t', mqueue_remove t = Ok (hd NULL cs, t') ∧ rep t' (tail cs);
  st_size t cs : rep t cs → mqueue_size t = Z.of_nat (length cs);
  st_peek t cs i : rep t cs → 0 ≤ i →
    ∃ t', mqueue_peek_at_index t i = Ok (default NULL (cs !! Z.to_nat i), t') ∧ rep t' cs
}.

#[export] Instance qlifo_stack `{Uninit mqueue_item} : Stack qlifo.
Proof.
  split.
  - intros t cs c (as_ & fl & Hq) Hm. rewrite <- (qo_count _ _ _ _ Hq) in Hm.
    destruct (mqueue_add_ok _ _ _ _ c Hq Hm) as (t' & a & fl' & -> & Hq' & _).
    eexists; split; [done|]. by exists (a :: as_), fl'.
  - intros t cs (as_ & fl & Hq). pose proof (qo_length _ _ _ _ Hq).
    destruct as_ as [|a as_], cs as [|c cs]; try done.
    + exists t. split; [exact (mqueue_remove_empty _ _ _ Hq)|]. by exists [], fl.
    + destruct (mqueue_remove_ok _ _ _ _ _ _ Hq) as (t' & fl' & -> & Hq' & _).
      eexists; split; [done|]. by exists as_, fl'.
  - intros t cs (as_ & fl & Hq). apply Hq.
  - intros t cs i (as_ & fl & Hq) Hi.
    destruct (mqueue_peek_ok _ _ _ _ i Hq Hi) as (t' & -> & Hq' & _).
    eexists; split; [done|]. by exists as_, fl.
Qed.

#[export] Instance qplain_stack `{Uninit mqueue_item} : Stack qplain.
Proof.
  split.
  - intros t cs c (as_ & Hq & Hz & Hnl) Hm. rewrite <- (qo_count _ _ _ _ Hq) in Hm.
    destruct (mqueue_add_ok _ _ _ _ c Hq Hm) as (t' & a & fl' & -> & Hq' & Hi & Hl).
    destruct (Hl Hz) as [-> Hn]. eexists; split; [done|]. exists (a :: as_).
    split; [done|]. split; [by rewrite Hi|]. by apply Hn.
  - intros t cs (as_ & Hq & Hz & Hnl). pose proof (qo_length _ _ _ _ Hq).
    destruct as_ as [|a as_], cs as [|c cs]; try done.
    + exists t. split; [exact (mqueue_remove_empty _ _ _ Hq)|]. by exists [].
    + destruct (mqueue_remove_ok _ _ _ _ _ _ Hq) as (t' & fl' & -> & Hq' & Hi & Hl).
      destruct (Hl Hz) as [-> Hn]. eexists; split; [done|]. exists as_.
      split; [done|]. split; [by rewrite Hi|]. by apply Hn.
  - intros t cs (as_ & Hq & _). apply Hq.
  - intros t cs i (as_ & Hq & Hz & Hnl) Hi.
    destruct (mqueue_peek_ok _ _ _ _ i Hq Hi) as (t' & -> & Hq' & Eit & Epl).
    eexists; split; [done|]. exists as_. rewrite Eit, Epl. done.
Qed.
