(* ===== verification/Wire.v ===== *)
(** * Messages on the wire: [src/v0.1/rmcast.h] and the byte order functions

    A message buffer is a list of bytes.  The packed structs of [rmcast.h] are
    read and written in place, field by field, in the layout of an LP64
    little-endian machine: [rmc_msg_hdr] (20 bytes) at the start of the buffer
    and, in a heartbeat, [rmc_msg_hbeat] (24 bytes) after it. *)

From S2P Require Import Prelude.

(** ** Bytes *)

Fixpoint le_decode (bs : list Z) : Z :=
  match bs with [] => 0 | b :: bs => b + 256 * le_decode bs end.

Fixpoint le_encode (n : nat) (z : Z) : list Z :=
  match n with O => [] | S n => z mod 256 :: le_encode n (z / 256) end.

Definition is_byte (b : Z) : Prop := 0 ≤ b < 256.

Lemma le_encode_length n : ∀ z, length (le_encode n z) = n.
Proof. induction n; intros; cbn; auto. Qed.

Lemma le_encode_bytes n : ∀ z, Forall is_byte (le_encode n z).
Proof. induction n; intros; constructor; [apply Z.mod_pos_bound; lia|auto]. Qed.

(** Decoding inverts encoding, on the low bytes. *)
Lemma le_decode_encode n : ∀ z, le_decode (le_encode n z) = z mod 256 ^ Z.of_nat n.
Proof.
  induction n as [|n IH]; intros z; cbn.
  - by rewrite Z.mod_1_r.
  - rewrite IH. replace (Z.of_nat (S n)) with (Z.succ (Z.of_nat n)) by lia.
    rewrite Z.pow_succ_r by lia. rewrite Z.rem_mul_r; [lia|lia|]. apply Z.pow_pos_nonneg; lia.
Qed.

Lemma le_decode_bound bs :
  Forall is_byte bs → 0 ≤ le_decode bs < 256 ^ Z.of_nat (length bs).
Proof.
  induction 1 as [|b bs Hb Hbs IH]; cbn; [lia|].
  replace (Z.of_nat (S (length bs))) with (Z.succ (Z.of_nat (length bs))) by lia.
  rewrite Z.pow_succ_r by lia. unfold is_byte in Hb. lia.
Qed.

(** [n] bytes of [buf] at offset [off]. *)
Definition slice (off n : nat) (buf : list Z) : list Z := take n (drop off buf).

(** [buf] with the bytes at [off] replaced by [bs]. *)
Definition splice (off : nat) (bs buf : list Z) : list Z :=
  take off buf ++ bs ++ drop (off + length bs) buf.

Lemma lookup_slice off n buf i :
  slice off n buf !! i = if decide (i < n)%nat then buf !! (off + i)%nat else None.
Proof.
  unfold slice. case_decide.
  - by rewrite lookup_take_lt, lookup_drop.
  - by rewrite lookup_take_ge by lia.
Qed.

Lemma lookup_splice off bs buf i :
  (off + length bs ≤ length buf)%nat →
  splice off bs buf !! i =
    if decide (off ≤ i < off + length bs)%nat then bs !! (i - off)%nat else buf !! i.
Proof.
  intros Hl. unfold splice. case_decide.
  - rewrite lookup_app_r by (rewrite length_take; lia). rewrite length_take.
    replace (off `min` length buf)%nat with off by lia. by rewrite lookup_app_l by lia.
  - destruct (decide (i < off)%nat).
    + rewrite lookup_app_l by (rewrite length_take; lia). by rewrite lookup_take_lt.
    + rewrite lookup_app_r by (rewrite length_take; lia). rewrite length_take.
      replace (off `min` length buf)%nat with off by lia.
      rewrite lookup_app_r by lia. rewrite lookup_drop. f_equal. lia.
Qed.

Lemma splice_length off bs buf :
  (off + length bs ≤ length buf)%nat → length (splice off bs buf) = length buf.
Proof. intros. unfold splice. rewrite !length_app, length_take, length_drop. lia. Qed.

Lemma slice_splice off bs buf :
  (off + length bs ≤ length buf)%nat → slice off (length bs) (splice off bs buf) = bs.
Proof.
  intros Hl. apply list_eq. intros i. rewrite lookup_slice, lookup_splice by done.
  case_decide; [|by rewrite lookup_ge_None_2 by lia].
  rewrite decide_True by lia. f_equal. lia.
Qed.

(** Writing at one place does not change what is read at another. *)
Lemma slice_splice_ne off bs buf o n :
  (off + length bs ≤ length buf)%nat → (o + n ≤ off ∨ off + length bs ≤ o)%nat →
  slice o n (splice off bs buf) = slice o n buf.
Proof.
  intros Hl Hd. apply list_eq. intros i. rewrite !lookup_slice. case_decide; [|done].
  rewrite lookup_splice by done. by rewrite decide_False by lia.
Qed.

(** ** Access to a buffer at a C offset *)

Definition in_buf (buf : list Z) (off n : Z) : bool :=
  (0 <=? off) && (0 <=? n) && (off + n <=? Z.of_nat (length buf)).

Definition buf_read (buf : list Z) (off n : Z) : res (list Z) :=
  if in_buf buf off n then Ok (slice (Z.to_nat off) (Z.to_nat n) buf) else Fault OutOfBounds.

Definition buf_write (buf : list Z) (off : Z) (bs : list Z) : res (list Z) :=
  if in_buf buf off (Z.of_nat (length bs))
  then Ok (splice (Z.to_nat off) bs buf) else Fault OutOfBounds.

(** An unsigned field of [n] bytes. *)
Definition get_field (buf : list Z) (off : Z) (n : nat) : res Z :=
  bs ← buf_read buf off (Z.of_nat n); Ok (le_decode bs).

Definition set_field (buf : list Z) (off : Z) (n : nat) (z : Z) : res (list Z) :=
  buf_write buf off (le_encode n z).

(** The C string at an offset of a buffer. *)
Definition cstring_at (buf : list Z) (off : Z) : res cstring :=
  (fix go (l : list Z) : res cstring :=
     match l with
     | [] => Fault OutOfBounds
     | b :: l => if b =? 0 then Ok [] else s ← go l; Ok (b :: s)
     end) (drop (Z.to_nat off) buf).

Lemma set_field_Ok buf (off n : nat) z :
  (off + n ≤ length buf)%nat →
  set_field buf (Z.of_nat off) n z = Ok (splice off (le_encode n z) buf).
Proof.
  intros H. unfold set_field, buf_write, in_buf. rewrite le_encode_length, Nat2Z.id.
  by rewrite !(proj2 (Z.leb_le _ _)) by lia.
Qed.

Lemma set_field_cases buf off n z :
  0 ≤ off →
  (∃ buf', set_field buf off n z = Ok buf' ∧ length buf' = length buf ∧
           off + Z.of_nat n ≤ Z.of_nat (length buf)) ∨
  set_field buf off n z = Fault OutOfBounds.
Proof.
  intros Ho. unfold set_field, buf_write, in_buf. rewrite le_encode_length.
  rewrite !(proj2 (Z.leb_le 0 _)) by lia. cbn.
  destruct (Z.leb_spec (off + Z.of_nat n) (Z.of_nat (length buf))) as [Hle|]; [left|by right].
  eexists; split; [done|]. split; [|done]. apply splice_length. rewrite le_encode_length. lia.
Qed.

Lemma get_field_Ok buf (off n : nat) :
  (off + n ≤ length buf)%nat → get_field buf (Z.of_nat off) n = Ok (le_decode (slice off n buf)).
Proof.
  intros H. unfold get_field, buf_read, in_buf. rewrite !Nat2Z.id.
  by rewrite !(proj2 (Z.leb_le _ _)) by lia.
Qed.

Lemma buf_read_Ok buf (off n : nat) :
  (off + n ≤ length buf)%nat → buf_read buf (Z.of_nat off) (Z.of_nat n) = Ok (slice off n buf).
Proof.
  intros H. unfold buf_read, in_buf. rewrite !Nat2Z.id.
  by rewrite !(proj2 (Z.leb_le _ _)) by lia.
Qed.

Lemma buf_write_Ok buf (off : nat) bs :
  (off + length bs ≤ length buf)%nat → buf_write buf (Z.of_nat off) bs = Ok (splice off bs buf).
Proof.
  intros H. unfold buf_write, in_buf. rewrite Nat2Z.id.
  by rewrite !(proj2 (Z.leb_le _ _)) by lia.
Qed.

(** ** Byte order *)

Definition htons (z : Z) : Z := le_decode (rev (le_encode 2 z)).
Definition ntohs := htons.
Definition htonl (z : Z) : Z := le_decode (rev (le_encode 4 z)).
Definition ntohl := htonl.

Lemma le_encode_decode bs :
  Forall is_byte bs → le_encode (length bs) (le_decode bs) = bs.
Proof.
  induction 1 as [|b bs Hb Hbs IH]; [done|]. cbn. unfold is_byte in Hb.
  rewrite (Z.mul_comm 256), Z.mod_add, Z.mod_small by lia. f_equal.
  rewrite Z.div_add, Z.div_small by lia. by rewrite Z.add_0_l.
Qed.

(** Reversing the bytes of a number twice keeps its low bytes. *)
Lemma swap_twice n z :
  le_decode (rev (le_encode n (le_decode (rev (le_encode n z))))) = z mod 256 ^ Z.of_nat n.
Proof.
  assert (Hb : Forall is_byte (rev (le_encode n z))).
  { apply List.Forall_rev, le_encode_bytes. }
  pose proof (le_encode_decode _ Hb) as E. rewrite length_rev, le_encode_length in E.
  rewrite E, rev_involutive. apply le_decode_encode.
Qed.

(** [ntohl(htonl(x))] and [ntohs(htons(x))] give back the low 32 and 16
    bits of [x], which is all a 64-bit field of the header carries. *)
Theorem byte_order_roundtrip x : ntohl (htonl x) = u32 x ∧ ntohs (htons x) = u16 x.
Proof. split; [exact (swap_twice 4 x)|exact (swap_twice 2 x)]. Qed.

Lemma swap_bound n z : 0 ≤ le_decode (rev (le_encode n z)) < 256 ^ Z.of_nat n.
Proof.
  rewrite <- (le_encode_length n z) at 3. rewrite <- length_rev. apply le_decode_bound.
  apply List.Forall_rev, le_encode_bytes.
Qed.

Lemma htonl_range z : 0 ≤ htonl z < 2 ^ 32.
Proof. exact (swap_bound 4 z). Qed.
Lemma htons_range z : 0 ≤ htons z < 2 ^ 16.
Proof. exact (swap_bound 2 z). Qed.

(** ** The header, [rmc_msg_hdr] *)

Definition SIZEOF_HDR : Z := 20.
Definition SIZEOF_HBEAT : Z := 24.
Definition SIZEOF_LONG : Z := 8.

Definition hdr_version (buf : list Z) : res Z := get_field buf 0 1.
Definition hdr_type (buf : list Z) : res Z := get_field buf 1 1.
Definition hdr_length (buf : list Z) : res Z := get_field buf 2 2.
Definition hdr_sequence (buf : list Z) : res Z := get_field buf 4 8.
Definition hdr_id (buf : list Z) : res Z := get_field buf 12 8.

Definition set_version (buf : list Z) (z : Z) : res (list Z) := set_field buf 0 1 z.
Definition set_type (buf : list Z) (z : Z) : res (list Z) := set_field buf 1 1 z.
Definition set_length (buf : list Z) (z : Z) : res (list Z) := set_field buf 2 2 z.
Definition set_sequence (buf : list Z) (z : Z) : res (list Z) := set_field buf 4 8 z.
Definition set_id (buf : list Z) (z : Z) : res (list Z) := set_field buf 12 8 z.

(** [rmc_msg_hbeat], after the header. *)
Definition hb_lost (buf : list Z) : res Z := get_field buf 20 8.
Definition hb_namelen (buf : list Z) : res Z := get_field buf 28 2.
Definition hb_flags (buf : list Z) : res Z := get_field buf 30 2.
Definition hb_session (buf : list Z) : res Z := get_field buf 32 8.
Definition hb_acks (buf : list Z) : res Z := get_field buf 40 2.
Definition hb_pgback (buf : list Z) : res Z := get_field buf 42 2.

Definition set_lost (buf : list Z) (z : Z) : res (list Z) := set_field buf 20 8 z.
Definition set_namelen (buf : list Z) (z : Z) : res (list Z) := set_field buf 28 2 z.
Definition set_flags (buf : list Z) (z : Z) : res (list Z) := set_field buf 30 2 z.
Definition set_session (buf : list Z) (z : Z) : res (list Z) := set_field buf 32 8 z.
Definition set_acks (buf : list Z) (z : Z) : res (list Z) := set_field buf 40 2 z.
Definition set_pgback (buf : list Z) (z : Z) : res (list Z) := set_field buf 42 2 z.
