(* ===== verification/RmcastState.v ===== *)
(** * The multicast daemon of [src/v0.1/rmcast.c]: state and primitives

    [rmc] is everything the daemon reaches: the control block [rmcastcb]
    ([static rmcastcb *rmcb]), the messages and members it allocated, and what
    it has written to its sockets.  Code that changes it is in the monad [M].
    The kernel's answers (how much of a buffer [send] took, ...) are the class
    [Kernel], the content of fresh memory the class [Fresh]. *)

From Stdlib Require Import SpecFloat.
From S2P Require Import Prelude StateMonad Machine Heap Pool Hashtable Mqueue Wire.

Record rmc_member := Member {
  mem_id : Z;
  hostname : cstring;
  session : Z;
  sequence : Z;
  sequence_sent : Z;
  sequence_rcvd : Z;
  sequence_sync : Z;
  lost : Z;
  last_hbeat : timeval;
  unseq_msgs : htbl_t
}.
#[global] Instance rmc_member_eta : Eta rmc_member := fun r =>
  Member (mem_id r) (hostname r) (session r) (sequence r) (sequence_sent r) (sequence_rcvd r)
         (sequence_sync r) (lost r) (last_hbeat r) (unseq_msgs r).

(** [hdr] and [data] always point to offsets 0 and 20 of [buf]. *)
Record rmc_msg := Msg {
  m_size : Z;
  m_length : Z;
  m_buf : list Z
}.
#[global] Instance rmc_msg_eta : Eta rmc_msg := fun r => Msg (m_size r) (m_length r) (m_buf r).

Inductive dest := ToGroup | ToHost (s_addr : Z).
Record packet := Packet { p_dest : dest; p_bytes : list Z }.

(** The fields of the control block that belong to the sockets; [fds] are the
    descriptors the process has open. *)
Record netcb := Net {
  initialized : Z;
  ipc_svr_sock : Z;
  ipc_cli_sock : Z;
  ipc_sock : Z;
  ipc_port : Z;
  mcast_sock : Z;
  mcast_port : Z;
  maxsock : Z;
  maxrcv : Z;
  group : cstring;
  port : Z;
  mcast_addr : Z;            (* sin_addr.s_addr *)
  mcast_interface : Z;
  discard_size : Z;
  fds : list Z
}.
#[global] Instance netcb_eta : Eta netcb := fun r =>
  Net (initialized r) (ipc_svr_sock r) (ipc_cli_sock r) (ipc_sock r) (ipc_port r) (mcast_sock r)
    (mcast_port r) (maxsock r) (maxrcv r) (group r) (port r) (mcast_addr r) (mcast_interface r)
    (discard_size r) (fds r).

Record rmcastcb := Rmcastcb {
  active : Z;
  version : Z;
  id : Z;
  host : cstring;            (* rmcb->hostname *)
  bufmsgq : mqueue_t;
  inmsgq : mqueue_t;         (* the queue inside the syncqueue *)
  members : htbl_t;
  membersq : mqueue_t;
  outmsgbuf : htbl_t;
  oldest_seq : Z;
  hb_seq_p1 : Z;
  hb_seq_p2 : Z;
  hb_seq_p3 : Z;
  hb_ack : Z;
  msg_per_sec : spec_float;
  msg_this_sec : spec_float;
  hbeat_rate : Z;
  bufsize : Z;
  ucast_addr : Z;            (* sin_addr.s_addr *)
  net : netcb
}.
#[global] Instance rmcastcb_eta : Eta rmcastcb := fun r =>
  Rmcastcb (active r) (version r) (id r) (host r) (bufmsgq r) (inmsgq r) (members r) (membersq r)
    (outmsgbuf r) (oldest_seq r) (hb_seq_p1 r) (hb_seq_p2 r) (hb_seq_p3 r) (hb_ack r)
    (msg_per_sec r) (msg_this_sec r) (hbeat_rate r) (bufsize r) (ucast_addr r) (net r).

Record rmc := Rmc {
  cb : rmcastcb;
  self : rmc_member;         (* *rmcb->self *)
  mems : heap rmc_member;    (* the other members *)
  msgs : heap rmc_msg;
  sent : list packet;        (* what went out on the multicast socket *)
  ipc_out : list Z           (* what the daemon wrote to the ipc socket *)
}.
#[global] Instance rmc_eta : Eta rmc := fun r =>
  Rmc (cb r) (self r) (mems r) (msgs r) (sent r) (ipc_out r).

(** ** The environment *)

Class Kernel := {
  (** the result of [sendto] for a datagram *)
  sendto_ret : packet → Z;
  (** the result of [send] on the ipc socket, after the bytes already written *)
  send_ret : list Z → list Z → Z
}.

(** ** The state monad *)

Abbreviation M := (ST rmc).

Definition set_cb (f : rmcastcb → rmcastcb) : M unit := modify (fun s => s <| cb := f (cb s) |>).
Definition set_net (f : netcb → netcb) : M unit := set_cb (fun c => c <| net := f (net c) |>).
Definition set_self (f : rmc_member → rmc_member) : M unit :=
  modify (fun s => s <| self := f (self s) |>).

(** Messages and members by address. *)
Definition load_msg (p : Z) : M rmc_msg := fun s => x ← h_load (msgs s) p; Ok (x, s).
Definition store_msg (p : Z) (x : rmc_msg) : M unit := fun s =>
  h ← h_store (msgs s) p x; Ok (tt, s <| msgs := h |>).
Definition load_mem (p : Z) : M rmc_member := fun s => x ← h_load (mems s) p; Ok (x, s).
Definition store_mem (p : Z) (x : rmc_member) : M unit := fun s =>
  h ← h_store (mems s) p x; Ok (tt, s <| mems := h |>).

(** Reading and writing the buffer of a message. *)
Definition rd {A} (p : Z) (f : list Z → res A) : M A :=
  x ← load_msg p; lift (f (m_buf x)).
Definition wr (p : Z) (f : list Z → res (list Z)) : M unit :=
  x ← load_msg p; b ← lift (f (m_buf x)); store_msg p (x <| m_buf := b |>).
Definition upd_mem (p : Z) (f : rmc_member → rmc_member) : M unit :=
  x ← load_mem p; store_mem p (f x).

Section Primitives.
Context `{Uninit htbl_entry} `{Uninit mqueue_item} `{Kernel} `{Fresh}.

(** [sendto] of the first [n] bytes of a message. *)
Definition sendto (p n : Z) (d : dest) : M Z :=
  bs ← rd p (fun b => buf_read b 0 n);
  _ ← modify (fun s => s <| sent := sent s ++ [Packet d bs] |>);
  mret (sendto_ret (Packet d bs)).

(** ** The pool of messages *)

Definition new_msg : M Z :=
  size ← gets (fun s => bufsize (cb s));
  p ← gets (fun s => brk (msgs s));
  _ ← modify (fun s => s <| msgs :=
        h_new (msgs s) (Msg size fresh_int (fresh_bytes (Z.to_nat size))) |>);
  v ← gets (fun s => version (cb s));
  _ ← wr p (fun b => set_version b v);
  mret p.

Definition clear_msg (p : Z) : M unit := fun s =>
  h ← h_free (msgs s) p; Ok (tt, s <| msgs := h |>).

Definition alloc_msg : M Z :=
  q ← gets (fun s => bufmsgq (cb s));
  '(msg, q) ← lift (mqueue_remove q);
  _ ← set_cb (fun c => c <| bufmsgq := q |>);
  if truthy msg then mret msg else new_msg.

Definition release_msg (msg : Z) : M unit :=
  q ← gets (fun s => bufmsgq (cb s));
  q ← lift (mqueue_add q msg);
  set_cb (fun c => c <| bufmsgq := q |>).

(** ** Members *)

Definition rmcast_member_init (name : cstring) (i sess : Z) : res rmc_member :=
  '(_, t) ← htbl_init 10 0;
  Ok (Member (i64 i) name sess 0 0 0 0 0 (Timeval 0 0) t).

Definition rmcast_member_free (p : Z) : M unit := fun s =>
  h ← h_free (mems s) p; Ok (tt, s <| mems := h |>).
End Primitives.
