(* ===== verification/Rmcast.v ===== *)
(** * The multicast daemon of [src/v0.1/rmcast.c]: operations

    The handlers of [rmcast_daemon], one per message type, the path of a message
    from the ipc socket to the group, the periodic work, and the functions of
    the interface.  [handle_mcast], [handle_ipc] and [periodic] are the three
    parts of the loop body, composed by [daemon_iter]. *)

From Stdlib Require Import SpecFloat.
From S2P Require Import Prelude StateMonad Machine Heap Pool Hashtable Mqueue Wire RmcastState.

Definition RMCAST_MSG_DATA : Z := 60.
Definition RMCAST_MSG_HBEAT : Z := 61.
Definition RMCAST_MSG_ACK : Z := 62.
Definition RMCAST_MSG_NACK : Z := 63.
Definition RMCAST_MSG_JOIN : Z := 64.
Definition RMCAST_MSG_LEAVE : Z := 65.
Definition RMCAST_MSG_CERT : Z := 66.
Definition RMCAST_RATE_FACTOR : Z := 500.

Section Rmcast.
Context `{Uninit htbl_entry} `{Uninit mqueue_item} `{Kernel} `{Fresh}.

(** ** Negative acknowledgements *)

(** [for(itr = mem->sequence + 1; itr != seq2; itr++)]: [itr] is an [int], and
    is converted to [unsigned long] for the comparison.  Every turn writes to
    the message unless the number is cached, so that [fuel] need not exceed the
    size of the buffer and the number of cached messages. *)
Fixpoint nack_loop (fuel : nat) (mem msg seq2 itr cnt : Z) : M Z :=
  if u64 itr =? seq2 then mret cnt
  else match fuel with
       | O => lift (Fault Diverges)
       | S fuel =>
           m ← load_mem mem;
           '(found, _) ← lift (htbl_get (unseq_msgs m) itr);
           cnt ← (if found =? 0 then
                    _ ← wr msg (fun b => set_field b (SIZEOF_HDR + SIZEOF_LONG * cnt) 8 (htonl itr));
                    cnt ← lift (add_int cnt 1);
                    _ ← upd_mem mem (fun m => m <| lost := lost m + 1 |>);
                    _ ← set_self (fun m => m <| lost := lost m + 1 |>);
                    mret cnt
                  else mret cnt);
           itr ← lift (add_int itr 1);
           nack_loop fuel mem msg seq2 itr cnt
       end.

Definition send_nack (mem msg : Z) : M Z :=
  m ← load_mem mem;
  let seq2 := u64 (sequence m - 1) in
  _ ← wr msg (fun b => set_type b RMCAST_MSG_NACK);
  _ ← wr msg (fun b => set_sequence b (htonl (sequence m)));
  _ ← wr msg (fun b => set_id b (htonl (mem_id m)));
  x ← load_msg msg;
  let fuel := (length (m_buf x) + Z.to_nat (htbl_count (unseq_msgs m)))%nat in
  cnt ← nack_loop fuel mem msg seq2 (i32 (sequence m + 1)) 1;
  _ ← wr msg (fun b => set_field b SIZEOF_HDR 8 (htonl cnt));
  let cnt := i32 (cnt * SIZEOF_LONG) in
  _ ← wr msg (fun b => set_length b (htons cnt));
  _ ← set_cb (fun c => c <| ucast_addr := htonl (mem_id m) |>);
  addr ← gets (fun s => ucast_addr (cb s));
  sendto msg (SIZEOF_HDR + cnt) (ToHost addr).

(** ** The buffer of sent messages *)

(** [while(oldest_seq < bound)]: forget the messages before [bound]; [n] is
    the distance. *)
Fixpoint clear_outbuf (n : nat) : M unit :=
  match n with
  | O => mret tt
  | S n =>
      t ← gets (fun s => outmsgbuf (cb s));
      old ← gets (fun s => oldest_seq (cb s));
      '(r, d, t) ← lift (htbl_remove t (i32 old));
      _ ← set_cb (fun c => c <| outmsgbuf := t |>);
      _ ← (if truthy r then release_msg (default NULL d) else mret tt);
      _ ← set_cb (fun c => c <| oldest_seq := u64 (oldest_seq c + 1) |>);
      clear_outbuf n
  end.

(** ** Heartbeats *)

(** The acknowledgements: the number received last from every member. *)
Definition write_acks (msg data acks : Z) : M unit :=
  for_m 0 acks (fun itr =>
    q ← gets (fun s => membersq (cb s));
    '(mem, q) ← lift (mqueue_peek_at_index q itr);
    _ ← set_cb (fun c => c <| membersq := q |>);
    m ← load_mem mem;
    _ ← wr msg (fun b => set_field b (data + itr * 2 * SIZEOF_LONG) 8 (htonl (mem_id m)));
    wr msg (fun b => set_field b (data + (itr * 2 + 1) * SIZEOF_LONG) 8 (htonl (sequence m)))).

Definition send_hbeat (hname : option cstring) (pgback : option (list Z)) (len flags : Z) : M Z :=
  msg ← alloc_msg;
  _ ← wr msg (fun b => set_type b RMCAST_MSG_HBEAT);
  me ← gets self;
  _ ← wr msg (fun b => set_sequence b (htonl (sequence me)));
  _ ← wr msg (fun b => set_id b (htonl (mem_id me)));
  let data := SIZEOF_HDR + SIZEOF_HBEAT in
  _ ← wr msg (fun b => set_lost b (htonl (lost me)));
  _ ← wr msg (fun b => set_flags b (htons flags));
  _ ← wr msg (fun b => set_session b (htonl (session me)));
  data ← match hname with
         | Some name =>
             let n := Z.of_nat (length name) in
             _ ← wr msg (fun b => set_namelen b (htons (n + 1)));
             _ ← wr msg (fun b => buf_write b data ((u8 <$> name) ++ [0]));   (* sprintf *)
             mret (data + n)
         | None => _ ← wr msg (fun b => set_namelen b 0); mret data
         end;
  ack ← gets (fun s => hb_ack (cb s));
  offset ← (if truthy ack then
              q ← gets (fun s => membersq (cb s));
              let acks := u16 (mqueue_size q) in
              _ ← wr msg (fun b => set_acks b acks);
              _ ← write_acks msg data acks;
              _ ← wr msg (fun b => set_acks b (htons acks));
              mret (acks * (2 * SIZEOF_LONG))
            else _ ← wr msg (fun b => set_acks b 0); mret 0);
  let data := data + offset in
  x ← load_msg msg;
  offset ← match pgback with
           | Some bytes =>
               if len <? m_size x - data then
                 bs ← lift (buf_read bytes 0 len);
                 _ ← wr msg (fun b => buf_write b data bs);
                 mret (offset + len)
               else mret offset
           | None => _ ← wr msg (fun b => set_pgback b 0); mret offset
           end;
  _ ← wr msg (fun b => set_length b (htons (SIZEOF_HBEAT + offset)));
  ret ← sendto msg (SIZEOF_HDR + SIZEOF_HBEAT + offset) ToGroup;
  _ ← release_msg msg;
  _ ← set_cb (fun c => c <| hb_seq_p3 := hb_seq_p2 c |>);
  _ ← set_cb (fun c => c <| hb_seq_p2 := hb_seq_p1 c |>);
  seq ← gets (fun s => sequence (self s));
  _ ← set_cb (fun c => c <| hb_seq_p1 := seq |>);
  c ← gets cb;
  _ ← clear_outbuf (Z.to_nat (hb_seq_p3 c - oldest_seq c));
  mret ret.

(** ** Delivery to the application *)

(** [send] on the ipc socket. *)
Definition ipc_send (bs : list Z) : M Z :=
  o ← gets ipc_out;
  let k := send_ret o bs in
  _ ← modify (fun s => s <| ipc_out := o ++ take (Z.to_nat k) bs |>);
  mret k.

(** [while(ret < nfound) ret += send(ipc_sock, msg->data+ret, nfound-ret, 0)];
    [nfound] turns are enough when every [send] makes progress. *)
Fixpoint ipc_send_all (fuel : nat) (msg nfound ret : Z) : M unit :=
  if ret <? nfound then
    match fuel with
    | O => lift (Fault Diverges)
    | S fuel =>
        bs ← rd msg (fun b => buf_read b (SIZEOF_HDR + ret) (nfound - ret));
        k ← ipc_send bs;
        ipc_send_all fuel msg nfound (ret + k)
    end
  else mret tt.

Definition ipc_payload (msg nfound : Z) : M unit := ipc_send_all (Z.to_nat nfound) msg nfound 0.

(** [struct ipc_metadata]: the length and the sender's address (16 bytes). *)
Definition metadata (nbytes : Z) (from : list Z) : list Z := le_encode 4 nbytes ++ from.

(** [while(htbl_remove(mem->unseq_msgs, mem->sequence, &msg))] *)
Fixpoint release_unseq (fuel : nat) (mem : Z) : M unit :=
  m ← load_mem mem;
  '(r, d, t) ← lift (htbl_remove (unseq_msgs m) (i32 (sequence m)));
  _ ← store_mem mem (m <| unseq_msgs := t |>);
  if truthy r then
    match fuel with
    | O => lift (Fault Diverges)
    | S fuel =>
        let msg := default NULL d in
        nfound ← rd msg hdr_length;
        _ ← ipc_send (le_encode 4 nfound);
        _ ← ipc_payload msg nfound;
        _ ← upd_mem mem (fun m => m <| sequence := u64 (sequence m + 1) |>);
        release_unseq fuel mem
    end
  else mret tt.

(** ** The messages *)

Definition members_get (key : Z) : M (option Z) :=
  t ← gets (fun s => members (cb s));
  '(r, d) ← lift (htbl_get t (i32 key));
  mret (if truthy r then d else None).

Definition handle_data (from : list Z) (msg : Z) : M unit :=
  hid ← rd msg hdr_id;
  found ← members_get hid;
  match found with
  | None => release_msg msg
  | Some mem =>
      m ← load_mem mem;
      seq ← rd msg hdr_sequence;
      if negb (u64 (sequence m + 1) =? seq) then
        msg ← (if sequence m <? seq then
                 '(_, t) ← lift (htbl_put (unseq_msgs m) (i32 seq) msg);
                 _ ← store_mem mem (m <| unseq_msgs := t |>);
                 msg ← alloc_msg;
                 _ ← send_nack mem msg;
                 mret msg
               else mret msg);
        release_msg msg
      else
        nfound ← rd msg hdr_length;
        _ ← ipc_send (metadata nfound from);
        _ ← ipc_payload msg nfound;
        _ ← upd_mem mem (fun m => m <| sequence := u64 (sequence m + 1) |>);
        m ← load_mem mem;
        release_unseq (Z.to_nat (htbl_count (unseq_msgs m))) mem
  end.

(** The member a heartbeat is from: registered when it is new, reset when its
    session has changed. *)
Definition hbeat_member (msg hid seq namelen sess : Z) : M Z :=
  found ← members_get hid;
  match found with
  | None =>
      name ← (if truthy namelen then rd msg (fun b => cstring_at b SIZEOF_HDR)
              else mret [110; 111; 110; 97; 109; 101]);    (* noname *)
      m ← lift (rmcast_member_init name hid sess);
      mem ← gets (fun s => brk (mems s));
      _ ← modify (fun s => s <| mems := h_new (mems s) (m <| sequence := u64 (seq - 1) |>) |>);
      t ← gets (fun s => members (cb s));
      '(_, t) ← lift (htbl_put t (i32 (mem_id m)) mem);
      _ ← set_cb (fun c => c <| members := t |>);
      q ← gets (fun s => membersq (cb s));
      q ← lift (mqueue_add q mem);
      _ ← set_cb (fun c => c <| membersq := q |>);
      mret mem
  | Some mem =>
      m ← load_mem mem;
      _ ← (if negb (sess =? session m) then
             upd_mem mem (fun m => m <| session := sess |> <| sequence := u64 (seq - 1) |>)
           else mret tt);
      mret mem
  end.

(** [for(itr=0; itr < acks; itr++)]: the first entry for this host. *)
Fixpoint read_acks (n : nat) (mem msg data itr : Z) : M unit :=
  match n with
  | O => mret tt
  | S n =>
      who ← rd msg (fun b => get_field b (data + itr * 2 * SIZEOF_LONG) 8);
      me ← gets (fun s => mem_id (self s));
      if ntohl who =? me then
        v ← rd msg (fun b => get_field b (data + (itr * 2 + 1) * SIZEOF_LONG) 8);
        upd_mem mem (fun m => m <| sequence_sync := ntohl v |>)
      else read_acks n mem msg data (itr + 1)
  end.

(** The fields of the heartbeat, converted in place. *)
Definition ntoh_hbeat (msg : Z) : M unit :=
  x ← rd msg hb_namelen; _ ← wr msg (fun b => set_namelen b (ntohs x));
  x ← rd msg hb_flags; _ ← wr msg (fun b => set_flags b (ntohs x));
  x ← rd msg hb_session; wr msg (fun b => set_session b (ntohl x)).

(** The rest of a heartbeat, once its member [mem] is known. *)
Definition hbeat_rest (now : timeval) (msg mem seq namelen : Z) : M unit :=
  x ← rd msg hb_lost;
  _ ← upd_mem mem (fun m => m <| lost := ntohs x |>);
  let data := SIZEOF_HDR + SIZEOF_HBEAT + namelen in
  acks ← rd msg hb_acks;
  _ ← (if truthy acks then
         _ ← wr msg (fun b => set_acks b (ntohs acks));
         read_acks (Z.to_nat (ntohs acks)) mem msg data 0
       else mret tt);
  pg ← rd msg hb_pgback;
  _ ← (if truthy pg then wr msg (fun b => set_pgback b (ntohs pg)) else mret tt);
  _ ← upd_mem mem (fun m => m <| last_hbeat := now |>);
  m ← load_mem mem;
  _ ← (if negb (u64 (sequence m + 1) =? seq) then
         if sequence m <? seq then _ ← send_nack mem msg; mret tt else mret tt
       else mret tt);
  release_msg msg.

Definition handle_hbeat (now : timeval) (msg : Z) : M unit :=
  _ ← ntoh_hbeat msg;
  namelen ← rd msg hb_namelen;
  sess ← rd msg hb_session;
  hid ← rd msg hdr_id;
  seq ← rd msg hdr_sequence;
  mem ← hbeat_member msg hid seq namelen sess;
  hbeat_rest now msg mem seq namelen.

(** Sending a kept message again, if there is one with this number. *)
Definition resend (key : Z) : M unit :=
  t ← gets (fun s => outmsgbuf (cb s));
  '(r, d) ← lift (htbl_get t key);
  if truthy r then
    m ← load_msg (default NULL d);
    addr ← gets (fun s => ucast_addr (cb s));
    _ ← sendto (default NULL d) (m_length m + SIZEOF_HDR) (ToHost addr);
    mret tt
  else mret tt.

(** [for(itr=1; itr <= count; itr++)]: retransmission.  Every turn reads the
    message, so that [fuel] need not exceed its size. *)
Fixpoint resend_loop (fuel : nat) (msg itr count : Z) : M unit :=
  if itr <=? count then
    match fuel with
    | O => lift (Fault Diverges)
    | S fuel =>
        let off := SIZEOF_HDR + SIZEOF_LONG * itr in
        x ← rd msg (fun b => get_field b off 8);
        _ ← wr msg (fun b => set_field b off 8 (ntohl x));
        _ ← resend (i32 (ntohl x));
        itr ← lift (add_int itr 1);
        resend_loop fuel msg itr count
    end
  else mret tt.

Definition handle_nack (msg : Z) : M unit :=
  c ← rd msg (fun b => get_field b SIZEOF_HDR 8);
  hid ← rd msg hdr_id;
  _ ← set_cb (fun c => c <| ucast_addr := htonl hid |>);
  x ← load_msg msg;
  resend_loop (length (m_buf x)) msg 1 (i32 c).

(** The messages a departing member left out of sequence: [keys] is an array of
    [count] [unsigned long], filled as an array of [int] and read back as
    [unsigned long], of which [htbl_remove] takes the low half. *)
Definition drop_unseq (mem : Z) : M unit :=
  m ← load_mem mem;
  let cnt := htbl_count (unseq_msgs m) in
  '(keys, cnt) ← lift (htbl_enum_int_keys (unseq_msgs m) (replicate (Z.to_nat (2 * cnt)) 0) cnt);
  for_m 0 cnt (fun itr =>
    k ← lift (arr_get keys (2 * itr));
    m ← load_mem mem;
    '(r, d, t) ← lift (htbl_remove (unseq_msgs m) k);
    _ ← store_mem mem (m <| unseq_msgs := t |>);
    if truthy r then release_msg (default NULL d) else mret tt).

Definition handle_leave (msg : Z) : M unit :=
  hid ← rd msg hdr_id;
  t ← gets (fun s => members (cb s));
  '(r, d, t) ← lift (htbl_remove t (i32 hid));
  _ ← set_cb (fun c => c <| members := t |>);
  if truthy r then
    let mem := default NULL d in
    _ ← drop_unseq mem;
    q ← gets (fun s => membersq (cb s));
    '(_, q) ← lift (mqueue_remove_item q mem);
    _ ← set_cb (fun c => c <| membersq := q |>);
    rmcast_member_free mem
  else mret tt.

(** ** The body of the loop *)

(** The [switch] on the type of a message. *)
Definition handle_msg (now : timeval) (from : list Z) (msg : Z) : M unit :=
  ty ← rd msg hdr_type;
  if ty =? RMCAST_MSG_DATA then handle_data from msg
  else if ty =? RMCAST_MSG_HBEAT then handle_hbeat now msg
  else if ty =? RMCAST_MSG_NACK then handle_nack msg
  else if ty =? RMCAST_MSG_LEAVE then handle_leave msg
  else release_msg msg.

(** What [recvfrom] returned: the datagram and the sender's address, or -1. *)
Definition recvd : Type := option (list Z * list Z).

(** The result tells whether the rest of the turn is skipped ([continue]).  The
    comparisons of [ret] with a [size_t] are unsigned. *)
Definition handle_mcast (now : timeval) (r : recvd) : M bool :=
  msg ← alloc_msg;
  x ← load_msg msg;
  let bs := match r with Some (dgram, _) => take (Z.to_nat (m_size x)) dgram | None => [] end in
  let from := match r with Some (_, from) => from | None => fresh_bytes 16 end in
  let ret := match r with Some _ => Z.of_nat (length bs) | None => -1 end in
  _ ← wr msg (fun b => buf_write b 0 bs);
  if u64 ret <? SIZEOF_HDR then
    _ ← release_msg msg; mret true
  else
    l ← rd msg hdr_length; _ ← wr msg (fun b => set_length b (ntohs l));
    q ← rd msg hdr_sequence; _ ← wr msg (fun b => set_sequence b (ntohl q));
    i ← rd msg hdr_id; _ ← wr msg (fun b => set_id b (ntohl i));
    if u64 ret <? ntohs l + SIZEOF_HDR then mret true
    else
      _ ← handle_msg now from msg;
      mret false.

(** The data [rmcast_send] wrote to the ipc socket: the length, and what the
    second [recv] returned ([None] for -1). *)
Record ipc_event := IpcEvent { ipc_read : Z; ipc_data : option (list Z) }.

(** A complete message of [n] bytes is in the buffer: number it, send it and
    keep it for retransmission. *)
Definition send_data (msg n : Z) : M unit :=
  x ← load_msg msg;
  _ ← store_msg msg (x <| m_length := n |>);
  me ← gets self;
  _ ← wr msg (fun b => set_type b RMCAST_MSG_DATA);
  _ ← wr msg (fun b => set_length b (htons n));
  _ ← wr msg (fun b => set_sequence b (htonl (sequence me)));
  _ ← wr msg (fun b => set_id b (htonl (mem_id me)));
  ret ← sendto msg (n + SIZEOF_HDR) ToGroup;
  if 0 <? ret then
    t ← gets (fun s => outmsgbuf (cb s));
    '(_, t) ← lift (htbl_put t (i32 (sequence me)) msg);
    _ ← set_cb (fun c => c <| outmsgbuf := t |>);
    _ ← set_self (fun m => m <| sequence := u64 (sequence m + 1) |>);
    set_cb (fun c => c <| msg_this_sec := f_add (msg_this_sec c) (f_of_int 1) |>)
  else mret tt.

Definition handle_ipc (e : ipc_event) : M unit :=
  msg ← alloc_msg;
  bsz ← gets (fun s => bufsize (cb s));
  _ ← (if bsz <? ipc_read e then
         let bsz := grow (ipc_read e) in
         _ ← set_cb (fun c => c <| bufsize := bsz |>);
         x ← load_msg msg;
         store_msg msg (x <| m_size := bsz |> <| m_buf := realloc bsz (m_buf x) |>)
       else mret tt);
  let bs := default [] (ipc_data e) in
  let ret := match ipc_data e with Some bs => Z.of_nat (length bs) | None => -1 end in
  _ ← wr msg (fun b => buf_write b SIZEOF_HDR bs);
  if ret =? ipc_read e then send_data msg (ipc_read e) else mret tt.

(** ** The periodic work *)

(** [RMCAST_RATE_FACTOR / msg_per_sec], clamped. *)
Definition rate (mps : spec_float) : Z :=
  let r := f_to_int (f_div (f_of_int RMCAST_RATE_FACTOR) mps) in
  if 5 <? r then 5 else if r <? 1 then 1 else r.

Definition hbeat_tick (now : timeval) : M unit :=
  me ← gets self;
  c ← gets cb;
  if hbeat_rate c <=? tv_sec now - tv_sec (last_hbeat me) then
    _ ← send_hbeat (Some (host c)) None 0 0;
    _ ← set_cb (fun c =>
          let mps := f_div (msg_this_sec c) (f_sub (f_time now) (f_time (last_hbeat me))) in
          c <| msg_per_sec := mps |> <| hbeat_rate := rate mps |> <| msg_this_sec := f_of_int 0 |>);
    set_self (fun m => m <| last_hbeat := now |>)
  else mret tt.

(** [if(mem->sequence_sync < self->sequence_sync);] has an empty body: the
    assignment that follows it always happens. *)
Definition ack_tick : M unit :=
  c ← gets cb;
  if truthy (hb_ack c) then
    _ ← for_m 0 (mqueue_size (membersq c)) (fun itr =>
          q ← gets (fun s => membersq (cb s));
          '(mem, q) ← lift (mqueue_peek_at_index q itr);
          _ ← set_cb (fun c => c <| membersq := q |>);
          m ← load_mem mem;
          set_self (fun me => me <| sequence_sync := sequence_sync m |>));
    me ← gets self;
    c ← gets cb;
    clear_outbuf (Z.to_nat (sequence_sync me - oldest_seq c))
  else mret tt.

Definition periodic (now : timeval) : M unit := _ ← hbeat_tick now; ack_tick.

(** One turn of [while(rmcb->active)]: what [select] found readable and what
    the calls on those sockets returned.  An ipc event is [None] when the first
    [recv] on that socket returned nothing. *)
Record turn := Turn {
  t_mcast : option recvd;
  t_ipc : option (option ipc_event);
  t_now : timeval
}.

Definition daemon_iter (e : turn) : M unit :=
  skip ← match t_mcast e with
         | Some r => handle_mcast (t_now e) r
         | None => mret false
         end;
  if skip : bool then mret tt
  else
    _ ← match t_ipc e with
        | Some (Some ev) => handle_ipc ev
        | _ => mret tt
        end;
    periodic (t_now e).

(** After the loop: the leave message. *)
Definition send_leave : M unit :=
  msg ← alloc_msg;
  _ ← wr msg (fun b => set_type b RMCAST_MSG_LEAVE);
  _ ← wr msg (fun b => set_length b 0);
  me ← gets self;
  _ ← wr msg (fun b => set_sequence b (htonl (sequence me)));
  _ ← wr msg (fun b => set_id b (htonl (mem_id me)));
  _ ← sendto msg SIZEOF_HDR ToGroup;
  release_msg msg.

(** The thread: turns while it is active, then the leave message. *)
Fixpoint rmcast_daemon (turns : list turn) : M unit :=
  a ← gets (fun s => active (cb s));
  if truthy a then
    match turns with
    | [] => mret tt
    | e :: turns => _ ← daemon_iter e; rmcast_daemon turns
    end
  else send_leave.
End Rmcast.
