(* ===== verification/RmcastApi.v ===== *)
(** * The interface of [src/v0.1/rmcast.c]: start, join, leave, send, receive

    The functions an application calls.  What the operating system answers
    (sockets, host name, random numbers) is an argument. *)

From Stdlib Require Import SpecFloat.
From S2P Require Import Prelude StateMonad Machine Heap Pool Hashtable Mqueue Wire RmcastState Rmcast.

(** ** Sockets *)

Definition INADDR_ANY : Z := 0.

(** A system call that returns a descriptor, or less than 0. *)
Definition open_fd (ret : Z) : M Z :=
  _ ← (if ret <? 0 then mret tt else set_net (fun n => n <| fds := ret :: fds n |>));
  mret ret.

Definition close (fd : Z) : M unit :=
  set_net (fun n => n <| fds := filter (λ x, x ≠ fd) (fds n) |>).

(** What the calls of [init_ipc_sockets] return, in order. *)
Record ipc_calls := IpcCalls {
  c_socket1 : Z; c_reuse1 : Z; c_rand1 : Z; c_bind1 : Z; c_listen : Z;
  c_socket2 : Z; c_reuse2 : Z; c_bind2 : Z; c_connect : Z; c_accept : Z
}.

Definition close_both (svr cli ret : Z) : M Z := _ ← close svr; _ ← close cli; mret ret.

(** [rmcb->initialized==12345;] compares and changes nothing. *)
Definition init_ipc_sockets (k : ipc_calls) : M Z :=
  ini ← gets (fun s => initialized (net (cb s)));
  if ini =? 12345 then mret 0
  else
    svr ← open_fd (c_socket1 k);
    _ ← set_net (fun n => n <| ipc_svr_sock := svr |>);
    if svr <? 0 then mret svr
    else if c_reuse1 k <? 0 then _ ← close svr; mret (-1)
    else
      let sin_port := u16 (10000 + Z.rem (c_rand1 k) 30000) in
      if c_bind1 k <? 0 then _ ← close svr; mret (-1)
      else
        _ ← set_net (fun n => n <| ipc_port := ntohs sin_port |>);
        if c_listen k <? 0 then _ ← close svr; mret (c_listen k)
        else
          cli ← open_fd (c_socket2 k);
          _ ← set_net (fun n => n <| ipc_cli_sock := cli |>);
          if cli <? 0 then _ ← close svr; mret cli
          else if c_reuse2 k <? 0 then close_both svr cli (-1)
          else
            _ ← set_net (fun n => n <| maxrcv := cli + 1 |>);
            if c_bind2 k <? 0 then close_both svr cli (-1)
            else if c_connect k <? 0 then close_both svr cli (c_connect k)
            else
              acc ← open_fd (c_accept k);
              _ ← set_net (fun n => n <| ipc_sock := acc |>);
              if acc <? 0 then close_both svr cli acc
              else
                _ ← set_net (fun n => n <| maxsock := acc + 1 |>);
                mret 0.

(** What the calls of [rmcast_join_on] and [init_mcast_socket] return. *)
Record join_calls := JoinCalls {
  j_socket : Z; j_reuse : Z; j_loop : Z; j_bind : Z;
  j_ttl : Z; j_inet_addr : Z; j_add : Z; j_thread : Z
}.

Definition init_mcast_socket (k : join_calls) : M Z :=
  sock ← open_fd (j_socket k);
  _ ← set_net (fun n => n <| mcast_sock := sock |>);
  if sock <? 0 then mret sock
  else
    _ ← set_net (fun n => if maxsock n <=? sock then n <| maxsock := sock + 1 |> else n);
    svr ← gets (fun s => ipc_svr_sock (net (cb s)));
    cli ← gets (fun s => ipc_cli_sock (net (cb s)));
    if j_reuse k <? 0 then _ ← close sock; close_both svr cli (-1)
    else if j_loop k <? 0 then _ ← close sock; close_both svr cli (-1)
    else mret (j_bind k).

Section Api.
Context `{Uninit htbl_entry} `{Uninit mqueue_item} `{Kernel} `{Fresh}.

(** ** Start *)

Definition clamp_rate (hb_rate_sec : Z) : Z :=
  if (5 <? hb_rate_sec) || (hb_rate_sec <? 0) then 5 else hb_rate_sec.

(** [hname], [addr], [rnd]: the results of [gethostname], [gethostbyname] and
    [rand]. *)
Definition rmcast_init (max_msg_size nbufs hb_rate_sec ack : Z) (hname : option cstring)
    (addr : option Z) (rnd : Z) (k : ipc_calls) : M Z :=
  _ ← set_cb (fun c => c <| version := 0 |>);
  let max_msg_size := if max_msg_size <? 128 then 128 else max_msg_size in
  _ ← set_cb (fun c => c <| bufsize := i32 (max_msg_size + SIZEOF_HDR) |>);
  q ← lift (mqueue_init 100); _ ← set_cb (fun c => c <| bufmsgq := q |>);
  '(_, t) ← lift (htbl_init 50 20); _ ← set_cb (fun c => c <| outmsgbuf := t |>);
  q ← lift (mqueue_init 20); _ ← set_cb (fun c => c <| inmsgq := q |>);
  '(_, t) ← lift (htbl_init 20 0); _ ← set_cb (fun c => c <| members := t |>);
  q ← lift (mqueue_init 0); _ ← set_cb (fun c => c <| membersq := q |>);
  let nbufs := if nbufs <? 20 then 20 else nbufs in
  _ ← for_m 0 nbufs (fun _ => msg ← new_msg; release_msg msg);
  _ ← set_cb (fun c => c <| hbeat_rate := clamp_rate hb_rate_sec |>
        <| msg_per_sec := f_of_int 0 |> <| msg_this_sec := f_of_int 0 |> <| hb_ack := ack |>
        <| hb_seq_p1 := 0 |> <| hb_seq_p2 := 0 |> <| hb_seq_p3 := 0 |>);
  _ ← set_net (fun n => n <| ipc_svr_sock := 0 |> <| ipc_cli_sock := 0 |> <| ipc_port := 0 |>
        <| mcast_sock := 0 |> <| mcast_port := 0 |> <| discard_size := 0 |>);
  match hname with
  | None => mret (-1)
  | Some name =>
      _ ← set_cb (fun c => c <| host := name |>);
      a ← lift (match addr with Some a => Ok a | None => Fault NullDeref end);
      _ ← set_cb (fun c => c <| id := a |>);
      m ← lift (rmcast_member_init name a rnd);
      _ ← modify (fun s => s <| self := m |>);
      _ ← set_net (fun n => n <| mcast_interface := INADDR_ANY |>);
      init_ipc_sockets k
  end.

(** [iface]: the address [inet_pton] found in [interface], if there was one.
    The interface is stored before the test of [active], and the result of
    [init_mcast_socket] is overwritten. *)
Definition rmcast_join_on (grp : cstring) (prt : Z) (iface : option Z) (k : join_calls) : M Z :=
  _ ← set_net (fun n => n <| mcast_interface := default INADDR_ANY iface |>);
  a ← gets (fun s => active (cb s));
  if truthy a then mret (-1)
  else
    _ ← init_mcast_socket k;
    if j_ttl k <? 0 then mret (-1)
    else
      _ ← set_net (fun n => n <| group := grp |> <| port := prt |> <| mcast_addr := j_inet_addr k |>);
      if j_add k <? 0 then mret (-1)
      else
        _ ← set_cb (fun c => c <| active := 1 |>);
        mret (j_thread k).

Definition rmcast_join (grp : cstring) (prt : Z) (k : join_calls) : M Z :=
  rmcast_join_on grp prt None k.

(** ** Leaving *)

(** [for(...) if(htbl_remove(outmsgbuf, keys[itr], &msg)) release_msg(msg)]: the
    array of [int] is read as an array of [unsigned long]. *)
Definition drop_out (keys : list Z) (cnt : Z) : M unit :=
  for_m 0 cnt (fun itr =>
    k ← lift (arr_get keys (2 * itr));
    t ← gets (fun s => outmsgbuf (cb s));
    '(r, d, t) ← lift (htbl_remove t k);
    _ ← set_cb (fun c => c <| outmsgbuf := t |>);
    if truthy r then release_msg (default NULL d) else mret tt).

(** [while((msg=syncqueue_deq(inmsgq))!=NULL) release_msg(msg)] *)
Fixpoint drain_in (fuel : nat) : M unit :=
  q ← gets (fun s => inmsgq (cb s));
  '(msg, q) ← lift (mqueue_remove q);
  _ ← set_cb (fun c => c <| inmsgq := q |>);
  if truthy msg then
    match fuel with
    | O => lift (Fault Diverges)
    | S fuel => _ ← release_msg msg; drain_in fuel
    end
  else mret tt.

(** The members: [keys] has room for as many of them as there were messages in
    [outmsgbuf]. *)
Definition drop_members (keys : list Z) (nkeys : Z) : M unit :=
  t ← gets (fun s => members (cb s));
  let keys := if nkeys <? htbl_count t then replicate (Z.to_nat (2 * nkeys)) fresh_int else keys in
  '(keys, cnt) ← lift (htbl_enum_int_keys t keys nkeys);
  for_m 0 cnt (fun itr =>
    k ← lift (arr_get keys (2 * itr));
    t ← gets (fun s => members (cb s));
    '(r, d, t) ← lift (htbl_remove t k);
    _ ← set_cb (fun c => c <| members := t |>);
    if truthy r then
      _ ← drop_unseq (default NULL d);
      rmcast_member_free (default NULL d)
    else mret tt).

Definition rmcast_leave : M unit :=
  _ ← set_cb (fun c => c <| active := 0 |>);
  t ← gets (fun s => outmsgbuf (cb s));
  let nkeys := htbl_count t in
  '(keys, cnt) ← lift (htbl_enum_int_keys t (replicate (Z.to_nat (2 * nkeys)) 0) nkeys);
  _ ← drop_out keys cnt;
  q ← gets (fun s => inmsgq (cb s));
  _ ← drain_in (Z.to_nat (mqueue_size q));
  _ ← drop_members keys nkeys;
  _ ← set_cb (fun c => c <| hb_seq_p1 := 0 |> <| hb_seq_p2 := 0 |> <| hb_seq_p3 := 0 |>
                         <| oldest_seq := 0 |>);
  set_self (fun m => m <| sequence := 0 |> <| sequence_sent := 0 |> <| sequence_rcvd := 0 |>
                       <| sequence_sync := 99999999 |> <| lost := 0 |>).

(** [while((msg = mqueue_remove(bufmsgq))!=NULL) clear_msg(msg)] *)
Fixpoint clear_pool (fuel : nat) : M unit :=
  q ← gets (fun s => bufmsgq (cb s));
  '(msg, q) ← lift (mqueue_remove q);
  _ ← set_cb (fun c => c <| bufmsgq := q |>);
  if truthy msg then
    match fuel with
    | O => lift (Fault Diverges)
    | S fuel => _ ← clear_msg msg; clear_pool fuel
    end
  else mret tt.

(** After the daemon's thread has ended ([pthread_join]).  The host name and
    [self], which are freed too, are not cells of the heap. *)
Definition rmcast_close : M Z :=
  a ← gets (fun s => active (cb s));
  _ ← (if truthy a then rmcast_leave else mret tt);
  q ← gets (fun s => bufmsgq (cb s));
  _ ← clear_pool (Z.to_nat (mqueue_size q));
  q ← gets (fun s => bufmsgq (cb s)); _ ← lift (mqueue_free q);
  t ← gets (fun s => outmsgbuf (cb s)); _ ← lift (htbl_free t);
  q ← gets (fun s => inmsgq (cb s)); _ ← lift (mqueue_free q);
  t ← gets (fun s => members (cb s)); _ ← lift (htbl_free t);
  mret 0.

(** ** Sending *)

(** The bytes an application writes to the ipc socket; [o] is what was written
    before. *)
Definition rmcast_send (s : rmc) (o : list Z) (data : list Z) : Z * list Z :=
  if truthy (active (cb s)) then
    let len := le_encode 4 (Z.of_nat (length data)) in
    let r := send_ret o len in
    let o := o ++ take (Z.to_nat r) len in
    if r <? 0 then (-1, o)
    else
      let r := send_ret o data in
      (r, o ++ take (Z.to_nat r) data)
  else (-1, o).
End Api.

(** ** Receiving *)

Class Reader := {
  (** how much of the available bytes a [recv] of at most [n] bytes takes; -1
      for an error *)
  recv_ret : list Z → Z → Z
}.

Section Recv.
Context `{Fresh} `{Reader}.

(** [recv] of at most [n] bytes: its result, the bytes and what is left. *)
Definition recv (stream : list Z) (n : Z) : Z * list Z * list Z :=
  let k := recv_ret stream n in (k, take (Z.to_nat k) stream, drop (Z.to_nat k) stream).

Record received := Received {
  r_ret : Z;
  r_data : list Z;            (* what was stored in the caller's buffer *)
  r_from : list Z;            (* [*from] *)
  r_stream : list Z           (* what is left on the socket *)
}.

Definition SIZEOF_METADATA : Z := 20.

(** [sel]: what [select] returned; [len]: the size of the caller's buffer. *)
Definition rmcast_timed_recvfrom (act sel len : Z) (stream : list Z) : received :=
  if truthy act then
    if 0 <? sel then
      let '(k, meta, stream) := recv stream SIZEOF_METADATA in
      if k <? 0 then Received (-1) [] [] stream
      else
        let meta := meta ++ drop (length meta) (fresh_bytes 20) in
        let nbytes := i32 (le_decode (take 4 meta)) in
        let from := drop 4 meta in
        if nbytes <=? len then
          let '(k, data, stream) := recv stream (u64 nbytes) in
          Received k data from stream
        else
          let '(k, data, stream) := recv stream len in
          if k <? 0 then Received k data from stream
          else
            let '(_, _, stream) := recv stream (nbytes - len) in
            Received k data from stream
    else Received 0 [] [] stream
  else Received (-1) [] [] stream.

(** The sender is not stored when [from] is [NULL]. *)
Definition rmcast_timed_recv (act sel len : Z) (stream : list Z) : received :=
  let r := rmcast_timed_recvfrom act sel len stream in
  Received (r_ret r) (r_data r) [] (r_stream r).

(** With a timeout of 0 [select] waits for as long as it takes. *)
Definition rmcast_recv (act sel len : Z) (stream : list Z) : received :=
  rmcast_timed_recv act sel len stream.

(** The daemon's end of the socket [rmcast_send] writes to: the two calls of
    [recv] that make an [ipc_event], or none when the first returns nothing.
    [prev] is what [ipc_read] held before: a short [recv] overwrites a part of
    it. *)
Definition ipc_recv (prev : Z) (stream : list Z) : option ipc_event * list Z :=
  let '(ret, len, stream) := recv stream 4 in
  if 0 <? ret then
    let n := i32 (le_decode (len ++ drop (length len) (le_encode 4 prev))) in
    let '(ret, data, stream) := recv stream (u64 n) in
    (Some (IpcEvent n (if ret <? 0 then None else Some data)), stream)
  else (None, stream).
End Recv.
