(* ===== verification/RmcastPool.v ===== *)
(** * The daemon: its pool of messages and the steps of the monad

    [pool_inv]: the messages of [bufmsgq] are allocated, distinct and large
    enough.  [alloc_msg] then hands out a message that nobody else holds.  The
    rest are the rules by which a handler is run. *)

From S2P Require Import Prelude StateMonad Machine Heap Pool Hashtable HashtableRepr HashtableProofs Mqueue.
From S2P Require Import MqueueRepr MqueueProofs Interfaces Wire RmcastState Rmcast.

(** ** Running a computation *)

Section Run.
Context {A B : Type}.
Implicit Types (s : rmc) (k : A → M B).

Lemma bind_rd p (f : list Z → res A) k s x a :
  heap_wf (msgs s) → cells (msgs s) !! p = Some x → f (m_buf x) = Ok a → (rd p f ≫= k) s = k a s.
Proof.
  intros Hw Hp E. apply bind_run. unfold rd, load_msg. unfold mbind, M_bind.
  rewrite (h_load_Ok _ _ _ Hw Hp). cbn. by rewrite E.
Qed.
End Run.

Section RunUnit.
Context {B : Type}.
Implicit Types (s : rmc) (k : unit → M B).

Lemma bind_set_cb f k s : (set_cb f ≫= k) s = k tt (s <| cb := f (cb s) |>).
Proof. done. Qed.
Lemma bind_set_self f k s : (set_self f ≫= k) s = k tt (s <| self := f (self s) |>).
Proof. done. Qed.

(** The state after a write to the buffer of message [p], which was [x]. *)
Definition put_buf s (p : Z) (x : rmc_msg) (b : list Z) : rmc :=
  s <| msgs := h_set (msgs s) p (x <| m_buf := b |>) |>.

Lemma wr_run s p x f b :
  heap_wf (msgs s) → cells (msgs s) !! p = Some x → f (m_buf x) = Ok b →
  wr p f s = Ok (tt, put_buf s p x b).
Proof.
  intros Hw Hp E. unfold wr, load_msg, store_msg, mbind, M_bind.
  rewrite (h_load_Ok _ _ _ Hw Hp). cbn. rewrite E. cbn.
  rewrite h_store_Ok by (try done; by eexists). done.
Qed.

Lemma wr_fault s p x f e :
  heap_wf (msgs s) → cells (msgs s) !! p = Some x → f (m_buf x) = Fault e → wr p f s = Fault e.
Proof.
  intros Hw Hp E. unfold wr, load_msg, mbind, M_bind.
  rewrite (h_load_Ok _ _ _ Hw Hp). cbn. by rewrite E.
Qed.

Lemma put_buf_twice s p x b b' : put_buf (put_buf s p x b) p (x <| m_buf := b |>) b' = put_buf s p x b'.
Proof. unfold put_buf. cbn. by rewrite h_set_twice. Qed.

Lemma bind_wr p f k s x b :
  heap_wf (msgs s) → cells (msgs s) !! p = Some x → f (m_buf x) = Ok b →
  (wr p f ≫= k) s = k tt (put_buf s p x b).
Proof. intros. apply bind_run. by apply wr_run. Qed.

Lemma put_buf_lookup s p x b : cells (msgs (put_buf s p x b)) !! p = Some (x <| m_buf := b |>).
Proof. apply lookup_h_set. Qed.

(** Further steps on a message that was just written. *)
Lemma bind_wr_put p f k s x b b' :
  heap_wf (msgs s) → is_Some (cells (msgs s) !! p) → f b = Ok b' →
  (wr p f ≫= k) (put_buf s p x b) = k tt (put_buf s p x b').
Proof.
  intros Hw Hp E. rewrite <- (put_buf_twice s p x b b').
  apply bind_wr; [by apply heap_wf_set|apply put_buf_lookup|done].
Qed.

Lemma bind_rd_put {A} p (f : list Z → res A) (k : A → M B) s x b a :
  heap_wf (msgs s) → is_Some (cells (msgs s) !! p) → f b = Ok a →
  (rd p f ≫= k) (put_buf s p x b) = k a (put_buf s p x b).
Proof.
  intros Hw Hp E. eapply bind_rd; [by apply heap_wf_set|apply put_buf_lookup|done].
Qed.

Lemma bind_load_msg_put p (k : rmc_msg → M B) s x b :
  heap_wf (msgs s) → is_Some (cells (msgs s) !! p) →
  (load_msg p ≫= k) (put_buf s p x b) = k (x <| m_buf := b |>) (put_buf s p x b).
Proof.
  intros Hw Hp. apply bind_run. unfold load_msg.
  rewrite (h_load_Ok _ p (x <| m_buf := b |>)); [done|by apply heap_wf_set|apply put_buf_lookup].
Qed.

(** Replacing the whole struct by [y]. *)
Lemma bind_store_msg_put p y k s x b :
  heap_wf (msgs s) → is_Some (cells (msgs s) !! p) →
  (store_msg p y ≫= k) (put_buf s p x b) = k tt (put_buf s p y (m_buf y)).
Proof.
  intros Hw Hp. apply bind_run. unfold store_msg.
  rewrite h_store_Ok; [|by apply heap_wf_set|rewrite put_buf_lookup; by eexists].
  unfold put_buf. cbn. rewrite h_set_twice. by destruct y.
Qed.

Lemma bind_load_mem p (k : rmc_member → M B) s x :
  heap_wf (mems s) → cells (mems s) !! p = Some x → (load_mem p ≫= k) s = k x s.
Proof. intros Hw Hp. apply bind_run. unfold load_mem. by rewrite (h_load_Ok _ _ _ Hw Hp). Qed.

Lemma bind_load_msg p (k : rmc_msg → M B) s x :
  heap_wf (msgs s) → cells (msgs s) !! p = Some x → (load_msg p ≫= k) s = k x s.
Proof. intros Hw Hp. apply bind_run. unfold load_msg. by rewrite (h_load_Ok _ _ _ Hw Hp). Qed.

Lemma bind_store_mem p x k s :
  heap_wf (mems s) → is_Some (cells (mems s) !! p) →
  (store_mem p x ≫= k) s = k tt (s <| mems := h_set (mems s) p x |>).
Proof. intros Hw Hp. apply bind_run. unfold store_mem. by rewrite h_store_Ok. Qed.

End RunUnit.

Lemma upd_mem_run p f s x :
  heap_wf (mems s) → cells (mems s) !! p = Some x →
  upd_mem p f s = Ok (tt, s <| mems := h_set (mems s) p (f x) |>).
Proof.
  intros Hw Hp. unfold upd_mem. rewrite (bind_load_mem p _ s x) by done.
  unfold store_mem. by rewrite h_store_Ok by (try done; by eexists).
Qed.

(** ** The pool *)

Section Pool.
Context `{Uninit htbl_entry} `{Uninit mqueue_item} `{Kernel} `{Fresh}.

Lemma bind_sendto_put {B} p n d (k : Z → M B) s x b :
  heap_wf (msgs s) → is_Some (cells (msgs s) !! p) → (n ≤ length b)%nat →
  (sendto p (Z.of_nat n) d ≫= k) (put_buf s p x b) =
    k (sendto_ret (Packet d (slice 0 n b)))
      (put_buf s p x b <| sent := sent s ++ [Packet d (slice 0 n b)] |>).
Proof.
  intros Hw Hp Hn. apply bind_run. unfold sendto.
  rewrite (bind_rd_put p _ _ s x b (slice 0 n b)) by (try done; apply (buf_read_Ok b 0 n); lia).
  done.
Qed.

Context (srep : mqueue_t → list Z → Prop) `{!Stack srep}.

(** A message with room for [cap] bytes. *)
Definition msg_ok (cap : Z) (x : rmc_msg) : Prop :=
  m_size x = Z.of_nat (length (m_buf x)) ∧ cap ≤ m_size x ≤ INT_MAX.

Record pool_inv (cap : Z) (s : rmc) (free : list Z) : Prop := {
  pi_wf : heap_wf (msgs s);
  pi_rep : srep (bufmsgq (cb s)) free;
  pi_nodup : NoDup free;
  pi_ok : ∀ a, a ∈ free → ∃ x, cells (msgs s) !! a = Some x ∧ msg_ok cap x;
  pi_buf : cap ≤ bufsize (cb s) ≤ INT_MAX;
  pi_cap : SIZEOF_HDR ≤ cap
}.

(** Only the pool and the messages differ. *)
Definition same_but_pool (s s' : rmc) : Prop :=
  s' = s <| msgs := msgs s' |> <| cb := cb s <| bufmsgq := bufmsgq (cb s') |> |>.

Lemma same_but_pool_trans s1 s2 s3 :
  same_but_pool s1 s2 → same_but_pool s2 s3 → same_but_pool s1 s3.
Proof. unfold same_but_pool. intros E1 E2. rewrite E2, E1. done. Qed.

Lemma put_buf_same s a x b : same_but_pool s (put_buf s a x b).
Proof. by destruct s as [[] ? ? ? ? ?]. Qed.

Lemma set_version_Ok b v : (1 ≤ length b)%nat →
  ∃ b', set_version b v = Ok b' ∧ length b' = length b.
Proof.
  intros Hl. eexists; split; [apply (set_field_Ok b 0 1); lia|].
  apply splice_length. rewrite le_encode_length. lia.
Qed.

Lemma new_msg_spec s :
  heap_wf (msgs s) → SIZEOF_HDR ≤ bufsize (cb s) ≤ INT_MAX →
  ∃ x, new_msg s = Ok (brk (msgs s), s <| msgs := h_new (msgs s) x |>) ∧
    m_size x = bufsize (cb s) ∧ msg_ok (bufsize (cb s)) x.
Proof.
  intros Hw Hb. unfold SIZEOF_HDR in Hb.
  destruct (set_version_Ok (fresh_bytes (Z.to_nat (bufsize (cb s)))) (version (cb s)))
    as (b' & E & Hl); rewrite fresh_bytes_length in *; [lia|].
  exists (Msg (bufsize (cb s)) fresh_int b'). split; [|split; [done|split; cbn; lia]].
  unfold new_msg. rewrite !bind_gets, bind_modify, bind_gets.
  erewrite bind_run; [|eapply wr_run; [by apply heap_wf_new|apply lookup_h_new|exact E]].
  unfold put_buf, mret, M_ret. cbn. by rewrite h_set_new.
Qed.

(** The pool hands out a message that is in no other use. *)
Lemma alloc_msg_spec cap s free :
  pool_inv cap s free →
  ∃ a s' x, alloc_msg s = Ok (a, s') ∧ same_but_pool s s' ∧ pool_inv cap s' (tail free) ∧
    cells (msgs s') !! a = Some x ∧ msg_ok cap x ∧ (a ∉ tail free) ∧
    (∀ b, is_Some (cells (msgs s) !! b) → cells (msgs s') !! b = cells (msgs s) !! b) ∧
    (∀ b, is_Some (cells (msgs s) !! b) → b ∉ free → b ≠ a).
Proof.
  intros [Hw Hr Hnd Hok Hb Hc]. unfold alloc_msg. rewrite bind_gets.
  destruct (st_remove _ _ Hr) as (q & E & Hr').
  rewrite (bind_lift _ _ _ _ E), bind_set_cb. destruct free as [|a free]; cbn [hd tail] in *.
  - change (truthy NULL) with false. cbn iota.
    destruct (new_msg_spec (s <| cb := cb s <| bufmsgq := q |> |>)) as (x & -> & _ & Hsz & Hlen);
      [done|cbn; lia|]. cbn in *.
    eexists _, _, x. split; [done|]. split; [done|]. split.
    + split; cbn; try done; [by apply heap_wf_new|by intros ? ?%elem_of_nil].
    + cbn. rewrite lookup_h_new. split; [done|]. split; [split; [done|lia]|].
      split; [apply not_elem_of_nil|]. split.
      * intros b Hbs. apply lookup_h_new_ne. by apply heap_wf_fresh.
      * intros b Hbs _. apply not_eq_sym. by apply heap_wf_fresh.
  - destruct (Hok a) as (x & Hx & Hxok); [left|].
    rewrite truthy_true by exact (heap_wf_pos _ _ _ Hw Hx).
    apply NoDup_cons in Hnd as [Hna Hnd].
    eexists a, _, x. split; [done|]. split; [done|]. split.
    + split; cbn; try done. intros b Hbs. apply Hok. by right.
    + cbn. split; [done|]. split; [done|]. split; [done|]. split; [done|].
      intros b _ Hbn ->. apply Hbn. left.
Qed.

Lemma release_msg_spec cap s free a x :
  pool_inv cap s free → cells (msgs s) !! a = Some x → msg_ok cap x → a ∉ free →
  Z.of_nat (length free) < INT_MAX →
  ∃ s', release_msg a s = Ok (tt, s') ∧ same_but_pool s s' ∧ msgs s' = msgs s ∧
    pool_inv cap s' (a :: free).
Proof.
  intros [Hw Hr Hnd Hok Hb Hc] Hx Hxok Hna Hmax. unfold release_msg. rewrite bind_gets.
  destruct (st_add _ _ a Hr Hmax) as (q & E & Hr').
  rewrite (bind_lift _ _ _ _ E). eexists; split; [done|]. split; [done|]. split; [done|].
  split; cbn; try done.
  - by apply NoDup_cons.
  - intros b [->|Hbs]%elem_of_cons; eauto.
Qed.

(** Writing a message that is not in the pool keeps the pool. *)
Lemma pool_inv_put cap s free a x b :
  pool_inv cap s free → is_Some (cells (msgs s) !! a) → a ∉ free →
  pool_inv cap (put_buf s a x b) free.
Proof.
  intros [Hw Hr Hnd Hok Hb Hc] Ha Hna. split; try done; [by apply heap_wf_set|].
  intros c Hcf. destruct (Hok c Hcf) as (y & Hy & Hyok). exists y. split; [|done].
  cbn. rewrite lookup_h_set_ne; [done|]. by intros ->.
Qed.

Lemma pool_inv_ext cap s s' free :
  msgs s' = msgs s → bufmsgq (cb s') = bufmsgq (cb s) → bufsize (cb s') = bufsize (cb s) →
  pool_inv cap s free → pool_inv cap s' free.
Proof. intros E1 E2 E3 [? ? ? ? ? ?]. split; rewrite ?E1, ?E2, ?E3; done. Qed.
End Pool.
