(* ===== verification/RmcastWire.v ===== *)
(** * The daemon: headers of the messages it sends and receives

    [ntoh_hdr] is what the receiving end does to a header in place; [is_data]
    says what a data message looks like on the wire. *)

From S2P Require Import Prelude StateMonad Machine Wire RmcastState Rmcast.

(** The unsigned field of [n] bytes at offset [o]. *)
Definition field (o n : nat) (b : list Z) : Z := le_decode (slice o n b).

Lemma field_splice o n z b :
  (o + n ≤ length b)%nat → field o n (splice o (le_encode n z) b) = z mod 256 ^ Z.of_nat n.
Proof.
  intros Hl. unfold field. rewrite <- (le_encode_length n z) at 1.
  rewrite slice_splice by (rewrite le_encode_length; lia). apply le_decode_encode.
Qed.

Lemma field_splice_ne o n o' bs b :
  (o' + length bs ≤ length b)%nat → (o + n ≤ o' ∨ o' + length bs ≤ o)%nat →
  field o n (splice o' bs b) = field o n b.
Proof. intros. unfold field. by rewrite slice_splice_ne. Qed.

(** What [htons] and [htonl] give fits the fields it is stored in. *)
Lemma htons_fits z : htons z mod 256 ^ Z.of_nat 2 = htons z.
Proof. apply Z.mod_small. exact (htons_range z). Qed.
Lemma htonl_fits z : htonl z mod 256 ^ Z.of_nat 8 = htonl z.
Proof.
  apply Z.mod_small. pose proof (htonl_range z).
  change (256 ^ Z.of_nat 8) with (2 ^ 64). lia.
Qed.

(** Reading inside what was written. *)
Lemma slice_splice_in o n o' bs b :
  (o' + length bs ≤ length b)%nat → (o' ≤ o)%nat → (o + n ≤ o' + length bs)%nat →
  slice o n (splice o' bs b) = slice (o - o') n bs.
Proof.
  intros Hl H1 H2. apply list_eq. intros i. rewrite !lookup_slice. case_decide; [|done].
  rewrite lookup_splice by done. rewrite decide_True by lia. f_equal. lia.
Qed.

Lemma slice_slice o n o' n' (b : list Z) :
  (o + n ≤ n')%nat → slice o n (slice o' n' b) = slice (o' + o) n b.
Proof.
  intros Hl. apply list_eq. intros i. rewrite !lookup_slice. case_decide; [|done].
  rewrite decide_True by lia. f_equal. lia.
Qed.

Lemma slice_split o n k (b : list Z) :
  (k ≤ n)%nat → slice o n b = take k (slice o n b) ++ slice (o + k) (n - k) b.
Proof.
  intros Hk. rewrite <- (take_drop k (slice o n b)) at 1. f_equal.
  unfold slice. by rewrite skipn_firstn_comm, drop_drop.
Qed.

Lemma slice_length o n (b : list Z) : (o + n ≤ length b)%nat → length (slice o n b) = n.
Proof. intros. unfold slice. rewrite length_take, length_drop. lia. Qed.

(** Side conditions about offsets. *)
Ltac wire_lia := rewrite ?splice_length, ?le_encode_length by wire_lia0; lia
with wire_lia0 := rewrite ?splice_length, ?le_encode_length by wire_lia; lia.

(** Evaluates fields of a buffer that was written field by field. *)
Ltac wire :=
  repeat first [ rewrite field_splice by wire_lia
               | rewrite field_splice_ne by wire_lia
               | rewrite slice_splice_ne by wire_lia
               | rewrite splice_length by wire_lia ].

Lemma hdr_Ok b : (20 ≤ length b)%nat →
  hdr_type b = Ok (field 1 1 b) ∧ hdr_length b = Ok (field 2 2 b) ∧
  hdr_sequence b = Ok (field 4 8 b) ∧ hdr_id b = Ok (field 12 8 b).
Proof.
  intros Hl. split; [|split; [|split]];
    [apply (get_field_Ok b 1 1)|apply (get_field_Ok b 2 2)|apply (get_field_Ok b 4 8)|
     apply (get_field_Ok b 12 8)]; lia.
Qed.

Lemma set_hdr_Ok b z : (20 ≤ length b)%nat →
  set_type b z = Ok (splice 1 (le_encode 1 z) b) ∧ set_length b z = Ok (splice 2 (le_encode 2 z) b) ∧
  set_sequence b z = Ok (splice 4 (le_encode 8 z) b) ∧ set_id b z = Ok (splice 12 (le_encode 8 z) b).
Proof.
  intros Hl. split; [|split; [|split]];
    [apply (set_field_Ok b 1 1)|apply (set_field_Ok b 2 2)|apply (set_field_Ok b 4 8)|
     apply (set_field_Ok b 12 8)]; lia.
Qed.

(** The three fields of a received header, converted in place. *)
Definition ntoh_hdr (b : list Z) : list Z :=
  let b1 := splice 2 (le_encode 2 (ntohs (field 2 2 b))) b in
  let b2 := splice 4 (le_encode 8 (ntohl (field 4 8 b))) b1 in
  splice 12 (le_encode 8 (ntohl (field 12 8 b))) b2.

Lemma ntoh_hdr_length b : (20 ≤ length b)%nat → length (ntoh_hdr b) = length b.
Proof. intros. unfold ntoh_hdr. by wire. Qed.

Lemma ntoh_hdr_fields b : (20 ≤ length b)%nat →
  field 1 1 (ntoh_hdr b) = field 1 1 b ∧ field 2 2 (ntoh_hdr b) = ntohs (field 2 2 b) ∧
  field 4 8 (ntoh_hdr b) = ntohl (field 4 8 b) ∧ field 12 8 (ntoh_hdr b) = ntohl (field 12 8 b).
Proof.
  intros Hl. unfold ntoh_hdr, ntohs, ntohl. wire. by rewrite htons_fits, !htonl_fits.
Qed.

Lemma ntoh_hdr_slice o n b : (20 ≤ length b)%nat → (20 ≤ o)%nat →
  slice o n (ntoh_hdr b) = slice o n b.
Proof. intros. unfold ntoh_hdr. by wire. Qed.

(** ** Data messages on the wire *)

Record is_data (d : list Z) (seq i : Z) (p : list Z) : Prop := {
  id_len : length d = (20 + length p)%nat;
  id_type : field 1 1 d = RMCAST_MSG_DATA;
  id_length : field 2 2 d = htons (Z.of_nat (length p));
  id_seq : field 4 8 d = htonl seq;
  id_id : field 12 8 d = htonl i;
  id_payload : slice 20 (length p) d = p
}.

(** The buffer of an outgoing data message. *)
Definition data_buf (b : list Z) (seq i : Z) (p : list Z) : list Z :=
  splice 12 (le_encode 8 (htonl i))
    (splice 4 (le_encode 8 (htonl seq))
       (splice 2 (le_encode 2 (htons (Z.of_nat (length p))))
          (splice 1 (le_encode 1 RMCAST_MSG_DATA) (splice 20 p b)))).

Lemma data_buf_is_data b seq i p :
  (20 + length p ≤ length b)%nat → is_data (slice 0 (20 + length p) (data_buf b seq i p)) seq i p.
Proof.
  intros Hl. unfold data_buf.
  assert (Hf : ∀ o n x, (o + n ≤ 20 + length p)%nat → field o n (slice 0 (20 + length p) x) = field o n x).
  { intros. unfold field. by rewrite slice_slice. }
  constructor; rewrite ?Hf by lia; [|wire..|].
  - rewrite slice_length; [done|]. wire. lia.
  - done.
  - apply htons_fits.
  - apply htonl_fits.
  - apply htonl_fits.
  - rewrite slice_slice by lia. wire. apply slice_splice. lia.
Qed.
