(* ===== verification/RmcastProofs.v ===== *)
(** * The daemon: receiving data messages

    The lemmas behind the contract of file [RmcastSpec]. *)

From S2P Require Import Prelude StateMonad Machine Heap Pool Hashtable HashtableRepr HashtableProofs Mqueue.
From S2P Require Import MqueueRepr MqueueProofs Interfaces Wire RmcastState Rmcast RmcastPool.
From S2P Require Import RmcastWire.

Section Receive.
Context `{Uninit htbl_entry} `{Uninit mqueue_item} `{Kernel} `{Fresh}.
Context (srep : mqueue_t → list Z → Prop) `{!Stack srep}.

(** The buffer [b0] after a datagram was received in it. *)
Definition rcvd_buf (d b0 : list Z) : list Z := ntoh_hdr (splice 0 d b0).

Lemma rcvd_buf_spec d b0 : (20 ≤ length d ≤ length b0)%nat →
  length (rcvd_buf d b0) = length b0 ∧
  hdr_type (rcvd_buf d b0) = Ok (field 1 1 d) ∧
  hdr_length (rcvd_buf d b0) = Ok (ntohs (field 2 2 d)) ∧
  hdr_sequence (rcvd_buf d b0) = Ok (ntohl (field 4 8 d)) ∧
  hdr_id (rcvd_buf d b0) = Ok (ntohl (field 12 8 d)) ∧
  (∀ o n, (20 ≤ o)%nat → (o + n ≤ length d)%nat → slice o n (rcvd_buf d b0) = slice o n d).
Proof.
  intros Hl. unfold rcvd_buf.
  assert (Hs : length (splice 0 d b0) = length b0) by (apply splice_length; lia).
  assert (Hf : ∀ o n, (o + n ≤ length d)%nat → slice o n (splice 0 d b0) = slice o n d).
  { intros o n Ho. rewrite slice_splice_in by lia. by rewrite Nat.sub_0_r. }
  assert (Hn : length (ntoh_hdr (splice 0 d b0)) = length b0) by (rewrite ntoh_hdr_length; lia).
  destruct (ntoh_hdr_fields (splice 0 d b0)) as (E1 & E2 & E3 & E4); [lia|].
  destruct (hdr_Ok (ntoh_hdr (splice 0 d b0))) as (-> & -> & -> & ->); [lia|].
  rewrite E1, E2, E3, E4. unfold field. rewrite !Hf by lia.
  do 5 (split; [done|]). intros o n Ho Hon. rewrite ntoh_hdr_slice by lia. by apply Hf.
Qed.

(** A message [a] of the pool has just been filled with the datagram [d]. *)
Record received_in (cap : Z) (s s1 : rmc) (free : list Z) (a : Z) (d b : list Z) : Prop := {
  ri_same : same_but_pool s s1;
  ri_pool : pool_inv srep cap s1 (tail free);
  ri_msg : ∃ x, cells (msgs s1) !! a = Some (x <| m_buf := b |>) ∧ msg_ok cap (x <| m_buf := b |>);
  ri_notin : a ∉ tail free;
  ri_buf : ∃ b0, b = rcvd_buf d b0 ∧ (20 ≤ length d ≤ length b0)%nat;
  ri_old : ∀ c, is_Some (cells (msgs s) !! c) → c ∉ free →
             c ≠ a ∧ cells (msgs s1) !! c = cells (msgs s) !! c
}.

Lemma msg_ok_buf cap x b : msg_ok cap x → length b = length (m_buf x) → msg_ok cap (x <| m_buf := b |>).
Proof. intros [? ?] E. split; cbn; [by rewrite E|done]. Qed.

(** Converting the header in place. *)
Lemma ntoh_hdr_run {B} s a x b (k : Z → M B) :
  heap_wf (msgs s) → is_Some (cells (msgs s) !! a) → (20 ≤ length b)%nat →
  (l ← rd a hdr_length; _ ← wr a (fun b => set_length b (ntohs l));
   q ← rd a hdr_sequence; _ ← wr a (fun b => set_sequence b (ntohl q));
   i ← rd a hdr_id; _ ← wr a (fun b => set_id b (ntohl i)); k l) (put_buf s a x b) =
  k (field 2 2 b) (put_buf s a x (ntoh_hdr b)).
Proof.
  intros Hw Hm Hl.
  assert (Hh : ∀ c z, length c = length b →
    hdr_length c = Ok (field 2 2 c) ∧ hdr_sequence c = Ok (field 4 8 c) ∧ hdr_id c = Ok (field 12 8 c) ∧
    set_length c z = Ok (splice 2 (le_encode 2 z) c) ∧
    set_sequence c z = Ok (splice 4 (le_encode 8 z) c) ∧ set_id c z = Ok (splice 12 (le_encode 8 z) c)).
  { intros c z Hc. destruct (hdr_Ok c) as (_ & ? & ? & ?); [lia|].
    destruct (set_hdr_Ok c z) as (_ & ? & ? & ?); [lia|]. done. }
  rewrite (bind_rd_put a _ _ _ _ _ (field 2 2 b) Hw Hm) by (by apply Hh).
  rewrite (bind_wr_put a _ _ _ _ _ (splice 2 (le_encode 2 (ntohs (field 2 2 b))) b) Hw Hm)
    by (by apply Hh).
  set (b2 := splice 2 (le_encode 2 (ntohs (field 2 2 b))) b).
  assert (Hl2 : length b2 = length b) by (unfold b2; by wire).
  rewrite (bind_rd_put a _ _ _ _ _ (field 4 8 b2) Hw Hm) by (by apply Hh).
  rewrite (bind_wr_put a _ _ _ _ _ (splice 4 (le_encode 8 (ntohl (field 4 8 b2))) b2) Hw Hm)
    by (by apply Hh).
  set (b3 := splice 4 (le_encode 8 (ntohl (field 4 8 b2))) b2).
  assert (Hl3 : length b3 = length b) by (unfold b3; wire; lia).
  rewrite (bind_rd_put a _ _ _ _ _ (field 12 8 b3) Hw Hm) by (by apply Hh).
  rewrite (bind_wr_put a _ _ _ _ _ (splice 12 (le_encode 8 (ntohl (field 12 8 b3))) b3) Hw Hm)
    by (by apply Hh).
  assert (field 12 8 b3 = field 12 8 b) as -> by (unfold b3, b2; by wire).
  assert (field 4 8 b2 = field 4 8 b) as E4 by (unfold b2; by wire).
  unfold b3. rewrite E4. done.
Qed.

(** A datagram that was received into message [a], just taken from the pool. *)
Lemma received_put cap s s' free a x d :
  same_but_pool s s' → pool_inv srep cap s' (tail free) → cells (msgs s') !! a = Some x →
  msg_ok cap x → a ∉ tail free → (20 ≤ length d ≤ length (m_buf x))%nat →
  (∀ c, is_Some (cells (msgs s) !! c) → c ∉ free → c ≠ a ∧ cells (msgs s') !! c = cells (msgs s) !! c) →
  received_in cap s (put_buf s' a x (rcvd_buf d (m_buf x))) free a d (rcvd_buf d (m_buf x)).
Proof.
  intros Hsame Hp Hx Hok Hna Hl Hold. destruct (rcvd_buf_spec d (m_buf x) Hl) as (Hbl & _). split.
  - eapply same_but_pool_trans; [exact Hsame|apply put_buf_same].
  - apply pool_inv_put; [done|by eexists|done].
  - exists x. cbn. rewrite lookup_h_set. split; [done|]. by apply msg_ok_buf.
  - done.
  - by exists (m_buf x).
  - intros c Hc Hcf. destruct (Hold c Hc Hcf) as [Hne E]. split; [done|]. cbn.
    by rewrite lookup_h_set_ne.
Qed.

(** The common part of all messages: buffer, header, length check. *)
Lemma handle_mcast_spec cap s free now d from :
  pool_inv srep cap s free → 20 ≤ Z.of_nat (length d) ≤ cap → cap < 2 ^ 63 →
  ∃ a s1 b, received_in cap s s1 free a d b ∧
    handle_mcast now (Some (d, from)) s =
      (if Z.of_nat (length d) <? ntohs (field 2 2 d) + SIZEOF_HDR then Ok (true, s1)
       else (_ ← handle_msg now from a; mret false) s1).
Proof.
  intros Hp Hd Hcap.
  destruct (alloc_msg_spec srep _ _ _ Hp)
    as (a & s' & x & E & Hsame & Hp' & Hx & Hxok & Hna & Hold & Hne).
  pose proof Hxok as [Hsz Hlo].
  assert (Hl : (20 ≤ length d ≤ length (m_buf x))%nat) by lia.
  assert (Hw : heap_wf (msgs s')) by apply Hp'.
  exists a, (put_buf s' a x (rcvd_buf d (m_buf x))), (rcvd_buf d (m_buf x)). split.
  { apply received_put; try done. intros c Hc Hcf. split; [by apply Hne|by apply Hold]. }
  unfold handle_mcast. rewrite (bind_run _ _ _ _ _ E).
  rewrite (bind_load_msg a _ _ x) by done. cbv zeta. rewrite (take_ge d) by lia.
  rewrite (bind_wr a _ _ _ x (splice 0 d (m_buf x)) Hw Hx) by (apply (buf_write_Ok (m_buf x) 0 d); lia).
  rewrite (u64_id (Z.of_nat (length d))) by lia.
  destruct (Z.ltb_spec (Z.of_nat (length d)) SIZEOF_HDR) as [|_]; [unfold SIZEOF_HDR in *; lia|].
  rewrite (ntoh_hdr_run s' a x (splice 0 d (m_buf x))); [|done|by eexists|rewrite splice_length; lia].
  assert (field 2 2 (splice 0 d (m_buf x)) = field 2 2 d) as ->.
  { unfold field. by rewrite slice_splice_in by lia. }
  by destruct (_ <? _).
Qed.
(** ** Delivery *)

(** What [send] on a blocking stream socket does: it takes at least one byte,
    and a few bytes it takes whole. *)
Class KernelOk := {
  send_progress o bs : bs ≠ [] → 1 ≤ send_ret o bs ≤ Z.of_nat (length bs);
  send_whole o bs : (length bs ≤ 20)%nat → send_ret o bs = Z.of_nat (length bs)
}.
Context `{!KernelOk}.

Lemma ipc_send_whole bs s : (length bs ≤ 20)%nat →
  ipc_send bs s = Ok (Z.of_nat (length bs), s <| ipc_out := ipc_out s ++ bs |>).
Proof.
  intros Hl. unfold ipc_send. rewrite bind_gets, bind_modify, send_whole by done.
  unfold mret, M_ret. by rewrite Nat2Z.id, take_ge by lia.
Qed.

(** However [send] splits it, the payload is written whole and in order. *)
Lemma ipc_send_all_spec a x fuel : ∀ s (n r : nat),
  heap_wf (msgs s) → cells (msgs s) !! a = Some x →
  (20 + n ≤ length (m_buf x))%nat → (r ≤ n)%nat → (n - r ≤ fuel)%nat →
  ipc_send_all fuel a (Z.of_nat n) (Z.of_nat r) s =
    Ok (tt, s <| ipc_out := ipc_out s ++ slice (20 + r) (n - r) (m_buf x) |>).
Proof.
  induction fuel as [|fuel IH]; intros s n r Hw Hx Hl Hr Hf; cbn [ipc_send_all].
  - assert (r = n) as -> by lia. rewrite (proj2 (Z.ltb_ge _ _)) by lia.
    rewrite Nat.sub_diag. unfold slice. rewrite take_0, app_nil_r. by destruct s.
  - destruct (Z.ltb_spec (Z.of_nat r) (Z.of_nat n)) as [Hlt|Hge]; cycle 1.
    { assert (r = n) as -> by lia. rewrite Nat.sub_diag. unfold slice.
      rewrite take_0, app_nil_r. by destruct s. }
    set (bs := slice (20 + r) (n - r) (m_buf x)).
    assert (Hbs : length bs = (n - r)%nat) by (apply slice_length; lia).
    rewrite (bind_rd a _ _ s x bs Hw Hx); cycle 1.
    { replace (SIZEOF_HDR + Z.of_nat r) with (Z.of_nat (20 + r)) by (unfold SIZEOF_HDR; lia).
      replace (Z.of_nat n - Z.of_nat r) with (Z.of_nat (n - r)) by lia.
      apply buf_read_Ok. lia. }
    unfold ipc_send at 1.
    destruct (send_progress (ipc_out s) bs) as [Hk1 Hk2]; [intros E; rewrite E in Hbs; cbn in Hbs; lia|].
    set (k := send_ret (ipc_out s) bs) in *.
    erewrite bind_run; [|rewrite bind_gets, bind_modify; reflexivity]. fold k.
    replace (Z.of_nat r + k) with (Z.of_nat (r + Z.to_nat k)) by lia.
    rewrite IH; [|done|done|done|lia|lia]. cbn. rewrite <- app_assoc.
    replace (20 + (r + Z.to_nat k))%nat with (20 + r + Z.to_nat k)%nat by lia.
    replace (n - (r + Z.to_nat k))%nat with (n - r - Z.to_nat k)%nat by lia.
    unfold bs. rewrite <- slice_split by lia. done.
Qed.

Context (mrep urep : htbl_t → gmap hkey Z → Prop) `{!PutTable mrep} `{!Table urep}.

(** Member [m], at address [p], is registered under the id [i]; [mu] are the
    messages it has out of sequence. *)
Record registered (s : rmc) (i p : Z) (m : rmc_member) (mu : gmap hkey Z) : Prop := {
  rg_wf : heap_wf (mems s);
  rg_members : ∃ mm, mrep (members (cb s)) mm ∧ mm !! KInt (i32 i) = Some p;
  rg_member : cells (mems s) !! p = Some m;
  rg_unseq : urep (unseq_msgs m) mu
}.

Lemma registered_same s s' i p m mu :
  same_but_pool s s' → registered s i p m mu → registered s' i p m mu.
Proof. intros -> [? ? ? ?]. by split. Qed.

Lemma members_get_found {B} s i p m mu (k : option Z → M B) :
  registered s i p m mu → (members_get i ≫= k) s = k (Some p) s.
Proof.
  intros [_ (mm & Hm & Hp) _ _]. apply bind_run. unfold members_get. rewrite bind_gets.
  erewrite bind_lift by exact (pt_get _ _ _ Hm). unfold Spec.get. by rewrite Hp.
Qed.

Lemma members_get_none {B} s mm i (k : option Z → M B) :
  mrep (members (cb s)) mm → mm !! KInt (i32 i) = None → (members_get i ≫= k) s = k None s.
Proof.
  intros Hm Hp. apply bind_run. unfold members_get. rewrite bind_gets.
  erewrite bind_lift by exact (pt_get _ _ _ Hm). unfold Spec.get. by rewrite Hp.
Qed.

(** With nothing cached under the number just delivered, the loop ends. *)
Lemma release_unseq_none fuel s p m mu :
  heap_wf (mems s) → cells (mems s) !! p = Some m → urep (unseq_msgs m) mu →
  mu !! KInt (i32 (sequence m)) = None →
  ∃ t, urep t mu ∧ release_unseq fuel p s =
    Ok (tt, s <| mems := h_set (mems s) p (m <| unseq_msgs := t |>) |>).
Proof.
  intros Hw Hm Hu Hn.
  destruct (tb_remove _ _ (i32 (sequence m)) Hu) as (t & E & Ht). unfold Spec.remove in *.
  rewrite Hn in *. cbn in E, Ht. exists t. split; [done|].
  destruct fuel; cbn [release_unseq]; rewrite (bind_load_mem p _ s m) by done;
    rewrite (bind_lift _ _ _ _ E), (bind_store_mem p _ _ s) by (try done; by eexists); done.
Qed.
(** ** The data handler, branch by branch *)

(** The header fields of the message at [a]. *)
Record msg_at (s : rmc) (a : Z) (b : list Z) (i q : Z) (n : nat) : Prop := {
  ma_wf : heap_wf (msgs s);
  ma_msg : ∃ x, cells (msgs s) !! a = Some x ∧ m_buf x = b;
  ma_id : hdr_id b = Ok i;
  ma_seq : hdr_sequence b = Ok q;
  ma_len : hdr_length b = Ok (Z.of_nat n);
  ma_room : (20 + n ≤ length b)%nat
}.

Lemma handle_data_in_order s a b i q n from p m mu :
  msg_at s a b i q n → registered s i p m mu → (length from ≤ 16)%nat →
  u64 (sequence m + 1) = q → mu !! KInt (i32 q) = None →
  ∃ t, urep t mu ∧
    handle_data from a s =
      Ok (tt, s <| ipc_out := ipc_out s ++ metadata (Z.of_nat n) from ++ slice 20 n b |>
                <| mems := h_set (mems s) p (m <| sequence := q |> <| unseq_msgs := t |>) |>).
Proof.
  intros [Hw (x & Hx & <-) Hi Hs Hn Hroom] Hr Hfrom Hq Hmu.
  unfold handle_data. rewrite (bind_rd a _ _ s x i Hw Hx Hi).
  rewrite (members_get_found _ _ _ _ _ _ Hr). destruct Hr as [Hmw _ Hm Hu].
  rewrite (bind_load_mem p _ s m) by done. rewrite (bind_rd a _ _ s x q Hw Hx Hs).
  rewrite Hq, Z.eqb_refl. cbn [negb].
  rewrite (bind_rd a _ _ s x (Z.of_nat n) Hw Hx Hn).
  assert (Hml : (length (metadata (Z.of_nat n) from) ≤ 20)%nat).
  { unfold metadata. rewrite length_app, le_encode_length. lia. }
  rewrite (bind_run _ _ _ _ _ (ipc_send_whole _ _ Hml)). unfold ipc_payload.
  erewrite bind_run; cycle 1.
  { apply (ipc_send_all_spec a x _ (s <| ipc_out := ipc_out s ++ metadata (Z.of_nat n) from |>) n 0);
      [done|done|done|lia|lia]. }
  erewrite bind_run by (apply upd_mem_run; [exact Hmw|exact Hm]).
  cbv beta. rewrite Hq.
  rewrite (bind_load_mem p _ _ (m <| sequence := q |>)); cycle 1.
  { cbn. apply heap_wf_set; [done|by eexists]. }
  { apply lookup_h_set. }
  edestruct release_unseq_none as (t & Ht & ->);
    [|apply lookup_h_set|exact Hu|exact Hmu|].
  { cbn. apply heap_wf_set; [done|by eexists]. }
  exists t. split; [done|]. cbn. rewrite h_set_twice, Nat.sub_0_r, <- app_assoc. done.
Qed.

(** A number that was already received: the message goes back to the pool. *)
Lemma handle_data_old s a b i q n from p m mu :
  msg_at s a b i q n → registered s i p m mu →
  u64 (sequence m + 1) ≠ q → q ≤ sequence m → handle_data from a s = release_msg a s.
Proof.
  intros [Hw (x & Hx & <-) Hi Hs Hn Hroom] Hr Hq Hle.
  unfold handle_data. rewrite (bind_rd a _ _ s x i Hw Hx Hi).
  rewrite (members_get_found _ _ _ _ _ _ Hr). destruct Hr as [Hmw _ Hm Hu].
  rewrite (bind_load_mem p _ s m) by done. rewrite (bind_rd a _ _ s x q Hw Hx Hs).
  rewrite (proj2 (Z.eqb_neq _ _) Hq). cbn [negb].
  by rewrite (proj2 (Z.ltb_ge _ _) Hle), bind_ret.
Qed.

Lemma handle_data_unknown s a b i q n from mm :
  msg_at s a b i q n → mrep (members (cb s)) mm → mm !! KInt (i32 i) = None →
  handle_data from a s = release_msg a s.
Proof.
  intros [Hw (x & Hx & <-) Hi Hs Hn Hroom] Hm Hn'.
  unfold handle_data. rewrite (bind_rd a _ _ s x i Hw Hx Hi).
  by rewrite (members_get_none _ _ _ _ Hm Hn').
Qed.
End Receive.
