(* ===== verification/Gap.v ===== *)
(** * Counting through a gap

    Both versions of [send_nack] count an [int] up to an [unsigned long] and list
    the numbers that are not cached.  The arithmetic of that loop. *)

From S2P Require Import Prelude Heap Pool Hashtable HashtableRepr.

(** The ways the loop ends. *)
Definition overrun (f : fault) : Prop := f = OutOfBounds ∨ f = SignedOverflow.

Lemma add_int_cases a b : add_int a b = Ok (a + b) ∨ add_int a b = Fault SignedOverflow.
Proof. unfold add_int, int_check. case_decide; auto. Qed.

(** The cached numbers from [itr] on. *)
Definition cached_from (ks : list Z) (itr : Z) : nat := length (filter (fun z => itr ≤ z) ks).

Lemma cached_from_le ks itr : (cached_from ks (itr + 1) ≤ cached_from ks itr)%nat.
Proof.
  unfold cached_from. induction ks as [|z ks IH]; [done|].
  rewrite !filter_cons. repeat case_decide; cbn; lia.
Qed.

Lemma cached_from_lt ks itr :
  itr ∈ ks → (cached_from ks (itr + 1) < cached_from ks itr)%nat.
Proof.
  induction ks as [|z ks IH]; [by intros ?%elem_of_nil|]. unfold cached_from in *.
  pose proof (cached_from_le ks itr) as Hle. unfold cached_from in Hle.
  rewrite !filter_cons. intros [->|Hin]%elem_of_cons.
  - rewrite decide_False, decide_True by lia. cbn. lia.
  - specialize (IH Hin). repeat case_decide; cbn; lia.
Qed.

(** [itr] and [mem->sequence - 1] are not equal for the next 2^32 - 3 turns. *)
Lemma itr_not_seq2 seq itr j :
  itr mod 2 ^ 32 = (seq + 1 + j) mod 2 ^ 32 → 0 ≤ j < 2 ^ 32 - 2 → u64 itr ≠ u64 (seq - 1).
Proof.
  intros Hi Hj E. unfold u64 in E.
  apply (f_equal (fun z => z mod 2 ^ 32)) in E.
  rewrite !Z.mod_mod_divide in E by (exists (2 ^ 32); reflexivity).
  rewrite Hi in E. assert (Hd : ((seq + 1 + j) - (seq - 1)) mod 2 ^ 32 = 0).
  { rewrite Zminus_mod, E, Z.sub_diag. done. }
  replace (seq + 1 + j - (seq - 1)) with (j + 2) in Hd by lia.
  rewrite Z.mod_small in Hd by lia. lia.
Qed.

Lemma i32_mod z : i32 z mod 2 ^ 32 = z mod 2 ^ 32.
Proof.
  unfold i32. rewrite Zminus_mod_idemp_l. f_equal. lia.
Qed.

(** The integer keys of a table. *)
Definition int_keys (mu : gmap hkey Z) : list Z :=
  omap (fun kd => match kd.1 with KInt z => Some z | KStr _ => None end) (map_to_list mu).

Lemma int_keys_spec mu z d : mu !! KInt z = Some d → z ∈ int_keys mu.
Proof.
  intros E. apply list_elem_of_omap. exists (KInt z, d). split; [|done].
  by apply elem_of_map_to_list.
Qed.

Lemma int_keys_length mu itr : (cached_from (int_keys mu) itr ≤ size mu)%nat.
Proof.
  unfold cached_from. etransitivity; [apply length_filter|]. unfold int_keys.
  rewrite <- length_map_to_list. generalize (map_to_list mu). intros l.
  induction l as [|[[z|?] d] l IH]; cbn; lia.
Qed.

(** ** The numbers that are missing *)

(** Those of the [n] numbers from [lo] on that are not cached. *)
Definition missing (mu : gmap hkey Z) (lo : Z) (n : nat) : list Z :=
  filter (fun i => mu !! KInt i = None) (seqZ lo (Z.of_nat n)).

Lemma missing_S mu lo n :
  missing mu lo (S n) =
    match mu !! KInt lo with None => lo :: missing mu (lo + 1) n | Some _ => missing mu (lo + 1) n end.
Proof.
  unfold missing. rewrite seqZ_cons by lia. rewrite filter_cons.
  replace (Z.pred (Z.of_nat (S n))) with (Z.of_nat n) by lia.
  replace (Z.succ lo) with (lo + 1) by lia.
  case_decide as E; [by rewrite E|]. by destruct (mu !! KInt lo).
Qed.

Lemma elem_of_missing mu lo n i :
  i ∈ missing mu lo n ↔ lo ≤ i < lo + Z.of_nat n ∧ mu !! KInt i = None.
Proof. unfold missing. rewrite list_elem_of_filter, elem_of_seqZ. tauto. Qed.

(** Every number is missing or one of the cached ones. *)
Lemma missing_length mu n : ∀ lo,
  (n ≤ length (missing mu lo n) + cached_from (int_keys mu) lo)%nat.
Proof.
  induction n as [|n IH]; intros lo; [lia|]. rewrite missing_S. specialize (IH (lo + 1)).
  destruct (mu !! KInt lo) as [d|] eqn:E.
  - pose proof (cached_from_lt (int_keys mu) lo (int_keys_spec _ _ _ E)). lia.
  - pose proof (cached_from_le (int_keys mu) lo). cbn. lia.
Qed.
