(* ===== verification/RmcastNack.v ===== *)
(** * The daemon: negative acknowledgements

    The loop of [send_nack] runs from [mem->sequence + 1] upwards to
    [mem->sequence - 1]: it lists every number that is not cached until it has
    written past the end of the message or overflowed its counter.  [send_nack]
    never returns. *)

From S2P Require Import Prelude StateMonad Machine Heap Pool Hashtable HashtableRepr HashtableProofs Mqueue.
From S2P Require Import MqueueRepr MqueueProofs Interfaces Wire RmcastState Rmcast RmcastPool.
From S2P Require Import Gap RmcastWire RmcastProofs.

Section Nack.
Context `{Uninit htbl_entry} `{Uninit mqueue_item} `{Kernel} `{Fresh}.
Context (urep : htbl_t → gmap hkey Z → Prop) `{!PutTable urep}.

(** Member [p] has the cached messages [mu]; message [a] has room for [len]
    bytes. *)
Record nack_ready (s : rmc) (p a : Z) (mu : gmap hkey Z) (len : nat) : Prop := {
  nr_mems : heap_wf (mems s);
  nr_msgs : heap_wf (msgs s);
  nr_mem : ∃ m, cells (mems s) !! p = Some m ∧ urep (unseq_msgs m) mu;
  nr_msg : ∃ x, cells (msgs s) !! a = Some x ∧ length (m_buf x) = len
}.

(** The part of a turn that lists a number. *)
Lemma nack_write_ready s p a mu len x b :
  nack_ready s p a mu len → cells (msgs s) !! a = Some x → length b = len →
  ∃ m, cells (mems s) !! p = Some m ∧
    nack_ready (put_buf s a x b <| mems := h_set (mems s) p (m <| lost := lost m + 1 |>) |>
                  <| self := self s <| lost := lost (self s) + 1 |> |>) p a mu len.
Proof.
  intros [Hmw Hw (m & Hm & Hu) _] Hx Hb. exists m. split; [done|]. split; cbn.
  - apply heap_wf_set; [done|by eexists].
  - apply heap_wf_set; [done|by eexists].
  - exists (m <| lost := lost m + 1 |>). by rewrite lookup_h_set.
  - exists (x <| m_buf := b |>). by rewrite lookup_h_set.
Qed.

Lemma nack_loop_overruns p a mu len ks seq n :
  (∀ z d, mu !! KInt z = Some d → z ∈ ks) →
  ∀ fuel s itr cnt j,
  nack_ready s p a mu len → 0 ≤ cnt →
  itr mod 2 ^ 32 = (seq + 1 + j) mod 2 ^ 32 → 0 ≤ j → j + Z.of_nat n < 2 ^ 32 - 2 →
  (len - Z.to_nat cnt + cached_from ks itr ≤ n)%nat → (n < fuel)%nat →
  ∃ f, nack_loop fuel p a (u64 (seq - 1)) itr cnt s = Fault f ∧ overrun f.
Proof.
  intros Hks. induction n as [n IH] using lt_wf_ind.
  intros fuel s itr cnt j Hr Hc Hi Hj0 Hj Hn Hf.
  destruct fuel as [|fuel]; [lia|]. cbn [nack_loop].
  rewrite (proj2 (Z.eqb_neq _ _) (itr_not_seq2 seq itr j Hi ltac:(lia))).
  pose proof Hr as [Hmw Hw (m & Hm & Hu) (x & Hx & Hxl)].
  rewrite (bind_load_mem p _ s m) by done. rewrite (bind_lift _ _ _ _ (pt_get _ _ itr Hu)).
  unfold Spec.get. destruct (mu !! KInt itr) as [d|] eqn:Emu.
  - change (1 =? 0) with false. cbn iota. rewrite bind_ret.
    destruct (add_int_cases itr 1) as [E|E]; cycle 1.
    { unfold mbind, M_bind, lift. rewrite E. eexists; split; [done|by right]. }
    rewrite (bind_lift _ _ _ _ E).
    pose proof (cached_from_lt ks itr (Hks _ _ Emu)).
    destruct n as [|n]; [lia|].
    apply (IH n ltac:(lia) fuel s (itr + 1) cnt (j + 1)); try done; try lia.
    rewrite Z.add_assoc, Zplus_mod, Hi, <- Zplus_mod. done.
  - change (0 =? 0) with true. cbn iota.
    destruct (set_field_cases (m_buf x) (SIZEOF_HDR + SIZEOF_LONG * cnt) 8 (htonl itr))
      as [(b & Eb & Hbl & Hroom)|Eb]; [unfold SIZEOF_HDR, SIZEOF_LONG; lia| |]; cycle 1.
    { eexists; split; [|by left]. apply bind_fault, bind_fault. by eapply wr_fault. }
    unfold SIZEOF_HDR, SIZEOF_LONG in Hroom.
    destruct (add_int_cases cnt 1) as [E|E]; cycle 1.
    { eexists; split; [|by right]. apply bind_fault. rewrite (bind_wr a _ _ s x b) by done.
      apply bind_fault. unfold lift. by rewrite E. }
    destruct (nack_write_ready s p a mu len x b Hr Hx) as (m' & Hm' & Hr'); [lia|].
    rewrite Hm in Hm'. injection Hm' as <-.
    erewrite bind_run; cycle 1.
    { rewrite (bind_wr a _ _ s x b), (bind_lift _ _ _ _ E) by done.
      erewrite bind_run by (by apply upd_mem_run). rewrite bind_set_self. reflexivity. }
    destruct (add_int_cases itr 1) as [E'|E']; cycle 1.
    { eexists; split; [|by right]. apply bind_fault. unfold lift. by rewrite E'. }
    rewrite (bind_lift _ _ _ _ E'). pose proof (cached_from_le ks itr).
    destruct n as [|n]; [lia|].
    apply (IH n ltac:(lia) fuel _ (itr + 1) (cnt + 1) (j + 1)); try done; try lia.
    rewrite Z.add_assoc, Zplus_mod, Hi, <- Zplus_mod. done.
Qed.

(** [send_nack] does not return, whatever is cached. *)
Lemma send_nack_overruns s p a mu len :
  nack_ready s p a mu len → (20 ≤ len)%nat → Z.of_nat len + Z.of_nat (size mu) < 2 ^ 32 - 2 →
  ∃ f, send_nack p a s = Fault f ∧ overrun f.
Proof.
  intros [Hmw Hw (m & Hm & Hu) (x & Hx & Hl)] Hlen Hsz. unfold send_nack.
  rewrite (bind_load_mem p _ s m) by done. cbv zeta.
  destruct (set_hdr_Ok (m_buf x) RMCAST_MSG_NACK) as (E1 & _); [lia|].
  rewrite (bind_wr a (fun b => set_type b RMCAST_MSG_NACK) _ s x _ Hw Hx E1).
  set (b1 := splice 1 _ (m_buf x)).
  assert (Hl1 : length b1 = len) by (unfold b1; wire; lia).
  assert (Ha : is_Some (cells (msgs s) !! a)) by (by eexists).
  destruct (set_hdr_Ok b1 (htonl (sequence m))) as (_ & _ & E2 & _); [lia|].
  rewrite (bind_wr_put a (fun b => set_sequence b (htonl (sequence m))) _ _ _ _ _ Hw Ha E2). set (b2 := splice 4 _ b1).
  assert (Hl2 : length b2 = len) by (unfold b2; wire; lia).
  destruct (set_hdr_Ok b2 (htonl (mem_id m))) as (_ & _ & _ & E3); [lia|].
  rewrite (bind_wr_put a (fun b => set_id b (htonl (mem_id m))) _ _ _ _ _ Hw Ha E3). set (b3 := splice 12 _ b2).
  assert (Hl3 : length b3 = len) by (unfold b3; wire; lia).
  rewrite (bind_load_msg a _ _ (x <| m_buf := b3 |>)); [|by apply heap_wf_set|apply put_buf_lookup].
  pose proof (int_keys_length mu (i32 (sequence m + 1))).
  edestruct (nack_loop_overruns p a mu len (int_keys mu) (sequence m)
    (len - 1 + cached_from (int_keys mu) (i32 (sequence m + 1)))%nat) as (f & E & Hf);
    [intros; by eapply int_keys_spec|..|exists f; split; [apply bind_fault, E|done]].
  - split; [done|by apply heap_wf_set|by exists m|].
    exists (x <| m_buf := b3 |>). by rewrite put_buf_lookup.
  - lia.
  - rewrite Z.add_0_r. apply i32_mod.
  - lia.
  - lia.
  - lia.
  - cbn. rewrite (pt_count _ _ Hu). lia.
Qed.
End Nack.
