(* ===== verification/RmcastSend.v ===== *)
(** * The daemon: sending data messages *)

From S2P Require Import Prelude StateMonad Machine Heap Pool Hashtable HashtableRepr HashtableProofs Mqueue.
From S2P Require Import MqueueRepr MqueueProofs Interfaces Wire RmcastState Rmcast RmcastPool.
From S2P Require Import RmcastWire RmcastProofs.

Section Send.
Context `{Uninit htbl_entry} `{Uninit mqueue_item} `{Kernel} `{Fresh}.
Context (srep : mqueue_t → list Z → Prop) `{!Stack srep}.
Context (orep : htbl_t → gmap hkey Z → Prop) `{!PutTable orep}.

(** The longest payload of a UDP datagram over IPv4: 65535 bytes, less the 20 of
    the IP header and the 8 of the UDP header. *)
Definition UDP_MAX : Z := 65507.

(** The interface is up: [sendto] takes a datagram of a length that UDP carries
    whole, and returns that length. *)
Definition link_up : Prop :=
  ∀ d, Z.of_nat (length d) ≤ UDP_MAX → sendto_ret (Packet ToGroup d) = Z.of_nat (length d).

(** From [s] to [s'] the daemon sent the datagram [d] and keeps it in message
    [a]. *)
Record sent_one (cap : Z) (s s' : rmc) (free : list Z) (mo : gmap hkey Z) (a : Z) (d p : list Z) : Prop := {
  so_data : is_data d (sequence (self s)) (mem_id (self s)) p;
  so_sent : sent s' = sent s ++ [Packet ToGroup d];
  so_self : self s' = self s <| sequence := u64 (sequence (self s) + 1) |>;
  so_out : orep (outmsgbuf (cb s')) (<[KInt (i32 (sequence (self s))) := a]> mo);
  so_pool : pool_inv srep cap s' (tail free);
  so_notin : a ∉ tail free;
  so_kept : ∃ x, cells (msgs s') !! a = Some x ∧ m_length x = Z.of_nat (length p) ∧
              slice 0 (20 + length p) (m_buf x) = d;
  so_rest : mems s' = mems s ∧ ipc_out s' = ipc_out s ∧ members (cb s') = members (cb s)
}.

(** The payload is in the buffer: the header, the datagram and the bookkeeping. *)
Lemma send_data_spec cap s free mo a x p :
  pool_inv srep cap s free → cells (msgs s) !! a = Some x → msg_ok cap x → a ∉ free →
  20 + Z.of_nat (length p) ≤ cap → 20 + Z.of_nat (length p) ≤ UDP_MAX → link_up →
  orep (outmsgbuf (cb s)) mo → mo !! KInt (i32 (sequence (self s))) = None →
  Z.of_nat (size mo) < INT_MAX →
  ∃ d s', send_data a (Z.of_nat (length p)) (put_buf s a x (splice 20 p (m_buf x))) = Ok (tt, s') ∧
    is_data d (sequence (self s)) (mem_id (self s)) p ∧
    s' = put_buf s a (x <| m_length := Z.of_nat (length p) |>)
           (data_buf (m_buf x) (sequence (self s)) (mem_id (self s)) p)
         <| sent := sent s ++ [Packet ToGroup d] |>
         <| cb := cb s <| outmsgbuf := outmsgbuf (cb s') |> <| msg_this_sec := msg_this_sec (cb s') |> |>
         <| self := self s <| sequence := u64 (sequence (self s) + 1) |> |> ∧
    orep (outmsgbuf (cb s')) (<[KInt (i32 (sequence (self s))) := a]> mo) ∧
    d = slice 0 (20 + length p) (data_buf (m_buf x) (sequence (self s)) (mem_id (self s)) p).
Proof.
  intros Hp Hx [Hxs Hlo] Hna Hlen Hudp Hlink Ho Hmo Hsz. pose proof (pi_wf _ _ _ _ Hp) as Hw.
  assert (Ha : is_Some (cells (msgs s) !! a)) by (by eexists). unfold send_data.
  rewrite (bind_load_msg_put a _ s x _ Hw Ha), (bind_store_msg_put a _ _ s x _ Hw Ha), bind_gets.
  cbn [m_buf]. set (y := x <| m_buf := _ |> <| m_length := _ |>).
  change (self (put_buf s a y (m_buf y))) with (self s).
  set (seq := sequence (self s)) in *. set (i := mem_id (self s)).
  assert (Hset : ∀ b z, length b = length (m_buf x) →
    set_type b z = Ok (splice 1 (le_encode 1 z) b) ∧ set_length b z = Ok (splice 2 (le_encode 2 z) b) ∧
    set_sequence b z = Ok (splice 4 (le_encode 8 z) b) ∧ set_id b z = Ok (splice 12 (le_encode 8 z) b))
    by (intros; apply set_hdr_Ok; lia).
  assert (Hly : length (m_buf y) = length (m_buf x)) by (cbn; wire; done).
  erewrite (bind_wr_put a (fun b => set_type b RMCAST_MSG_DATA) _ s y _ _ Hw Ha) by (by apply Hset).
  erewrite (bind_wr_put a (fun b => set_length b (htons (Z.of_nat (length p)))) _ s y _ _ Hw Ha)
    by (apply Hset; wire; done).
  erewrite (bind_wr_put a (fun b => set_sequence b (htonl seq)) _ s y _ _ Hw Ha)
    by (apply Hset; wire; done).
  erewrite (bind_wr_put a (fun b => set_id b (htonl i)) _ s y _ _ Hw Ha)
    by (apply Hset; wire; done).
  change (splice 12 _ _) with (data_buf (m_buf x) seq i p).
  set (b := data_buf (m_buf x) seq i p).
  assert (Hlb : length b = length (m_buf x)) by (unfold b, data_buf; wire; done).
  replace (Z.of_nat (length p) + SIZEOF_HDR) with (Z.of_nat (20 + length p))
    by (unfold SIZEOF_HDR; lia).
  rewrite (bind_sendto_put a (20 + length p) ToGroup _ s y b Hw Ha) by lia.
  set (d := slice 0 (20 + length p) b).
  assert (Hd : length d = (20 + length p)%nat) by (apply slice_length; lia).
  rewrite (Hlink d) by lia. rewrite Hd, (proj2 (Z.ltb_lt _ _)) by lia. rewrite bind_gets.
  destruct (pt_put _ _ (i32 seq) a Ho (i32_range _) Hsz) as (t & Et & Ht).
  unfold Spec.put in Et, Ht. rewrite Hmo in Et, Ht. cbn in Et, Ht.
  rewrite (bind_lift _ _ _ _ Et), bind_set_cb, bind_set_self.
  exists d. eexists. split; [reflexivity|]. split; [apply data_buf_is_data; lia|].
  split; [done|]. split; [exact Ht|done].
Qed.

Lemma handle_ipc_spec cap s free mo p :
  pool_inv srep cap s free → 20 + Z.of_nat (length p) ≤ cap → 20 + Z.of_nat (length p) ≤ UDP_MAX → link_up →
  orep (outmsgbuf (cb s)) mo → mo !! KInt (i32 (sequence (self s))) = None →
  Z.of_nat (size mo) < INT_MAX →
  ∃ a d s', handle_ipc (IpcEvent (Z.of_nat (length p)) (Some p)) s = Ok (tt, s') ∧
    sent_one cap s s' free mo a d p.
Proof.
  intros Hp Hlen Hudp Hlink Ho Hmo Hsz.
  destruct (alloc_msg_spec srep _ _ _ Hp)
    as (a & s1 & x & E & Hsame & Hp1 & Hx & Hxok & Hna & Hold & Hne).
  pose proof Hxok as [Hxs Hlo]. pose proof (pi_wf _ _ _ _ Hp1) as Hw.
  assert (Hself : self s1 = self s) by (by rewrite Hsame).
  assert (Hob : outmsgbuf (cb s1) = outmsgbuf (cb s)) by (by rewrite Hsame).
  unfold handle_ipc. rewrite (bind_run _ _ _ _ _ E), bind_gets.
  cbn [ipc_read ipc_data default from_option id].
  pose proof (pi_buf _ _ _ _ Hp1) as Hbs.
  destruct (Z.ltb_spec (bufsize (cb s1)) (Z.of_nat (length p))) as [|_]; [lia|].
  rewrite bind_ret. cbv zeta.
  assert (E1 : buf_write (m_buf x) SIZEOF_HDR p = Ok (splice 20 p (m_buf x)))
    by (apply (buf_write_Ok (m_buf x) 20 p); lia).
  rewrite (bind_wr a (fun b => buf_write b SIZEOF_HDR p) _ s1 x _ Hw Hx E1), Z.eqb_refl.
  rewrite <- Hself in Hmo. rewrite <- Hob in Ho.
  destruct (send_data_spec cap s1 _ mo a x p Hp1 Hx Hxok Hna Hlen Hudp Hlink Ho Hmo Hsz)
    as (d & s' & -> & Hd & Es' & Ht & Ed).
  exists a, d, s'. split; [done|]. split; rewrite <- ?Hself; try done.
  - rewrite Es'. cbn. by rewrite Hsame.
  - by rewrite Es'.
  - rewrite Es'. eapply pool_inv_ext; [..|eapply (pool_inv_put srep cap s1 _ a); [done|by eexists|done]];
      reflexivity.
  - rewrite Es'. cbn. eexists. rewrite lookup_h_set. done.
  - rewrite Es', Hsame. done.
Qed.
End Send.
