(* ===== verification/RmcastSpec.v ===== *)
(** * The daemon: its contract

    What the multicast daemon of [src/v0.1/rmcast.c] guarantees: messages are
    handed out to one user at a time; data is delivered once and in order from a
    lossless network; old data and data of unknown members is dropped; and what
    becomes of a gap. *)

From Stdlib Require Import SpecFloat.
From S2P Require Import Prelude StateMonad Machine Heap Pool Hashtable HashtableRepr HashtableProofs Mqueue.
From S2P Require Import MqueueRepr MqueueProofs Interfaces Wire RmcastState Rmcast RmcastApi.
From S2P Require Import RmcastPool RmcastWire RmcastProofs Gap RmcastNack RmcastSend.

Section Spec.
Context `{Uninit htbl_entry} `{Uninit mqueue_item} `{Kernel} `{Fresh}.
Context (srep : mqueue_t → list Z → Prop) `{!Stack srep}.
Context (mrep urep orep : htbl_t → gmap hkey Z → Prop).
Context `{!PutTable mrep} `{!Table urep} `{!PutTable orep}.

(** C15: [alloc_msg] hands out a message that is not in the pool any more and
    that no one else holds, with room for a whole message, and [release_msg]
    puts it back: no message is in use twice. *)
Theorem alloc_msg_exclusive cap s free :
  pool_inv srep cap s free → Z.of_nat (length free) ≤ INT_MAX →
  ∃ a s' x, alloc_msg s = Ok (a, s') ∧ pool_inv srep cap s' (tail free) ∧ (a ∉ tail free) ∧
    cells (msgs s') !! a = Some x ∧ cap ≤ m_size x ∧ m_size x = Z.of_nat (length (m_buf x)) ∧
    (∀ b, is_Some (cells (msgs s) !! b) → b ∉ free →
       b ≠ a ∧ cells (msgs s') !! b = cells (msgs s) !! b) ∧
    ∃ s'', release_msg a s' = Ok (tt, s'') ∧ pool_inv srep cap s'' (a :: tail free).
Proof.
  intros Hp Hmax.
  destruct (alloc_msg_spec srep _ _ _ Hp)
    as (a & s' & x & E & _ & Hp' & Hx & Hxok & Hna & Hold & Hne).
  pose proof Hxok as [? [? ?]]. exists a, s', x. do 6 (split; [done|]).
  split; [intros b Hb Hbf; split; [by apply Hne|by apply Hold]|].
  destruct (release_msg_spec srep cap s' (tail free) a x Hp' Hx Hxok Hna) as (s'' & E' & _ & _ & Hp'').
  - destruct free as [|c free]; cbn in *; int_lia.
  - by exists s''.
Qed.

(** ** Receiving *)

(** The message a datagram was received in. *)
Lemma received_msg_at cap s s1 free a d b seq i p :
  received_in srep cap s s1 free a d b → is_data d seq i p → Z.of_nat (length p) < 2 ^ 16 →
  msg_at s1 a b (u32 i) (u32 seq) (length p) ∧ slice 20 (length p) b = p ∧
  hdr_type b = Ok RMCAST_MSG_DATA.
Proof.
  intros [_ Hp (x & Hx & Hxok) _ (b0 & -> & Hl) _] [Hdl Ht Hn Hs Hi Hpay] H16.
  destruct (rcvd_buf_spec d b0 Hl) as (Hbl & E1 & E2 & E3 & E4 & Hsl).
  rewrite E1, Ht, Hsl, Hpay by lia. split; [|done].
  split.
  - apply Hp.
  - by eexists.
  - rewrite E4, Hi. f_equal. exact (swap_twice 4 i).
  - rewrite E3, Hs. f_equal. exact (swap_twice 4 seq).
  - rewrite E2, Hn. f_equal. transitivity (u16 (Z.of_nat (length p))); [exact (swap_twice 2 _)|].
    apply u16_id. lia.
  - rewrite Hbl. lia.
Qed.

(** Up to the handler of a data message. *)
Lemma handle_mcast_data cap s free now d from seq i p :
  pool_inv srep cap s free → is_data d seq i p → 20 + Z.of_nat (length p) ≤ cap → cap < 2 ^ 63 →
  Z.of_nat (length p) < 2 ^ 16 →
  ∃ a s1 b, received_in srep cap s s1 free a d b ∧
    handle_mcast now (Some (d, from)) s = (_ ← handle_data from a; mret false) s1.
Proof.
  intros Hp Hd Hlen Hcap H16. pose proof (id_len _ _ _ _ Hd) as Hdl.
  destruct (handle_mcast_spec srep cap s free now d from Hp) as (a & s1 & b & Hr & E); [lia|done|].
  exists a, s1, b. split; [done|]. rewrite E.
  destruct (received_msg_at _ _ _ _ _ _ _ _ _ _ Hr Hd H16) as ([Hw (x & Hx & Hb) _ _ _ _] & _ & Ht).
  rewrite (id_length _ _ _ _ Hd).
  replace (ntohs (htons (Z.of_nat (length p)))) with (Z.of_nat (length p)); cycle 1.
  { symmetry. transitivity (u16 (Z.of_nat (length p))); [exact (swap_twice 2 _)|]. apply u16_id. lia. }
  destruct (Z.ltb_spec (Z.of_nat (length d)) (Z.of_nat (length p) + SIZEOF_HDR)) as [Hlt|_];
    [unfold SIZEOF_HDR in Hlt; lia|].
  unfold handle_msg, mbind at 1, M_bind at 1. subst b.
  by rewrite (bind_rd a _ _ s1 x _ Hw Hx Ht).
Qed.
(** The branch of the data handler that finds a gap. *)
Lemma gap_overruns cap s free a x i q from ptr m mu :
  pool_inv srep cap s free → cells (msgs s) !! a = Some x →
  hdr_id (m_buf x) = Ok i → hdr_sequence (m_buf x) = Ok q →
  registered mrep urep s i ptr m mu → 0 ≤ sequence m → sequence m + 1 < q < 2 ^ 32 →
  Z.of_nat (size mu) < INT_MAX - 2 →
  ∃ f, handle_data from a s = Fault f ∧ overrun f.
Proof.
  intros Hp Hx Hi Hq Hreg Hpos Hgap Hsz. pose proof (pi_wf _ _ _ _ Hp) as Hw.
  unfold handle_data. rewrite (bind_rd a _ _ s x i Hw Hx Hi).
  rewrite (members_get_found mrep urep _ _ _ _ _ _ Hreg). destruct Hreg as [Hmw _ Hm Hu].
  rewrite (bind_load_mem ptr _ s m) by done. rewrite (bind_rd a _ _ s x q Hw Hx Hq).
  rewrite u64_id, (proj2 (Z.eqb_neq _ _)), (proj2 (Z.ltb_lt _ _)) by lia. cbn [negb].
  destruct (pt_put _ _ (i32 q) a Hu (i32_range _)) as (t & Et & Ht); [int_lia|].
  set (s2 := s <| mems := h_set (mems s) ptr (m <| unseq_msgs := t |>) |>).
  assert (Hp2 : pool_inv srep cap s2 free) by (eapply pool_inv_ext; [..|exact Hp]; done).
  destruct (alloc_msg_spec srep _ _ _ Hp2)
    as (a2 & s3 & x2 & E & Hsame & Hp3 & Hx2 & [Hxs Hxc] & _ & _ & _).
  set (mu' := (Spec.put mu (KInt (i32 q)) a).2) in *.
  assert (Hsz' : (size mu' ≤ S (size mu))%nat).
  { unfold mu', Spec.put. destruct (mu !! _) eqn:Emu; cbn; [lia|].
    rewrite map_size_insert, Emu. cbn. lia. }
  destruct (send_nack_overruns urep s3 ptr a2 mu' (length (m_buf x2))) as (f & Ef & Hf).
  - split.
    + rewrite Hsame. cbn. apply heap_wf_set; [done|by eexists].
    + apply Hp3.
    + rewrite Hsame. cbn. eexists. rewrite lookup_h_set. split; [done|exact Ht].
    + by exists x2.
  - pose proof (pi_cap _ _ _ _ Hp). unfold SIZEOF_HDR in *. lia.
  - int_lia.
  - exists f. split; [|done]. apply bind_fault. rewrite (bind_lift _ _ _ _ Et).
    rewrite (bind_store_mem ptr _ _ s Hmw) by (by eexists).
    rewrite (bind_run _ _ _ _ _ E). by apply bind_fault.
Qed.

Context `{!KernelOk}.

(** A data message that is next in sequence is delivered: the application
    gets its length, the address of the sender and the payload, however the
    kernel splits the writes, and the member's sequence number advances. *)
Lemma data_next cap s free now d from seq i p ptr m mu :
  pool_inv srep cap s free → is_data d seq i p → 20 + Z.of_nat (length p) ≤ cap → cap < 2 ^ 63 →
  Z.of_nat (length p) < 2 ^ 16 → (length from ≤ 16)%nat →
  registered mrep urep s (u32 i) ptr m mu →
  u64 (sequence m + 1) = u32 seq → mu !! KInt (i32 (u32 seq)) = None →
  ∃ s' t, handle_mcast now (Some (d, from)) s = Ok (false, s') ∧
    ipc_out s' = ipc_out s ++ metadata (Z.of_nat (length p)) from ++ p ∧
    registered mrep urep s' (u32 i) ptr (m <| sequence := u32 seq |> <| unseq_msgs := t |>) mu ∧
    pool_inv srep cap s' (tail free) ∧ sent s' = sent s ∧ self s' = self s.
Proof.
  intros Hp Hd Hlen Hcap H16 Hfrom Hreg Hseq Hmu.
  destruct (handle_mcast_data cap s free now d from seq i p Hp Hd Hlen Hcap H16)
    as (a & s1 & b & Hr & ->).
  destruct (received_msg_at _ _ _ _ _ _ _ _ _ _ Hr Hd H16) as (Hat & Hpay & _).
  pose proof (registered_same mrep urep _ _ _ _ _ _ (ri_same _ _ _ _ _ _ _ _ Hr) Hreg) as Hreg1.
  destruct (handle_data_in_order mrep urep s1 a b (u32 i) (u32 seq) (length p) from ptr m mu
              Hat Hreg1 Hfrom Hseq Hmu) as (t & Ht & E).
  rewrite (bind_run _ _ _ _ _ E). eexists _, t. split; [reflexivity|]. rewrite Hpay. cbn.
  pose proof (ri_same _ _ _ _ _ _ _ _ Hr) as Hsame.
  split; [by rewrite Hsame|]. split.
  { destruct Hreg1 as [Hw Hmm Hm _]. split; cbn; try done.
    - apply heap_wf_set; [done|by eexists].
    - apply lookup_h_set. }
  split; [|split; by rewrite Hsame].
  eapply pool_inv_ext; [..|exact (ri_pool _ _ _ _ _ _ _ _ Hr)]; reflexivity.
Qed.

(** A message that is dropped goes back to the pool. *)
Lemma dropped cap s s1 free a d b :
  received_in srep cap s s1 free a d b → Z.of_nat (length free) ≤ INT_MAX →
  ∃ s', (_ ← release_msg a; mret false) s1 = Ok (false, s') ∧ same_but_pool s s' ∧
    pool_inv srep cap s' (a :: tail free).
Proof.
  intros [Hsame Hp (x & Hx & Hxok) Hna _ _] Hmax.
  destruct (release_msg_spec srep cap s1 (tail free) a _ Hp Hx Hxok Hna) as (s' & E & Hs & _ & Hp').
  { destruct free; cbn in *; int_lia. }
  exists s'. rewrite (bind_run _ _ _ _ _ E). split; [done|]. split; [|done].
  by eapply same_but_pool_trans.
Qed.

Lemma data_old cap s free now d from seq i p ptr m mu :
  pool_inv srep cap s free → is_data d seq i p → 20 + Z.of_nat (length p) ≤ cap → cap < 2 ^ 63 →
  Z.of_nat (length p) < 2 ^ 16 → Z.of_nat (length free) ≤ INT_MAX →
  registered mrep urep s (u32 i) ptr m mu →
  u64 (sequence m + 1) ≠ u32 seq → u32 seq ≤ sequence m →
  ∃ s' a, handle_mcast now (Some (d, from)) s = Ok (false, s') ∧ same_but_pool s s' ∧
    pool_inv srep cap s' (a :: tail free).
Proof.
  intros Hp Hd Hlen Hcap H16 Hmax Hreg Hne Hle.
  destruct (handle_mcast_data cap s free now d from seq i p Hp Hd Hlen Hcap H16)
    as (a & s1 & b & Hr & ->).
  destruct (received_msg_at _ _ _ _ _ _ _ _ _ _ Hr Hd H16) as (Hat & _ & _).
  pose proof (registered_same mrep urep _ _ _ _ _ _ (ri_same _ _ _ _ _ _ _ _ Hr) Hreg) as Hreg1.
  destruct (dropped _ _ _ _ _ _ _ Hr Hmax) as (s' & E & Hs & Hp').
  exists s', a. split; [|done]. rewrite <- E. unfold mbind, M_bind.
  by rewrite (handle_data_old mrep urep s1 a b (u32 i) (u32 seq) (length p) from ptr m mu).
Qed.

(** A data message whose number was already received is dropped: nothing
    is delivered, no member changes, and its buffer goes back to the pool. *)
Theorem data_duplicate_dropped cap s free now d from seq i p ptr m mu :
  pool_inv srep cap s free → is_data d seq i p → 20 + Z.of_nat (length p) ≤ cap → cap < 2 ^ 63 →
  Z.of_nat (length p) < 2 ^ 16 → Z.of_nat (length free) ≤ INT_MAX →
  registered mrep urep s (u32 i) ptr m mu → u32 seq ≤ sequence m < 2 ^ 64 - 1 →
  ∃ s' a, handle_mcast now (Some (d, from)) s = Ok (false, s') ∧ same_but_pool s s' ∧
    pool_inv srep cap s' (a :: tail free).
Proof.
  intros ? ? ? ? ? ? ? [? ?]. eapply data_old; try done.
  pose proof (u32_range seq). rewrite u64_id; lia.
Qed.

(** A member that was registered by a heartbeat with number 0 (so that its
    sequence is the largest [unsigned long]) and whose message 0 is lost is
    stuck: every later message is dropped as if it were old, and no negative
    acknowledgement is sent. *)
Theorem first_message_lost_is_final cap s free now d from seq i p ptr m mu :
  pool_inv srep cap s free → is_data d seq i p → 20 + Z.of_nat (length p) ≤ cap → cap < 2 ^ 63 →
  Z.of_nat (length p) < 2 ^ 16 → Z.of_nat (length free) ≤ INT_MAX →
  registered mrep urep s (u32 i) ptr m mu → sequence m = 2 ^ 64 - 1 → u32 seq ≠ 0 →
  ∃ s' a, handle_mcast now (Some (d, from)) s = Ok (false, s') ∧ same_but_pool s s' ∧
    pool_inv srep cap s' (a :: tail free).
Proof.
  intros ? ? ? ? ? ? ? Hm Hs. eapply data_old; try done; rewrite Hm.
  - done.
  - pose proof (u32_range seq). lia.
Qed.

(** A data message of a host that is not registered is dropped. *)
Theorem data_unknown_dropped cap s free now d from seq i p mm :
  pool_inv srep cap s free → is_data d seq i p → 20 + Z.of_nat (length p) ≤ cap → cap < 2 ^ 63 →
  Z.of_nat (length p) < 2 ^ 16 → Z.of_nat (length free) ≤ INT_MAX →
  mrep (members (cb s)) mm → mm !! KInt (i32 (u32 i)) = None →
  ∃ s' a, handle_mcast now (Some (d, from)) s = Ok (false, s') ∧ same_but_pool s s' ∧
    pool_inv srep cap s' (a :: tail free).
Proof.
  intros Hp Hd Hlen Hcap H16 Hmax Hmm Hn.
  destruct (handle_mcast_data cap s free now d from seq i p Hp Hd Hlen Hcap H16)
    as (a & s1 & b & Hr & ->).
  destruct (received_msg_at _ _ _ _ _ _ _ _ _ _ Hr Hd H16) as (Hat & _ & _).
  destruct (dropped _ _ _ _ _ _ _ Hr Hmax) as (s' & E & Hs & Hp').
  exists s', a. split; [|done]. rewrite <- E. unfold mbind, M_bind.
  pose proof (ri_same _ _ _ _ _ _ _ _ Hr) as Hsame.
  erewrite (handle_data_unknown mrep s1); [done|done| |exact Hn]. by rewrite Hsame.
Qed.

(** A data message that leaves a gap stops the daemon: the negative
    acknowledgement it starts to write overruns its buffer (or its counter). *)
Lemma data_gap cap s free now d from seq i p ptr m mu :
  pool_inv srep cap s free → is_data d seq i p → 20 + Z.of_nat (length p) ≤ cap → cap < 2 ^ 63 →
  Z.of_nat (length p) < 2 ^ 16 →
  registered mrep urep s (u32 i) ptr m mu → 0 ≤ sequence m → sequence m + 1 < u32 seq →
  Z.of_nat (size mu) < INT_MAX - 2 →
  ∃ f, handle_mcast now (Some (d, from)) s = Fault f ∧ overrun f.
Proof.
  intros Hp Hd Hlen Hcap H16 Hreg Hpos Hgap Hsz. pose proof (u32_range seq).
  destruct (handle_mcast_data cap s free now d from seq i p Hp Hd Hlen Hcap H16)
    as (a & s1 & b & Hr & ->).
  destruct (received_msg_at _ _ _ _ _ _ _ _ _ _ Hr Hd H16)
    as ([Hw (x & Hx & <-) Hi Hs _ _] & _ & _).
  pose proof (registered_same mrep urep _ _ _ _ _ _ (ri_same _ _ _ _ _ _ _ _ Hr) Hreg) as Hreg1.
  destruct (gap_overruns cap s1 (tail free) a x (u32 i) (u32 seq) from ptr m mu) as (f & E & Hf);
    try done; [exact (ri_pool _ _ _ _ _ _ _ _ Hr)|lia|].
  exists f. split; [by apply bind_fault|done].
Qed.
End Spec.
