(* ===== verification/RmcastEnd.v ===== *)
(** * From one application to another

    The two ends of a connection: what the application reads of the frames the
    daemon writes ([rmcast_timed_recvfrom]), and the datagrams the sender's
    daemon makes of a sequence of messages ([handle_ipc]).  [RmcastFifo] composes
    them. *)

From S2P Require Import Prelude StateMonad Machine Heap Pool Hashtable HashtableRepr HashtableProofs Mqueue.
From S2P Require Import MqueueRepr MqueueProofs Interfaces Wire RmcastState Rmcast RmcastApi.
From S2P Require Import RmcastPool RmcastWire RmcastProofs Gap RmcastNack RmcastSend RmcastSpec.

(** What the daemon writes to the ipc socket for a message. *)
Definition frame (from p : list Z) : list Z := metadata (Z.of_nat (length p)) from ++ p.

(** The datagrams [ds] carry the payloads [ps], numbered from [k]. *)
Fixpoint data_from (k i : Z) (ds ps : list (list Z)) : Prop :=
  match ds, ps with
  | [], [] => True
  | d :: ds, p :: ps => is_data d k i p ∧ data_from (k + 1) i ds ps
  | _, _ => False
  end.

Lemma i32_neq a b : a < b < a + 2 ^ 32 → i32 a ≠ i32 b.
Proof.
  intros Hab E. apply (f_equal (fun z => z mod 2 ^ 32)) in E. rewrite !i32_mod in E.
  assert (Hd : (b - a) mod 2 ^ 32 = 0) by (rewrite Zminus_mod, E, Z.sub_diag; done).
  rewrite Z.mod_small in Hd by lia. lia.
Qed.

(** ** Reading *)

Section Read.
Context `{Fresh} `{Reader}.

(** A [recv] takes what it asked for when that much is there. *)
Class ReaderOk := recv_full stream n : 0 ≤ n ≤ Z.of_nat (length stream) → recv_ret stream n = n.
Context `{!ReaderOk}.

Lemma recv_app l rest n : n = Z.of_nat (length l) → recv (l ++ rest) n = (n, l, rest).
Proof.
  intros ->. unfold recv. rewrite recv_full by (rewrite length_app; lia).
  rewrite Nat2Z.id, take_app_length, drop_app_length. done.
Qed.

(** The header of a frame. *)
Lemma metadata_decode n from :
  length from = 16%nat → 0 ≤ n < 2 ^ 31 →
  length (metadata n from) = 20%nat ∧ i32 (le_decode (take 4 (metadata n from))) = n ∧
  drop 4 (metadata n from) = from.
Proof.
  intros Hf Hn. unfold metadata. pose proof (le_encode_length 4 n) as Hl.
  rewrite length_app, Hl, Hf. split; [done|].
  rewrite <- Hl at 1 3. rewrite take_app_length, drop_app_length. split; [|done].
  rewrite le_decode_encode. change (256 ^ Z.of_nat 4) with (2 ^ 32).
  rewrite Z.mod_small by lia. apply i32_id. int_lia.
Qed.

Lemma read_frame len from p rest :
  length from = 16%nat → Z.of_nat (length p) < 2 ^ 31 → Z.of_nat (length p) ≤ len →
  rmcast_timed_recvfrom 1 1 len (frame from p ++ rest) =
    Received (Z.of_nat (length p)) p from rest.
Proof.
  intros Hf Hp Hlen. destruct (metadata_decode (Z.of_nat (length p)) from Hf) as (Hm & Hn & Hfr); [lia|].
  unfold rmcast_timed_recvfrom, frame. rewrite <- app_assoc. change (truthy 1) with true.
  change (0 <? 1) with true. cbn iota. rewrite recv_app by (by rewrite Hm).
  change (SIZEOF_METADATA <? 0) with false. cbn iota.
  rewrite Hm, drop_ge by (by rewrite fresh_bytes_length). rewrite app_nil_r, Hn, Hfr.
  rewrite (proj2 (Z.leb_le _ _)) by lia. rewrite u64_id by lia. by rewrite recv_app.
Qed.

(** A message that is longer than the application's buffer is cut, and the
    rest of it is discarded: the next read starts at the next message. *)
Theorem recv_truncates len from p rest :
  length from = 16%nat → Z.of_nat (length p) < 2 ^ 31 → 0 ≤ len < Z.of_nat (length p) →
  rmcast_timed_recvfrom 1 1 len (frame from p ++ rest) =
    Received len (take (Z.to_nat len) p) from rest.
Proof.
  intros Hf Hp Hlen. destruct (metadata_decode (Z.of_nat (length p)) from Hf) as (Hm & Hn & Hfr); [lia|].
  unfold rmcast_timed_recvfrom, frame. rewrite <- app_assoc. change (truthy 1) with true.
  change (0 <? 1) with true. cbn iota. rewrite recv_app by (by rewrite Hm).
  change (SIZEOF_METADATA <? 0) with false. cbn iota.
  rewrite Hm, drop_ge by (by rewrite fresh_bytes_length). rewrite app_nil_r, Hn, Hfr.
  rewrite (proj2 (Z.leb_gt _ _)) by lia.
  assert (p ++ rest = take (Z.to_nat len) p ++ drop (Z.to_nat len) p ++ rest) as ->
    by (by rewrite app_assoc, take_drop).
  rewrite recv_app by (rewrite length_take; lia). rewrite (proj2 (Z.ltb_ge _ _)) by lia.
  by rewrite recv_app by (rewrite length_drop; lia).
Qed.

(** [n] reads, one after the other. *)
Fixpoint read_all (n : nat) (len : Z) (stream : list Z) : list received :=
  match n with
  | O => []
  | S n => let r := rmcast_timed_recvfrom 1 1 len stream in r :: read_all n len (r_stream r)
  end.

Lemma read_all_frames len from ps : ∀ rest,
  length from = 16%nat →
  Forall (fun p => Z.of_nat (length p) < 2 ^ 31 ∧ Z.of_nat (length p) ≤ len) ps →
  r_data <$> read_all (length ps) len (concat (frame from <$> ps) ++ rest) = ps.
Proof.
  intros rest Hf. induction 1 as [|p ps [Hp Hlen] _ IH]; [done|]. cbn [length read_all fmap list_fmap concat].
  cbv zeta. rewrite <- app_assoc, read_frame by done. cbn [r_stream r_data]. by f_equal.
Qed.
End Read.

(** ** Sending and receiving a sequence of messages *)

Section Daemons.
Context `{Uninit htbl_entry} `{Uninit mqueue_item} `{Kernel} `{Fresh}.

(** The sender's daemon takes the payloads from its ipc socket. *)
Fixpoint send_all (ps : list (list Z)) : M unit :=
  match ps with
  | [] => mret tt
  | p :: ps => _ ← handle_ipc (IpcEvent (Z.of_nat (length p)) (Some p)); send_all ps
  end.

(** The receiver's daemon takes the datagrams from the network. *)
Fixpoint recv_all (now : timeval) (from : list Z) (ds : list (list Z)) : M unit :=
  match ds with
  | [] => mret tt
  | d :: ds => _ ← handle_mcast now (Some (d, from)); recv_all now from ds
  end.

Context (srep : mqueue_t → list Z → Prop) `{!Stack srep}.
Context (orep : htbl_t → gmap hkey Z → Prop) `{!PutTable orep}.

(** A payload that fits, with its header, the messages of a daemon and a
    datagram. *)
Definition fits (cap : Z) (p : list Z) : Prop :=
  20 + Z.of_nat (length p) ≤ cap ∧ 20 + Z.of_nat (length p) ≤ UDP_MAX.

Lemma fits_short cap p : fits cap p → Z.of_nat (length p) < 2 ^ 16.
Proof. intros [_ Hp]. unfold UDP_MAX in Hp. lia. Qed.

Lemma send_all_spec cap ps : ∀ s free mo,
  pool_inv srep cap s free → Forall (fits cap) ps → link_up →
  orep (outmsgbuf (cb s)) mo → 0 ≤ sequence (self s) →
  (∀ j, 0 ≤ j < Z.of_nat (length ps) → mo !! KInt (i32 (sequence (self s) + j)) = None) →
  sequence (self s) + Z.of_nat (length ps) ≤ 2 ^ 32 →
  Z.of_nat (size mo + length ps) ≤ INT_MAX →
  ∃ ds s', send_all ps s = Ok (tt, s') ∧ sent s' = sent s ++ (Packet ToGroup <$> ds) ∧
    data_from (sequence (self s)) (mem_id (self s)) ds ps ∧
    pool_inv srep cap s' (drop (length ps) free) ∧
    ∃ mo', orep (outmsgbuf (cb s')) mo' ∧ size mo' = (size mo + length ps)%nat.
Proof.
  induction ps as [|p ps IH]; intros s free mo Hp Hfit Hlink Ho Hseq0 Hmo Hseq Hsz.
  { exists [], s. cbn. rewrite app_nil_r, drop_0. do 4 (split; [done|]). exists mo. split; [done|lia]. }
  apply Forall_cons in Hfit as [[Hc Hudp] Hfit]. cbn [length] in *.
  assert (Hm0 : mo !! KInt (i32 (sequence (self s))) = None).
  { rewrite <- (Z.add_0_r (sequence (self s))). apply Hmo. lia. }
  destruct (handle_ipc_spec srep orep cap s free mo p Hp Hc Hudp Hlink Ho Hm0) as (a & d & s1 & E & Hs);
    [lia|].
  pose proof (so_self _ _ _ _ _ _ _ _ _ _ Hs) as Hself. rewrite u64_id in Hself by lia.
  assert (Hq1 : sequence (self s1) = sequence (self s) + 1) by (by rewrite Hself).
  assert (Hi1 : mem_id (self s1) = mem_id (self s)) by (by rewrite Hself).
  destruct (IH s1 _ _ (so_pool _ _ _ _ _ _ _ _ _ _ Hs) Hfit Hlink (so_out _ _ _ _ _ _ _ _ _ _ Hs))
    as (ds & s' & E' & Hsent & Hd & Hp' & mo' & Ho' & Hsz'); rewrite ?Hq1.
  - lia.
  - intros j Hj. rewrite lookup_insert_ne.
    + replace (sequence (self s) + 1 + j) with (sequence (self s) + (j + 1)) by lia. apply Hmo. lia.
    + intros [= Ek]. by apply (i32_neq (sequence (self s)) (sequence (self s) + 1 + j)) in Ek; [|lia].
  - lia.
  - rewrite map_size_insert, Hm0. cbn. lia.
  - exists (d :: ds), s'. cbn [send_all]. rewrite (bind_run _ _ _ _ _ E). split; [done|].
    rewrite Hsent, (so_sent _ _ _ _ _ _ _ _ _ _ Hs). cbn. rewrite <- app_assoc. split; [done|].
    split; [split; [exact (so_data _ _ _ _ _ _ _ _ _ _ Hs)|by rewrite Hq1, Hi1 in Hd]|].
    split; [by destruct free; rewrite ?drop_nil in *|]. exists mo'. split; [done|].
    rewrite map_size_insert, Hm0 in Hsz'. cbn in *. lia.
Qed.
End Daemons.
