(* ===== verification/RmcastFifo.v ===== *)
(** * The receiver as an exactly-once, first-in first-out channel

    What the receiving daemon of [src/v0.1/rmcast.c] implements for one member,
    said without buffers, tables or sockets: a number that is expected next, a
    message delivered when it carries that number, ignored when its number is
    older, and a gap when it is newer; except that before the first message (0 is
    expected) a newer one is ignored too, because the number of the last message
    received is then the largest [unsigned long]. [recv_refines_fifo] shows that
    [handle_mcast], run over any sequence of data datagrams of a registered
    member, writes exactly the frames this receiver delivers and stops exactly
    where it finds a gap; [duplicating_network] composes it with the sender, the
    readers and a network that duplicates datagrams. *)

From S2P Require Import Prelude StateMonad Machine Heap Pool Hashtable HashtableRepr HashtableProofs Mqueue.
From S2P Require Import MqueueRepr MqueueProofs Interfaces Wire RmcastState Rmcast RmcastApi.
From S2P Require Import RmcastPool RmcastWire RmcastProofs Gap RmcastNack RmcastSend RmcastSpec RmcastEnd.

(** ** The abstract receiver *)

Module Fifo.
Section Fifo.
Context {A : Type}.

(** What becomes of the message numbered [q] when [next] is expected: there is
    no gap before the first message, whatever arrives in its place is ignored. *)
Inductive verdict := Deliver | Ignore | Gap.

Definition judge (next q : Z) : verdict :=
  if q =? next then Deliver else if (q <? next) || (next =? 0) then Ignore else Gap.

(** The messages delivered from a sequence of arrivals and the number expected
    after them; [None] when there is a gap. *)
Fixpoint run (next : Z) (xs : list (Z * A)) : option (Z * list A) :=
  match xs with
  | [] => Some (next, [])
  | (q, p) :: xs =>
      match judge next q with
      | Deliver => '(n, out) ← run (next + 1) xs; Some (n, p :: out)
      | Ignore => run next xs
      | Gap => None
      end
  end.

Lemma judge_spec next q :
  match judge next q with
  | Deliver => q = next
  | Ignore => q < next ∨ next = 0 ∧ q ≠ 0
  | Gap => next < q ∧ next ≠ 0
  end.
Proof. unfold judge. destruct (Z.eqb_spec q next), (Z.ltb_spec q next), (Z.eqb_spec next 0); cbn; lia. Qed.

(** The number expected grows by the messages delivered. *)
Lemma run_next xs : ∀ next n out,
  run next xs = Some (n, out) → n = next + Z.of_nat (length out).
Proof.
  induction xs as [|[q p] xs IH]; intros next n out; cbn.
  { intros [= <- <-]. cbn. lia. }
  destruct (judge next q); [|apply IH|done].
  destruct (run (next + 1) xs) as [[n1 out1]|] eqn:E; [|done]. intros [= <- <-].
  apply IH in E. cbn [length]. lia.
Qed.

(** A network that delivers the messages at the places [js] of [ps]. *)
Definition arrivals (k : Z) (js : list nat) (ps : list A) : list (Z * A) :=
  omap (fun j => (fun p => (k + Z.of_nat j, p)) <$> ps !! j) js.

(** What is delivered of them is a segment of what was sent, in its order and
    each message once. *)
Lemma run_segment k ps js : ∀ i n out,
  run (k + Z.of_nat i) (arrivals k js ps) = Some (n, out) →
  out = take (length out) (drop i ps).
Proof.
  induction js as [|j js IH]; intros i n out; cbn.
  { by intros [= _ <-]. }
  destruct (ps !! j) as [p|] eqn:Hj; cbn; [|apply IH].
  pose proof (judge_spec (k + Z.of_nat i) (k + Z.of_nat j)) as Hv.
  destruct (judge _ _); [|apply IH|done].
  assert (j = i) as -> by lia.
  destruct (run (k + Z.of_nat i + 1) _) as [[n1 out1]|] eqn:E; [|done]. intros [= <- <-].
  replace (k + Z.of_nat i + 1) with (k + Z.of_nat (S i)) in E by lia.
  rewrite (drop_S _ _ _ Hj). cbn. f_equal. by eapply IH.
Qed.

(** No message arrives before its predecessors; copies may come at any time
    after the first. *)
Fixpoint no_gap (i : nat) (js : list nat) : bool :=
  match js with
  | [] => true
  | j :: js => if (j =? i)%nat then no_gap (S i) js else (j <? i)%nat && no_gap i js
  end.

(** Then there is no gap, and everything that arrived has been delivered. *)
Lemma run_no_gap k ps js : ∀ i,
  no_gap i js = true → Forall (fun j => (j < length ps)%nat) js →
  ∃ n out, run (k + Z.of_nat i) (arrivals k js ps) = Some (k + Z.of_nat n, out) ∧
    (i ≤ n)%nat ∧ Forall (fun j => (j < n)%nat) js.
Proof.
  induction js as [|j js IH]; intros i Hg Hjs; [by exists i, []|]. cbn in Hg |- *.
  apply Forall_cons in Hjs as [[p Hj]%lookup_lt_is_Some_2 Hjs]. rewrite Hj. cbn.
  pose proof (judge_spec (k + Z.of_nat i) (k + Z.of_nat j)) as Hv.
  destruct (Nat.eqb_spec j i) as [->|Hne].
  - destruct (judge _ _); try lia. destruct (IH (S i) Hg Hjs) as (n & out & E & Hn & Hall).
    replace (k + Z.of_nat (S i)) with (k + Z.of_nat i + 1) in E by lia. unfold arrivals in E. rewrite E.
    exists n, (p :: out). split; [done|]. split; [lia|]. by constructor.
  - apply andb_prop in Hg as [Hlt%Nat.ltb_lt Hg]. destruct (IH i Hg Hjs) as (n & out & E & Hn & Hall).
    destruct (judge _ _); try lia. exists n, out. split; [done|]. split; [done|]. constructor; [lia|done].
Qed.

(** When every message arrives and none before its predecessors, all are
    delivered. *)
Lemma run_complete k ps js :
  no_gap 0 js = true → Forall (fun j => (j < length ps)%nat) js →
  (∀ j, (j < length ps)%nat → j ∈ js) → ∃ n, run k (arrivals k js ps) = Some (n, ps).
Proof.
  intros Hg Hjs Hall. destruct (run_no_gap k ps js 0 Hg Hjs) as (n & out & E & _ & Hn).
  pose proof (run_segment k ps js 0 _ _ E) as Es. rewrite Z.add_0_r in E. rewrite drop_0 in Es.
  exists (k + Z.of_nat n). rewrite E. do 2 f_equal. rewrite Es. apply take_ge. apply run_next in E.
  destruct (length ps) as [|l] eqn:El; [lia|].
  pose proof (proj1 (Forall_forall _ _) Hn l (Hall l ltac:(lia))). cbn in *. lia.
Qed.
End Fifo.
End Fifo.

(** ** The daemon refines it *)

Section Daemon.
Context `{Uninit htbl_entry} `{Uninit mqueue_item} `{Kernel} `{Fresh}.
Context (srep : mqueue_t → list Z → Prop) `{!Stack srep}.
Context (mrep urep orep : htbl_t → gmap hkey Z → Prop).
Context `{!PutTable mrep} `{!Table urep} `{!PutTable orep}.
Context `{!KernelOk}.

(** The datagrams [ds] are data messages of the member [i] that carry the
    numbered payloads [xs], which fit the messages of the daemon. *)
Definition carries (cap i : Z) : list (list Z) → list (Z * list Z) → Prop :=
  Forall2 (fun d x => is_data d x.1 i x.2 ∧ 0 ≤ x.1 < 2 ^ 32 ∧
                      20 + Z.of_nat (length x.2) ≤ cap ∧ Z.of_nat (length x.2) < 2 ^ 16).

(** The number a member's next message must carry. *)
Definition expects (m : rmc_member) (next : Z) : Prop :=
  0 ≤ sequence m < 2 ^ 64 ∧ u64 (sequence m + 1) = next.

Lemma expects_next m next : expects m next → next ≠ 0 → sequence m = next - 1.
Proof.
  intros [Hm <-] Hn. destruct (decide (sequence m = 2 ^ 64 - 1)) as [E|E].
  - by rewrite E in Hn.
  - rewrite u64_id by lia. lia.
Qed.

Lemma expects_first m : expects m 0 → sequence m = 2 ^ 64 - 1.
Proof. intros [Hm E]. unfold u64 in E. destruct (Z.eq_dec (sequence m) (2 ^ 64 - 1)); [done|]. rewrite Z.mod_small in E; lia. Qed.

Lemma recv_fifo cap now from ptr i : cap < 2 ^ 63 → (length from ≤ 16)%nat →
  ∀ ds xs, carries cap i ds xs → ∀ next s free m,
  pool_inv srep cap s free → Z.of_nat (length free + length xs) ≤ INT_MAX →
  registered mrep urep s (u32 i) ptr m ∅ → expects m next →
  match Fifo.run next xs with
  | Some (next', out) =>
      ∃ s' m', recv_all now from ds s = Ok (tt, s') ∧
        ipc_out s' = ipc_out s ++ concat (frame from <$> out) ∧
        registered mrep urep s' (u32 i) ptr m' ∅ ∧ expects m' next'
  | None => ∃ f, recv_all now from ds s = Fault f ∧ overrun f
  end.
Proof.
  intros Hcap Hfrom ds xs. induction 1 as [|d [q p] ds xs (Hd & Hq & Hc & H16) _ IH];
    intros next s free m Hp Hlen Hreg Hm; cbn [Fifo.run recv_all].
  { exists s, m. by rewrite app_nil_r. }
  cbn [fst snd length] in *. pose proof (Fifo.judge_spec next q) as Hj.
  assert (Hu : u32 q = q) by (apply u32_id; lia).
  destruct (Fifo.judge next q).
  - subst q. destruct (data_next srep mrep urep cap s free now d from next i p ptr m ∅)
      as (s1 & t & E & Hout & Hreg1 & Hp1 & _ & _); try done; [by rewrite Hu; apply Hm|].
    rewrite (bind_run _ _ _ _ _ E), Hu in *.
    assert (Z.of_nat (length (tail free) + length xs) ≤ INT_MAX) by (destruct free; cbn in *; lia).
    specialize (IH (next + 1) s1 _ _ Hp1 ltac:(done) Hreg1).
    destruct (Fifo.run (next + 1) xs) as [[n' out]|]; cbn.
    + destruct IH as (s' & m' & E' & Hout' & Hr & He); [split; cbn; [lia|apply u64_id; lia]|].
      exists s', m'. split; [done|]. split; [|done].
      rewrite Hout', Hout. unfold frame at 2. by rewrite <- !app_assoc.
    + apply IH. split; cbn; [lia|apply u64_id; lia].
  - pose proof (expects_next m next Hm) as Hs.
    destruct (data_old srep mrep urep cap s free now d from q i p ptr m ∅)
      as (s1 & a & E & Hsame & Hp1); try done; try lia.
    { destruct Hm as [_ ->]. lia. }
    { destruct (decide (next = 0)) as [->|]; [rewrite (expects_first m Hm)|]; lia. }
    rewrite (bind_run _ _ _ _ _ E).
    assert (Z.of_nat (length (a :: tail free) + length xs) ≤ INT_MAX) by (destruct free; cbn in *; lia).
    specialize (IH next s1 _ m Hp1 ltac:(done) (registered_same mrep urep _ _ _ _ _ _ Hsame Hreg) Hm).
    assert (ipc_out s1 = ipc_out s) as Ho by (by rewrite Hsame). by rewrite Ho in IH.
  - pose proof (expects_next m next Hm ltac:(lia)) as Hs. pose proof (proj1 Hm) as Hrange.
    destruct (data_gap srep mrep urep cap s free now d from q i p ptr m ∅) as (f & E & Hf); try done; try lia.
    exists f. split; [by apply bind_fault|done].
Qed.

(** C2: The receiver is a first-in first-out channel without duplicates. Over
    any sequence of data datagrams of one registered member, duplicates and
    late ones included, the daemon's handler writes to the application exactly
    the frames of the messages that the abstract receiver delivers, once each
    and in order, and expects what it expects; and where the abstract receiver
    finds a gap the daemon is stopped by the overrun of its negative
    acknowledgement. The abstract receiver finds no gap while it expects the
    number 0: a later message that arrives first is ignored, and so it is by
    the daemon, which asks for nothing. *)
Theorem recv_refines_fifo cap now from ptr i ds xs next s free m :
  cap < 2 ^ 63 → (length from ≤ 16)%nat → carries cap i ds xs →
  pool_inv srep cap s free → Z.of_nat (length free + length xs) ≤ INT_MAX →
  registered mrep urep s (u32 i) ptr m ∅ → expects m next →
  match Fifo.run next xs with
  | Some (next', out) =>
      ∃ s' m', recv_all now from ds s = Ok (tt, s') ∧
        ipc_out s' = ipc_out s ++ concat (frame from <$> out) ∧
        registered mrep urep s' (u32 i) ptr m' ∅ ∧ expects m' next'
  | None => ∃ f, recv_all now from ds s = Fault f ∧ overrun f
  end.
Proof. intros. by eapply recv_fifo. Qed.

(** ** Over a network that duplicates *)

(** The network delivers the datagrams at the places [js] of what was sent. *)
Definition relay (js : list nat) (ds : list (list Z)) : list (list Z) := omap (ds !!.) js.

Lemma data_from_lookup i ds : ∀ k ps j d, data_from k i ds ps → ds !! j = Some d →
  ∃ p, ps !! j = Some p ∧ is_data d (k + Z.of_nat j) i p.
Proof.
  induction ds as [|d0 ds IH]; intros k [|p ps] [|j] d; try done; cbn.
  - intros [Hd _] [= <-]. exists p. by rewrite Z.add_0_r.
  - intros [_ Hds] Hj. destruct (IH _ _ _ _ Hds Hj) as (p' & Hp & Hd). exists p'. split; [done|].
    by replace (k + Z.of_nat (S j)) with (k + 1 + Z.of_nat j) by lia.
Qed.

Lemma data_from_length i ds : ∀ k ps, data_from k i ds ps → length ds = length ps.
Proof. induction ds as [|d ds IH]; intros k [|p ps]; try done. intros [_ ?]. cbn. f_equal. by eapply IH. Qed.

Lemma relay_carries cap k i ds ps js :
  data_from k i ds ps → Forall (fits cap) ps → 0 ≤ k → k + Z.of_nat (length ps) ≤ 2 ^ 32 →
  Forall (fun j => (j < length ps)%nat) js →
  carries cap i (relay js ds) (Fifo.arrivals k js ps).
Proof.
  intros Hd Hfit Hk Hkl. induction 1 as [|j js Hj _ IH]; [constructor|]. cbn.
  pose proof (data_from_length _ _ _ _ Hd) as Hl.
  destruct (lookup_lt_is_Some_2 ds j) as [d Hdj]; [lia|].
  destruct (data_from_lookup _ _ _ _ _ _ Hd Hdj) as (p & Hp & Hdp).
  rewrite Hdj, Hp. cbn. constructor; [|exact IH]. cbn. split; [done|]. split; [lia|].
  eapply Forall_lookup_1 in Hp; [|exact Hfit]. split; [apply Hp|by eapply fits_short].
Qed.

Lemma arrivals_length {A} k js (ps : list A) : (length (Fifo.arrivals k js ps) ≤ length js)%nat.
Proof. induction js as [|j js IH]; [done|]. cbn. destruct (ps !! j); cbn; unfold Fifo.arrivals in IH; lia. Qed.

(** Both daemons and the network between them. *)
Lemma relayed capA capB A B freeA freeB mo ps now from ptr m js :
  pool_inv srep capA A freeA → pool_inv srep capB B freeB → capB < 2 ^ 63 →
  Forall (fits capA) ps → Forall (fits capB) ps → link_up →
  orep (outmsgbuf (cb A)) mo → 0 ≤ sequence (self A) →
  (∀ j, 0 ≤ j < Z.of_nat (length ps) → mo !! KInt (i32 (sequence (self A) + j)) = None) →
  sequence (self A) + Z.of_nat (length ps) ≤ 2 ^ 32 → Z.of_nat (size mo + length ps) ≤ INT_MAX →
  registered mrep urep B (u32 (mem_id (self A))) ptr m ∅ → expects m (sequence (self A)) →
  ipc_out B = [] → length from = 16%nat →
  Fifo.no_gap 0 js = true → Forall (fun j => (j < length ps)%nat) js →
  (∀ j, (j < length ps)%nat → j ∈ js) → Z.of_nat (length freeB + length js) ≤ INT_MAX →
  ∃ A' ds B', send_all ps A = Ok (tt, A') ∧ sent A' = sent A ++ (Packet ToGroup <$> ds) ∧
    recv_all now from (relay js ds) B = Ok (tt, B') ∧ ipc_out B' = concat (frame from <$> ps).
Proof.
  intros HpA HpB Hcap HfA HfB Hlink Ho Hseq0 Hmo Hseq Hsz Hreg Hnext Hout Hfrom Hg Hjs Hall Hfree.
  destruct (send_all_spec srep orep capA ps A freeA mo) as (ds & A' & EA & HsA & Hd & _); try done.
  set (k := sequence (self A)) in *.
  pose proof (relay_carries capB _ _ _ _ js Hd HfB Hseq0 Hseq Hjs) as Hc.
  pose proof (arrivals_length k js ps) as Hal.
  epose proof (recv_fifo capB now from ptr _ Hcap ltac:(lia) _ _ Hc k B freeB m HpB ltac:(lia) Hreg Hnext) as Hrun.
  destruct (Fifo.run_complete k ps js Hg Hjs Hall) as [n E]. rewrite E in Hrun.
  destruct Hrun as (B' & m' & EB & HoB & _ & _). rewrite Hout, app_nil_l in HoB.
  exists A', ds, B'. done.
Qed.

(** End to end over a network that duplicates: what an application sends,
    in messages that fit, is what the application at the other end reads, the
    same messages, complete, in order and each exactly once, when the network
    delivers every datagram at least once and none before its predecessors,
    however many late copies it adds. *)
Theorem duplicating_network `{Reader} `{!ReaderOk} capA capB A B freeA freeB mo ps now from ptr m len js :
  pool_inv srep capA A freeA → pool_inv srep capB B freeB → capB < 2 ^ 63 →
  Forall (fits capA) ps → Forall (fits capB) ps → link_up →
  orep (outmsgbuf (cb A)) mo → 0 ≤ sequence (self A) →
  (∀ j, 0 ≤ j < Z.of_nat (length ps) → mo !! KInt (i32 (sequence (self A) + j)) = None) →
  sequence (self A) + Z.of_nat (length ps) ≤ 2 ^ 32 → Z.of_nat (size mo + length ps) ≤ INT_MAX →
  registered mrep urep B (u32 (mem_id (self A))) ptr m ∅ → expects m (sequence (self A)) →
  ipc_out B = [] → length from = 16%nat → Forall (fun p => Z.of_nat (length p) ≤ len) ps →
  Fifo.no_gap 0 js = true → Forall (fun j => (j < length ps)%nat) js →
  (∀ j, (j < length ps)%nat → j ∈ js) → Z.of_nat (length freeB + length js) ≤ INT_MAX →
  ∃ A' ds B', send_all ps A = Ok (tt, A') ∧ sent A' = sent A ++ (Packet ToGroup <$> ds) ∧
    recv_all now from (relay js ds) B = Ok (tt, B') ∧
    ipc_out B' = concat (frame from <$> ps) ∧
    r_data <$> read_all (length ps) len (ipc_out B') = ps.
Proof.
  intros HpA HpB Hcap HfA HfB Hlink Ho Hseq0 Hmo Hseq Hsz Hreg Hnext Hout Hfrom Hlen Hg Hjs Hall Hfree.
  destruct (relayed capA capB A B freeA freeB mo ps now from ptr m js) as (A' & ds & B' & EA & HsA & EB & HoB); try done.
  exists A', ds, B'. do 4 (split; [done|]). rewrite HoB, <- (app_nil_r (concat _)).
  apply read_all_frames; [done|]. apply Forall_and. split; [|done].
  eapply Forall_impl; [exact HfA|]. intros p ?%fits_short. lia.
Qed.
End Daemon.
