(* ===== verification/RmcastSockets.v ===== *)
(** * The sockets of the daemon

    [init_ipc_sockets] opens the two ends of the channel between the application
    and the daemon, [rmcast_join_on] the multicast socket.  The theorems say
    which descriptors are open afterwards on every path. *)

From S2P Require Import Prelude StateMonad Machine Heap Pool Hashtable Mqueue Wire RmcastState Rmcast RmcastApi.
From S2P Require Import RmcastPool.

(** A state that differs in its sockets only. *)
Definition with_net (s : rmc) (n : netcb) : rmc := s <| cb := cb s <| net := n |> |>.

Lemma with_net_net s n : net (cb (with_net s n)) = n.
Proof. done. Qed.
Lemma with_net_id s : with_net s (net (cb s)) = s.
Proof. by destruct s as [[] ? ? ? ? ?]. Qed.

Lemma bind_set_net {B} f (k : unit → M B) s n :
  (set_net f ≫= k) (with_net s n) = k tt (with_net s (f n)).
Proof. done. Qed.

Lemma bind_set_net_cb {B} f (k : unit → M B) s :
  (set_net f ≫= k) s = k tt (s <| cb := cb s <| net := f (net (cb s)) |> |>).
Proof. done. Qed.

Lemma bind_open_fd {B} r (k : Z → M B) s n :
  (open_fd r ≫= k) (with_net s n) =
    k r (with_net s (if r <? 0 then n else n <| fds := r :: fds n |>)).
Proof. unfold open_fd. by destruct (r <? 0). Qed.

Lemma bind_close {B} fd (k : unit → M B) s n :
  (close fd ≫= k) (with_net s n) =
    k tt (with_net s (n <| fds := filter (λ x, x ≠ fd) (fds n) |>)).
Proof. done. Qed.

Lemma close_both_run svr cli r s n :
  close_both svr cli r (with_net s n) =
    Ok (r, with_net s (n <| fds := filter (λ x, x ≠ cli) (filter (λ x, x ≠ svr) (fds n)) |>)).
Proof. done. Qed.

(** Closing what was opened last. *)
Lemma filter_fresh (fd : Z) (l : list Z) : fd ∉ l → filter (λ x, x ≠ fd) l = l.
Proof.
  induction l as [|a l IH]; [done|]. rewrite not_elem_of_cons. intros [Hne Hl].
  rewrite filter_cons_True by done. f_equal. auto.
Qed.

Lemma filter_last (fd : Z) (l : list Z) : filter (λ x, x ≠ fd) (fd :: l) = filter (λ x, x ≠ fd) l.
Proof. apply filter_cons_False. naive_solver. Qed.

Lemma filter_both (svr cli : Z) (l : list Z) :
  svr ∉ l → cli ∉ l → filter (λ x, x ≠ cli) (filter (λ x, x ≠ svr) (cli :: svr :: l)) = l.
Proof.
  intros Hs Hc. destruct (decide (cli = svr)) as [->|Hne].
  - by rewrite !filter_last, !(filter_fresh svr l).
  - rewrite filter_cons_True by done.
    by rewrite !filter_last, (filter_fresh svr l), filter_fresh.
Qed.

Create Rewrite HintDb sockets.
#[global] Hint Rewrite @bind_set_net @bind_open_fd @bind_close close_both_run : sockets.

(** ** The channel to the application *)

(** Every call succeeds. *)
Definition ipc_up (k : ipc_calls) : bool :=
  forallb (λ r, negb (r <? 0)) [c_socket1 k; c_reuse1 k; c_bind1 k; c_listen k; c_socket2 k;
                                c_reuse2 k; c_bind2 k; c_connect k; c_accept k].

(** The sockets after [init_ipc_sockets] has returned [ret]. *)
Record ipc_result (k : ipc_calls) (n : netcb) (ret : Z) (n' : netcb) : Prop := {
  ir_ok : ipc_up k = true → ret = 0 ∧ fds n' = c_accept k :: c_socket2 k :: c_socket1 k :: fds n ∧
            ipc_svr_sock n' = c_socket1 k ∧ ipc_cli_sock n' = c_socket2 k ∧ ipc_sock n' = c_accept k ∧
            maxrcv n' = c_socket2 k + 1 ∧ maxsock n' = c_accept k + 1;
  ir_error : ipc_up k = false → ret < 0 ∧ fds n' = fds n;
  ir_initialized : initialized n' = initialized n
}.

Lemma ipc_result_error k n ret n' :
  ipc_up k = false → ret < 0 → fds n' = fds n → initialized n' = initialized n →
  ipc_result k n ret n'.
Proof. intros E Hr Hf Hi. split; [by rewrite E|done..]. Qed.

(** Only the descriptors and the mark matter in the state before. *)
Lemma ipc_result_ext k n1 n2 ret n' :
  fds n1 = fds n2 → initialized n1 = initialized n2 → ipc_result k n1 ret n' → ipc_result k n2 ret n'.
Proof. intros Ef Ei [Hok Herr Hini]. split; rewrite <- ?Ef, <- ?Ei; done. Qed.

Ltac ipc_up_eval :=
  unfold ipc_up; cbn [forallb];
  repeat match goal with E : (_ <? 0) = _ |- _ => rewrite E; clear E end;
  cbn; rewrite ?andb_false_r.

(** The next call failed, or did not. *)
Ltac sock_case r :=
  destruct (r <? 0) eqn:?;
    [eexists _, _; autorewrite with sockets; split; [reflexivity|]; apply ipc_result_error;
     [by ipc_up_eval
     |lia
     |cbn [fds setter netcb_eta]; rewrite ?filter_last, ?filter_both, ?filter_fresh by done; done
     |reflexivity]
    |autorewrite with sockets].

Lemma init_ipc_run k s :
  initialized (net (cb s)) ≠ 12345 → c_socket1 k ∉ fds (net (cb s)) → c_socket2 k ∉ fds (net (cb s)) →
  ∃ ret n, init_ipc_sockets k s = Ok (ret, with_net s n) ∧ ipc_result k (net (cb s)) ret n.
Proof.
  intros Hi H1' H2'. replace (init_ipc_sockets k s) with (init_ipc_sockets k (with_net s (net (cb s))))
    by (by rewrite with_net_id). set (n := net (cb s)) in *.
  unfold init_ipc_sockets. rewrite bind_gets, with_net_net, (proj2 (Z.eqb_neq _ _)) by done.
  autorewrite with sockets. sock_case (c_socket1 k). sock_case (c_reuse1 k).
  cbv zeta. sock_case (c_bind1 k). sock_case (c_listen k). sock_case (c_socket2 k).
  sock_case (c_reuse2 k). sock_case (c_bind2 k). sock_case (c_connect k). sock_case (c_accept k).
  eexists _, _. split; [reflexivity|]. split; [done| |done]. by ipc_up_eval.
Qed.

(** When [init_ipc_sockets] fails it leaves no descriptor open that it
    opened; when every call succeeds the three descriptors are recorded and
    [maxsock] and [maxrcv] are the limits [select] needs.  In both cases the mark
    [initialized], which should say that this was done, is what it was. *)
Theorem init_ipc_sockets_correct k s :
  initialized (net (cb s)) ≠ 12345 → c_socket1 k ∉ fds (net (cb s)) → c_socket2 k ∉ fds (net (cb s)) →
  ∃ ret n, init_ipc_sockets k s = Ok (ret, with_net s n) ∧ ipc_result k (net (cb s)) ret n.
Proof. apply init_ipc_run. Qed.

(** ** Joining a group *)

(** The daemon's sockets can be passed to [select]. *)
Definition selectable (n : netcb) : Prop := ipc_sock n < maxsock n ∧ mcast_sock n < maxsock n.

Definition activate (s : rmc) : rmc := s <| cb := cb s <| active := 1 |> |>.

Lemma init_mcast_run k s n :
  0 ≤ j_socket k → 0 ≤ j_reuse k → 0 ≤ j_loop k →
  init_mcast_socket k (with_net s n) =
    Ok (j_bind k, with_net s (n <| fds := j_socket k :: fds n |> <| mcast_sock := j_socket k |>
                                <| maxsock := Z.max (maxsock n) (j_socket k + 1) |>)).
Proof.
  intros Hs Hr Hl. unfold init_mcast_socket. autorewrite with sockets.
  rewrite !(proj2 (Z.ltb_ge _ 0)) by done. autorewrite with sockets. rewrite !bind_gets.
  cbn [maxsock setter netcb_eta]. destruct (Z.leb_spec (maxsock n) (j_socket k)).
  - by rewrite Z.max_r by lia.
  - by rewrite Z.max_l by lia.
Qed.

(** A host that is in no group joins one, and its daemon is started, whatever
    [bind] returned for the multicast socket; a host that is in a group keeps it,
    but its interface is replaced. *)
Theorem rmcast_join_correct grp prt iface k s :
  0 ≤ j_socket k → 0 ≤ j_reuse k → 0 ≤ j_loop k → 0 ≤ j_ttl k → 0 ≤ j_add k →
  ipc_sock (net (cb s)) < maxsock (net (cb s)) →
  (active (cb s) = 0 → ∃ n, rmcast_join_on grp prt iface k s =
      Ok (j_thread k, activate (with_net s n)) ∧
      selectable n ∧ mcast_sock n = j_socket k ∧ fds n = j_socket k :: fds (net (cb s)) ∧
      group n = grp ∧ port n = prt ∧ mcast_addr n = j_inet_addr k) ∧
  (active (cb s) ≠ 0 → rmcast_join_on grp prt iface k s =
      Ok (-1, with_net s (net (cb s) <| mcast_interface := default INADDR_ANY iface |>))).
Proof.
  intros Hs Hr Hl Ht Ha Hsel.
  replace (rmcast_join_on grp prt iface k s)
    with (rmcast_join_on grp prt iface k (with_net s (net (cb s)))) by (by rewrite with_net_id).
  unfold rmcast_join_on. autorewrite with sockets. rewrite bind_gets. cbn [active cb with_net setter rmc_eta rmcastcb_eta].
  split; intros E.
  - rewrite E. change (truthy 0) with false. cbv iota.
    rewrite (bind_run _ _ _ _ _ (init_mcast_run k s _ Hs Hr Hl)).
    rewrite !(proj2 (Z.ltb_ge _ 0)) by done. autorewrite with sockets. eexists. split; [reflexivity|].
    unfold selectable. cbn. repeat split; lia.
  - by rewrite truthy_true.
Qed.
