(* ===== verification/RmcastInit.v ===== *)
(** * The daemon: the state [rmcast_init] sets up *)

From Stdlib Require Import SpecFloat.
From S2P Require Import Prelude StateMonad Machine Heap Pool Hashtable HashtableRepr HashtableProofs.
From S2P Require Import HashtableSpec Mqueue MqueueRepr MqueueProofs MqueueSpec Interfaces.
From S2P Require Import Wire RmcastState Rmcast RmcastApi RmcastPool RmcastSockets.

(** Computes the fields of a state that is given by its constructors. *)
Ltac st_simpl :=
  cbv beta iota delta [setter cb self mems msgs sent ipc_out active version id host bufmsgq inmsgq
    members membersq outmsgbuf oldest_seq hb_seq_p1 hb_seq_p2 hb_seq_p3 hb_ack msg_per_sec
    msg_this_sec hbeat_rate bufsize ucast_addr net initialized ipc_svr_sock ipc_cli_sock ipc_sock ipc_port
    mcast_sock mcast_port maxsock maxrcv group port mcast_addr mcast_interface discard_size fds].

Section Init.
Context `{Uninit htbl_entry} `{Uninit mqueue_item} `{Kernel} `{Fresh}.

Lemma htbl_init_unreleased n b :
  0 < n ≤ INT_MAX → in_int (3 * b) → ∃ t, htbl_init n b = Ok (0, t) ∧ unreleased t ∅.
Proof.
  intros Hn Hb. destruct (htbl_init_holds n b Hn Hb) as (t & css & l & E & Hh & Hnil & _ & _ & _ & _ & Hex).
  exists t. split; [done|]. exists css, l. by rewrite Hnil.
Qed.

(** The loop [for(ret=0; ret < nbufs; ret++) release_msg(new_msg())]. *)
Lemma fill_pool cap s n :
  pool_inv qlifo cap s [] → bufsize (cb s) = cap → 0 ≤ n ≤ INT_MAX →
  ∃ s' free, for_m 0 n (fun _ => msg ← new_msg; release_msg msg) s = Ok (tt, s') ∧
    same_but_pool s s' ∧ pool_inv qlifo cap s' free ∧ Z.of_nat (length free) = n ∧
    dom (cells (msgs s')) = list_to_set free ∪ dom (cells (msgs s)).
Proof.
  intros Hp Hc Hn. unfold for_m.
  destruct (for_range_inv (fun j us => ∃ free, same_but_pool s us.2 ∧ pool_inv qlifo cap us.2 free ∧
      Z.of_nat (length free) = j ∧ dom (cells (msgs us.2)) = list_to_set free ∪ dom (cells (msgs s)))
      0 n (fun i us => (msg ← new_msg; release_msg msg) us.2) (tt, s))
    as ([u s'] & E & free & Hs & Hp' & Hl & Hd).
  - lia.
  - exists []. split; [by destruct s as [[] ? ? ? ? ?]|]. split; [done|]. split; [done|set_solver].
  - intros j [u s1] Hj (free & Hs & Hp1 & Hl & Hd). cbn [snd] in *.
    assert (Hbs : bufsize (cb s1) = cap) by (by rewrite Hs).
    destruct (new_msg_spec s1) as (x & E & _ & Hx); [apply Hp1|rewrite Hbs; pose proof (pi_cap _ _ _ _ Hp);
      pose proof (pi_buf _ _ _ _ Hp); lia|].
    rewrite (bind_run _ _ _ _ _ E). rewrite Hbs in Hx.
    set (s2 := s1 <| msgs := h_new (msgs s1) x |>).
    assert (Hw : heap_wf (msgs s1)) by apply Hp1.
    assert (Hnin : brk (msgs s1) ∉ free).
    { intros Hin. destruct (pi_ok _ _ _ _ Hp1 _ Hin) as (y & Hy & _).
      eapply heap_wf_fresh; [exact Hw| |reflexivity]. by eexists. }
    assert (Hp2 : pool_inv qlifo cap s2 free).
    { destruct Hp1 as [? ? ? Hok ? ?]. split; try done; [by apply heap_wf_new|].
      intros a Ha. destruct (Hok a Ha) as (y & Hy & Hyok). exists y. split; [|done].
      cbn. rewrite lookup_h_new_ne; [done|]. intros <-. done. }
    destruct (release_msg_spec qlifo cap s2 free (brk (msgs s1)) x Hp2) as (s3 & E3 & Hs3 & Hm3 & Hp3);
      [apply lookup_h_new|done|done|lia|].
    exists (tt, s3). split; [done|]. exists (brk (msgs s1) :: free). cbn.
    split; [|split; [done|split; [cbn; lia|rewrite Hm3; unfold s2, h_new; cbn; rewrite dom_insert_L; set_solver]]].
    eapply same_but_pool_trans; [exact Hs|]. eapply same_but_pool_trans; [|exact Hs3].
    unfold s2. by destruct s1 as [[] ? ? ? ? ?].
  - exists s', free. destruct u. done.
Qed.

Lemma rmcast_init_ok s mms nbufs rate ack name addr rnd k :
  heap_wf (msgs s) → mms + SIZEOF_HDR ≤ INT_MAX → nbufs ≤ INT_MAX →
  initialized (net (cb s)) ≠ 12345 → c_socket1 k ∉ fds (net (cb s)) → c_socket2 k ∉ fds (net (cb s)) →
  ∃ ret s' free, rmcast_init mms nbufs rate ack (Some name) (Some addr) rnd k s = Ok (ret, s') ∧
    ipc_result k (net (cb s)) ret (net (cb s')) ∧
    pool_inv qlifo (Z.max 128 mms + SIZEOF_HDR) s' free ∧
    Z.of_nat (length free) = Z.max 20 nbufs ∧
    plain (members (cb s')) ∅ ∧ qplain (membersq (cb s')) [] ∧ unreleased (outmsgbuf (cb s')) ∅ ∧
    sequence (self s') = 0 ∧ mem_id (self s') = i64 addr ∧ session (self s') = rnd ∧
    0 ≤ hbeat_rate (cb s') ≤ 5 ∧ sent s' = sent s ∧ ipc_out s' = ipc_out s ∧ mems s' = mems s ∧
    active (cb s') = active (cb s) ∧ qlifo (inmsgq (cb s')) [] ∧
    dom (cells (msgs s')) = list_to_set free ∪ dom (cells (msgs s)) ∧
    host (cb s') = name ∧ hb_ack (cb s') = ack ∧ hb_seq_p2 (cb s') = 0 ∧ oldest_seq (cb s') = oldest_seq (cb s) ∧
    lost (self s') = 0 ∧ last_hbeat (self s') = Timeval 0 0.
Proof.
  intros Hw Hm Hn Hini Hf1 Hf2. unfold rmcast_init.
  destruct s as [[? ? ? ? ? ? ? ? ? ? ? ? ? ? ? ? ? ? ? ?] ? ? ? ? ?].
  destruct (mqueue_init_ok 100) as (q1 & E1 & Hq1 & _ & _); [int_lia|].
  destruct (htbl_init_unreleased 50 20) as (t1 & E2 & Ht1); [int_lia..|].
  destruct (mqueue_init_ok 20) as (q2 & E3 & Hq2 & _ & _); [int_lia|].
  destruct (htbl_init_plain 20) as (t2 & E4 & Ht2); [int_lia|].
  destruct (mqueue_init_ok 0) as (q3 & E5 & _ & _ & Hq3); [int_lia|].
  rewrite bind_set_cb. st_simpl. cbv zeta. rewrite bind_set_cb. st_simpl.
  rewrite (bind_lift _ _ _ _ E1), bind_set_cb. st_simpl.
  rewrite (bind_lift _ _ _ _ E2), bind_set_cb. st_simpl.
  rewrite (bind_lift _ _ _ _ E3), bind_set_cb. st_simpl.
  rewrite (bind_lift _ _ _ _ E4), bind_set_cb. st_simpl.
  rewrite (bind_lift _ _ _ _ E5), bind_set_cb. st_simpl.
  clear E1 E2 E3 E4 E5.
  assert ((if mms <? 128 then 128 else mms) = Z.max 128 mms) as -> by (ztest; lia).
  assert ((if nbufs <? 20 then 20 else nbufs) = Z.max 20 nbufs) as -> by (ztest; lia).
  rewrite i32_id by (unfold SIZEOF_HDR in *; int_lia).
  match goal with |- context [(for_m _ _ _ ≫= _) ?st] => set (s1 := st) end.
  destruct (fill_pool (Z.max 128 mms + SIZEOF_HDR) s1 (Z.max 20 nbufs)) as (s2 & free & E & Hs & Hp & Hl & Hd);
    [|done|int_lia|].
  { constructor; [exact Hw|exact Hq1|constructor|by intros ? ?%elem_of_nil|..];
      cbn; unfold SIZEOF_HDR in *; int_lia. }
  unfold same_but_pool in Hs. destruct s2 as [[? ? ? ? ? ? ? ? ? ? ? ? ? ? ? ? ? ? ? ?] ? ? ? ? ?].
  unfold s1 in Hs. revert Hs. st_simpl. intros Hs. injection Hs; intros; subst; clear Hs.
  rewrite (bind_run _ _ _ _ _ E), bind_set_cb. st_simpl.
  rewrite bind_set_net_cb. st_simpl. rewrite bind_set_cb. st_simpl.
  rewrite (bind_lift _ _ _ addr) by done. rewrite bind_set_cb.
  destruct (htbl_init_plain 10) as (t3 & E6 & _); [int_lia|].
  erewrite (bind_lift (rmcast_member_init _ _ _)) by (unfold rmcast_member_init; rewrite E6; reflexivity).
  rewrite bind_modify. rewrite bind_set_net_cb. st_simpl. clear E6.
  match goal with |- context [init_ipc_sockets k ?st] => destruct (init_ipc_run k st) as (ret & n & -> & Hr) end;
    [exact Hini|exact Hf1|exact Hf2|].
  eexists ret, _, free. split; [reflexivity|]. split; [by eapply ipc_result_ext; [..|exact Hr]|].
  split; [eapply pool_inv_ext; [..|exact Hp]; reflexivity|].
  split; [exact Hl|]. cbn. do 3 (split; [by auto|]). do 3 (split; [done|]).
  split; [unfold clamp_rate; ztest; cbn; lia|]. done.
Qed.

(** C17: [rmcast_init] sets up a daemon with at least 20 messages of the
    requested size (128 bytes at least), all of them free, with empty tables and
    queues, sequence number 0 and a heartbeat interval of at most 5 seconds. *)
Theorem rmcast_init_correct s mms nbufs rate ack name addr rnd k :
  heap_wf (msgs s) → mms + SIZEOF_HDR ≤ INT_MAX → nbufs ≤ INT_MAX →
  initialized (net (cb s)) ≠ 12345 → c_socket1 k ∉ fds (net (cb s)) → c_socket2 k ∉ fds (net (cb s)) →
  ∃ ret s' free, rmcast_init mms nbufs rate ack (Some name) (Some addr) rnd k s = Ok (ret, s') ∧
    ipc_result k (net (cb s)) ret (net (cb s')) ∧
    pool_inv qlifo (Z.max 128 mms + SIZEOF_HDR) s' free ∧
    Z.of_nat (length free) = Z.max 20 nbufs ∧
    plain (members (cb s')) ∅ ∧ qplain (membersq (cb s')) [] ∧ unreleased (outmsgbuf (cb s')) ∅ ∧
    sequence (self s') = 0 ∧ mem_id (self s') = i64 addr ∧ session (self s') = rnd ∧
    0 ≤ hbeat_rate (cb s') ≤ 5 ∧ sent s' = sent s ∧ ipc_out s' = ipc_out s ∧ mems s' = mems s.
Proof.
  intros Hw Hm Hn Hi Hs1 Hs2.
  destruct (rmcast_init_ok s mms nbufs rate ack name addr rnd k Hw Hm Hn Hi Hs1 Hs2)
    as (ret & s' & free & E & R1 & R2 & R3 & R4 & R5 & R6 & R7 & R8 & R9 & R10 & R11 & R12 & R13 & _).
  exists ret, s', free. split; [exact E|]. clear E. repeat (split; [assumption|]). assumption.
Qed.
End Init.
