(* ===== verification/RmcastInvariant.v ===== *)
(** * The daemon: what every turn preserves

    A program logic for the monad of the daemon: [keeps m Q] says that [m], when
    it returns, preserves the invariant and returns a value with property [Q].
    One rule per primitive, collected in the hint database [daemon], goes through
    every handler. *)

From Stdlib Require Import SpecFloat.
From S2P Require Import Prelude StateMonad Machine Heap Pool Hashtable HashtableRepr Mqueue Wire RmcastState.
From S2P Require Import Rmcast RmcastApi RmcastSockets.

(** A message whose [size] is the size of its buffer (a size that is negative
    after an overflow counts as 0). *)
Definition sized (x : rmc_msg) : Prop := Z.to_nat (m_size x) = length (m_buf x).

(** [who]: the address of this host and its session, once they are known. *)
Record daemon_inv (who : option (Z * Z)) (s : rmc) : Prop := {
  di_sized : map_Forall (λ _ x, sized x) (cells (msgs s));
  di_rate : 0 ≤ hbeat_rate (cb s) ≤ 5;
  di_self : ∀ me sess, who = Some (me, sess) → mem_id (self s) = me ∧ session (self s) = sess
}.

Section Keeps.
Context `{Uninit htbl_entry} `{Uninit mqueue_item} `{Kernel} `{Fresh}.
Context (who : option (Z * Z)).
Local Abbreviation inv := (daemon_inv who).

Definition keeps {A} (m : M A) (Q : A → Prop) : Prop :=
  ∀ s a s', inv s → m s = Ok (a, s') → inv s' ∧ Q a.
Definition any {A} (a : A) : Prop := True.

(** ** Rules *)

Lemma keeps_bind {A B} (m : M A) (k : A → M B) Q R :
  keeps m Q → (∀ a, Q a → keeps (k a) R) → keeps (m ≫= k) R.
Proof.
  intros Hm Hk s b s' Hs E. unfold mbind, M_bind in E. destruct (m s) as [[a s1]|] eqn:Em; [|done].
  destruct (Hm _ _ _ Hs Em) as [Hs1 Ha]. by eapply Hk.
Qed.

Lemma keeps_ret {A} (a : A) (Q : A → Prop) : Q a → keeps (mret a) Q.
Proof. intros Ha s b s' Hs E. injection E as <- <-. done. Qed.

Lemma keeps_gets {A} (f : rmc → A) : keeps (gets f) any.
Proof. intros s b s' Hs E. injection E as <- <-. done. Qed.

Lemma keeps_lift {A} (r : res A) : keeps (lift r) any.
Proof. intros s b s' Hs E. unfold lift in E. destruct r; [|done]. by injection E as <- <-. Qed.

Lemma keeps_modify f : (∀ s, inv s → inv (f s)) → keeps (modify f) any.
Proof. intros Hf s b s' Hs E. injection E as <- <-. split; [auto|done]. Qed.

Lemma keeps_set_cb f :
  (∀ c, 0 ≤ hbeat_rate c ≤ 5 → 0 ≤ hbeat_rate (f c) ≤ 5) → keeps (set_cb f) any.
Proof. intros Hf. apply keeps_modify. intros s [Hz Hr Hi]. split; [done|by apply Hf|done]. Qed.

Lemma keeps_set_self f :
  (∀ m, mem_id (f m) = mem_id m ∧ session (f m) = session m) → keeps (set_self f) any.
Proof.
  intros Hf. apply keeps_modify. intros s [Hz Hr Hi].
  split; [done|done|]. cbn. destruct (Hf (self s)) as [-> ->]. done.
Qed.

Lemma keeps_for lo hi body : (∀ i, keeps (body i) any) → keeps (for_m lo hi body) any.
Proof.
  intros Hb s [] s' Hs E. split; [|done]. revert E Hs. unfold for_m, for_range.
  generalize (Z.to_nat (hi - lo)). intros n. revert lo s.
  induction n as [|n IH]; intros i s; cbn [for_n].
  - by intros [= ->].
  - intros E Hs. cbn in E. destruct (body i s) as [[[] s1]|] eqn:Eb; [|done].
    eapply IH; [exact E|]. by eapply Hb.
Qed.

(** Messages. *)
Lemma keeps_load_msg p : keeps (load_msg p) sized.
Proof.
  intros s x s' Hs E. unfold load_msg, h_load in E. destruct (p =? NULL); [done|].
  destruct (cells (msgs s) !! p) as [y|] eqn:Ey; [|done]. injection E as <- <-.
  split; [done|]. by eapply (di_sized _ _ Hs).
Qed.

Lemma inv_set_msg s p x : inv s → sized x → inv (s <| msgs := h_set (msgs s) p x |>).
Proof. intros [Hz Hr Hi] Hx. split; [by apply map_Forall_insert_2|done..]. Qed.

Lemma keeps_store_msg p x : sized x → keeps (store_msg p x) any.
Proof.
  intros Hx s u s' Hs E. unfold store_msg, h_store in E. destruct (p =? NULL); [done|].
  destruct (cells (msgs s) !! p); [|done]. injection E as <- <-. split; [by apply inv_set_msg|done].
Qed.

Lemma keeps_rd {A} p (f : list Z → res A) : keeps (rd p f) any.
Proof.
  eapply keeps_bind; [apply keeps_load_msg|intros x _; apply keeps_lift].
Qed.

(** A function on buffers that does not change their size. *)
Definition same_length (f : list Z → res (list Z)) : Prop :=
  ∀ b b', f b = Ok b' → length b' = length b.

Lemma buf_write_same off bs : same_length (fun b => buf_write b off bs).
Proof.
  intros b b' E. unfold buf_write, in_buf in E.
  destruct (Z.leb_spec 0 off), (Z.leb_spec (off + Z.of_nat (length bs)) (Z.of_nat (length b)));
    rewrite ?andb_false_r in E; try done.
  rewrite (proj2 (Z.leb_le 0 _)) in E by lia. injection E as <-. apply splice_length. lia.
Qed.

Lemma set_field_same off n z : same_length (fun b => set_field b off n z).
Proof. apply buf_write_same. Qed.

Lemma keeps_wr p f : same_length f → keeps (wr p f) any.
Proof.
  intros Hf s u s' Hs E. unfold wr in E. unfold mbind, M_bind in E.
  destruct (load_msg p s) as [[x s1]|] eqn:El; [|done].
  destruct (keeps_load_msg p s x s1 Hs El) as [Hs1 Hx].
  unfold lift in E. destruct (f (m_buf x)) as [b|] eqn:Eb; [|done].
  eapply keeps_store_msg; [|exact Hs1|exact E]. unfold sized in *. cbn. by rewrite (Hf _ _ Eb).
Qed.

(** Members: they are not part of the invariant. *)
Lemma keeps_load_mem p : keeps (load_mem p) any.
Proof.
  intros s x s' Hs E. unfold load_mem in E. destruct (h_load (mems s) p); [|done].
  by injection E as <- <-.
Qed.

Lemma inv_set_mems s h : inv s → inv (s <| mems := h |>).
Proof. by intros [Hz Hr Hi]; split. Qed.

Lemma keeps_store_mem p x : keeps (store_mem p x) any.
Proof.
  intros s u s' Hs E. unfold store_mem in E. destruct (h_store (mems s) p x); [|done].
  injection E as <- <-. split; [by apply inv_set_mems|done].
Qed.

Lemma keeps_upd_mem p f : keeps (upd_mem p f) any.
Proof. eapply keeps_bind; [apply keeps_load_mem|intros x _; apply keeps_store_mem]. Qed.

Lemma keeps_member_free p : keeps (rmcast_member_free p) any.
Proof.
  intros s u s' Hs E. unfold rmcast_member_free in E. destruct (h_free (mems s) p); [|done].
  injection E as <- <-. split; [by apply inv_set_mems|done].
Qed.

(** ** Automation *)

Create HintDb daemon.
#[local] Hint Resolve keeps_ret keeps_gets keeps_lift keeps_rd keeps_wr keeps_load_mem keeps_store_mem
  keeps_upd_mem keeps_member_free keeps_for keeps_set_cb keeps_set_self buf_write_same : daemon.
#[local] Hint Extern 1 (same_length _) => apply set_field_same : daemon.
#[local] Hint Extern 1 (any _) => exact I : daemon.
#[local] Hint Extern 4 (0 ≤ hbeat_rate _ ≤ 5) => assumption : daemon.
#[local] Hint Extern 4 (mem_id _ = _ ∧ session _ = _) => split; reflexivity : daemon.

(** One step through a program. *)
Ltac keep_step :=
  match goal with
  | |- keeps (load_msg _ ≫= _) _ => eapply keeps_bind; [apply keeps_load_msg|intros ? ?]
  | |- keeps (_ ≫= _) _ => apply (keeps_bind _ _ any); [|intros ? _]
  | |- keeps (match ?x with _ => _ end) _ => destruct x
  | |- keeps (for_m _ _ _) _ => apply keeps_for; intros ?
  | |- keeps (let _ := _ in _) _ => cbv zeta
  | |- keeps _ any => solve [auto with daemon]
  end.
Ltac keep := repeat keep_step.

(** ** Primitives *)

Lemma keeps_sendto p n d : keeps (sendto p n d) any.
Proof.
  unfold sendto. keep. apply keeps_modify. by intros s' [Hz Hr Hi]; split.
Qed.

Lemma sized_new (z i : Z) : sized (Msg z i (fresh_bytes (Z.to_nat z))).
Proof. unfold sized. cbn. by rewrite fresh_bytes_length. Qed.

Lemma keeps_new_msg : keeps new_msg any.
Proof.
  unfold new_msg. keep. apply keeps_modify. intros s [Hz Hr Hi].
  split; [|done..]. apply map_Forall_insert_2; [apply sized_new|done].
Qed.

Lemma keeps_alloc_msg : keeps alloc_msg any.
Proof. pose proof keeps_new_msg. unfold alloc_msg. keep. Qed.

Lemma keeps_release_msg p : keeps (release_msg p) any.
Proof. unfold release_msg. keep. Qed.
#[local] Hint Resolve keeps_sendto keeps_alloc_msg keeps_release_msg : daemon.

(** ** The handlers *)

Lemma keeps_nack_loop mem msg seq2 : ∀ fuel itr cnt, keeps (nack_loop fuel mem msg seq2 itr cnt) any.
Proof. induction fuel; intros itr cnt; cbn [nack_loop]; keep. Qed.
#[local] Hint Resolve keeps_nack_loop : daemon.

Lemma keeps_send_nack mem msg : keeps (send_nack mem msg) any.
Proof. unfold send_nack. keep. Qed.

Lemma keeps_clear_outbuf n : keeps (clear_outbuf n) any.
Proof. induction n; cbn [clear_outbuf]; keep. Qed.

Lemma keeps_write_acks msg data acks : keeps (write_acks msg data acks) any.
Proof. unfold write_acks. keep. Qed.
#[local] Hint Resolve keeps_send_nack keeps_clear_outbuf keeps_write_acks : daemon.

Lemma keeps_send_hbeat hname pgback len flags : keeps (send_hbeat hname pgback len flags) any.
Proof. unfold send_hbeat. keep. Qed.

Lemma keeps_ipc_send bs : keeps (ipc_send bs) any.
Proof. unfold ipc_send. keep. apply keeps_modify. by intros s [Hz Hr Hi]; split. Qed.
#[local] Hint Resolve keeps_send_hbeat keeps_ipc_send : daemon.

Lemma keeps_ipc_send_all msg nfound : ∀ fuel ret, keeps (ipc_send_all fuel msg nfound ret) any.
Proof. induction fuel; intros ret; cbn [ipc_send_all]; keep. Qed.

Lemma keeps_ipc_payload msg nfound : keeps (ipc_payload msg nfound) any.
Proof. apply keeps_ipc_send_all. Qed.
#[local] Hint Resolve keeps_ipc_payload : daemon.

Lemma keeps_release_unseq mem : ∀ fuel, keeps (release_unseq fuel mem) any.
Proof. induction fuel; cbn [release_unseq]; keep. Qed.

Lemma keeps_members_get key : keeps (members_get key) any.
Proof. unfold members_get. keep. Qed.
#[local] Hint Resolve keeps_release_unseq keeps_members_get : daemon.

Lemma keeps_handle_data from msg : keeps (handle_data from msg) any.
Proof. unfold handle_data. keep. Qed.

Lemma keeps_hbeat_member msg hid seq namelen se : keeps (hbeat_member msg hid seq namelen se) any.
Proof. unfold hbeat_member. keep. apply keeps_modify. intros s. apply inv_set_mems. Qed.

Lemma keeps_read_acks mem msg data : ∀ n itr, keeps (read_acks n mem msg data itr) any.
Proof. induction n; intros itr; cbn [read_acks]; keep. Qed.
#[local] Hint Resolve keeps_hbeat_member keeps_read_acks : daemon.

Lemma keeps_handle_hbeat now msg : keeps (handle_hbeat now msg) any.
Proof. unfold handle_hbeat, ntoh_hbeat, hbeat_rest. keep. Qed.

Lemma keeps_resend key : keeps (resend key) any.
Proof. unfold resend. keep. Qed.
#[local] Hint Resolve keeps_resend : daemon.

Lemma keeps_resend_loop msg count : ∀ fuel itr, keeps (resend_loop fuel msg itr count) any.
Proof. induction fuel; intros itr; cbn [resend_loop]; keep. Qed.
#[local] Hint Resolve keeps_resend_loop : daemon.

Lemma keeps_handle_nack msg : keeps (handle_nack msg) any.
Proof. unfold handle_nack. keep. Qed.

Lemma keeps_drop_unseq mem : keeps (drop_unseq mem) any.
Proof. unfold drop_unseq. keep. Qed.
#[local] Hint Resolve keeps_drop_unseq : daemon.

Lemma keeps_handle_leave msg : keeps (handle_leave msg) any.
Proof. unfold handle_leave. keep. Qed.
#[local] Hint Resolve keeps_handle_data keeps_handle_hbeat keeps_handle_nack keeps_handle_leave : daemon.

Lemma keeps_handle_mcast now r : keeps (handle_mcast now r) any.
Proof. unfold handle_mcast, handle_msg. keep. Qed.

(** The message a length does not fit in is given a larger buffer. *)
Lemma realloc_sized x z : sized (x <| m_size := z |> <| m_buf := realloc z (m_buf x) |>).
Proof.
  unfold sized, realloc. cbn. rewrite length_app, length_take, length_drop, fresh_bytes_length. lia.
Qed.

Lemma keeps_send_data msg n : keeps (send_data msg n) any.
Proof. unfold send_data. keep. by apply keeps_store_msg. Qed.
#[local] Hint Resolve keeps_send_data : daemon.

Lemma keeps_handle_ipc e : keeps (handle_ipc e) any.
Proof. unfold handle_ipc. keep. apply keeps_store_msg, realloc_sized. Qed.

Lemma rate_clamped mps : 1 ≤ rate mps ≤ 5.
Proof. unfold rate. ztest; lia. Qed.

Lemma keeps_periodic now : keeps (periodic now) any.
Proof.
  unfold periodic, hbeat_tick, ack_tick. keep. apply keeps_set_cb. intros c _.
  cbn. match goal with |- _ ≤ rate ?f ≤ _ => pose proof (rate_clamped f) end. lia.
Qed.
#[local] Hint Resolve keeps_handle_mcast keeps_handle_ipc keeps_periodic : daemon.

Lemma keeps_daemon_iter e : keeps (daemon_iter e) any.
Proof. unfold daemon_iter. keep. Qed.

Lemma keeps_daemon turns : keeps (rmcast_daemon turns) any.
Proof.
  pose proof keeps_daemon_iter. induction turns; cbn [rmcast_daemon]; unfold send_leave; keep.
Qed.

Lemma keeps_run_daemon turns s s' :
  inv s → rmcast_daemon turns s = Ok (tt, s') → inv s'.
Proof. intros Hs E. by eapply keeps_daemon. Qed.

(** ** The interface *)

Lemma keeps_open_fd r : keeps (open_fd r) any.
Proof. unfold open_fd, set_net. keep. Qed.
Lemma keeps_close fd : keeps (close fd) any.
Proof. unfold close, set_net. keep. Qed.
#[local] Hint Resolve keeps_open_fd keeps_close : daemon.

Lemma keeps_init_ipc_sockets k : keeps (init_ipc_sockets k) any.
Proof. unfold init_ipc_sockets, close_both, set_net. keep. Qed.
#[local] Hint Resolve keeps_init_ipc_sockets keeps_new_msg : daemon.

Lemma keeps_init mms nbufs rate ack hname addr rnd k :
  who = None → keeps (rmcast_init mms nbufs rate ack hname addr rnd k) any.
Proof.
  intros Hw. unfold rmcast_init, set_net. keep.
  - apply keeps_set_cb. intros c _. cbn. unfold clamp_rate. ztest; cbn; lia.
  - apply keeps_modify. intros s [Hz Hr _]. split; [done|done|by rewrite Hw].
Qed.

Lemma keeps_drop_out keys cnt : keeps (drop_out keys cnt) any.
Proof. unfold drop_out. keep. Qed.
Lemma keeps_drain_in : ∀ fuel, keeps (drain_in fuel) any.
Proof. induction fuel; cbn [drain_in]; keep. Qed.
Lemma keeps_drop_members keys nkeys : keeps (drop_members keys nkeys) any.
Proof. unfold drop_members. keep. Qed.
#[local] Hint Resolve keeps_drop_out keeps_drain_in keeps_drop_members : daemon.

Lemma keeps_leave : keeps rmcast_leave any.
Proof. unfold rmcast_leave. keep. Qed.

Lemma keeps_join grp prt iface k : keeps (rmcast_join_on grp prt iface k) any.
Proof. unfold rmcast_join_on, init_mcast_socket, close_both, set_net. keep. Qed.
End Keeps.
