(* ===== verification/RmcastLife.v ===== *)
(** * The life of a host

    The calls of the application and the turns of the daemon as steps of one
    machine.  A call and a turn do not overlap: the code has no lock, and what
    it does when they do is not defined. *)

From Stdlib Require Import SpecFloat.
From stdpp Require Import relations.
From S2P Require Import Prelude StateMonad Machine Heap Pool Hashtable HashtableRepr HashtableProofs.
From S2P Require Import HashtableSpec Mqueue MqueueRepr MqueueProofs MqueueSpec Interfaces.
From S2P Require Import Wire RmcastState Rmcast RmcastApi RmcastPool RmcastSockets RmcastInit.
From S2P Require Import RmcastInvariant.

Section Life.
Context `{Uninit htbl_entry} `{Uninit mqueue_item} `{Kernel} `{Fresh}.

Inductive life : rmc → rmc → Prop :=
  | life_join grp prt iface k ret s s' :
      rmcast_join_on grp prt iface k s = Ok (ret, s') → life s s'
  | life_turn e s s' :
      truthy (active (cb s)) = true → daemon_iter e s = Ok (tt, s') → life s s'
  | life_end s s' :
      truthy (active (cb s)) = false → send_leave s = Ok (tt, s') → life s s'
  | life_leave s s' :
      rmcast_leave s = Ok (tt, s') → life s s'.

(** A run of the daemon is a sequence of steps. *)
Lemma daemon_life turns : ∀ s s', rmcast_daemon turns s = Ok (tt, s') → rtc life s s'.
Proof.
  induction turns as [|e turns IH]; intros s s'; cbn [rmcast_daemon]; rewrite bind_gets;
    destruct (truthy (active (cb s))) eqn:Ea; intros E.
  - by injection E as <-.
  - apply rtc_once. by constructor.
  - destruct (daemon_iter e s) as [[[] s1]|f] eqn:Ei.
    + rewrite (bind_run _ _ _ _ _ Ei) in E. eapply rtc_l; [by eapply life_turn|]. by apply IH.
    + by rewrite (bind_fault _ _ _ _ Ei) in E.
  - apply rtc_once. by constructor.
Qed.

Lemma life_inv who s s' : life s s' → daemon_inv who s → daemon_inv who s'.
Proof.
  intros [grp prt iface k ret s1 s2 E|e s1 s2 _ E|s1 s2 Ea E|s1 s2 E] Hs.
  - by eapply keeps_join.
  - by eapply keeps_daemon_iter.
  - eapply (keeps_run_daemon who []); [exact Hs|]. cbn [rmcast_daemon]. by rewrite bind_gets, Ea.
  - by eapply keeps_leave.
Qed.

Lemma life_inv_rtc who s s' : rtc life s s' → daemon_inv who s → daemon_inv who s'.
Proof. induction 1; eauto using life_inv. Qed.

(** [rmcast_init] establishes the invariant. *)
Lemma init_inv s mms nbufs rate ack name addr rnd k :
  daemon_inv None s → heap_wf (msgs s) → mms + SIZEOF_HDR ≤ INT_MAX → nbufs ≤ INT_MAX →
  initialized (net (cb s)) ≠ 12345 → c_socket1 k ∉ fds (net (cb s)) → c_socket2 k ∉ fds (net (cb s)) →
  ∃ ret s', rmcast_init mms nbufs rate ack (Some name) (Some addr) rnd k s = Ok (ret, s') ∧
    daemon_inv (Some (i64 addr, rnd)) s'.
Proof.
  intros Hs Hw Hm Hn Hi H1' H2'.
  destruct (rmcast_init_ok s mms nbufs rate ack name addr rnd k Hw Hm Hn Hi H1' H2')
    as (ret & s' & free & E & _ & _ & _ & _ & _ & _ & _ & Hid & Hse & _).
  exists ret, s'. split; [exact E|].
  destruct (keeps_init None mms nbufs rate ack (Some name) (Some addr) rnd k eq_refl s ret s' Hs E)
    as [[Hz Hr _] _].
  clear E. split; [done|done|]. intros me sess [= <- <-]. done.
Qed.

(** As much of a datagram as [recvfrom] is asked for fits into the buffer. *)
Lemma sized_recv x dgram :
  sized x → ∃ b, buf_write (m_buf x) 0 (take (Z.to_nat (m_size x)) dgram) = Ok b.
Proof.
  intros Hx. eexists. apply (buf_write_Ok _ 0). rewrite length_take. unfold sized in Hx. lia.
Qed.

(** C3: Whatever the application calls and whatever arrives, in any order, a
    host that was started keeps its invariant: its address and session do not
    change, the heartbeat interval is between 0 and 5 seconds, and [size] is the
    size of the buffer of every message, so that [recvfrom] never writes past
    the end of one. *)
Theorem reachable_invariant s0 mms nbufs rate ack name addr rnd k :
  daemon_inv None s0 → heap_wf (msgs s0) → mms + SIZEOF_HDR ≤ INT_MAX → nbufs ≤ INT_MAX →
  initialized (net (cb s0)) ≠ 12345 → c_socket1 k ∉ fds (net (cb s0)) → c_socket2 k ∉ fds (net (cb s0)) →
  ∃ ret s1, rmcast_init mms nbufs rate ack (Some name) (Some addr) rnd k s0 = Ok (ret, s1) ∧
    ∀ s, rtc life s1 s → daemon_inv (Some (i64 addr, rnd)) s ∧
      ∀ p x dgram, cells (msgs s) !! p = Some x →
        ∃ b, buf_write (m_buf x) 0 (take (Z.to_nat (m_size x)) dgram) = Ok b.
Proof.
  intros Hs Hw Hm Hn Hi H1' H2'.
  destruct (init_inv s0 mms nbufs rate ack name addr rnd k Hs Hw Hm Hn Hi H1' H2')
    as (ret & s1 & E & Hs1).
  exists ret, s1. split; [exact E|]. clear E. intros s Hl.
  pose proof (life_inv_rtc _ _ _ Hl Hs1) as Hs'. split; [done|].
  intros p x dgram Hx. apply sized_recv. exact (di_sized _ _ Hs' _ _ Hx).
Qed.
End Life.
