(* ===== verification/RmcastHbeat.v ===== *)
(** * The daemon: receiving heartbeats

    A heartbeat of an unknown host registers it, with the number of the
    heartbeat as the next one to expect. *)

From S2P Require Import Prelude StateMonad Machine Heap Pool Hashtable HashtableRepr HashtableProofs.
From S2P Require Import HashtableSpec Mqueue MqueueRepr MqueueProofs Interfaces Wire.
From S2P Require Import RmcastState Rmcast RmcastPool RmcastWire RmcastProofs.

(** A heartbeat without acknowledgements and without piggybacked data. *)
Record is_hbeat (d : list Z) (seq i sess : Z) : Prop := {
  ih_len : (44 ≤ length d)%nat;
  ih_type : field 1 1 d = RMCAST_MSG_HBEAT;
  ih_length : 20 + ntohs (field 2 2 d) ≤ Z.of_nat (length d);
  ih_seq : field 4 8 d = htonl seq;
  ih_id : field 12 8 d = htonl i;
  ih_session : field 32 8 d = htonl sess;
  ih_acks : field 40 2 d = 0;
  ih_pgback : field 42 2 d = 0;
  ih_lost : d !! 20%nat = Some 0       (* fewer than 2^24 lost *)
}.

Lemma hb_Ok b : (44 ≤ length b)%nat →
  hb_lost b = Ok (field 20 8 b) ∧ hb_namelen b = Ok (field 28 2 b) ∧ hb_flags b = Ok (field 30 2 b) ∧
  hb_session b = Ok (field 32 8 b) ∧ hb_acks b = Ok (field 40 2 b) ∧ hb_pgback b = Ok (field 42 2 b).
Proof.
  intros Hl. repeat split; [apply (get_field_Ok b 20 8)|apply (get_field_Ok b 28 2)|
    apply (get_field_Ok b 30 2)|apply (get_field_Ok b 32 8)|apply (get_field_Ok b 40 2)|
    apply (get_field_Ok b 42 2)]; lia.
Qed.

Lemma set_hb_Ok b z : (44 ≤ length b)%nat →
  set_namelen b z = Ok (splice 28 (le_encode 2 z) b) ∧ set_flags b z = Ok (splice 30 (le_encode 2 z) b) ∧
  set_session b z = Ok (splice 32 (le_encode 8 z) b).
Proof.
  intros Hl. repeat split; [apply (set_field_Ok b 28 2)|apply (set_field_Ok b 30 2)|
    apply (set_field_Ok b 32 8)]; lia.
Qed.

(** The heartbeat's own fields, converted in place. *)
Definition ntoh_hb (b : list Z) : list Z :=
  splice 32 (le_encode 8 (ntohl (field 32 8 b)))
    (splice 30 (le_encode 2 (ntohs (field 30 2 b)))
       (splice 28 (le_encode 2 (ntohs (field 28 2 b))) b)).

Lemma ntoh_hb_spec b : (44 ≤ length b)%nat →
  length (ntoh_hb b) = length b ∧
  field 28 2 (ntoh_hb b) = ntohs (field 28 2 b) ∧ field 32 8 (ntoh_hb b) = ntohl (field 32 8 b) ∧
  (∀ o n, (o + n ≤ 28 ∨ 40 ≤ o)%nat → slice o n (ntoh_hb b) = slice o n b).
Proof.
  intros Hl. unfold ntoh_hb, ntohs, ntohl. split; [by wire|]. wire.
  split; [apply htons_fits|]. split; [apply htonl_fits|]. intros o n Ho. by wire.
Qed.

Section Hbeat.
Context `{Uninit htbl_entry} `{Uninit mqueue_item} `{Kernel} `{Fresh}.
Context (srep qrep : mqueue_t → list Z → Prop) `{!Stack srep} `{!Stack qrep}.
Context (mrep : htbl_t → gmap hkey Z → Prop) `{!PutTable mrep}.

(** The name of a member is a string that starts at [msg->data]. *)
Lemma cstring_at_zero b : b !! 20%nat = Some 0 → cstring_at b SIZEOF_HDR = Ok [].
Proof.
  intros Hb. unfold cstring_at. change (Z.to_nat SIZEOF_HDR) with 20%nat.
  destruct (drop 20 b) as [|c l] eqn:E.
  - apply (f_equal length) in E. rewrite length_drop in E. apply lookup_lt_Some in Hb. cbn in E. lia.
  - assert (c = 0) as ->; [|done].
    pose proof (lookup_drop b 20 0) as Hd. rewrite E, Nat.add_0_r, Hb in Hd. by injection Hd.
Qed.

Lemma hbeat_member_new s msg x hid seq namelen sess mm mq :
  heap_wf (msgs s) → cells (msgs s) !! msg = Some x → m_buf x !! 20%nat = Some 0 →
  heap_wf (mems s) → mrep (members (cb s)) mm → mm !! KInt (i32 hid) = None →
  0 ≤ hid < 2 ^ 32 → Z.of_nat (size mm) < INT_MAX →
  qrep (membersq (cb s)) mq → Z.of_nat (length mq) < INT_MAX →
  ∃ m t q, hbeat_member msg hid seq namelen sess s =
      Ok (brk (mems s), s <| mems := h_new (mems s) m |>
                          <| cb := cb s <| members := t |> <| membersq := q |> |>) ∧
    mem_id m = hid ∧ session m = sess ∧ sequence m = u64 (seq - 1) ∧ plain (unseq_msgs m) ∅ ∧
    mrep t (<[KInt (i32 hid) := brk (mems s)]> mm) ∧ qrep q (brk (mems s) :: mq).
Proof.
  intros Hw Hx H20 Hmw Hm Hn Hid Hsz Hq Hql. unfold hbeat_member.
  rewrite (members_get_none mrep _ _ _ _ Hm Hn).
  set (nm := if truthy namelen then rd msg (λ b, cstring_at b SIZEOF_HDR) else mret [110; 111; 110; 97; 109; 101]).
  assert (∃ name, nm s = Ok (name, s)) as [name En].
  { unfold nm. destruct (truthy namelen); [|by eexists]. exists [].
    unfold rd, load_msg, mbind, M_bind. rewrite (h_load_Ok _ _ _ Hw Hx). cbn -[cstring_at].
    unfold lift. by rewrite cstring_at_zero. }
  rewrite (bind_run _ _ _ _ _ En).
  destruct (htbl_init_plain 10) as (u & E6 & Hu); [int_lia|].
  erewrite (bind_lift (rmcast_member_init _ _ _)) by (unfold rmcast_member_init; rewrite E6; reflexivity).
  clear E6. rewrite bind_gets, bind_modify, bind_gets. cbn [mem_id].
  assert (Hi : i64 hid = hid) by (unfold i64; rewrite Z.mod_small; lia). rewrite Hi.
  destruct (pt_put _ _ (i32 hid) (brk (mems s)) Hm (i32_range _) Hsz) as (t & Et & Ht).
  unfold Spec.put in Et, Ht. rewrite Hn in Et, Ht. cbn in Et, Ht.
  rewrite (bind_lift _ _ _ _ Et), bind_set_cb, bind_gets.
  destruct (st_add _ _ (brk (mems s)) Hq Hql) as (q & Eq & Hq').
  rewrite (bind_lift _ _ _ _ Eq), bind_set_cb.
  eexists _, t, q. split; [reflexivity|]. cbn. done.
Qed.

Lemma ntoh_hbeat_run s a x :
  heap_wf (msgs s) → cells (msgs s) !! a = Some x → (44 ≤ length (m_buf x))%nat →
  ntoh_hbeat a s = Ok (tt, put_buf s a x (ntoh_hb (m_buf x))).
Proof.
  intros Hw Hx Hl. unfold ntoh_hbeat. assert (Ha : is_Some (cells (msgs s) !! a)) by (by eexists).
  destruct (hb_Ok _ Hl) as (_ & E1 & _). rewrite (bind_rd a _ _ s x _ Hw Hx E1).
  destruct (set_hb_Ok (m_buf x) (ntohs (field 28 2 (m_buf x))) Hl) as (W1 & _).
  rewrite (bind_wr a (fun b => set_namelen b _) _ s x _ Hw Hx W1). set (b1 := splice 28 _ _).
  assert (Hl1 : (44 ≤ length b1)%nat) by (unfold b1; wire; lia).
  destruct (hb_Ok _ Hl1) as (_ & _ & E2 & _). rewrite (bind_rd_put a _ _ s x b1 _ Hw Ha E2).
  destruct (set_hb_Ok b1 (ntohs (field 30 2 b1)) Hl1) as (_ & W2 & _).
  rewrite (bind_wr_put a (fun b => set_flags b (ntohs (field 30 2 b1))) _ s x _ _ Hw Ha W2). set (b2 := splice 30 _ b1).
  assert (Hl2 : (44 ≤ length b2)%nat) by (unfold b2; wire; lia).
  destruct (hb_Ok _ Hl2) as (_ & _ & _ & E3 & _). rewrite (bind_rd_put a _ _ s x b2 _ Hw Ha E3).
  destruct (set_hb_Ok b2 (ntohl (field 32 8 b2)) Hl2) as (_ & _ & W3).
  erewrite wr_run; [|by apply heap_wf_set|apply put_buf_lookup|exact W3].
  rewrite put_buf_twice. unfold ntoh_hb.
  assert (field 30 2 b1 = field 30 2 (m_buf x)) as F1 by (unfold b1; by wire).
  assert (field 32 8 b2 = field 32 8 (m_buf x)) as F2 by (unfold b2, b1; by wire).
  rewrite F2. unfold b2. by rewrite F1.
Qed.

Lemma hbeat_rest_quiet cap s free a x now p m seq namelen :
  pool_inv srep cap s free → cells (msgs s) !! a = Some x → msg_ok cap x → a ∉ free →
  Z.of_nat (length free) < INT_MAX → (44 ≤ length (m_buf x))%nat →
  field 40 2 (m_buf x) = 0 → field 42 2 (m_buf x) = 0 →
  heap_wf (mems s) → cells (mems s) !! p = Some m → u64 (sequence m + 1) = seq →
  ∃ s' l, hbeat_rest now a p seq namelen s = Ok (tt, s') ∧ pool_inv srep cap s' (a :: free) ∧
    same_but_pool (s <| mems := h_set (mems s) p (m <| lost := l |> <| last_hbeat := now |>) |>) s'.
Proof.
  intros Hp Hx Hxok Hna Hfl Hl F40 F42 Hmw Hm Hseq. pose proof (pi_wf _ _ _ _ Hp) as Hw.
  destruct (hb_Ok _ Hl) as (E1 & _ & _ & _ & E4 & E5). unfold hbeat_rest.
  set (l := ntohs (field 20 8 (m_buf x))). set (m1 := m <| lost := l |>).
  set (m2 := m1 <| last_hbeat := now |>).
  rewrite (bind_rd a _ _ s x _ Hw Hx E1). fold l.
  erewrite bind_run by (apply upd_mem_run; [exact Hmw|exact Hm]). cbv beta zeta.
  set (s1 := s <| mems := _ |>).
  rewrite (bind_rd a _ _ s1 x _ Hw Hx E4), F40. change (truthy 0) with false. cbn iota. rewrite bind_ret.
  rewrite (bind_rd a _ _ s1 x _ Hw Hx E5), F42. change (truthy 0) with false. cbn iota. rewrite bind_ret.
  assert (Hmw1 : heap_wf (mems s1)) by (apply heap_wf_set; [done|by eexists]).
  assert (Hm1 : cells (mems s1) !! p = Some m1) by apply lookup_h_set.
  erewrite bind_run by (apply upd_mem_run; [exact Hmw1|exact Hm1]). cbv beta. fold m2.
  set (s2 := s1 <| mems := _ |>).
  assert (Es2 : s2 = s <| mems := h_set (mems s) p m2 |>) by (unfold s2; cbn; by rewrite h_set_twice).
  rewrite (bind_load_mem p _ s2 m2); [|rewrite Es2; apply heap_wf_set; [done|by eexists]|apply lookup_h_set].
  change (sequence m2) with (sequence m). rewrite Hseq, Z.eqb_refl. cbn [negb]. rewrite bind_ret.
  destruct (release_msg_spec srep cap s2 free a x) as (s' & E & Hs & _ & Hp'); try done.
  { eapply pool_inv_ext; [..|exact Hp]; done. }
  exists s', l. split; [done|]. split; [done|]. rewrite Es2 in Hs. exact Hs.
Qed.

Lemma u64_pred_succ z : 0 ≤ z < 2 ^ 64 → u64 (u64 (z - 1) + 1) = z.
Proof.
  intros Hz. unfold u64. rewrite Zplus_mod_idemp_l.
  replace (z - 1 + 1) with z by lia. by apply Z.mod_small.
Qed.

(** The fields of a received heartbeat, after both conversions. *)
Lemma hbeat_fields d b0 seq i sess :
  is_hbeat d seq i sess → (length d ≤ length b0)%nat →
  let b := ntoh_hb (rcvd_buf d b0) in
  (44 ≤ length b)%nat ∧ field 12 8 b = u32 i ∧ field 4 8 b = u32 seq ∧ field 32 8 b = u32 sess ∧
  field 40 2 b = 0 ∧ field 42 2 b = 0 ∧ b !! 20%nat = Some 0.
Proof.
  intros [H44 _ _ Hs Hi Hse Ha Hpg Hlost] Hl b.
  destruct (rcvd_buf_spec d b0) as (Hbl & _ & _ & Eseq & Eid & Hsl); [lia|].
  set (r := rcvd_buf d b0) in *.
  destruct (ntoh_hb_spec r) as (Hnl & _ & Fs & Hns); [lia|]. fold b in Hnl, Fs, Hns.
  destruct (hdr_Ok r) as (_ & _ & E4 & E12); [lia|].
  rewrite E4 in Eseq. rewrite E12 in Eid. injection Eseq as Eseq. injection Eid as Eid.
  split; [lia|]. unfold field at 1 2. rewrite !Hns by lia. fold (field 12 8 r) (field 4 8 r).
  rewrite Eid, Eseq, Hi, Hs. split; [exact (swap_twice 4 i)|]. split; [exact (swap_twice 4 seq)|].
  split; [|split; [|split]].
  - rewrite Fs. unfold field. rewrite Hsl by lia. fold (field 32 8 d). rewrite Hse.
    exact (swap_twice 4 sess).
  - unfold field. rewrite Hns, Hsl by lia. exact Ha.
  - unfold field. rewrite Hns, Hsl by lia. exact Hpg.
  - pose proof (lookup_slice 20 1 b 0) as L1. pose proof (lookup_slice 20 1 d 0) as L2.
    rewrite Hns, Hsl, L2 in L1 by lia. rewrite !decide_True in L1 by lia.
    change (20 + 0)%nat with 20%nat in L1. by rewrite <- L1.
Qed.

Lemma handle_hbeat_new cap s free a x d b0 now seq i sess mm mq :
  pool_inv srep cap s free → cells (msgs s) !! a = Some x → msg_ok cap x → a ∉ free →
  Z.of_nat (length free) < INT_MAX →
  m_buf x = rcvd_buf d b0 → (length d ≤ length b0)%nat → is_hbeat d seq i sess →
  heap_wf (mems s) → mrep (members (cb s)) mm → mm !! KInt (i32 (u32 i)) = None →
  Z.of_nat (size mm) < INT_MAX → qrep (membersq (cb s)) mq → Z.of_nat (length mq) < INT_MAX →
  ∃ s' m, handle_hbeat now a s = Ok (tt, s') ∧ pool_inv srep cap s' (a :: free) ∧
    registered mrep plain s' (u32 i) (brk (mems s)) m ∅ ∧
    mem_id m = u32 i ∧ session m = u32 sess ∧ sequence m = u64 (u32 seq - 1) ∧ last_hbeat m = now ∧
    qrep (membersq (cb s')) (brk (mems s) :: mq) ∧
    sent s' = sent s ∧ ipc_out s' = ipc_out s ∧ self s' = self s.
Proof.
  intros Hp Hx Hxok Hna Hfl Eb Hdl Hd Hmw Hm Hn Hsz Hq Hql.
  pose proof (pi_wf _ _ _ _ Hp) as Hw. pose proof (ih_len _ _ _ _ Hd) as H44.
  destruct (hbeat_fields d b0 seq i sess Hd Hdl) as (Hl & F12 & F4 & F32 & F40 & F42 & H20).
  assert (Hlx : (44 ≤ length (m_buf x))%nat).
  { rewrite Eb. destruct (rcvd_buf_spec d b0) as [-> _]; lia. }
  unfold handle_hbeat. rewrite (bind_run _ _ _ _ _ (ntoh_hbeat_run s a x Hw Hx Hlx)).
  assert (Hnl : length (ntoh_hb (m_buf x)) = length (m_buf x)) by (by apply ntoh_hb_spec).
  rewrite <- Eb in Hl, F12, F4, F32, F40, F42, H20. set (b := ntoh_hb (m_buf x)) in *.
  assert (Ha : is_Some (cells (msgs s) !! a)) by (by eexists).
  destruct (hb_Ok b Hl) as (E1 & E2 & _ & E3 & E4 & E5). destruct (hdr_Ok b) as (_ & _ & E6 & E7); [lia|].
  rewrite (bind_rd_put a _ _ s x b _ Hw Ha E2), (bind_rd_put a _ _ s x b _ Hw Ha E3).
  rewrite (bind_rd_put a _ _ s x b _ Hw Ha E7), (bind_rd_put a _ _ s x b _ Hw Ha E6).
  rewrite F12, F4, F32 in *. set (st := put_buf s a x b).
  assert (Hwt : heap_wf (msgs st)) by (by apply heap_wf_set).
  destruct (hbeat_member_new st a (x <| m_buf := b |>) (u32 i) (u32 seq) (field 28 2 b) (u32 sess) mm mq)
    as (m & t & q & Em & Hmi & Hms & Hmq & Hmu & Ht & Hq'); try done;
    [apply put_buf_lookup|apply u32_range|].
  rewrite (bind_run _ _ _ _ _ Em). change (mems st) with (mems s) in *.
  set (s2 := st <| mems := _ |> <| cb := _ |>).
  pose proof (u32_range seq) as Hu.
  destruct (hbeat_rest_quiet cap s2 free a (x <| m_buf := b |>) now (brk (mems s)) m (u32 seq) (field 28 2 b))
    as (s' & l & E & Hp' & Hs'); try done.
  { eapply pool_inv_ext; [..|apply (pool_inv_put srep cap s free a x b Hp Ha Hna)]; done. }
  { apply put_buf_lookup. }
  { apply msg_ok_buf; done. }
  { by apply heap_wf_new. }
  { apply lookup_h_new. }
  { rewrite Hmq. apply u64_pred_succ. lia. }
  exists s', (m <| lost := l |> <| last_hbeat := now |>). split; [done|]. split; [done|].
  split; [|split; [done|split; [done|split; [done|split; [done|]]]]].
  - rewrite Hs'. split; cbn.
    + apply heap_wf_set; [by apply heap_wf_new|]. rewrite lookup_h_new. by eexists.
    + eexists; split; [exact Ht|]. by rewrite lookup_insert_eq.
    + apply lookup_h_set.
    + done.
  - rewrite Hs'. done.
Qed.
Lemma hbeat_registers_ok cap s free now d from seq i sess mm mq :
  pool_inv srep cap s free → Z.of_nat (length free) ≤ INT_MAX →
  is_hbeat d seq i sess → Z.of_nat (length d) ≤ cap → cap < 2 ^ 63 →
  heap_wf (mems s) → mrep (members (cb s)) mm → mm !! KInt (i32 (u32 i)) = None →
  Z.of_nat (size mm) < INT_MAX → qrep (membersq (cb s)) mq → Z.of_nat (length mq) < INT_MAX →
  ∃ s' a m, handle_mcast now (Some (d, from)) s = Ok (false, s') ∧
    pool_inv srep cap s' (a :: tail free) ∧
    registered mrep plain s' (u32 i) (brk (mems s)) m ∅ ∧
    mem_id m = u32 i ∧ session m = u32 sess ∧ u64 (sequence m + 1) = u32 seq ∧ last_hbeat m = now ∧
    qrep (membersq (cb s')) (brk (mems s) :: mq) ∧
    sent s' = sent s ∧ ipc_out s' = ipc_out s ∧ self s' = self s ∧
    0 ≤ sequence m < 2 ^ 64.
Proof.
  intros Hp Hfl Hd Hdl Hcap Hmw Hm Hn Hsz Hq Hql. pose proof (ih_len _ _ _ _ Hd) as H44.
  destruct (handle_mcast_spec srep cap s free now d from Hp) as (a & s1 & b & Hr & ->); [lia|done|].
  destruct Hr as [Hs Hp1 (x & Hx & Hxok) Hna (b0 & -> & Hl) _].
  pose proof (ih_length _ _ _ _ Hd) as Hlen.
  destruct (Z.ltb_spec (Z.of_nat (length d)) (ntohs (field 2 2 d) + SIZEOF_HDR)) as [Hlt|_];
    [unfold SIZEOF_HDR in Hlt; lia|].
  destruct (rcvd_buf_spec d b0 Hl) as (_ & Et & _). rewrite (ih_type _ _ _ _ Hd) in Et.
  pose proof (u32_range seq) as Hu.
  destruct (handle_hbeat_new cap s1 (tail free) a (x <| m_buf := rcvd_buf d b0 |>) d b0 now seq i sess mm mq)
    as (s' & m & E & Hp' & Hreg & Hmi & Hms & Hmq & Hml & Hq' & Hse & Hio & Hsf); try done;
    try (by rewrite Hs); [destruct free; cbn in *; int_lia|lia|].
  exists s', a, m. split.
  { rewrite (bind_run _ _ s1 tt s'); [done|]. unfold handle_msg.
    by rewrite (bind_rd a _ _ s1 _ _ (pi_wf _ _ _ _ Hp1) Hx Et). }
  assert (Em : mems s1 = mems s) by (by rewrite Hs). rewrite Em in *.
  split; [done|]. split; [done|]. split; [done|]. split; [done|].
  split; [rewrite Hmq; apply u64_pred_succ; lia|]. split; [done|]. split; [done|].
  rewrite Hse, Hio, Hsf, Hs. do 3 (split; [done|]). rewrite Hmq. apply Z.mod_pos_bound. lia.
Qed.

(** C18: The first heartbeat of a host registers it as a member, with nothing
    out of sequence, so that the data message with the heartbeat's own number is
    the next one to be delivered. *)
Theorem hbeat_registers cap s free now d from seq i sess mm mq :
  pool_inv srep cap s free → Z.of_nat (length free) ≤ INT_MAX →
  is_hbeat d seq i sess → Z.of_nat (length d) ≤ cap → cap < 2 ^ 63 →
  heap_wf (mems s) → mrep (members (cb s)) mm → mm !! KInt (i32 (u32 i)) = None →
  Z.of_nat (size mm) < INT_MAX → qrep (membersq (cb s)) mq → Z.of_nat (length mq) < INT_MAX →
  ∃ s' a m, handle_mcast now (Some (d, from)) s = Ok (false, s') ∧
    pool_inv srep cap s' (a :: tail free) ∧
    registered mrep plain s' (u32 i) (brk (mems s)) m ∅ ∧
    mem_id m = u32 i ∧ session m = u32 sess ∧ u64 (sequence m + 1) = u32 seq ∧ last_hbeat m = now ∧
    qrep (membersq (cb s')) (brk (mems s) :: mq) ∧
    sent s' = sent s ∧ ipc_out s' = ipc_out s ∧ self s' = self s.
Proof.
  intros Hp Hfl Hd Hdl Hcap Hmw Hm Hn Hsz Hq Hql.
  destruct (hbeat_registers_ok cap s free now d from seq i sess mm mq Hp Hfl Hd Hdl Hcap Hmw Hm Hn Hsz Hq Hql)
    as (s' & a & m & E & R1 & R2 & R3 & R4 & R5 & R6 & R7 & R8 & R9 & R10 & _).
  by exists s', a, m.
Qed.
End Hbeat.
