(* ===== verification/RmcastBeat.v ===== *)
(** * The daemon: sending a heartbeat, and the service from the start

    What [send_hbeat] and [hbeat_tick] put on the wire is a heartbeat as the
    receiving end reads it ([is_hbeat]).  With it the whole service is composed:
    two hosts that are only started, one heartbeat, and then any messages. *)

From S2P Require Import Prelude StateMonad Machine Heap Pool Hashtable HashtableRepr HashtableProofs Mqueue.
From S2P Require Import MqueueRepr MqueueProofs Interfaces Wire RmcastState Rmcast RmcastApi RmcastPool RmcastWire.
From S2P Require Import RmcastProofs RmcastSend RmcastSpec RmcastEnd RmcastFifo RmcastSockets RmcastInit RmcastHbeat.

(** The buffer of a heartbeat without acknowledgements; [nm] are the bytes of
    the name. *)
Definition hbeat_buf (b : list Z) (seq i sess lst : Z) (nm : list Z) : list Z :=
  splice 2 (le_encode 2 (htons SIZEOF_HBEAT)) (splice 42 (le_encode 2 0) (splice 40 (le_encode 2 0)
    (splice 44 nm (splice 28 (le_encode 2 (htons (Z.of_nat (length nm))))
      (splice 32 (le_encode 8 (htonl sess)) (splice 30 (le_encode 2 (htons 0))
        (splice 20 (le_encode 8 (htonl lst)) (splice 12 (le_encode 8 (htonl i))
          (splice 4 (le_encode 8 (htonl seq)) (splice 1 (le_encode 1 RMCAST_MSG_HBEAT) b)))))))))).

Lemma hbeat_buf_length b seq i sess lst nm :
  (44 + length nm ≤ length b)%nat → length (hbeat_buf b seq i sess lst nm) = length b.
Proof. intros Hl. unfold hbeat_buf. wire. done. Qed.

Lemma slice_written o n z (b : list Z) :
  (o + n ≤ length b)%nat → slice o n (splice o (le_encode n z) b) = le_encode n z.
Proof.
  intros Hl. pose proof (slice_splice o (le_encode n z) b) as E. rewrite le_encode_length in E. by apply E.
Qed.

(** Of at most 2^24 - 1 lost messages the first byte is 0. *)
Lemma htonl_low z : 0 ≤ z < 2 ^ 24 → htonl z mod 256 = 0.
Proof.
  intros Hz. unfold htonl. cbn [le_encode rev app le_decode].
  replace (z / 256 / 256 / 256) with 0; cycle 1.
  { rewrite !Z.div_div by lia. symmetry. apply Z.div_small. lia. }
  rewrite Z.mod_0_l, Z.add_0_l by lia. rewrite Z.mul_comm. apply Z_mod_mult.
Qed.

Lemma hbeat_buf_is_hbeat b seq i sess lst nm :
  (44 + length nm ≤ length b)%nat → 0 ≤ lst < 2 ^ 24 →
  is_hbeat (slice 0 44 (hbeat_buf b seq i sess lst nm)) seq i sess.
Proof.
  intros Hl Hlst. pose proof (hbeat_buf_length b seq i sess lst nm Hl) as Hlen.
  assert (Hf : ∀ o n x, (o + n ≤ 44)%nat → field o n (slice 0 44 x) = field o n x).
  { intros. unfold field. by rewrite slice_slice. }
  constructor; rewrite ?Hf by lia; unfold hbeat_buf in *.
  - rewrite slice_length; lia.
  - wire. done.
  - rewrite slice_length by lia. wire. done.
  - wire. apply htonl_fits.
  - wire. apply htonl_fits.
  - wire. apply htonl_fits.
  - wire. done.
  - wire. done.
  - rewrite lookup_slice, decide_True by lia. cbn [Nat.add].
    assert (E : slice 20 8 (hbeat_buf b seq i sess lst nm) = le_encode 8 (htonl lst)).
    { unfold hbeat_buf. wire. apply slice_written. wire_lia. }
    apply (f_equal (.!! 0%nat)) in E. rewrite lookup_slice, decide_True in E by lia. cbn [Nat.add] in E.
    unfold hbeat_buf in E. rewrite E.
    change (Some (htonl lst mod 256) = Some 0). by rewrite htonl_low.
Qed.

Section Beat.
Context `{Uninit htbl_entry} `{Uninit mqueue_item} `{Kernel} `{Fresh}.
Context (srep : mqueue_t → list Z → Prop) `{!Stack srep}.

(** What a heartbeat changes when there is nothing to forget. *)
Record beaten (cap : Z) (s s' : rmc) (free : list Z) (d : list Z) : Prop := {
  bt_hbeat : is_hbeat d (sequence (self s)) (mem_id (self s)) (session (self s));
  bt_len : length d = 44%nat;
  bt_sent : sent s' = sent s ++ [Packet ToGroup d];
  bt_pool : ∃ a, pool_inv srep cap s' (a :: tail free);
  bt_self : self s' = self s;
  bt_cb : cb s' = cb s <| bufmsgq := bufmsgq (cb s') |> <| hb_seq_p3 := hb_seq_p2 (cb s) |>
                       <| hb_seq_p2 := hb_seq_p1 (cb s) |> <| hb_seq_p1 := sequence (self s) |>;
  bt_rest : mems s' = mems s ∧ ipc_out s' = ipc_out s
}.

(** The part of [send_hbeat] that follows the datagram. *)
Definition after_beat (a ret : Z) : M Z :=
  _ ← release_msg a;
  _ ← set_cb (fun c => c <| hb_seq_p3 := hb_seq_p2 c |>);
  _ ← set_cb (fun c => c <| hb_seq_p2 := hb_seq_p1 c |>);
  seq ← gets (fun s => sequence (self s));
  _ ← set_cb (fun c => c <| hb_seq_p1 := seq |>);
  c ← gets cb;
  _ ← clear_outbuf (Z.to_nat (hb_seq_p3 c - oldest_seq c));
  mret ret.

(** The message [a] is filled, field by field, and sent. *)
Lemma send_hbeat_filled s s1 a x name :
  alloc_msg s = Ok (a, s1) → heap_wf (msgs s1) → cells (msgs s1) !! a = Some x → hb_ack (cb s1) = 0 →
  (45 + length name ≤ length (m_buf x))%nat →
  let me := self s1 in
  let b := hbeat_buf (m_buf x) (sequence me) (mem_id me) (session me) (lost me) ((u8 <$> name) ++ [0]) in
  send_hbeat (Some name) None 0 0 s =
    after_beat a (sendto_ret (Packet ToGroup (slice 0 44 b)))
      (put_buf s1 a x b <| sent := sent s1 ++ [Packet ToGroup (slice 0 44 b)] |>).
Proof.
  intros E Hw Hx Hack1 Hlx. assert (Ha : is_Some (cells (msgs s1) !! a)) by (by eexists).
  unfold send_hbeat. rewrite (bind_run _ _ _ _ _ E). clear E.
  set (nm := (u8 <$> name) ++ [0]).
  assert (Hnm : length nm = S (length name)) by (unfold nm; rewrite length_app, length_fmap; cbn; lia).
  assert (Hl : (44 + length nm ≤ length (m_buf x))%nat) by lia.
  assert (Hset : ∀ o n z b, length b = length (m_buf x) → (o + n ≤ 44)%nat →
    set_field b (Z.of_nat o) n z = Ok (splice o (le_encode n z) b)) by (intros; apply set_field_Ok; lia).
  rewrite (bind_wr a _ _ s1 x _ Hw Hx (Hset 1%nat 1%nat _ _ eq_refl ltac:(lia))). rewrite bind_gets.
  change (self (put_buf s1 a x _)) with (self s1). set (me := self s1) in *. cbv zeta.
  erewrite (bind_wr_put a _ _ s1 x _ _ Hw Ha) by (apply (Hset 4%nat 8%nat); [wire; done|lia]).
  erewrite (bind_wr_put a _ _ s1 x _ _ Hw Ha) by (apply (Hset 12%nat 8%nat); [wire; done|lia]).
  erewrite (bind_wr_put a _ _ s1 x _ _ Hw Ha) by (apply (Hset 20%nat 8%nat); [wire; done|lia]).
  erewrite (bind_wr_put a _ _ s1 x _ _ Hw Ha) by (apply (Hset 30%nat 2%nat); [wire; done|lia]).
  erewrite (bind_wr_put a _ _ s1 x _ _ Hw Ha) by (apply (Hset 32%nat 8%nat); [wire; done|lia]).
  rewrite bind_assoc.
  erewrite (bind_wr_put a _ _ s1 x _ _ Hw Ha) by (apply (Hset 28%nat 2%nat); [wire; done|lia]).
  rewrite bind_assoc.
  erewrite (bind_wr_put a _ _ s1 x _ _ Hw Ha) by (apply (buf_write_Ok _ 44 nm); wire; lia).
  rewrite bind_ret, bind_gets.
  change (hb_ack (cb (put_buf s1 a x _))) with (hb_ack (cb s1)). rewrite Hack1.
  change (truthy 0) with false. cbn iota. rewrite bind_assoc.
  erewrite (bind_wr_put a _ _ s1 x _ _ Hw Ha) by (apply (Hset 40%nat 2%nat); [wire; done|lia]).
  rewrite bind_ret, (bind_load_msg_put a _ s1 x _ Hw Ha), bind_assoc.
  erewrite (bind_wr_put a _ _ s1 x _ _ Hw Ha) by (apply (Hset 42%nat 2%nat); [wire; done|lia]).
  rewrite bind_ret.
  erewrite (bind_wr_put a _ _ s1 x _ _ Hw Ha) by (apply (Hset 2%nat 2%nat); [wire; done|lia]).
  replace (Z.of_nat (length name) + 1) with (Z.of_nat (length nm)) by lia.
  change (SIZEOF_HBEAT + 0) with SIZEOF_HBEAT.
  match goal with |- context [put_buf s1 a x ?b] =>
    change b with (hbeat_buf (m_buf x) (sequence me) (mem_id me) (session me) (lost me) nm) end.
  set (b := hbeat_buf _ _ _ _ _ _).
  assert (Hlb : length b = length (m_buf x)) by (by apply hbeat_buf_length).
  change (SIZEOF_HDR + SIZEOF_HBEAT + 0) with (Z.of_nat 44).
  rewrite (bind_sendto_put a 44 ToGroup _ s1 x b Hw Ha) by lia.
  done.
Qed.

(** A heartbeat of a host that has nothing to forget. *)
Lemma send_hbeat_ok cap s free name :
  pool_inv srep cap s free → Z.of_nat (length free) < INT_MAX → hb_ack (cb s) = 0 →
  45 + Z.of_nat (length name) ≤ cap → 0 ≤ lost (self s) < 2 ^ 24 → hb_seq_p2 (cb s) ≤ oldest_seq (cb s) →
  ∃ ret s' d, send_hbeat (Some name) None 0 0 s = Ok (ret, s') ∧ beaten cap s s' free d.
Proof.
  intros Hp Hmax Hack Hcap Hlost Hold.
  destruct (alloc_msg_spec srep _ _ _ Hp) as (a & s1 & x & E & Hsame & Hp1 & Hx & Hxok & Hna & _ & _).
  pose proof Hxok as [Hxs Hlo]. pose proof (pi_wf _ _ _ _ Hp1) as Hw.
  rewrite (send_hbeat_filled s s1 a x name E Hw Hx) by (lia || by rewrite Hsame). clear E. cbv zeta.
  assert (self s1 = self s) as -> by (by rewrite Hsame). assert (sent s1 = sent s) as -> by (by rewrite Hsame).
  set (me := self s) in *. set (nm := (u8 <$> name) ++ [0]). set (b := hbeat_buf _ _ _ _ _ nm).
  assert (Hl : (44 + length nm ≤ length (m_buf x))%nat) by (unfold nm; rewrite length_app, length_fmap; cbn; lia).
  assert (Hlb : length b = length (m_buf x)) by (by apply hbeat_buf_length).
  set (d := slice 0 44 b). set (s2 := put_buf s1 a x b <| sent := _ |>).
  assert (Hp2 : pool_inv srep cap s2 (tail free)).
  { eapply pool_inv_ext; [..|eapply (pool_inv_put srep cap s1 _ a); [done|by eexists|done]]; reflexivity. }
  destruct (release_msg_spec srep cap s2 (tail free) a (x <| m_buf := b |>) Hp2) as (s3 & E3 & Hs3 & _ & Hp3);
    [apply lookup_h_set|split; cbn; lia|done|destruct free; cbn in *; lia|].
  unfold after_beat. rewrite (bind_run _ _ _ _ _ E3), !bind_set_cb, bind_gets, bind_set_cb, bind_gets. clear E3.
  set (s4 := s3 <| cb := _ |> <| cb := _ |> <| cb := _ |>).
  assert (Hs : s3 = s <| msgs := msgs s3 |> <| sent := sent s ++ [Packet ToGroup d] |>
                     <| cb := cb s <| bufmsgq := bufmsgq (cb s3) |> |>).
  { rewrite Hs3. unfold s2. rewrite Hsame. done. }
  assert (Z.to_nat (hb_seq_p3 (cb s4) - oldest_seq (cb s4)) = 0%nat) as ->.
  { unfold s4. rewrite Hs. cbn. lia. }
  cbn [clear_outbuf]. rewrite bind_ret. eexists _, s4, d. split; [reflexivity|].
  split; unfold s4; try (rewrite Hs; done).
  - by apply hbeat_buf_is_hbeat.
  - apply slice_length. lia.
  - exists a. eapply pool_inv_ext; [..|exact Hp3]; reflexivity.
Qed.

(** The turn in which the heartbeat is due. *)
Lemma hbeat_tick_ok cap s free now :
  pool_inv srep cap s free → Z.of_nat (length free) < INT_MAX → hb_ack (cb s) = 0 →
  45 + Z.of_nat (length (host (cb s))) ≤ cap → 0 ≤ lost (self s) < 2 ^ 24 → hb_seq_p2 (cb s) ≤ oldest_seq (cb s) →
  hbeat_rate (cb s) ≤ tv_sec now - tv_sec (last_hbeat (self s)) →
  ∃ s' d a, hbeat_tick now s = Ok (tt, s') ∧
    is_hbeat d (sequence (self s)) (mem_id (self s)) (session (self s)) ∧ length d = 44%nat ∧
    sent s' = sent s ++ [Packet ToGroup d] ∧ pool_inv srep cap s' (a :: tail free) ∧
    self s' = (self s <| last_hbeat := now |>) ∧ outmsgbuf (cb s') = outmsgbuf (cb s) ∧
    active (cb s') = active (cb s).
Proof.
  intros Hp Hmax Hack Hcap Hlost Hold Hdue.
  destruct (send_hbeat_ok cap s free (host (cb s)) Hp Hmax Hack Hcap Hlost Hold)
    as (ret & s1 & d & E & [Hd Hl Hs (a & Hp1) Hself Hcb _]).
  unfold hbeat_tick. rewrite !bind_gets, (proj2 (Z.leb_le _ _)) by done.
  rewrite (bind_run _ _ _ _ _ E), bind_set_cb. clear E. eexists _, d, a. split; [reflexivity|].
  split; [exact Hd|]. split; [exact Hl|]. split; [exact Hs|].
  split; [eapply pool_inv_ext; [..|exact Hp1]; reflexivity|]. cbn.
  split; [by rewrite Hself|]. by rewrite Hcb.
Qed.
End Beat.

(** ** The service, from the start *)

Section Service.
Context `{Uninit htbl_entry} `{Uninit mqueue_item} `{Kernel} `{Fresh}.

(** What an application asks for and what the operating system answers. *)
Record env := Env {
  e_mms : Z; e_nbufs : Z; e_rate : Z; e_name : cstring; e_addr : Z; e_rnd : Z; e_ipc : ipc_calls;
  e_grp : cstring; e_prt : Z; e_iface : option Z; e_join : join_calls
}.

(** [rmcast_init] without acknowledgements and [rmcast_join_on]. *)
Definition start_host (e : env) : M Z :=
  _ ← rmcast_init (e_mms e) (e_nbufs e) (e_rate e) 0 (Some (e_name e)) (Some (e_addr e)) (e_rnd e) (e_ipc e);
  rmcast_join_on (e_grp e) (e_prt e) (e_iface e) (e_join e).

Definition e_cap (e : env) : Z := Z.max 128 (e_mms e) + SIZEOF_HDR.

(** Static storage, before [rmcast_init]. *)
Record zeroed (s : rmc) : Prop := {
  ze_msgs : msgs s = heap_empty;
  ze_mems : mems s = heap_empty;
  ze_active : active (cb s) = 0;
  ze_init : initialized (net (cb s)) = 0;
  ze_oldest : oldest_seq (cb s) = 0;
  ze_out : ipc_out s = []
}.

(** Every call succeeds and new descriptors are new. *)
Record env_ok (e : env) (s : rmc) : Prop := {
  eo_size : e_mms e + SIZEOF_HDR ≤ INT_MAX ∧ e_nbufs e < INT_MAX;
  eo_name : 45 + Z.of_nat (length (e_name e)) ≤ e_cap e;
  eo_fds : (c_socket1 (e_ipc e) ∉ fds (net (cb s))) ∧ (c_socket2 (e_ipc e) ∉ fds (net (cb s)));
  eo_ipc : ipc_up (e_ipc e) = true;
  eo_join : 0 ≤ j_socket (e_join e) ∧ 0 ≤ j_reuse (e_join e) ∧ 0 ≤ j_loop (e_join e) ∧
            0 ≤ j_ttl (e_join e) ∧ 0 ≤ j_add (e_join e)
}.

(** A host that is up. *)
Record host_up (e : env) (s s' : rmc) (free : list Z) : Prop := {
  hu_pool : pool_inv qlifo (e_cap e) s' free;
  hu_free : Z.of_nat (length free) = Z.max 20 (e_nbufs e);
  hu_members : plain (members (cb s')) ∅ ∧ qplain (membersq (cb s')) [];
  hu_out : unreleased (outmsgbuf (cb s')) ∅;
  hu_self : sequence (self s') = 0 ∧ mem_id (self s') = i64 (e_addr e) ∧ lost (self s') = 0 ∧
            last_hbeat (self s') = Timeval 0 0;
  hu_hbeat : host (cb s') = e_name e ∧ hb_ack (cb s') = 0 ∧ hb_seq_p2 (cb s') = 0 ∧ oldest_seq (cb s') = 0 ∧
             0 ≤ hbeat_rate (cb s') ≤ 5;
  hu_active : active (cb s') = 1;
  hu_io : sent s' = sent s ∧ ipc_out s' = [] ∧ mems s' = heap_empty
}.

Lemma start_host_ok e s :
  zeroed s → env_ok e s → ∃ s' free, start_host e s = Ok (j_thread (e_join e), s') ∧ host_up e s s' free.
Proof.
  intros [Hm0 He0 Ha0 Hi0 Ho0 Hio0] [[Hsz Hnb] Hnm [Hf1 Hf2] Hup (Hj1 & Hj2 & Hj3 & Hj4 & Hj5)].
  destruct (rmcast_init_ok s (e_mms e) (e_nbufs e) (e_rate e) 0 (e_name e) (e_addr e) (e_rnd e) (e_ipc e))
    as (ret & s1 & free & E1 & Hr & Hp & Hl & Hmem & Hq & Ho & Hsq & Hid & _ & Hrt & Hst & Hio & Hme & Hact & _ & _ &
        Hh & Hk & Hp2 & Hold & Hlost & Hlast);
    [rewrite Hm0; apply heap_empty_wf|exact Hsz|lia|by rewrite Hi0|exact Hf1|exact Hf2|].
  destruct (ir_ok _ _ _ _ Hr Hup) as (-> & _ & _ & _ & Hipc & _ & Hmax). clear Hr.
  unfold start_host. rewrite (bind_run _ _ _ _ _ E1). clear E1.
  destruct (rmcast_join_correct (e_grp e) (e_prt e) (e_iface e) (e_join e) s1 Hj1 Hj2 Hj3 Hj4 Hj5) as [Hjoin _]; [lia|].
  destruct Hjoin as (n & E2 & _); [by rewrite Hact|].
  exists (activate (with_net s1 n)), free. split; [exact E2|]. clear E2.
  split; try done.
  - eapply pool_inv_ext; [..|exact Hp]; reflexivity.
  - cbn. rewrite Hold. done.
  - cbn. by rewrite Hio, Hme.
Qed.

(** The heartbeat of one host reaches another. *)
Lemma heard eA eB sA sB A0 B0 freeA freeB from tA tB :
  host_up eA sA A0 freeA → host_up eB sB B0 freeB → 45 + Z.of_nat (length (e_name eA)) ≤ e_cap eA →
  Z.max 20 (e_nbufs eA) < INT_MAX → Z.max 20 (e_nbufs eB) < INT_MAX → e_cap eB < 2 ^ 63 → 5 ≤ tv_sec tA →
  ∃ A1 hb a B1 b m, hbeat_tick tA A0 = Ok (tt, A1) ∧ sent A1 = sent sA ++ [Packet ToGroup hb] ∧
    pool_inv qlifo (e_cap eA) A1 (a :: tail freeA) ∧ unreleased (outmsgbuf (cb A1)) ∅ ∧
    sequence (self A1) = 0 ∧ mem_id (self A1) = i64 (e_addr eA) ∧
    handle_mcast tB (Some (hb, from)) B0 = Ok (false, B1) ∧ pool_inv qlifo (e_cap eB) B1 (b :: tail freeB) ∧
    registered plain plain B1 (u32 (i64 (e_addr eA))) 1 m ∅ ∧ expects m 0 ∧ ipc_out B1 = [].
Proof.
  intros [HpA HlA _ HoA (HsA & HiA & Hlo & Hla) (Hh & Hk & Hp2 & Hold & Hr1 & Hr2) _ (Hsent & _)]
         [HpB HlB [HmB HqB] _ _ _ _ (_ & HioB & HmeB)] Hnm HnA HnB Hcap Ht.
  destruct (hbeat_tick_ok qlifo (e_cap eA) A0 freeA tA HpA) as (A1 & hb & a & EA & Hhb & Hl & Hs & Hp1 & Hself & Ho & _);
    [lia|done|by rewrite Hh|lia|lia|rewrite Hla; cbn; lia|].
  rewrite HsA, HiA in Hhb. pose proof (pi_cap _ _ _ _ HpA).
  destruct (hbeat_registers_ok qlifo qplain plain (e_cap eB) B0 freeB tB hb from 0 (i64 (e_addr eA)) (session (self A0)) ∅ [])
    as (B1 & b & m & EB & HpB1 & Hreg & _ & _ & Hsq & _ & _ & _ & HioB1 & _ & Hrange);
    [exact HpB|lia|exact Hhb|rewrite Hl; unfold e_cap, SIZEOF_HDR in *; lia|exact Hcap|rewrite HmeB; apply heap_empty_wf
    |exact HmB|apply lookup_empty|reflexivity|exact HqB|reflexivity|].
  rewrite HmeB in Hreg. exists A1, hb, a, B1, b, m. split; [exact EA|]. split; [by rewrite Hs, Hsent|].
  split; [exact Hp1|]. split; [by rewrite Ho|]. rewrite Hself. split; [exact HsA|]. split; [exact HiA|].
  split; [exact EB|]. split; [exact HpB1|]. split; [exact Hreg|]. split; [by split|]. by rewrite HioB1.
Qed.

(** C1: The service works, from the start: two hosts are started and join a
    group, the heartbeat of the first reaches the second, and then whatever the
    application of the first sends, in messages that fit both and a datagram of
    UDP, over an interface that takes such datagrams whole, is what the
    application of the second reads, complete, in order and each message exactly
    once, over a network that delivers every datagram at least once, none before
    its predecessors, and any number of copies. Every call on the way returns. *)
Theorem service_end_to_end `{!KernelOk} `{Reader} `{!ReaderOk} eA eB sA sB ps from tA tB tB' len js :
  zeroed sA → zeroed sB → env_ok eA sA → env_ok eB sB → 5 ≤ tv_sec tA → length from = 16%nat →
  Forall (fits (e_cap eA)) ps → Forall (fits (e_cap eB)) ps → link_up →
  Z.of_nat (length ps) ≤ INT_MAX → Forall (fun p => Z.of_nat (length p) ≤ len) ps →
  Fifo.no_gap 0 js = true → Forall (fun j => (j < length ps)%nat) js → (∀ j, (j < length ps)%nat → j ∈ js) →
  Z.max 20 (e_nbufs eB) + Z.of_nat (length js) ≤ INT_MAX →
  ∃ A0 B0 A1 B1 hb A2 ds B2,
    start_host eA sA = Ok (j_thread (e_join eA), A0) ∧ start_host eB sB = Ok (j_thread (e_join eB), B0) ∧
    hbeat_tick tA A0 = Ok (tt, A1) ∧ sent A1 = sent sA ++ [Packet ToGroup hb] ∧
    handle_mcast tB (Some (hb, from)) B0 = Ok (false, B1) ∧
    send_all ps A1 = Ok (tt, A2) ∧ sent A2 = sent A1 ++ (Packet ToGroup <$> ds) ∧
    recv_all tB' from (relay js ds) B1 = Ok (tt, B2) ∧
    r_data <$> read_all (length ps) len (ipc_out B2) = ps.
Proof.
  intros HzA HzB HeA HeB Ht Hfrom HfA HfB Hlink Hps Hlen Hg Hjs Hall Hmax.
  destruct (start_host_ok eA sA HzA HeA) as (A0 & freeA & EA0 & HA).
  destruct (start_host_ok eB sB HzB HeB) as (B0 & freeB & EB0 & HB).
  pose proof (eo_size _ _ HeA) as [_ HnA]. pose proof (eo_size _ _ HeB) as [HcB HnB].
  destruct (heard eA eB sA sB A0 B0 freeA freeB from tA tB HA HB (eo_name _ _ HeA))
    as (A1 & hb & a & B1 & b & m & EA1 & HsA1 & HpA & HoA & HsA & HiA & EB1 & HpB & Hreg & Hexp & Hio);
    [int_lia|int_lia|unfold e_cap, SIZEOF_HDR in *; int_lia|done|].
  pose proof (hu_free _ _ _ _ HB) as HlB.
  destruct (relayed qlifo plain plain unreleased (e_cap eA) (e_cap eB) A1 B1 _ _ ∅ ps tB' from 1 m js HpA HpB)
    as (A2 & ds & B2 & EA2 & HsA2 & EB2 & HoB2); rewrite ?HsA, ?HiA;
    [unfold e_cap, SIZEOF_HDR in *; int_lia|exact HfA|exact HfB|exact Hlink|exact HoA|reflexivity
    |intros j _; apply lookup_empty|int_lia|rewrite map_size_empty; lia|exact Hreg|exact Hexp|exact Hio|exact Hfrom
    |exact Hg|exact Hjs|exact Hall|destruct freeB; cbn [tail length] in *; int_lia|].
  exists A0, B0, A1, B1, hb, A2, ds, B2. split; [exact EA0|]. split; [exact EB0|]. split; [exact EA1|].
  split; [exact HsA1|]. split; [exact EB1|]. split; [exact EA2|]. split; [exact HsA2|]. split; [exact EB2|].
  rewrite HoB2, <- (app_nil_r (concat _)). apply read_all_frames; [done|]. apply Forall_and. split; [|done].
  eapply Forall_impl; [exact HfA|]. intros p ?%fits_short. lia.
Qed.
End Service.
