(* ===== verification/RmcastFaults.v ===== *)
(** * The daemon: where it goes wrong

    Sizes and counts the code does not check, and the arithmetic of the heartbeat
    rate. *)

From Stdlib Require Import SpecFloat.
From S2P Require Import Prelude StateMonad Machine Heap Pool Hashtable HashtableRepr HashtableProofs Mqueue.
From S2P Require Import MqueueRepr MqueueProofs Interfaces Wire RmcastState Rmcast RmcastApi.
From S2P Require Import RmcastPool RmcastWire RmcastProofs RmcastNack.

(** ** The heartbeat rate *)

Lemma f_sub_diag s m e : f_sub (S754_finite s m e) (S754_finite s m e) = S754_zero false.
Proof.
  unfold f_sub, SFsub. rewrite Z.min_id, Z.sub_diag. reflexivity.
Qed.

(** No time between two heartbeats, to the precision of [float]. *)
Lemma rate_no_time n : rate (f_div n (S754_zero false)) = 1.
Proof. by destruct n as [[]|[]| |[] ? ?]. Qed.

(** C33: The heartbeat interval stays between 1 and 5 seconds; when the two
    times are the same [float] it is 1 second, however few messages were sent. *)
Theorem hbeat_rate_bounds mps n now prev :
  1 ≤ rate mps ≤ 5 ∧
  (f_time now = f_time prev → (∃ s m e, f_time now = S754_finite s m e) →
   rate (f_div n (f_sub (f_time now) (f_time prev))) = 1).
Proof.
  split.
  - unfold rate. ztest; lia.
  - intros <- (s & m & e & ->). rewrite f_sub_diag. apply rate_no_time.
Qed.

(** Two times a minute apart. *)
Lemma hbeat_rate_bounds_witness :
  1 ≤ rate (f_of_int 3) ≤ 5 ∧
  rate (f_div (f_of_int 3) (f_sub (f_time (Timeval 1700000060 0)) (f_time (Timeval 1700000000 0)))) = 1.
Proof.
  destruct (hbeat_rate_bounds (f_of_int 3) (f_of_int 3) (Timeval 1700000060 0) (Timeval 1700000000 0))
    as [Hb He].
  split; [exact Hb|]. apply He; [reflexivity|]. vm_compute. eauto.
Defined.

Section Faults.
Context `{Uninit htbl_entry} `{Uninit mqueue_item} `{Kernel} `{Fresh}.
Context (srep : mqueue_t → list Z → Prop) `{!Stack srep}.
Context (orep : htbl_t → gmap hkey Z → Prop) `{!PutTable orep}.

(** The message [alloc_msg] returns is no larger than the others. *)
Lemma alloc_msg_bound cap s free :
  pool_inv srep cap s free →
  (∀ a x, cells (msgs s) !! a = Some x → m_size x ≤ bufsize (cb s)) →
  ∃ a s' x, alloc_msg s = Ok (a, s') ∧ heap_wf (msgs s') ∧ cells (msgs s') !! a = Some x ∧
    Z.of_nat (length (m_buf x)) ≤ bufsize (cb s) ∧ bufsize (cb s') = bufsize (cb s).
Proof.
  intros [Hw Hr Hnd Hok Hb Hc] Hbig. unfold alloc_msg. rewrite bind_gets.
  destruct (st_remove _ _ Hr) as (q & E & _).
  rewrite (bind_lift _ _ _ _ E), bind_set_cb. destruct free as [|a free]; cbn [hd] in *.
  - change (truthy NULL) with false. cbn iota.
    destruct (new_msg_spec (s <| cb := cb s <| bufmsgq := q |> |>)) as (x & -> & Hm & Hsz & _);
      [done|cbn; lia|].
    eexists _, _, x. split; [done|]. split; [by apply heap_wf_new|]. split; [apply lookup_h_new|].
    split; [|done]. rewrite <- Hsz, Hm. done.
  - destruct (Hok a) as (x & Hx & Hxs & _); [left|].
    rewrite truthy_true by exact (heap_wf_pos _ _ _ Hw Hx).
    eexists a, _, x. split; [done|]. split; [done|]. split; [done|]. split; [|done].
    rewrite <- Hxs. by eapply Hbig.
Qed.

(** A message whose length is within 20 bytes of the buffer size is not
    given a larger buffer, and is received past the end of the one it has. *)
Theorem ipc_message_overflow cap s free p :
  pool_inv srep cap s free →
  (∀ a x, cells (msgs s) !! a = Some x → m_size x ≤ bufsize (cb s)) →
  bufsize (cb s) - SIZEOF_HDR < Z.of_nat (length p) ≤ bufsize (cb s) →
  handle_ipc (IpcEvent (Z.of_nat (length p)) (Some p)) s = Fault OutOfBounds.
Proof.
  intros Hp Hbig Hlen.
  destruct (alloc_msg_bound _ _ _ Hp Hbig)
    as (a & s1 & x & E & Hw & Hx & Hsz & Hbs).
  unfold handle_ipc. rewrite (bind_run _ _ _ _ _ E), bind_gets.
  cbn [ipc_read ipc_data default from_option Datatypes.id].
  destruct (Z.ltb_spec (bufsize (cb s1)) (Z.of_nat (length p))) as [|_]; [lia|].
  rewrite bind_ret. cbv zeta. apply bind_fault. eapply wr_fault; [done|exact Hx|].
  unfold buf_write, in_buf. rewrite (proj2 (Z.leb_gt _ (Z.of_nat (length (m_buf x))))) by (unfold SIZEOF_HDR in *; lia).
  by rewrite andb_false_r.
Qed.

(** ** Retransmission *)

(** The messages that are kept for retransmission can be sent, and message [a],
    with [len] bytes, is there. *)
Record resend_ready (s : rmc) (a : Z) (len : nat) (mo : gmap hkey Z) : Prop := {
  rr_wf : heap_wf (msgs s);
  rr_msg : ∃ x, cells (msgs s) !! a = Some x ∧ length (m_buf x) = len;
  rr_table : orep (outmsgbuf (cb s)) mo;
  rr_kept : ∀ k d, mo !! k = Some d → ∃ x, cells (msgs s) !! d = Some x ∧
              0 ≤ m_length x ∧ m_length x + SIZEOF_HDR ≤ Z.of_nat (length (m_buf x))
}.

Lemma resend_ready_put s a x b len mo :
  resend_ready s a len mo → cells (msgs s) !! a = Some x → length b = length (m_buf x) →
  resend_ready (put_buf s a x b) a len mo.
Proof.
  intros [Hw (x' & Hx' & Hl) Ht Hk] Hx Hb. rewrite Hx in Hx'. injection Hx' as <-. split.
  - apply heap_wf_set; [done|by eexists].
  - exists (x <| m_buf := b |>). rewrite put_buf_lookup. split; [done|]. cbn. by rewrite Hb.
  - done.
  - intros k d Hd. destruct (Hk k d Hd) as (y & Hy & Hyl). cbn.
    destruct (decide (a = d)) as [->|Hne].
    + rewrite Hx in Hy. injection Hy as <-. exists (x <| m_buf := b |>).
      rewrite lookup_h_set. split; [done|]. cbn. by rewrite Hb.
    + exists y. by rewrite lookup_h_set_ne.
Qed.

(** Sending a kept message again, if there is one. *)
Lemma resend_step s a len mo key :
  resend_ready s a len mo →
  ∃ s', resend key s = Ok (tt, s') ∧ resend_ready s' a len mo.
Proof.
  intros Hr. pose proof Hr as [Hw Hm Ht Hk]. unfold resend. rewrite bind_gets.
  rewrite (bind_lift _ _ _ _ (pt_get _ _ key Ht)). unfold Spec.get.
  destruct (mo !! KInt key) as [d|] eqn:E; [|by exists s].
  destruct (Hk _ _ E) as (x & Hx & H0' & Hl). change (truthy 1) with true. cbn [default from_option Datatypes.id].
  rewrite (bind_load_msg d _ s x), bind_gets by done. unfold sendto.
  replace (m_length x + SIZEOF_HDR) with (Z.of_nat (Z.to_nat (m_length x + SIZEOF_HDR)))
    by (unfold SIZEOF_HDR; lia).
  eexists. split.
  - erewrite bind_run; [reflexivity|].
    rewrite (bind_rd d _ _ s x _ Hw Hx) by (apply (buf_read_Ok (m_buf x) 0); lia). reflexivity.
  - by split.
Qed.

Lemma get_field_cases buf off n :
  0 ≤ off →
  (get_field buf off n = Ok (field (Z.to_nat off) n buf) ∧ off + Z.of_nat n ≤ Z.of_nat (length buf)) ∨
  (get_field buf off n = Fault OutOfBounds ∧ Z.of_nat (length buf) < off + Z.of_nat n).
Proof.
  intros Ho. unfold get_field, buf_read, in_buf. rewrite !(proj2 (Z.leb_le 0 _)) by lia. cbn.
  destruct (Z.leb_spec (off + Z.of_nat n) (Z.of_nat (length buf))); [left|by right].
  rewrite Nat2Z.id. done.
Qed.

Lemma rd_fault {A} s p x (f : list Z → res A) e :
  heap_wf (msgs s) → cells (msgs s) !! p = Some x → f (m_buf x) = Fault e → rd p f s = Fault e.
Proof.
  intros Hw Hp E. unfold rd, load_msg, mbind, M_bind.
  rewrite (h_load_Ok _ _ _ Hw Hp). cbn. by rewrite E.
Qed.

(** The loop ends past the end of the message, before its fuel. *)
Lemma resend_loop_overruns a len mo cnt : ∀ fuel s itr,
  resend_ready s a len mo → 0 ≤ itr ≤ cnt → Z.of_nat len < 28 + 8 * cnt →
  (0 < fuel)%nat → Z.of_nat len < 28 + 8 * (Z.of_nat fuel - 1 + itr) → Z.of_nat len < INT_MAX →
  resend_loop fuel a itr cnt s = Fault OutOfBounds.
Proof.
  induction fuel as [|fuel IH]; intros s itr Hr Hi Hc Hf0 Hf Hmax; [lia|]. cbn [resend_loop].
  rewrite (proj2 (Z.leb_le _ _)) by lia. cbv zeta. unfold SIZEOF_HDR, SIZEOF_LONG.
  pose proof Hr as [Hw (x & Hx & Hl) Ht Hk].
  destruct (get_field_cases (m_buf x) (20 + 8 * itr) 8) as [[Eg Hin]|[Eg Hout]]; [lia| |]; cycle 1.
  { apply bind_fault. by eapply rd_fault. }
  rewrite (bind_rd a _ _ s x _ Hw Hx Eg). set (z := ntohl _).
  destruct (set_field_cases (m_buf x) (20 + 8 * itr) 8 z) as [(b & Eb & Hbl & _)|Eb]; [lia| |]; cycle 1.
  { apply bind_fault. by eapply wr_fault. }
  rewrite (bind_wr a (fun b => set_field b (20 + 8 * itr) 8 z) _ s x b Hw Hx Eb).
  destruct (resend_step (put_buf s a x b) a len mo (i32 z)) as (s' & E & Hr').
  { by apply resend_ready_put. }
  rewrite (bind_run _ _ _ _ _ E), (bind_lift _ _ _ _ (add_int_Ok itr 1 ltac:(int_lia))).
  apply IH; try done; lia.
Qed.

(** A property of a short range of integers, by evaluation. *)
Lemma Z_range_check lo n (p : Z → bool) z :
  forallb p (seqZ lo n) = true → lo ≤ z < lo + n → p z = true.
Proof.
  rewrite List.forallb_forall. intros Hall Hz. apply Hall, list_elem_of_In, elem_of_seqZ. lia.
Qed.

(** The count of a request as its receiver reads it. *)
Lemma nack_count_read cnt : 1 ≤ cnt < 128 → i32 (htonl cnt) = cnt * 2 ^ 24.
Proof.
  intros Hc. apply Z.eqb_eq.
  apply (Z_range_check 1 127 (fun c => i32 (htonl c) =? c * 2 ^ 24)); [reflexivity|lia].
Qed.

(** A negative acknowledgement is not answered: its count is not converted
    to the host's byte order, so that a count between 1 and 127 is read as a
    multiple of 2^24 and the handler runs past the end of the message. *)
Theorem nack_handler_overruns s a len mo cnt i x :
  resend_ready s a len mo → cells (msgs s) !! a = Some x → (20 < len)%nat → Z.of_nat len < 2 ^ 24 →
  1 ≤ cnt < 128 → field 20 8 (m_buf x) = htonl cnt → hdr_id (m_buf x) = Ok i →
  handle_nack a s = Fault OutOfBounds.
Proof.
  intros Hr Hx Hl0 Hl Hc Hf Hi. pose proof Hr as [Hw (x' & Hx' & Hxl) Ht Hk].
  rewrite Hx in Hx'. injection Hx' as <-. unfold handle_nack.
  destruct (get_field_cases (m_buf x) 20 8) as [[Eg Hin]|[Eg Hout]]; [lia| |]; cycle 1.
  { apply bind_fault. by eapply rd_fault. }
  change (Z.to_nat 20) with 20%nat in Eg. rewrite Hf in Eg.
  rewrite (bind_rd a _ _ s x _ Hw Hx Eg), (bind_rd a _ _ s x _ Hw Hx Hi), bind_set_cb.
  rewrite (bind_load_msg a _ _ x) by done. rewrite Hxl.
  rewrite nack_count_read by done.
  eapply resend_loop_overruns; [by split; eauto|lia..|int_lia].
Qed.
End Faults.
