(* ===== verification/RmcastLeave.v ===== *)
(** * The daemon: what becomes of a member that leaves

    The handler of a leave message takes the member out of the table and frees
    it, but [mqueue_remove_item] never removes the last item of a queue: the
    member that was registered first stays in [membersq], and the periodic work
    reads it after it was freed. *)

From S2P Require Import Prelude StateMonad Machine Heap Pool Hashtable HashtableRepr HashtableProofs HashtableTable.
From S2P Require Import Mqueue MqueueRepr MqueueProofs MqueueRemove MqueueSpec Interfaces Wire.
From S2P Require Import RmcastState Rmcast RmcastPool RmcastProofs.

Section Leave.
Context `{Uninit htbl_entry} `{Uninit mqueue_item} `{Kernel} `{Fresh}.
Context (mrep : htbl_t → gmap hkey Z → Prop) `{!Table mrep}.

(** Nothing to enumerate in an empty table. *)
Lemma enum_empty t : plain t ∅ → htbl_enum_int_keys t [] 0 = Ok ([], 0).
Proof.
  intros Hp. pose proof (repr_count _ _ _ (plain_repr _ _ Hp)) as Hn. rewrite map_size_empty in Hn.
  destruct Hp as (css & Hh & _). rewrite (to_count _ _ (ho_table _ _ _ _ Hh)) in Hn.
  rewrite (htbl_enum_int_keys_holds _ _ _ _ [] 0 Hh) by (cbn; int_lia).
  destruct (concat css); [done|cbn in Hn; lia].
Qed.

Lemma drop_unseq_empty s p m :
  heap_wf (mems s) → cells (mems s) !! p = Some m → plain (unseq_msgs m) ∅ → drop_unseq p s = Ok (tt, s).
Proof.
  intros Hw Hp Hu. unfold drop_unseq. rewrite (bind_load_mem p _ s m) by done.
  rewrite (pt_count _ _ Hu), map_size_empty. cbn [Z.of_nat]. cbv zeta. change (Z.to_nat (2 * 0)) with 0%nat.
  by rewrite (bind_lift _ _ _ _ (enum_empty _ Hu)).
Qed.

(** The state a leave message leaves: the member is gone from the table and from
    memory. *)
Lemma handle_leave_ok s a x i p m mm cs :
  heap_wf (msgs s) → cells (msgs s) !! a = Some x → hdr_id (m_buf x) = Ok i →
  heap_wf (mems s) → cells (mems s) !! p = Some m → plain (unseq_msgs m) ∅ →
  mrep (members (cb s)) mm → mm !! KInt (i32 i) = Some p →
  qplain (membersq (cb s)) cs → p ∉ removelast cs →
  ∃ t q, handle_leave a s =
      Ok (tt, s <| cb := cb s <| members := t |> <| membersq := q |> |>
                <| mems := h_del (mems s) p |>) ∧
    mrep t (delete (KInt (i32 i)) mm) ∧ qplain q cs.
Proof.
  intros Hw Hx Hi Hmw Hp Hu Hm Hk Hq Hc. unfold handle_leave. rewrite (bind_rd a _ _ s x i Hw Hx Hi), bind_gets.
  destruct (tb_remove _ _ (i32 i) Hm) as (t & Et & Ht). unfold Spec.remove in Et, Ht. rewrite Hk in Et, Ht.
  cbn in Et, Ht. rewrite (bind_lift _ _ _ _ Et), bind_set_cb.
  change (truthy 1) with true. cbn iota. cbn [default from_option]. change (Datatypes.id p) with p.
  erewrite (bind_run (drop_unseq p)); [|by eapply drop_unseq_empty]. rewrite bind_gets.
  destruct (remove_item_last_ok _ _ p Hq Hc) as (q & Eq & Hq').
  rewrite (bind_lift _ _ _ _ Eq), bind_set_cb. unfold rmcast_member_free.
  exists t, q. split; [|done]. cbn. rewrite h_free_Ok by eauto. done.
Qed.

(** The acknowledgements are collected from a member that was freed. *)
Lemma ack_tick_dangling s p :
  qplain (membersq (cb s)) [p] → p ≠ NULL → cells (mems s) !! p = None → truthy (hb_ack (cb s)) = true →
  ack_tick s = Fault BadPtr.
Proof.
  intros Hq Hp Hd Ha. unfold ack_tick. rewrite bind_gets, Ha. apply bind_fault.
  rewrite (st_size _ _ Hq). unfold for_m, for_range. cbn.
  destruct (st_peek _ _ 0 Hq) as (q & Eq & Hq'); [lia|]. cbn in Eq.
  change (default NULL ([p] !! Z.to_nat 0)) with p in Eq.
  change (Z.to_nat (Z.of_nat 1 - 0)) with 1%nat. cbn [for_n snd].
  rewrite bind_gets, (bind_lift _ _ _ _ Eq), bind_set_cb, (bind_fault (load_mem p) _ _ BadPtr); [done|].
  unfold load_mem, h_load. cbn. by rewrite (proj2 (Z.eqb_neq _ _) Hp), Hd.
Qed.

End Leave.
