(* ===== verification/RmcastClose.v ===== *)
(** * The daemon: leaving the group and closing

    [rmcast_leave] gives back what the host still holds and [rmcast_close]
    frees the pool.  A host that neither sent nor heard anything ends without a
    message allocated; a host that sent keeps every other message, since the
    array of keys is filled as [int] and read as [unsigned long]; a host that
    only received has no room for the keys of its members at all. *)

From S2P Require Import Prelude StateMonad Machine Heap Pool Hashtable HashtableRepr HashtableOps HashtableProofs.
From S2P Require Import HashtableTable HashtableSpec Mqueue MqueueRepr MqueueProofs MqueueRemove MqueueSpec Interfaces.
From S2P Require Import Wire RmcastState Rmcast RmcastApi RmcastPool RmcastWire RmcastProofs RmcastSockets RmcastInit RmcastLeave.

(** ** Tables and queues *)

(** An enumeration without room for a key: the first one is stored out of
    bounds. *)
Lemma enum_no_room q t css l :
  holds q t css l → concat css ≠ [] → htbl_enum_int_keys t [] 0 = Fault OutOfBounds.
Proof.
  intros [Ht _ _] Hne. unfold htbl_enum_int_keys, enum_keys, for_range. rewrite Z.sub_0_r.
  set (f := fun e => if e_type e =? HTBL_KEY_INT then int_of_ptr (e_key e) else 0).
  pose proof (to_chains _ _ Ht) as Hch. rewrite (to_size _ _ Ht), Nat2Z.id.
  assert (∀ n i, (i + n = length css)%nat → concat (drop i css) ≠ [] →
    for_n n (Z.of_nat i) (fun itr '(keys, count) =>
      entry ← arr_get (entries (tbl t)) itr;
      enum_chain f (walk_fuel (ents t)) (ents t) 0 keys count entry) ([], 0) = Fault OutOfBounds) as Hgo.
  { induction n as [|n IH]; intros i Hi Hc.
    { by rewrite drop_ge in Hc by lia. }
    destruct (lookup_lt_is_Some_2 css i) as [cs Hcs]; [lia|].
    destruct (Forall2_lookup_r _ _ _ _ _ Hch Hcs) as (p & Hp & Hpc). cbn [for_n].
    rewrite (arr_get_Ok _ _ _ Hp). cbn [mbind res_bind]. rewrite (drop_S _ _ _ Hcs) in Hc.
    destruct cs as [|c cs].
    - cbn in Hpc. subst p. unfold walk_fuel. cbn [enum_chain]. change (NULL =? NULL) with true.
      cbn iota. cbn [mbind res_bind]. replace (Z.of_nat i + 1) with (Z.of_nat (S i)) by lia. apply IH; [lia|done].
    - destruct Hpc as (-> & nx & [[hsh He] _] & _). unfold walk_fuel. cbn [enum_chain].
      pose proof (to_ents _ _ Ht) as Hw.
      rewrite (proj2 (Z.eqb_neq _ _)) by exact (heap_wf_pos _ _ _ Hw He).
      rewrite (h_load_Ok _ _ _ Hw He). done. }
  apply (Hgo (length css) 0%nat); [done|by rewrite drop_0].
Qed.

Lemma repr_enum q t m keys nkeys :
  repr q t m → (size m ≤ length keys)%nat → Z.of_nat (size m) ≤ nkeys ≤ INT_MAX →
  ∃ ks, length ks = size m ∧
    htbl_enum_int_keys t keys nkeys = Ok (ks ++ drop (size m) keys, Z.of_nat (size m)).
Proof.
  intros Hr. pose proof (repr_count _ _ _ Hr) as Hn. destruct Hr as (css & l & Hh & Hm).
  rewrite (to_count _ _ (ho_table _ _ _ _ Hh)) in Hn. assert (length (concat css) = size m) as Hc by lia.
  intros Hl Hk. exists (cell_int <$> concat css). rewrite length_fmap, <- Hc. split; [done|].
  apply (htbl_enum_int_keys_holds _ _ _ _ _ _ Hh); lia.
Qed.

Lemma repr_no_room q t m : repr q t m → m ≠ ∅ → htbl_enum_int_keys t [] 0 = Fault OutOfBounds.
Proof.
  intros (css & l & Hh & ->) Hne. eapply enum_no_room; [exact Hh|]. intros E. by rewrite E in Hne.
Qed.

Lemma repr_free q t m : repr q t m → ∃ h, htbl_free t = Ok (0, h, strs t).
Proof. intros (css & l & Hh & _). destruct (htbl_free_holds _ _ _ _ Hh) as (h & E & _). by exists h. Qed.

Lemma qlifo_free t cs : qlifo t cs → ∃ h, mqueue_free t = Ok h.
Proof. intros (as_ & fl & Hq). destruct (mqueue_free_leaks _ _ _ _ Hq) as (h & E & _). by exists h. Qed.

Lemma repr_remove t m k :
  repr Sane t m →
  ∃ t', htbl_remove t k = Ok ((Spec.remove m (KInt k)).1, t') ∧ repr Sane t' (Spec.remove m (KInt k)).2.
Proof. exact (htbl_remove_pooled t m (KInt k)). Qed.

Section Leave.
Context `{Uninit htbl_entry} `{Uninit mqueue_item} `{Kernel} `{Fresh}.

(** ** The messages that were sent *)

Definition with_out (s : rmc) (t : htbl_t) (q : mqueue_t) : rmc :=
  s <| cb := cb s <| outmsgbuf := t |> <| bufmsgq := q |> |>.

(** The messages [l] are exactly those that [m] has and [m'] has not. *)
Definition given_back (m m' : gmap hkey Z) (l : list Z) : Prop :=
  m' ⊆ m ∧ (map_to_list m).*2 ≡ₚ l ++ (map_to_list m').*2.

Lemma given_back_delete m m' l k a :
  given_back m m' l → m' !! k = Some a → given_back m (delete k m') (a :: l).
Proof.
  intros [Hs Hp] Ha. split; [etrans; [apply delete_subseteq|done]|].
  rewrite Hp, <- (map_to_list_delete m' k a Ha). cbn. apply Permutation_sym, Permutation_middle.
Qed.

Lemma given_back_size m m' l : given_back m m' l → (length l + size m' = size m)%nat.
Proof.
  intros [_ Hp%Permutation_length]. rewrite length_app, !length_fmap, !length_map_to_list in Hp. lia.
Qed.

(** After [j] of the [n] turns of [drop_out]: of the first half of them every
    one may have removed a message, of the others only one, the message 0. *)
Record dropped_out (s : rmc) (m : gmap hkey Z) (free : list Z) (j : Z) (s' : rmc) : Prop := {
  do_state : ∃ t q m' l, s' = with_out s t q ∧ repr Sane t m' ∧ qlifo q (l ++ free) ∧
    given_back m m' l ∧
    Z.of_nat (size m) - Z.min j ((Z.of_nat (size m) + 1) / 2) -
      (if (Z.of_nat (size m) + 1) / 2 <? j then 1 else 0) ≤ Z.of_nat (size m') ∧
    ((Z.of_nat (size m) + 1) / 2 < j → m' !! KInt 0 = None)
}.

Lemma dropped_out_step s m free j s1 k :
  dropped_out s m free j s1 → 0 ≤ j → Z.of_nat (length free + size m) ≤ INT_MAX →
  ((Z.of_nat (size m) + 1) / 2 ≤ j → k = 0) →
  ∃ s2, (t ← gets (fun s => outmsgbuf (cb s));
         '(r, d, t) ← lift (htbl_remove t k);
         _ ← set_cb (fun c => c <| outmsgbuf := t |>);
         if truthy r then release_msg (default NULL d) else mret tt) s1 = Ok (tt, s2) ∧
    dropped_out s m free (j + 1) s2.
Proof.
  intros [(t & q & m' & l & -> & Ht & Hq & Hgb & Hsz & H0')] Hj Hmax Hk. pose proof (given_back_size _ _ _ Hgb) as Hlen.
  rewrite bind_gets. cbn [outmsgbuf cb with_out setter].
  destruct (repr_remove t m' k Ht) as (t' & E & Ht').
  change (outmsgbuf (cb (with_out s t q))) with t. rewrite (bind_lift _ _ _ _ E). clear E.
  unfold Spec.remove in *. set (h := (Z.of_nat (size m) + 1) / 2) in *.
  destruct (m' !! KInt k) as [a|] eqn:Ea; cbn [fst snd] in *.
  - assert (Hd : S (size (delete (KInt k) m')) = size m').
    { rewrite <- (insert_delete_id m' (KInt k) a Ea) at 2. by rewrite map_size_insert_None by apply lookup_delete_eq. }
    rewrite bind_set_cb. change (truthy 1) with true. cbn iota. unfold release_msg. rewrite bind_gets.
    destruct (st_add _ _ (default NULL (Some a)) Hq) as (q' & Eq & Hq').
    { rewrite length_app. lia. }
    match goal with |- context [mqueue_add ?x _] => change x with q end. rewrite (bind_lift _ _ _ _ Eq). eexists. split; [reflexivity|].
    split. exists t', q', (delete (KInt k) m'), (a :: l).
    split; [done|]. split; [done|]. split; [done|]. split; [by apply given_back_delete|]. split.
    + fold h. revert Hsz. destruct (Z.ltb_spec h j), (Z.ltb_spec h (j + 1)); try lia.
      rewrite Hk, H0' in Ea by lia. done.
    + fold h. intros Hlt. rewrite Hk by lia. apply lookup_delete_eq.
  - rewrite bind_set_cb. change (truthy 0) with false. cbn iota. eexists. split; [reflexivity|].
    split. exists t', q, m', l. split; [done|]. split; [done|]. split; [done|]. split; [done|]. split.
    + fold h. revert Hsz. destruct (Z.ltb_spec h j), (Z.ltb_spec h (j + 1)); lia.
    + fold h. intros Hlt. rewrite Hk in Ea by lia. done.
Qed.

Lemma drop_out_run s m free ks :
  repr Sane (outmsgbuf (cb s)) m → qlifo (bufmsgq (cb s)) free →
  length ks = size m → Z.of_nat (length free + size m) ≤ INT_MAX →
  ∃ s', drop_out (ks ++ replicate (size m) 0) (Z.of_nat (size m)) s = Ok (tt, s') ∧
    dropped_out s m free (Z.of_nat (size m)) s'.
Proof.
  intros Ht Hq Hks Hmax. unfold drop_out, for_m.
  match goal with |- context [for_range 0 _ ?body _] =>
    destruct (for_range_inv (fun j us => dropped_out s m free j us.2) 0 (Z.of_nat (size m)) body (tt, s))
      as ([u s'] & E & Hs') end.
  - lia.
  - split. exists (outmsgbuf (cb s)), (bufmsgq (cb s)), m, []. split; [by destruct s as [[] ? ? ? ? ?]|].
    do 3 (split; [done|]). split; [|intros ?; exfalso]; cbn [snd];
      assert (0 ≤ (Z.of_nat (size m) + 1) / 2) by (apply Z.div_pos; lia).
    + rewrite (proj2 (Z.ltb_ge _ _)) by lia. lia.
    + lia.
  - intros j [u s1] Hj Hs1. cbn [snd] in *.
    assert (∃ k, (ks ++ replicate (size m) 0) !! Z.to_nat (2 * j) = Some k ∧
      ((Z.of_nat (size m) + 1) / 2 ≤ j → k = 0)) as (k & Hk & Hz).
    { destruct (decide (2 * j < Z.of_nat (size m))) as [Hlt|Hge].
      - destruct (lookup_lt_is_Some_2 ks (Z.to_nat (2 * j))) as [k Hk]; [lia|].
        exists k. split; [by rewrite lookup_app_l by lia|]. intros Hh. exfalso.
        pose proof (Z.mul_div_le (Z.of_nat (size m) + 1) 2).
        pose proof (Z_div_mod_eq_full (Z.of_nat (size m) + 1) 2).
        pose proof (Z.mod_pos_bound (Z.of_nat (size m) + 1) 2). lia.
      - exists 0. split; [|done]. rewrite lookup_app_r by lia. apply lookup_replicate_2. lia. }
    rewrite (bind_lift _ _ _ k) by (apply arr_get_Z; [lia|exact Hk]).
    destruct (dropped_out_step s m free j s1 k Hs1 ltac:(lia) Hmax Hz) as (s2 & E2 & Hs2).
    exists (tt, s2). split; [exact E2|exact Hs2].
  - exists s'. destruct u. split; [exact E|exact Hs'].
Qed.

(** ** The whole of [rmcast_leave] *)

(** An empty queue has nothing to give back. *)
Lemma drain_in_empty s fuel :
  qlifo (inmsgq (cb s)) [] →
  ∃ q, drain_in fuel s = Ok (tt, s <| cb := cb s <| inmsgq := q |> |>) ∧ qlifo q [].
Proof.
  intros Hq. destruct (st_remove _ _ Hq) as (q & E & Hq'). exists q. split; [|done].
  destruct fuel; cbn [drain_in]; rewrite bind_gets, (bind_lift _ _ _ _ E), bind_set_cb; reflexivity.
Qed.

(** Without members the array of keys is not used. *)
Lemma drop_members_none s keys nkeys :
  repr Sane (members (cb s)) ∅ → 0 ≤ nkeys ≤ INT_MAX → drop_members keys nkeys s = Ok (tt, s).
Proof.
  intros Hm Hn. unfold drop_members. rewrite bind_gets. unfold htbl_count.
  rewrite (repr_count _ _ _ Hm), map_size_empty, (proj2 (Z.ltb_ge _ _)) by (cbn; lia).
  destruct (repr_enum _ _ _ keys nkeys Hm) as (ks & Hks & E); rewrite ?map_size_empty in *; [lia..|].
  by rewrite (bind_lift _ _ _ _ E).
Qed.

(** What a host with the messages [m] in [outmsgbuf] and nothing else is left
    with. *)
Record left_with (s : rmc) (m : gmap hkey Z) (free : list Z) (s' : rmc) : Prop := {
  lw_out : ∃ m' l, repr Sane (outmsgbuf (cb s')) m' ∧ qlifo (bufmsgq (cb s')) (l ++ free) ∧
    given_back m m' l ∧
    Z.of_nat (size m) / 2 - 1 ≤ Z.of_nat (size m');
  lw_in : qlifo (inmsgq (cb s')) [];
  lw_members : repr Sane (members (cb s')) ∅;
  lw_active : active (cb s') = 0;
  lw_msgs : msgs s' = msgs s;
  lw_sent : sent s' = sent s;
  lw_bufsize : bufsize (cb s') = bufsize (cb s);
  lw_seq : sequence (self s') = 0
}.

Lemma leave_run s m free :
  repr Sane (outmsgbuf (cb s)) m → qlifo (bufmsgq (cb s)) free → qlifo (inmsgq (cb s)) [] →
  repr Sane (members (cb s)) ∅ → Z.of_nat (length free + size m) ≤ INT_MAX →
  ∃ s', rmcast_leave s = Ok (tt, s') ∧ left_with s m free s'.
Proof.
  intros Ho Hq Hi Hm Hmax. unfold rmcast_leave. rewrite bind_set_cb, bind_gets. unfold htbl_count.
  set (s0 := s <| cb := cb s <| active := 0 |> |>). change (outmsgbuf (cb s0)) with (outmsgbuf (cb s)).
  rewrite (repr_count _ _ _ Ho).
  set (n := size m). cbv zeta.
  destruct (repr_enum _ _ _ (replicate (Z.to_nat (2 * Z.of_nat n)) 0) (Z.of_nat n) Ho) as (ks & Hks & E);
    [rewrite length_replicate; lia|lia|].
  rewrite (bind_lift _ _ _ _ E). clear E. cbn beta iota. rewrite drop_replicate.
  replace (Z.to_nat (2 * Z.of_nat n) - size m)%nat with (size m) by lia.
  destruct (drop_out_run s0 m free ks Ho Hq Hks Hmax) as (s1 & E1 & [(t & q & m' & l & -> & Ht & Hq' & Hl & Hsz & _)]).
  erewrite (bind_run (drop_out _ _)); [|exact E1]. clear E1. rewrite bind_gets.
  destruct (drain_in_empty (with_out s0 t q) (Z.to_nat (mqueue_size (inmsgq (cb (with_out s0 t q)))))) as (qi & E2 & Hqi);
    [exact Hi|].
  rewrite (bind_run _ _ _ _ _ E2). clear E2.
  erewrite (bind_run (drop_members _ _)); [|apply drop_members_none; [exact Hm|lia]].
  rewrite bind_set_cb. eexists. split; [reflexivity|].
  split; try done. exists m', l. do 3 (split; [done|]). fold n in Hsz |- *.
  pose proof (Z_div_mod_eq_full (Z.of_nat n + 1) 2). pose proof (Z.mod_pos_bound (Z.of_nat n + 1) 2).
  pose proof (Z_div_mod_eq_full (Z.of_nat n) 2). pose proof (Z.mod_pos_bound (Z.of_nat n) 2).
  revert Hsz. destruct (_ <? _); lia.
Qed.

(** ** The end of the daemon *)

(** A message of the pool. *)
Lemma alloc_from_pool cap s a free :
  pool_inv qlifo cap s (a :: free) →
  ∃ q, alloc_msg s = Ok (a, s <| cb := cb s <| bufmsgq := q |> |>) ∧
    pool_inv qlifo cap (s <| cb := cb s <| bufmsgq := q |> |>) free.
Proof.
  intros [Hw Hr [_ Hnd]%NoDup_cons Hok Hb Hc]. destruct (st_remove _ _ Hr) as (q & E & Hr'). exists q.
  destruct (Hok a) as (x & Hx & _); [left|]. cbn [hd tail] in *. split.
  - unfold alloc_msg. rewrite bind_gets, (bind_lift _ _ _ _ E), bind_set_cb.
    by rewrite truthy_true by exact (heap_wf_pos _ _ _ Hw Hx).
  - split; cbn; try done. intros b Hb'. apply Hok. by right.
Qed.

(** The daemon that finds itself inactive sends the leave message, in a message
    of the pool, and gives that message back. *)
Lemma send_leave_ok cap s a free :
  pool_inv qlifo cap s (a :: free) → Z.of_nat (length free) < INT_MAX →
  ∃ s' d, send_leave s = Ok (tt, s') ∧ sent s' = sent s ++ [Packet ToGroup d] ∧
    field 1 1 d = RMCAST_MSG_LEAVE ∧ field 4 8 d = htonl (sequence (self s)) ∧ field 12 8 d = htonl (mem_id (self s)) ∧
    pool_inv qlifo cap s' (a :: free) ∧ dom (cells (msgs s')) = dom (cells (msgs s)) ∧
    s' = s <| msgs := msgs s' |> <| sent := sent s' |> <| cb := cb s <| bufmsgq := bufmsgq (cb s') |> |>.
Proof.
  intros Hp Hmax. pose proof (pi_nodup _ _ _ _ Hp) as [Hna _]%NoDup_cons.
  destruct (pi_ok _ _ _ _ Hp a) as (x & Hx & Hxok); [left|].
  destruct (alloc_from_pool cap s a free Hp) as (q & E & Hp1). set (s1 := s <| cb := _ |>) in *.
  unfold send_leave. rewrite (bind_run _ _ _ _ _ E). clear E.
  pose proof (pi_wf _ _ _ _ Hp1) as Hw. pose proof Hxok as [Hxs Hlo]. pose proof (pi_cap _ _ _ _ Hp) as Hcap.
  unfold SIZEOF_HDR in Hcap.
  assert (Hset : ∀ b z, length b = length (m_buf x) →
    set_type b z = Ok (splice 1 (le_encode 1 z) b) ∧ set_length b z = Ok (splice 2 (le_encode 2 z) b) ∧
    set_sequence b z = Ok (splice 4 (le_encode 8 z) b) ∧ set_id b z = Ok (splice 12 (le_encode 8 z) b))
    by (intros; apply set_hdr_Ok; lia).
  assert (Ha : is_Some (cells (msgs s1) !! a)) by (by eexists).
  assert (Hl20 : (20 ≤ length (m_buf x))%nat) by lia.
  erewrite (bind_wr a (fun b => set_type b RMCAST_MSG_LEAVE) _ s1 x _ Hw Hx) by (by apply Hset).
  erewrite (bind_wr_put a (fun b => set_length b 0) _ s1 x _ _ Hw Ha) by (apply Hset; wire; done).
  rewrite bind_gets. change (self (put_buf _ _ _ _)) with (self s).
  erewrite (bind_wr_put a (fun b => set_sequence b (htonl (sequence (self s)))) _ s1 x _ _ Hw Ha) by (apply Hset; wire; done).
  erewrite (bind_wr_put a (fun b => set_id b (htonl (mem_id (self s)))) _ s1 x _ _ Hw Ha) by (apply Hset; wire; done).
  set (b := splice 12 _ _). assert (Hlb : length b = length (m_buf x)) by (unfold b; wire; done).
  change SIZEOF_HDR with (Z.of_nat 20). rewrite (bind_sendto_put a 20 ToGroup _ s1 x b Hw Ha) by lia.
  set (d := slice 0 20 b).
  assert (Hf : ∀ o n, (o + n ≤ 20)%nat → field o n d = field o n b) by (intros; unfold field, d; by rewrite slice_slice).
  set (s2 := put_buf s1 a x b <| sent := _ |>).
  assert (Hp2 : pool_inv qlifo cap s2 free)
    by (apply (pool_inv_ext qlifo cap (put_buf s1 a x b)); [done..|]; by apply pool_inv_put).
  destruct (release_msg_spec qlifo cap s2 free a (x <| m_buf := b |>) Hp2) as (s' & -> & Hs & Hms & Hp');
    [apply put_buf_lookup|split; cbn; lia|done|done|].
  exists s', d. split; [done|]. split; [by rewrite Hs|]. rewrite !Hf by lia. unfold b. wire.
  split; [done|]. split; [apply htonl_fits|]. split; [apply htonl_fits|]. split; [done|]. split.
  - rewrite Hms. change (cells (msgs s2)) with (<[a := x <| m_buf := b |>]> (cells (msgs s1))). rewrite dom_insert_L. apply elem_of_dom in Ha. change (msgs s1) with (msgs s) in Ha. set_solver.
  - rewrite Hs. by destruct s as [[] ? ? ? ? ?].
Qed.

Lemma daemon_inactive turns s : active (cb s) = 0 → rmcast_daemon turns s = send_leave s.
Proof. intros Ha. destruct turns; cbn [rmcast_daemon]; by rewrite bind_gets, Ha. Qed.

(** ** Closing *)

(** [clear_pool] frees exactly the messages of the pool. *)
Lemma clear_pool_run free : ∀ s fuel,
  qlifo (bufmsgq (cb s)) free → NoDup free → heap_wf (msgs s) →
  (∀ a, a ∈ free → is_Some (cells (msgs s) !! a)) → (length free ≤ fuel)%nat →
  ∃ s' q, clear_pool fuel s = Ok (tt, s') ∧ qlifo q [] ∧
    s' = s <| msgs := msgs s' |> <| cb := cb s <| bufmsgq := q |> |> ∧
    dom (cells (msgs s')) = dom (cells (msgs s)) ∖ list_to_set free.
Proof.
  induction free as [|a free IH]; intros s fuel Hq Hnd Hw Hal Hf.
  - destruct (st_remove _ _ Hq) as (q & E & Hq'). eexists _, q. split; [|split; [exact Hq'|]].
    { destruct fuel; cbn [clear_pool]; rewrite bind_gets, (bind_lift _ _ _ _ E), bind_set_cb; reflexivity. }
    split; [by destruct s as [[] ? ? ? ? ?]|]. cbn. set_solver.
  - destruct fuel as [|fuel]; [cbn in Hf; lia|]. apply NoDup_cons in Hnd as [Hna Hnd].
    destruct (st_remove _ _ Hq) as (q & E & Hq'). cbn [hd tail] in E, Hq'.
    destruct (Hal a) as [x Hx]; [set_solver|]. pose proof (heap_wf_pos _ _ _ Hw Hx) as Hpos.
    set (s1 := s <| cb := cb s <| bufmsgq := q |> |> <| msgs := h_del (msgs s) a |>).
    destruct (IH s1 fuel) as (s' & q' & E' & Hq'' & Hs' & Hd); [exact Hq'|done|by apply heap_wf_del| |cbn in Hf; lia|].
    { intros b Hb. cbn. rewrite lookup_h_del_ne by (intros <-; done). apply Hal. set_solver. }
    exists s', q'. split; [|split; [done|split]].
    + cbn [clear_pool]. rewrite bind_gets, (bind_lift _ _ _ _ E), bind_set_cb.
      rewrite truthy_true by done. erewrite (bind_run (clear_msg a)); [exact E'|].
      unfold clear_msg. cbn. rewrite h_free_Ok by eauto. reflexivity.
    + rewrite Hs'. by destruct s as [[] ? ? ? ? ?].
    + rewrite Hd. cbn. unfold h_del. cbn. rewrite dom_delete_L. set_solver.
Qed.

Lemma close_run s free m mm :
  active (cb s) = 0 → qlifo (bufmsgq (cb s)) free → NoDup free → heap_wf (msgs s) →
  (∀ a, a ∈ free → is_Some (cells (msgs s) !! a)) →
  repr Sane (outmsgbuf (cb s)) m → qlifo (inmsgq (cb s)) [] → repr Sane (members (cb s)) mm →
  ∃ s', rmcast_close s = Ok (0, s') ∧ dom (cells (msgs s')) = dom (cells (msgs s)) ∖ list_to_set free.
Proof.
  intros Ha Hq Hnd Hw Hal Ho Hi Hm. unfold rmcast_close. rewrite bind_gets, Ha. change (truthy 0) with false.
  cbn iota. rewrite bind_ret, bind_gets.
  destruct (clear_pool_run free s (Z.to_nat (mqueue_size (bufmsgq (cb s)))) Hq Hnd Hw Hal) as (s' & q & E & Hq' & Hs' & Hd).
  { rewrite (st_size _ _ Hq). lia. }
  rewrite (bind_run _ _ _ _ _ E). clear E. exists s'. split; [|done]. clear Hd.
  destruct (qlifo_free _ _ Hq') as (h1 & E1). destruct (repr_free _ _ _ Ho) as (h2 & E2).
  destruct (qlifo_free _ _ Hi) as (h3 & E3). destruct (repr_free _ _ _ Hm) as (h4 & E4).
  rewrite Hs'. rewrite bind_gets. rewrite (bind_lift _ _ _ h1) by exact E1. rewrite bind_gets.
  rewrite (bind_lift _ _ _ _ E2), bind_gets, (bind_lift _ _ _ _ E3), bind_gets, (bind_lift _ _ _ _ E4). done.
Qed.

(** ** The theorems *)

(** C16: A host that starts, joins a group, leaves it and closes, without
    having sent or heard anything, ends with no message allocated: the daemon,
    once the host has left, sends the leave message in a message of the pool and
    gives it back, and everything [rmcast_init] allocated for the pool is freed by
    [rmcast_close]. Every call returns 0, when the calls of the operating system
    succeed and the daemon has ended before [rmcast_close]. *)
Theorem rmcast_lifetime_frees s mms nbufs rate ack name addr rnd k grp prt iface kj turns :
  msgs s = heap_empty → active (cb s) = 0 → mms + SIZEOF_HDR ≤ INT_MAX → nbufs ≤ INT_MAX →
  initialized (net (cb s)) ≠ 12345 → c_socket1 k ∉ fds (net (cb s)) → c_socket2 k ∉ fds (net (cb s)) →
  ipc_up k = true → 0 ≤ j_socket kj → 0 ≤ j_reuse kj → 0 ≤ j_loop kj → 0 ≤ j_ttl kj → 0 ≤ j_add kj → j_thread kj = 0 →
  ∃ s1 s2 s3 s4 s5 d, rmcast_init mms nbufs rate ack (Some name) (Some addr) rnd k s = Ok (0, s1) ∧
    Z.of_nat (size (cells (msgs s1))) = Z.max 20 nbufs ∧
    rmcast_join_on grp prt iface kj s1 = Ok (0, s2) ∧ active (cb s2) = 1 ∧
    rmcast_leave s2 = Ok (tt, s3) ∧ active (cb s3) = 0 ∧
    rmcast_daemon turns s3 = Ok (tt, s4) ∧ sent s4 = sent s ++ [Packet ToGroup d] ∧ field 1 1 d = RMCAST_MSG_LEAVE ∧
    rmcast_close s4 = Ok (0, s5) ∧ cells (msgs s5) = ∅.
Proof.
  intros Hm0 Ha0 Hm Hn Hini Hf1 Hf2 Hup Hj1 Hj2 Hj3 Hj4 Hj5 Hth.
  destruct (rmcast_init_ok s mms nbufs rate ack name addr rnd k)
    as (ret & s1 & free & E1 & Hr & Hp & Hl & Hmem & _ & Ho & _ & _ & _ & _ & Hsent & _ & _ & Hact & Hin & Hd & _);
    [rewrite Hm0; apply heap_empty_wf|exact Hm|exact Hn|exact Hini|exact Hf1|exact Hf2|].
  destruct (ir_ok _ _ _ _ Hr Hup) as (-> & _ & _ & _ & Hipc & _ & Hmax). clear Hr.
  rewrite Hm0 in Hd. cbn in Hd. rewrite dom_empty_L, union_empty_r_L in Hd.
  destruct (rmcast_join_correct grp prt iface kj s1 Hj1 Hj2 Hj3 Hj4 Hj5) as [Hjoin _]; [lia|].
  destruct Hjoin as (n & E2 & _); [rewrite Hact; exact Ha0|]. rewrite Hth in E2.
  assert (Hrep : repr Sane (outmsgbuf (cb s1)) ∅).
  { destruct Ho as (css & l & Hh & _ & E). exists css, l. split; [exact Hh|exact E]. }
  set (s2 := activate (with_net s1 n)) in *.
  destruct (leave_run s2 ∅ free) as (s3 & E3 & [(m' & l & Ho3 & Hq3 & Hgb & _) Hi3 Hm3 Ha3 Hms3 Hse3 Hbs3 _]);
    [exact Hrep|apply Hp|exact Hin|exact (plain_repr _ _ Hmem)|rewrite map_size_empty; int_lia|].
  apply given_back_size in Hgb. rewrite map_size_empty in Hgb.
  assert (l = []) as -> by (clear - Hgb; destruct l; [done|cbn in Hgb; lia]). cbn [app] in Hq3.
  change (msgs s2) with (msgs s1) in Hms3. change (bufsize (cb s2)) with (bufsize (cb s1)) in Hbs3.
  change (sent s2) with (sent s1) in Hse3.
  assert (Hp3 : pool_inv qlifo (Z.max 128 mms + SIZEOF_HDR) s3 free).
  { destruct Hp as [Hw _ Hnd Hok Hb Hc]. split; rewrite ?Hms3, ?Hbs3; done. }
  destruct free as [|a free]; [cbn in Hl; lia|].
  destruct (send_leave_ok _ _ _ _ Hp3) as (s4 & d & E4 & Hs4 & Hty & _ & _ & Hp4 & Hd4 & Hs4'); [cbn in Hl; int_lia|].
  destruct (close_run s4 (a :: free) m' ∅) as (s5 & E5 & Hd5).
  { rewrite Hs4'. exact Ha3. }
  { apply Hp4. }
  { apply Hp4. }
  { apply Hp4. }
  { intros b Hb. destruct (pi_ok _ _ _ _ Hp4 b Hb) as (x & Hx & _). exists x. exact Hx. }
  { rewrite Hs4'. exact Ho3. }
  { rewrite Hs4'. exact Hi3. }
  { rewrite Hs4'. exact Hm3. }
  exists s1, s2, s3, s4, s5, d. split; [exact E1|]. clear E1. split.
  { rewrite <- size_dom, Hd, size_list_to_set by apply Hp. lia. }
  split; [exact E2|]. split; [reflexivity|]. split; [exact E3|]. split; [exact Ha3|].
  split; [by rewrite daemon_inactive|]. split; [by rewrite Hs4, Hse3, Hsent|]. split; [exact Hty|].
  split; [exact E5|]. clear - Hd5 Hd4 Hms3 Hd. apply dom_empty_inv_L. rewrite Hd5, Hd4, Hms3, Hd. set_solver.
Qed.

(** C34: A host without members that has sent [n] messages and leaves keeps at
    least [n/2 - 1] of them: the keys are stored as [int] and read back as
    [unsigned long], so that only every other message is looked for.  The messages
    that are not kept, and no others, are put into the pool. *)
Theorem leave_keeps_half s m free :
  repr Sane (outmsgbuf (cb s)) m → qlifo (bufmsgq (cb s)) free → qlifo (inmsgq (cb s)) [] →
  repr Sane (members (cb s)) ∅ → Z.of_nat (length free + size m) ≤ INT_MAX →
  ∃ s' m' l, rmcast_leave s = Ok (tt, s') ∧ active (cb s') = 0 ∧ sequence (self s') = 0 ∧
    repr Sane (outmsgbuf (cb s')) m' ∧ qlifo (bufmsgq (cb s')) (l ++ free) ∧
    m' ⊆ m ∧ (map_to_list m).*2 ≡ₚ l ++ (map_to_list m').*2 ∧
    Z.of_nat (size m) / 2 - 1 ≤ Z.of_nat (size m').
Proof.
  intros Ho Hq Hi Hm Hmax.
  destruct (leave_run s m free Ho Hq Hi Hm Hmax) as (s' & E & [(m' & l & Ho' & Hq' & [Hs Hp] & Hsz) _ _ Ha _ _ _ Hsq]).
  by exists s', m', l.
Qed.

(** C35: A host that has members but has sent nothing writes past the end of
    the heap when it leaves: the array for the keys of its members is allocated
    for as many keys as there are sent messages, none, and the first key is
    stored in it all the same. *)
Theorem leave_receiver_overruns s mm free :
  repr Sane (outmsgbuf (cb s)) ∅ → qlifo (bufmsgq (cb s)) free → qlifo (inmsgq (cb s)) [] →
  repr Sane (members (cb s)) mm → mm ≠ ∅ →
  rmcast_leave s = Fault OutOfBounds.
Proof.
  intros Ho Hq Hi Hm Hne. unfold rmcast_leave. rewrite bind_set_cb, bind_gets. unfold htbl_count.
  set (s0 := s <| cb := cb s <| active := 0 |> |>). change (outmsgbuf (cb s0)) with (outmsgbuf (cb s)).
  rewrite (repr_count _ _ _ Ho), map_size_empty. cbv zeta. change (replicate (Z.to_nat (2 * Z.of_nat 0)) 0) with (@nil Z).
  destruct (repr_enum _ _ _ [] 0 Ho) as (ks & Hks & E); rewrite ?map_size_empty in *; [done|cbn; int_lia|].
  assert (ks = []) as -> by (by destruct ks). rewrite (bind_lift _ _ _ _ E). clear E. cbn beta iota.
  change (drop_out _ _) with (mret (M := ST rmc) tt). rewrite bind_ret, bind_gets.
  destruct (drain_in_empty s0 (Z.to_nat (mqueue_size (inmsgq (cb s0)))) Hi) as (qi & E2 & _).
  rewrite (bind_run _ _ _ _ _ E2). clear E2. apply bind_fault. unfold drop_members. rewrite bind_gets.
  unfold htbl_count. match goal with |- context [htbl_enum_int_keys ?t _ _] => change t with (members (cb s)) end.
  rewrite (repr_count _ _ _ Hm).
  assert (0 < size mm)%nat by (by apply Nat.neq_0_lt_0, map_size_non_empty_iff).
  rewrite (proj2 (Z.ltb_lt _ _)) by (cbn; lia). cbv zeta. apply bind_fault. unfold lift.
  match goal with |- context [replicate ?n ?x] => change (replicate n x) with (@nil Z) end.
  change (Z.of_nat 0) with 0. by rewrite (repr_no_room _ _ _ Hm).
Qed.
End Leave.
