(* ===== verification/Rmctest.v ===== *)
(** * The demonstration program [src/v0.1/rmctest.c]

    A chat: the main thread sends every line that is typed, the reader thread
    prints every message that arrives.  What the terminal and the operating
    system answer is an argument; the lines of the standard input are a list,
    after which [gets] finds the end of the input. *)

From S2P Require Import Prelude StateMonad Machine Heap Pool Hashtable HashtableRepr HashtableProofs Mqueue.
From S2P Require Import MqueueRepr MqueueProofs Interfaces Wire RmcastState Rmcast RmcastApi.
From S2P Require Import RmcastPool RmcastWire RmcastProofs RmcastSend RmcastSpec RmcastEnd RmcastFifo.
From S2P Require Import RmcastSockets RmcastInit.

(** [atoi]: blanks, a sign and digits; what follows is ignored.  Of a number that
    does not fit, which the standard leaves undefined, the low 32 bits. *)
Definition isspace (c : Z) : bool := (c =? 32) || ((9 <=? c) && (c <=? 13)).
Definition isdigit (c : Z) : bool := (48 <=? c) && (c <=? 57).

Fixpoint digits (acc : Z) (s : cstring) : Z :=
  match s with
  | c :: s => if isdigit c then digits (10 * acc + (c - 48)) s else acc
  | [] => acc
  end.

Fixpoint atoi (s : cstring) : Z :=
  match s with
  | c :: s' =>
      if isspace c then atoi s'
      else if c =? 45 then i32 (- digits 0 s')
      else if c =? 43 then i32 (digits 0 s')
      else i32 (digits 0 s)
  | [] => 0
  end.

Definition QUIT : cstring := [113; 117; 105; 116].

(** [234.5.6.7] *)
Definition GROUP : cstring := [50; 51; 52; 46; 53; 46; 54; 46; 55].

Section Rmctest.
Context `{Uninit htbl_entry} `{Uninit mqueue_item} `{Kernel} `{Fresh} `{Reader}.

(** ** The main thread *)

Inductive outcome :=
  | Exits (status : Z)       (* [exit], or [return] from [main] *)
  | Runs.                    (* the group was joined *)

(** [main] up to the reader thread.  [pton]: what [inet_pton] makes of a string. *)
Definition main_start (argv : list cstring) (hname : option cstring) (addr : option Z) (rnd : Z)
    (ki : ipc_calls) (pton : cstring → option Z) (kj : join_calls) : M outcome :=
  let argc := Z.of_nat (length argv) in
  if negb (argc =? 1) && negb (argc =? 3) && negb (argc =? 4) then mret (Exits 1)
  else
    ret ← rmcast_init 1024 16 5 0 hname addr rnd ki;
    if ret <? 0 then mret (Exits 0)
    else
      let prt := if 2 <? argc then atoi (default [] (argv !! 1%nat)) else 34567 in
      let grp := if 2 <? argc then default [] (argv !! 2%nat) else GROUP in
      let local := if 3 <? argc then argv !! 3%nat else None in
      ret ← rmcast_join_on grp prt (local ≫= pton) kj;
      if ret <? 0 then mret (Exits (-1)) else mret Runs.

Record chat := Chat {
  str : list Z;              (* [char str[1000]] *)
  stop : Z;
  ipc_in : list Z            (* what [rmcast_send] wrote to the ipc socket *)
}.

(** One turn of [while(!stop)].  At the end of the input ([None]) [gets] leaves
    [str] as it is; its result is not looked at. *)
Definition chat_iter (s : rmc) (line : option (list Z)) (c : chat) : res chat :=
  b ← match line with
      | Some l => buf_write (str c) 0 (l ++ [0])
      | None => Ok (str c)
      end;
  txt ← cstring_at b 0;
  let l := Z.of_nat (length txt) + 1 in
  if l <=? 1 then Ok (Chat b (stop c) (ipc_in c))
  else
    b ← arr_set b l 0;
    Ok (Chat b (if bool_decide (txt = QUIT) then 1 else stop c)
          (rmcast_send s (ipc_in c) (take (Z.to_nat l) b)).2).

(** The loop after at most [n] turns; it has ended when [stop] is set. *)
Fixpoint chat_loop (n : nat) (s : rmc) (input : list (list Z)) (c : chat) : res chat :=
  match n with
  | O => Ok c
  | S n =>
      if truthy (stop c) then Ok c
      else c ← chat_iter s (head input) c; chat_loop n s (tail input) c
  end.

Definition main_end : M Z := _ ← rmcast_leave; rmcast_close.

(** ** The reader thread *)

Record screen := Screen {
  inbuf : list Z;                          (* [char inbuf[1024]] *)
  from : list Z;
  printed : list (list Z * cstring);       (* sender and text *)
  stream : list Z                          (* what is left to read on the ipc socket *)
}.

(** One turn: [act] and [sel] as in [rmcast_timed_recvfrom]. *)
Definition reader_iter (act sel : Z) (v : screen) : res screen :=
  let r := rmcast_timed_recvfrom act sel 1024 (stream v) in
  b ← buf_write (inbuf v) 0 (r_data r);
  b ← arr_set b (r_ret r) 0;
  txt ← cstring_at b 0;
  let f := match r_from r with [] => from v | f => f end in
  Ok (Screen b f (printed v ++ [(f, txt)]) (r_stream r)).

(** What the thread finds when it tests [stop] and calls [rmcast_timed_recvfrom]. *)
Record poll := Poll { po_stop : Z; po_act : Z; po_sel : Z }.

(** The turns the thread has taken so far. *)
Fixpoint reader (ps : list poll) (v : screen) : res screen :=
  match ps with
  | [] => Ok v
  | p :: ps =>
      if truthy (po_stop p) then Ok v
      else v ← reader_iter (po_act p) (po_sel p) v; reader ps v
  end.

(** ** C strings *)

Abbreviation text := (Forall (λ b : Z, b ≠ 0)).

Lemma cstring_app txt rest : text txt → cstring_at ((txt ++ [0]) ++ rest) 0 = Ok txt.
Proof.
  rewrite <- app_assoc. cbn [app].
  unfold cstring_at. change (Z.to_nat 0) with 0%nat. rewrite !drop_0. induction 1 as [|b l Hb _ IH]; [done|].
  cbn -[Z.eqb]. rewrite (proj2 (Z.eqb_neq _ _) Hb). by rewrite IH.
Qed.

(** What follows the first NUL does not matter. *)
Lemma cstring_nul p rest : cstring_at (p ++ 0 :: rest) 0 = cstring_at (p ++ [0]) 0.
Proof.
  unfold cstring_at. change (Z.to_nat 0) with 0%nat. rewrite !drop_0. induction p as [|b l IH]; [done|].
  cbn -[Z.eqb]. destruct (b =? 0); [done|]. by rewrite IH.
Qed.

Lemma cstring_app_nul p : ∃ txt, cstring_at (p ++ [0]) 0 = Ok txt ∧ (length txt ≤ length p)%nat.
Proof.
  unfold cstring_at. change (Z.to_nat 0) with 0%nat. rewrite !drop_0. induction p as [|b l (txt & IH & Hl)]; [by exists []; cbn; split|].
  cbn -[Z.eqb]. destruct (b =? 0); [exists []; cbn; split; [done|lia]|]. rewrite IH.
  exists (b :: txt). cbn. split; [done|lia].
Qed.

Lemma buf_write_0 b bs : (length bs ≤ length b)%nat → buf_write b 0 bs = Ok (bs ++ drop (length bs) b).
Proof. intros Hl. change 0 with (Z.of_nat 0). by rewrite buf_write_Ok. Qed.

Lemma buf_write_over b bs : (length b < length bs)%nat → buf_write b 0 bs = Fault OutOfBounds.
Proof.
  intros Hl. unfold buf_write, in_buf. rewrite (proj2 (Z.leb_gt (0 + _) _)) by lia. by rewrite andb_false_r.
Qed.

Lemma arr_set_out {A} (l : list A) i x :
  i < 0 ∨ Z.of_nat (length l) ≤ i → arr_set l i x = Fault OutOfBounds.
Proof.
  intros Hi. unfold arr_set. destruct (Z.leb_spec 0 i), (Z.ltb_spec i (Z.of_nat (length l))); done || lia.
Qed.

(** ** The main loop *)

(** A [send] on the ipc socket, which blocks, takes everything. *)
Class SendsWhole := sends_whole o bs : send_ret o bs = Z.of_nat (length bs).

(** What [rmcast_send] writes for a message. *)
Definition ipc_frame (p : list Z) : list Z := le_encode 4 (Z.of_nat (length p)) ++ p.

Lemma rmcast_send_frame `{!SendsWhole} s o p :
  truthy (active (cb s)) = true →
  rmcast_send s o p = (Z.of_nat (length p), o ++ ipc_frame p).
Proof.
  intros Ha. unfold rmcast_send, ipc_frame. rewrite Ha, !sends_whole, !Nat2Z.id, !firstn_all.
  rewrite (proj2 (Z.ltb_ge _ _)) by lia. by rewrite <- app_assoc.
Qed.

(** The buffer holds a line that can be sent again. *)
Record holds (b : list Z) (l : list Z) : Prop := {
  hl_len : length b = 1000%nat;
  hl_room : (1 ≤ length l ≤ 998)%nat;
  hl_text : text l;
  hl_take : take (S (length l)) b = l ++ [0]
}.

Lemma holds_text b l : holds b l → cstring_at b 0 = Ok l.
Proof.
  intros [_ _ Ht E]. rewrite <- (take_drop (S (length l)) b), E. by apply cstring_app.
Qed.

(** A line in a buffer that has room for it. *)
Lemma chat_iter_line s c line :
  length (str c) = 1000%nat → text line → (1 ≤ length line ≤ 998)%nat →
  ∃ b, holds b line ∧
    chat_iter s (Some line) c =
      Ok (Chat b (if bool_decide (line = QUIT) then 1 else stop c)
            (rmcast_send s (ipc_in c) (line ++ [0])).2).
Proof.
  intros Hl Ht Hn. unfold chat_iter. rewrite buf_write_0 by (rewrite length_app; cbn; lia). cbn [mbind res_bind].
  rewrite cstring_app by done. cbn [mbind res_bind].
  rewrite (proj2 (Z.leb_gt _ _)) by lia.
  set (rest := drop _ _). assert (Hr : length rest = (999 - length line)%nat).
  { unfold rest. rewrite length_drop, length_app. cbn. lia. }
  replace (Z.of_nat (length line) + 1) with (Z.of_nat (length (line ++ [0])))
    by (rewrite length_app; cbn; lia).
  rewrite arr_set_Ok by (rewrite !length_app; cbn; lia). cbn [mbind res_bind].
  eexists. split; [|rewrite Nat2Z.id, take_insert_ge, take_app_length by lia; reflexivity].
  split; [rewrite length_insert, !length_app; cbn; lia|done..|].
  rewrite take_insert_ge by (rewrite length_app; cbn; lia). apply take_app_length'. rewrite length_app. cbn. lia.
Qed.

(** C30: A line of the terminal is safe up to 998 characters: it is sent with
    its terminating NUL and stays in the buffer of 1000 bytes. One more and [main]
    writes its second NUL behind the buffer, two more and [gets] does. *)
Theorem chat_line_bounds s c line :
  length (str c) = 1000%nat → text line → line ≠ [] →
  if (length line <=? 998)%nat
  then ∃ b, holds b line ∧
    chat_iter s (Some line) c =
      Ok (Chat b (if bool_decide (line = QUIT) then 1 else stop c)
            (rmcast_send s (ipc_in c) (line ++ [0])).2)
  else chat_iter s (Some line) c = Fault OutOfBounds.
Proof.
  intros Hl Ht Hne. destruct (Nat.leb_spec (length line) 998) as [Hn|Hn].
  { apply chat_iter_line; try done. destruct line; [done|cbn in *; lia]. }
  unfold chat_iter. destruct (decide (length line = 999%nat)) as [E|E].
  - rewrite buf_write_0 by (rewrite length_app; cbn; lia). cbn [mbind res_bind].
    rewrite cstring_app by done. cbn [mbind res_bind].
    rewrite (proj2 (Z.leb_gt _ _)) by lia. rewrite arr_set_out; [done|]. right.
    rewrite length_app, length_drop, length_app. cbn. lia.
  - by rewrite buf_write_over by (rewrite length_app; cbn; lia).
Qed.

(** An empty line is skipped. *)
Lemma chat_iter_empty s c :
  length (str c) = 1000%nat →
  ∃ b, length b = 1000%nat ∧ chat_iter s (Some []) c = Ok (Chat b (stop c) (ipc_in c)).
Proof.
  intros Hl. unfold chat_iter. rewrite buf_write_0 by (cbn; lia). cbn.
  eexists. split; [|done]. cbn. rewrite length_drop. lia.
Qed.

(** What is sent of the lines of the input: the ones that are not empty. *)
Definition said (ls : list (list Z)) : list (list Z) := (.++ [0]) <$> filter (λ l, l ≠ []) ls.

Lemma said_cons_empty ls : said ([] :: ls) = said ls.
Proof. unfold said. by rewrite filter_cons_False by (by intros []). Qed.

Lemma said_cons l ls : l ≠ [] → said (l :: ls) = (l ++ [0]) :: said ls.
Proof. intros Hl. unfold said. by rewrite filter_cons_True. Qed.

Definition typed (l : list Z) : Prop := text l ∧ (length l ≤ 998)%nat.

Lemma chat_loop_lines `{!SendsWhole} s ls : truthy (active (cb s)) = true →
  Forall typed ls → QUIT ∉ ls → ∀ c rest fuel,
  length (str c) = 1000%nat → stop c = 0 →
  ∃ b, length b = 1000%nat ∧
    chat_loop (length ls + fuel) s (ls ++ rest) c =
    chat_loop fuel s rest (Chat b 0 (ipc_in c ++ concat (ipc_frame <$> said ls))).
Proof.
  intros Ha. induction 1 as [|l ls [Ht Hl] _ IH]; intros Hq c rest fuel Hb Hs.
  { exists (str c). split; [done|]. destruct c. cbn in *. subst. by rewrite app_nil_r. }
  apply not_elem_of_cons in Hq as [Hq Hqs]. cbn [length Nat.add chat_loop]. rewrite Hs.
  change (truthy 0) with false. cbn iota. cbn [head tail app].
  destruct (decide (l = [])) as [->|Hne].
  - destruct (chat_iter_empty s c Hb) as (b & Hbl & ->). cbn [mbind res_bind].
    rewrite said_cons_empty, Hs. by apply (IH Hqs (Chat b 0 (ipc_in c))).
  - destruct (chat_iter_line s c l) as (b & Hbl & ->); try done.
    { destruct l; [done|cbn in *; lia]. }
    cbn [mbind res_bind]. rewrite rmcast_send_frame, bool_decide_false by (done || congruence). cbn [snd].
    rewrite said_cons, Hs by done.
    destruct (IH Hqs (Chat b 0 (ipc_in c ++ ipc_frame (l ++ [0]))) rest fuel (hl_len _ _ Hbl) eq_refl) as (b' & Hb' & E).
    exists b'. split; [done|]. rewrite E. cbn. by rewrite <- app_assoc.
Qed.

(** ** The end of the input *)

(** The last line of the input, sent once more. *)
Lemma chat_iter_eof `{!SendsWhole} s c l :
  truthy (active (cb s)) = true → stop c = 0 → holds (str c) l → l ≠ QUIT →
  ∃ c', chat_iter s None c = Ok c' ∧ stop c' = 0 ∧ holds (str c') l ∧
    ipc_in c' = ipc_in c ++ ipc_frame (l ++ [0]).
Proof.
  intros Ha Hs Hh Hq. unfold chat_iter. cbn [mbind res_bind]. rewrite (holds_text _ _ Hh). cbn [mbind res_bind].
  destruct Hh as [Hl Hr Ht E]. rewrite (proj2 (Z.leb_gt _ _)) by lia.
  replace (Z.of_nat (length l) + 1) with (Z.of_nat (S (length l))) by lia.
  rewrite arr_set_Ok by lia. cbn [mbind res_bind]. eexists. split; [done|]. cbn.
  rewrite bool_decide_false by done. split; [done|].
  assert (E' : take (S (length l)) (<[S (length l):=0]> (str c)) = l ++ [0]) by (by rewrite take_insert_ge).
  split; [by split; rewrite ?length_insert|].
  rewrite Nat2Z.id. replace (Pos.to_nat (Pos.of_succ_nat (length l))) with (S (length l)) by lia.
  by rewrite E', rmcast_send_frame.
Qed.

Lemma chat_loop_eof `{!SendsWhole} s l : truthy (active (cb s)) = true → l ≠ QUIT → ∀ n c,
  stop c = 0 → holds (str c) l →
  ∃ c', chat_loop n s [] c = Ok c' ∧ stop c' = 0 ∧
    ipc_in c' = ipc_in c ++ concat (replicate n (ipc_frame (l ++ [0]))).
Proof.
  intros Ha Hq. induction n as [|n IH]; intros c Hs Hh.
  { exists c. by rewrite app_nil_r. }
  destruct (chat_iter_eof s c l Ha Hs Hh Hq) as (c1 & E & Hs1 & Hh1 & Ho).
  destruct (IH c1 Hs1 Hh1) as (c' & E' & Hs' & Ho').
  exists c'. cbn [chat_loop head tail]. rewrite Hs, E. cbn. split; [done|]. split; [done|].
  by rewrite Ho', Ho, <- app_assoc.
Qed.

(** C32: The chat does not end with its input: [main] ignores the result of
    [gets], so that from the end of the input on it sends the last line again in
    every turn, for ever, and never leaves the loop. *)
Theorem chat_repeats_last_line `{!SendsWhole} s ls l c n :
  truthy (active (cb s)) = true → Forall typed (ls ++ [l]) → l ≠ [] → QUIT ∉ ls ++ [l] →
  length (str c) = 1000%nat → stop c = 0 →
  ∃ c', chat_loop (length ls + S n) s (ls ++ [l]) c = Ok c' ∧ stop c' = 0 ∧
    ipc_in c' = ipc_in c ++ concat (ipc_frame <$> said ls ++ replicate (S n) (l ++ [0])).
Proof.
  intros Ha [Hls [[Ht Hl] _]%Forall_cons]%Forall_app Hne [Hq1 Hq2]%not_elem_of_app Hb Hs.
  apply not_elem_of_cons in Hq2 as [Hq2 _].
  destruct (chat_loop_lines s ls Ha Hls Hq1 c [l] (S n) Hb Hs) as (b & Hbl & ->).
  cbn [chat_loop head tail stop]. change (truthy 0) with false. cbn iota.
  set (c0 := Chat _ _ _). destruct (chat_iter_line s c0 l Hbl Ht) as (b1 & Hh & ->).
  { destruct l; [done|cbn in *; lia]. }
  cbn [mbind res_bind]. rewrite bool_decide_false by congruence. rewrite rmcast_send_frame by done.
  match goal with |- context [chat_loop n s [] ?c1] =>
    destruct (chat_loop_eof s l Ha ltac:(congruence) n c1 eq_refl Hh) as (c' & E & Hs' & Ho) end.
  exists c'. split; [exact E|]. split; [done|]. rewrite Ho. subst c0. cbn [ipc_in snd].
  rewrite fmap_app, fmap_replicate, concat_app. cbn [replicate concat]. by rewrite <- !app_assoc.
Qed.

(** ** The reader *)

(** A message that is shorter than [inbuf] is printed up to its first NUL. *)
Lemma reader_iter_frame `{!ReaderOk} v f p rest txt :
  length (inbuf v) = 1024%nat → stream v = frame f p ++ rest → length f = 16%nat →
  (length p < 1024)%nat → cstring_at (p ++ [0]) 0 = Ok txt →
  ∃ b, length b = 1024%nat ∧
    reader_iter 1 1 v = Ok (Screen b f (printed v ++ [(f, txt)]) rest).
Proof.
  intros Hb Hst Hf Hp Ht. unfold reader_iter. rewrite Hst, read_frame by (done || lia).
  cbn [r_data r_ret r_from r_stream]. rewrite buf_write_0 by lia. cbn [mbind res_bind].
  destruct (drop (length p) (inbuf v)) as [|x0 rest0] eqn:E.
  { apply (f_equal length) in E. rewrite length_drop in E. cbn in E. lia. }
  apply (f_equal length) in E. rewrite length_drop in E. cbn in E.
  rewrite arr_set_Ok by (rewrite length_app; cbn; lia). cbn [mbind res_bind].
  rewrite insert_app_r_alt, Nat.sub_diag by lia. cbn [insert list_insert].
  rewrite cstring_nul, Ht. cbn [mbind res_bind]. destruct f; [done|].
  eexists. split; [|done]. rewrite length_app. cbn. lia.
Qed.

(** C31: The reader prints a message of less than 1024 bytes, up to its first
    NUL and with its sender, and takes the next one. A message of 1024 bytes or
    more fills [inbuf], and the NUL is written behind it; after [rmcast_leave]
    the result is -1, and the NUL is written before [inbuf]. *)
Theorem reader_bounds `{!ReaderOk} v f p rest :
  length (inbuf v) = 1024%nat → stream v = frame f p ++ rest → length f = 16%nat →
  Z.of_nat (length p) < 2 ^ 31 →
  (if (length p <? 1024)%nat
   then ∃ b txt, length b = 1024%nat ∧ cstring_at (p ++ [0]) 0 = Ok txt ∧
          reader_iter 1 1 v = Ok (Screen b f (printed v ++ [(f, txt)]) rest)
   else reader_iter 1 1 v = Fault OutOfBounds) ∧
  reader_iter 0 1 v = Fault OutOfBounds.
Proof.
  intros Hb Hst Hf Hp. split; cycle 1.
  { unfold reader_iter. cbn [rmcast_timed_recvfrom truthy Z.eqb negb r_data r_ret].
    rewrite buf_write_0 by (cbn; lia). cbn [mbind res_bind]. rewrite arr_set_out; [done|lia]. }
  destruct (Nat.ltb_spec (length p) 1024) as [Hl|Hl].
  - destruct (cstring_app_nul p) as (txt & Ht & _).
    destruct (reader_iter_frame v f p rest txt) as (b & Hbl & E); try done. by exists b, txt.
  - assert (∃ d str', rmcast_timed_recvfrom 1 1 1024 (stream v) = Received 1024 d f str' ∧
      length d = 1024%nat) as (d & st & E & Hd).
    { rewrite Hst. destruct (decide (length p = 1024%nat)) as [El|El].
      - rewrite read_frame by (done || lia). exists p, rest. by rewrite El.
      - rewrite recv_truncates by (done || lia). exists (take 1024 p), rest. split; [done|].
        rewrite length_take. lia. }
    unfold reader_iter. rewrite E. cbn [r_data r_ret r_from r_stream].
    rewrite buf_write_0 by lia. cbn [mbind res_bind].
    rewrite arr_set_out; [done|]. right. rewrite length_app, length_drop. lia.
Qed.

(** Messages one after the other. *)
Lemma reader_frames `{!ReaderOk} f ps txts : length f = 16%nat →
  Forall2 (fun p txt => (length p < 1024)%nat ∧ cstring_at (p ++ [0]) 0 = Ok txt) ps txts → ∀ v rest,
  length (inbuf v) = 1024%nat → stream v = concat (frame f <$> ps) ++ rest →
  ∃ v', reader (replicate (length ps) (Poll 0 1 1)) v = Ok v' ∧
    printed v' = printed v ++ ((f,.) <$> txts) ∧ stream v' = rest.
Proof.
  intros Hf. induction 1 as [|p txt ps txts [Hp Ht] _ IH]; intros v rest Hb Hst.
  { exists v. by rewrite app_nil_r. }
  cbn in Hst. rewrite <- app_assoc in Hst.
  destruct (reader_iter_frame v f p _ txt Hb Hst Hf Hp Ht) as (b & Hbl & E).
  edestruct (IH (Screen b f (printed v ++ [(f, txt)]) _) rest Hbl eq_refl) as (v' & E' & Hpr & Hs').
  exists v'. cbn -[reader_iter]. rewrite E. cbn -[reader_iter]. split; [exact E'|]. split; [|done].
  rewrite Hpr. cbn. by rewrite <- app_assoc.
Qed.

(** ** The daemon's end of the socket *)

(** Turns of the daemon that find a message of the application. *)
Fixpoint take_ipc (n : nat) (prev : Z) (st : list Z) : M (list Z) :=
  match n with
  | O => mret st
  | S n =>
      match ipc_recv prev st with
      | (Some e, st) => _ ← handle_ipc e; take_ipc n (ipc_read e) st
      | (None, st) => mret st
      end
  end.

Lemma ipc_recv_frame `{!ReaderOk} prev p rest :
  Z.of_nat (length p) < 2 ^ 31 →
  ipc_recv prev (ipc_frame p ++ rest) = (Some (IpcEvent (Z.of_nat (length p)) (Some p)), rest).
Proof.
  intros Hp. unfold ipc_recv, ipc_frame. rewrite <- app_assoc.
  rewrite recv_app by (by rewrite le_encode_length). change (0 <? 4) with true. cbn iota zeta.
  rewrite !le_encode_length, drop_ge by (by rewrite le_encode_length).
  rewrite app_nil_r, le_decode_encode. change (256 ^ Z.of_nat 4) with (2 ^ 32).
  rewrite Z.mod_small, i32_id, u64_id by int_lia. rewrite recv_app by done.
  by rewrite (proj2 (Z.ltb_ge _ _)) by lia.
Qed.

Lemma take_ipc_frames `{!ReaderOk} ps : ∀ prev s s',
  Forall (fun p => Z.of_nat (length p) < 2 ^ 31) ps → send_all ps s = Ok (tt, s') →
  take_ipc (length ps) prev (concat (ipc_frame <$> ps)) s = Ok ([], s').
Proof.
  induction ps as [|p ps IH]; intros prev s s' Hps E.
  { cbn in *. by injection E as <-. }
  apply Forall_cons in Hps as [Hp Hps]. cbn [length take_ipc fmap list_fmap concat].
  rewrite ipc_recv_frame by done. cbn [send_all] in E. unfold mbind, M_bind in E |- *.
  destruct (handle_ipc _ s) as [[[] s1]|]; [|done]. by apply IH.
Qed.

(** ** From one terminal to another *)

Context (srep : mqueue_t → list Z → Prop) `{!Stack srep}.
Context (mrep urep orep : htbl_t → gmap hkey Z → Prop).
Context `{!PutTable mrep} `{!Table urep} `{!PutTable orep}.
Context `{!KernelOk} `{!SendsWhole} `{!ReaderOk}.

Lemma QUIT_typed : typed QUIT.
Proof. split; [by repeat constructor|cbn; lia]. Qed.

Lemma said_app ls1 ls2 : said (ls1 ++ ls2) = said ls1 ++ said ls2.
Proof. unfold said. by rewrite filter_app, fmap_app. Qed.

Lemma chat_loop_quit s ls c :
  truthy (active (cb s)) = true → Forall typed ls → QUIT ∉ ls → length (str c) = 1000%nat → stop c = 0 →
  ∃ b, chat_loop (length ls + 1) s (ls ++ [QUIT]) c =
    Ok (Chat b 1 (ipc_in c ++ concat (ipc_frame <$> said (ls ++ [QUIT])))).
Proof.
  intros Ha Hls Hq Hb Hs.
  destruct (chat_loop_lines s ls Ha Hls Hq c [QUIT] 1 Hb Hs) as (b & Hbl & ->).
  cbn [chat_loop head tail stop]. change (truthy 0) with false. cbn iota.
  set (c0 := Chat _ _ _). destruct (chat_iter_line s c0 QUIT Hbl) as (b1 & Hh & ->);
    [apply QUIT_typed|cbn; lia|].
  cbn [mbind res_bind]. rewrite bool_decide_true by done. rewrite rmcast_send_frame by done.
  exists b1. subst c0. cbn [ipc_in snd]. rewrite said_app, fmap_app, concat_app.
  change (said [QUIT]) with [QUIT ++ [0]]. cbn [fmap list_fmap concat]. by rewrite app_nil_r, app_assoc.
Qed.

(** What arrives is a line and its NUL, which the reader prints as the line. *)
Lemma said_printed ls : Forall typed ls →
  Forall (fits 1044) (said ls) ∧
  Forall2 (fun p txt => (length p < 1024)%nat ∧ cstring_at (p ++ [0]) 0 = Ok txt)
    (said ls) (filter (λ l, l ≠ []) ls).
Proof.
  induction 1 as [|l ls [Ht Hl] _ [IH1 IH2]]; [by split; constructor|].
  destruct (decide (l = [])) as [->|Hne].
  - rewrite said_cons_empty, filter_cons_False by (by intros []). by split.
  - rewrite said_cons, filter_cons_True by done. split; constructor; try done.
    + unfold fits, UDP_MAX. rewrite length_app. cbn. lia.
    + rewrite length_app. split; [cbn; lia|by apply cstring_app].
Qed.

(** C4: The chat works: the lines typed at one host, each of at most 998
    characters, up to and including [quit], are sent ([chat_loop], the empty
    ones skipped), taken from the socket by the daemon ([ipc_recv],
    [handle_ipc]), carried by a network that may duplicate, delivered by the
    other daemon ([handle_mcast]) and printed by the reader: the same lines,
    complete, in order and each once; and the loop ends. *)
Theorem chat_delivered A B freeA freeB ls now f ptr m js c prev b0 f0 :
  let lines := filter (λ l, l ≠ []) (ls ++ [QUIT]) in
  let n := length lines in
  pool_inv srep 1044 A freeA → pool_inv srep 1044 B freeB → link_up →
  truthy (active (cb A)) = true → orep (outmsgbuf (cb A)) ∅ →
  0 ≤ sequence (self A) → sequence (self A) + Z.of_nat n ≤ 2 ^ 32 → Z.of_nat n ≤ INT_MAX →
  registered mrep urep B (u32 (mem_id (self A))) ptr m ∅ → expects m (sequence (self A)) →
  ipc_out B = [] → length f = 16%nat → Forall typed ls → QUIT ∉ ls →
  Fifo.no_gap 0 js = true → Forall (fun j => (j < n)%nat) js → (∀ j, (j < n)%nat → j ∈ js) →
  Z.of_nat (length freeB + length js) ≤ INT_MAX →
  length (str c) = 1000%nat → stop c = 0 → ipc_in c = [] → length b0 = 1024%nat →
  ∃ c' A' ds B' v',
    chat_loop (length ls + 1) A (ls ++ [QUIT]) c = Ok c' ∧ stop c' = 1 ∧
    take_ipc n prev (ipc_in c') A = Ok ([], A') ∧ sent A' = sent A ++ (Packet ToGroup <$> ds) ∧
    recv_all now f (relay js ds) B = Ok (tt, B') ∧
    reader (replicate n (Poll 0 1 1)) (Screen b0 f0 [] (ipc_out B')) = Ok v' ∧
    printed v' = (f,.) <$> lines ∧ stream v' = [].
Proof.
  intros lines n HpA HpB Hlink Ha Ho Hq0 Hq Hn Hreg Hexp Hout Hf Hls Hnq Hg Hjs Hall Hfree Hc Hs Hi Hb0.
  set (ps := said (ls ++ [QUIT])).
  assert (Hps : length ps = n) by (unfold ps, said; by rewrite length_fmap).
  destruct (said_printed (ls ++ [QUIT])) as [Hfit Htxt].
  { apply Forall_app. split; [done|]. constructor; [apply QUIT_typed|done]. }
  destruct (chat_loop_quit A ls c Ha Hls Hnq Hc Hs) as (b & E1). rewrite Hi, app_nil_l in E1.
  destruct (relayed srep mrep urep orep 1044 1044 A B freeA freeB ∅ ps now f ptr m js)
    as (A' & ds & B' & EA & HsA & EB & HoB); rewrite ?Hps; try done.
  destruct (reader_frames f ps lines Hf Htxt (Screen b0 f0 [] (ipc_out B')) [] Hb0)
    as (v' & Ev & Hpr & Hst); [by rewrite app_nil_r|].
  rewrite Hps in Ev. eexists _, A', ds, B', v'. split; [exact E1|]. split; [done|].
  split; [|done]. rewrite <- Hps. apply take_ipc_frames; [|done].
  eapply Forall_impl; [exact Hfit|]. intros p ?%fits_short. lia.
Qed.
End Rmctest.

(** ** Starting *)

Section Start.
Context `{Uninit htbl_entry} `{Uninit mqueue_item} `{Kernel} `{Fresh}.

Definition usage_ok (argv : list cstring) : bool :=
  (length argv =? 1)%nat || (length argv =? 3)%nat || (length argv =? 4)%nat.

Lemma main_start_args argv hname addr rnd ki pton kj s :
  main_start argv hname addr rnd ki pton kj s =
  if usage_ok argv then
    (ret ← rmcast_init 1024 16 5 0 hname addr rnd ki;
     if ret <? 0 then mret (Exits 0)
     else
       ret ← rmcast_join_on (if (length argv =? 1)%nat then GROUP else default [] (argv !! 2%nat))
               (if (length argv =? 1)%nat then 34567 else atoi (default [] (argv !! 1%nat)))
               ((argv !! 3%nat) ≫= pton) kj;
       if ret <? 0 then mret (Exits (-1)) else mret Runs) s
  else Ok (Exits 1, s).
Proof.
  unfold main_start, usage_ok. destruct argv as [|a0 [|a1 [|a2 [|a3 [|a4 argv]]]]]; try done.
  cbn [length]. replace (Z.of_nat (S (S (S (S (S (length argv))))))) with (5 + Z.of_nat (length argv)) by lia.
  rewrite !(proj2 (Z.eqb_neq _ _)) by lia. done.
Qed.

(** The program starts: with 1, 3 or 4 arguments and calls that succeed, the
    host is in the group the arguments name, with a pool of 20 messages of 1044
    bytes, which is what a conversation needs; with another number of arguments
    it exits with 1 and has done nothing; when the ipc sockets cannot be made it
    returns 0. *)
Theorem main_start_correct s argv name addr rnd ki pton kj :
  heap_wf (msgs s) → active (cb s) = 0 → initialized (net (cb s)) ≠ 12345 →
  c_socket1 ki ∉ fds (net (cb s)) → c_socket2 ki ∉ fds (net (cb s)) →
  0 ≤ j_socket kj → 0 ≤ j_reuse kj → 0 ≤ j_loop kj → 0 ≤ j_ttl kj → 0 ≤ j_add kj → 0 ≤ j_thread kj →
  (usage_ok argv = false →
     main_start argv (Some name) (Some addr) rnd ki pton kj s = Ok (Exits 1, s)) ∧
  (usage_ok argv = true → ipc_up ki = false →
     ∃ s', main_start argv (Some name) (Some addr) rnd ki pton kj s = Ok (Exits 0, s') ∧
       fds (net (cb s')) = fds (net (cb s))) ∧
  (usage_ok argv = true → ipc_up ki = true →
     ∃ s' free, main_start argv (Some name) (Some addr) rnd ki pton kj s = Ok (Runs, s') ∧
       active (cb s') = 1 ∧ pool_inv qlifo 1044 s' free ∧ length free = 20%nat ∧
       plain (members (cb s')) ∅ ∧ qplain (membersq (cb s')) [] ∧ unreleased (outmsgbuf (cb s')) ∅ ∧
       sequence (self s') = 0 ∧ mem_id (self s') = i64 addr ∧ ipc_out s' = ipc_out s ∧ mems s' = mems s ∧
       group (net (cb s')) = (if (length argv =? 1)%nat then GROUP else default [] (argv !! 2%nat)) ∧
       port (net (cb s')) = (if (length argv =? 1)%nat then 34567 else atoi (default [] (argv !! 1%nat)))).
Proof.
  intros Hw Ha Hini Hf1 Hf2 Hj1 Hj2 Hj3 Hj4 Hj5 Hj6. rewrite main_start_args.
  split; [by intros ->|].
  destruct (rmcast_init_ok s 1024 16 5 0 name addr rnd ki Hw)
    as (ret & s1 & free & E1 & Hr & Hp & Hl & Hm & Hq & Ho & Hsq & Hid & _ & _ & _ & Hio & Hme & Hact & _);
    [unfold SIZEOF_HDR; int_lia|int_lia|exact Hini|exact Hf1|exact Hf2|].
  rewrite (bind_run _ _ _ _ _ E1). clear E1. split; intros -> Hup.
  - destruct (ir_error _ _ _ _ Hr Hup) as [Hret Hfds]. rewrite (proj2 (Z.ltb_lt _ _)) by done.
    exists s1. split; [done|exact Hfds].
  - destruct (ir_ok _ _ _ _ Hr Hup) as (-> & _ & _ & _ & Hipc & _ & Hmax). change (0 <? 0) with false. cbn iota.
    match goal with |- context [rmcast_join_on ?g ?p ?i kj] =>
      destruct (rmcast_join_correct g p i kj s1 Hj1 Hj2 Hj3 Hj4 Hj5) as [Hjoin _]; [lia|];
      destruct Hjoin as (n & E2 & _ & _ & _ & Hg & Hpt & _); [by rewrite Hact|] end.
    rewrite (bind_run _ _ _ _ _ E2), (proj2 (Z.ltb_ge _ _)) by done.
    exists (activate (with_net s1 n)), free. split; [done|]. split; [done|].
    split; [eapply pool_inv_ext; [..|exact Hp]; reflexivity|]. split; [lia|].
    do 7 (split; [done|]). split; [exact Hg|exact Hpt].
Qed.
End Start.
