(* ===== verification/RmcastExamples.v ===== *)
(** * Two daemons, run

    Concrete hosts, started by [rmcast_init]: host 1001 sends, host 2002 learns
    of it from its heartbeat and receives.  They instantiate the theorems of the
    daemon. *)

From Stdlib Require Import SpecFloat.
From stdpp Require Import relations.
From S2P Require Import Prelude StateMonad Machine Heap Pool Hashtable HashtableRepr HashtableProofs.
From S2P Require Import HashtableSpec Mqueue MqueueRepr MqueueProofs MqueueSpec Interfaces.
From S2P Require Import Wire RmcastState Rmcast RmcastApi RmcastPool RmcastWire RmcastProofs.
From S2P Require Import Gap RmcastNack RmcastSend RmcastSpec RmcastEnd RmcastFifo RmcastSockets RmcastInit.
From S2P Require Import RmcastInvariant RmcastLife RmcastHbeat RmcastFaults RmcastLeave.

#[export] Instance zero_entry : Uninit htbl_entry := Entry 0 0 0 0 0.
#[export] Instance zero_item : Uninit mqueue_item := Item 0 0.
#[export] Instance whole_kernel : Kernel :=
  {| sendto_ret p := Z.of_nat (length (p_bytes p)); send_ret _ bs := Z.of_nat (length bs) |}.
#[export] Program Instance zero_bytes : Fresh :=
  {| fresh_bytes n := replicate n 0; fresh_int := 0 |}.
Next Obligation. intros. apply length_replicate. Qed.
#[export] Instance whole_reader : Reader := {| recv_ret stream n := Z.min n (Z.of_nat (length stream)) |}.

#[export] Instance whole_kernel_ok : KernelOk.
Proof.
  split; [|done]. intros o bs Hbs. cbn. destruct bs; [done|]. cbn. lia.
Qed.

#[export] Instance whole_reader_ok : ReaderOk.
Proof. intros stream n Hn. cbn. lia. Qed.

Lemma whole_link : link_up.
Proof. intros d _. reflexivity. Qed.

(** The state before [rmcast_init]: static storage, all zero. *)
Definition table0 : htbl_t := Htbl (Hashtbl 0 0 [] [] (Pool 0 0 0 0)) heap_empty heap_empty.
Definition queue00 : mqueue_t := MqueueT (Mqueue 0 0 0 (Pool 0 0 0 0) 0 0) heap_empty.
Definition net0 : netcb := Net 0 0 0 0 0 0 0 0 0 [] 0 0 0 0 [0; 1; 2].
Definition rmc0 : rmc :=
  Rmc (Rmcastcb 0 0 0 [] queue00 queue00 table0 queue00 table0 0 0 0 0 0 (f_of_int 0) (f_of_int 0) 0 0 0
         net0)
      (Member 0 [] 0 0 0 0 0 0 (Timeval 0 0) table0) heap_empty heap_empty [] [].

Definition calls : ipc_calls := IpcCalls 3 0 1234 0 0 4 0 0 0 5.
Definition boot (addr rnd : Z) : res (Z * rmc) :=
  rmcast_init 128 20 5 0 (Some [104; 111; 115; 116]) (Some addr) rnd calls rmc0.

Definition run (r : res (Z * rmc)) : rmc := match r with Ok (_, s) => s | Fault _ => rmc0 end.

Definition hostA : rmc := Eval vm_compute in run (boot 1001 7).
Definition hostB : rmc := Eval vm_compute in run (boot 2002 8).

(** What is true of a host after [rmcast_init]. *)
Record booted (s : rmc) (addr : Z) : Prop := {
  bo_pool : ∃ free, pool_inv qlifo 148 s free ∧ length free = 20%nat;
  bo_members : plain (members (cb s)) ∅;
  bo_membersq : qplain (membersq (cb s)) [];
  bo_out : unreleased (outmsgbuf (cb s)) ∅;
  bo_seq : sequence (self s) = 0 ∧ mem_id (self s) = i64 addr;
  bo_io : ipc_out s = [] ∧ mems s = heap_empty
}.

Lemma boot_ok addr rnd : booted (run (boot addr rnd)) addr.
Proof.
  destruct (rmcast_init_ok rmc0 128 20 5 0 [104; 111; 115; 116] addr rnd calls)
    as (ret & s' & free & E & _ & Hp & Hl & Hm & Hq & Ho & Hs & Hi & _ & _ & _ & Hio & Hme & _);
    [apply heap_empty_wf|unfold SIZEOF_HDR; int_lia|int_lia|done|cbn; set_solver..|].
  unfold boot. rewrite E. cbn [run]. clear E.
  split; [exists free; split; [exact Hp|lia]|exact Hm|exact Hq|exact Ho|by split|by split].
Qed.

Lemma hostA_ok : booted hostA 1001.
Proof. exact (boot_ok 1001 7). Qed.
Lemma hostB_ok : booted hostB 2002.
Proof. exact (boot_ok 2002 8). Qed.

(** The heartbeat of host A, its first data message and its second one. *)
Definition first_sent (r : res (unit * rmc)) : list Z :=
  match r with
  | Ok (_, s) => match sent s with p :: _ => p_bytes p | [] => [] end
  | Fault _ => []
  end.
Definition hbA : list Z := Eval vm_compute in first_sent (hbeat_tick (Timeval 10 0) hostA).

Definition addrA : list Z := replicate 16 9.
Definition hostB1 : rmc :=
  Eval vm_compute in match handle_mcast (Timeval 3 0) (Some (hbA, addrA)) hostB with
                     | Ok (_, s) => s | Fault _ => rmc0 end.

Lemma hbA_ok : is_hbeat hbA 0 1001 7.
Proof. split; reflexivity. Qed.

(** Host B after the heartbeat: host A is member 1. *)
Lemma hostB1_ok :
  ∃ free m, pool_inv qlifo 148 hostB1 free ∧ length free = 20%nat ∧
    registered plain plain hostB1 1001 1 m ∅ ∧ u64 (sequence m + 1) = 0 ∧ ipc_out hostB1 = [].
Proof.
  destruct hostB_ok as [(free & Hp & Hl) Hm Hq _ _ [Hio Hme]].
  destruct (hbeat_registers_ok qlifo qplain plain 148 hostB free (Timeval 3 0) hbA addrA 0 1001 7 ∅ [])
    as (s' & a & m & E & Hp' & Hreg & _ & _ & Hseq & _ & _ & _ & Hio' & _);
    [exact Hp|rewrite Hl; int_lia|exact hbA_ok|vm_compute; congruence|reflexivity| |exact Hm|
     apply lookup_empty|reflexivity|exact Hq|reflexivity|].
  { rewrite Hme. apply heap_empty_wf. }
  assert (s' = hostB1) as ->.
  { vm_compute in E. injection E as <-. reflexivity. }
  clear E.
  rewrite Hme in Hreg. exists (a :: tail free), m. split; [done|]. split; [|split; [done|split; [done|]]].
  - destruct free; [done|]. cbn in *. lia.
  - by rewrite Hio'.
Qed.

(** ** The theorems at these hosts *)

(** Closed inequalities. *)
Ltac num := vm_compute; congruence.

(** A data message of host A with a given number. *)
Definition data1 (seq : Z) : list Z := slice 0 22 (data_buf (replicate 22 0) seq 1001 [7; 8]).

Lemma data1_ok seq : is_data (data1 seq) seq 1001 [7; 8].
Proof. apply (data_buf_is_data (replicate 22 0) seq 1001 [7; 8]). cbn. lia. Qed.

Lemma alloc_msg_exclusive_witness :
  ∃ free a s' x, alloc_msg hostA = Ok (a, s') ∧ pool_inv qlifo 148 s' (tail free) ∧ (a ∉ tail free) ∧
    cells (msgs s') !! a = Some x ∧ 148 ≤ m_size x ∧ m_size x = Z.of_nat (length (m_buf x)) ∧
    (∀ b, is_Some (cells (msgs hostA) !! b) → b ∉ free →
       b ≠ a ∧ cells (msgs s') !! b = cells (msgs hostA) !! b) ∧
    ∃ s'', release_msg a s' = Ok (tt, s'') ∧ pool_inv qlifo 148 s'' (a :: tail free).
Proof.
  destruct (bo_pool _ _ hostA_ok) as (free & Hp & Hl). exists free.
  apply (alloc_msg_exclusive qlifo 148 hostA free Hp). rewrite Hl. vm_compute. congruence.
Defined.

Lemma data_next_witness :
  ∃ m free s' t, handle_mcast (Timeval 4 0) (Some (data1 0, addrA)) hostB1 = Ok (false, s') ∧
    ipc_out s' = ipc_out hostB1 ++ metadata 2 addrA ++ [7; 8] ∧
    registered plain plain s' (u32 1001) 1 (m <| sequence := u32 0 |> <| unseq_msgs := t |>) ∅ ∧
    pool_inv qlifo 148 s' (tail free) ∧ sent s' = sent hostB1 ∧ self s' = self hostB1.
Proof.
  destruct hostB1_ok as (free & m & Hp & Hl & Hreg & Hseq & _). exists m, free.
  apply (data_next qlifo plain plain 148 hostB1 free (Timeval 4 0) (data1 0) addrA
           0 1001 [7; 8] 1 m ∅ Hp (data1_ok 0)).
  - num.
  - num.
  - num.
  - cbn. lia.
  - exact Hreg.
  - exact Hseq.
  - reflexivity.
Defined.

(** Host B after the data message 0. *)
Definition hostB2 : rmc :=
  Eval vm_compute in match handle_mcast (Timeval 4 0) (Some (data1 0, addrA)) hostB1 with
                     | Ok (_, s) => s | Fault _ => rmc0 end.

Lemma hostB2_ok :
  ∃ free m, pool_inv qlifo 148 hostB2 free ∧ length free = 19%nat ∧
    registered plain plain hostB2 1001 1 m ∅ ∧ sequence m = 0.
Proof.
  destruct hostB1_ok as (free & m & Hp & Hl & Hreg & Hseq & _).
  destruct (data_next qlifo plain plain 148 hostB1 free (Timeval 4 0) (data1 0) addrA
           0 1001 [7; 8] 1 m ∅ Hp (data1_ok 0)) as (s' & t & E & _ & Hreg' & Hp' & _);
    [vm_compute; congruence|reflexivity|reflexivity|cbn; lia|exact Hreg|exact Hseq|reflexivity|].
  assert (s' = hostB2) as ->.
  { vm_compute in E. injection E as <-. reflexivity. }
  clear E. eexists _, _. split; [exact Hp'|]. split; [|split; [exact Hreg'|reflexivity]].
  destruct free; [done|]. cbn in *. lia.
Qed.

Lemma data_duplicate_dropped_witness :
  ∃ free s' a, handle_mcast (Timeval 5 0) (Some (data1 0, addrA)) hostB2 = Ok (false, s') ∧
    same_but_pool hostB2 s' ∧ pool_inv qlifo 148 s' (a :: tail free).
Proof.
  destruct hostB2_ok as (free & m & Hp & Hl & Hreg & Hseq). exists free.
  apply (data_duplicate_dropped qlifo plain plain 148 hostB2 free (Timeval 5 0) (data1 0) addrA
           0 1001 [7; 8] 1 m ∅ Hp (data1_ok 0)).
  - num.
  - num.
  - num.
  - rewrite Hl. num.
  - exact Hreg.
  - rewrite Hseq. vm_compute. split; congruence.
Defined.

Lemma first_message_lost_witness :
  ∃ free s' a, handle_mcast (Timeval 5 0) (Some (data1 1, addrA)) hostB1 = Ok (false, s') ∧
    same_but_pool hostB1 s' ∧ pool_inv qlifo 148 s' (a :: tail free).
Proof.
  destruct hostB1_ok as (free & m & Hp & Hl & Hreg & Hseq & _). exists free.
  assert (Hm : sequence m = 2 ^ 64 - 1).
  { pose proof (rg_member _ _ _ _ _ _ _ Hreg) as E. vm_compute in E. injection E as <-. reflexivity. }
  apply (first_message_lost_is_final qlifo plain plain 148 hostB1 free (Timeval 5 0) (data1 1) addrA
           1 1001 [7; 8] 1 m ∅ Hp (data1_ok 1)).
  - num.
  - num.
  - num.
  - rewrite Hl. num.
  - exact Hreg.
  - exact Hm.
  - num.
Defined.

Lemma data_unknown_dropped_witness :
  ∃ free s' a, handle_mcast (Timeval 5 0) (Some (data1 0, addrA)) hostB = Ok (false, s') ∧
    same_but_pool hostB s' ∧ pool_inv qlifo 148 s' (a :: tail free).
Proof.
  destruct hostB_ok as [(free & Hp & Hl) Hm _ _ _ _]. exists free.
  apply (data_unknown_dropped qlifo plain 148 hostB free (Timeval 5 0) (data1 0) addrA
           0 1001 [7; 8] ∅ Hp (data1_ok 0)).
  - num.
  - num.
  - num.
  - rewrite Hl. num.
  - exact Hm.
  - reflexivity.
Defined.

Lemma data_gap_witness :
  ∃ f, handle_mcast (Timeval 5 0) (Some (data1 2, addrA)) hostB2 = Fault f ∧ overrun f.
Proof.
  destruct hostB2_ok as (free & m & Hp & Hl & Hreg & Hseq).
  apply (data_gap qlifo plain plain 148 hostB2 free (Timeval 5 0) (data1 2) addrA
           2 1001 [7; 8] 1 m ∅ Hp (data1_ok 2)).
  - num.
  - num.
  - num.
  - exact Hreg.
  - rewrite Hseq. num.
  - rewrite Hseq. num.
  - num.
Defined.

Lemma recv_truncates_witness :
  rmcast_timed_recvfrom 1 1 2 (frame addrA [7; 8; 9] ++ [1]) = Received 2 [7; 8] addrA [1].
Proof. apply (recv_truncates 2 addrA [7; 8; 9] [1]); vm_compute; try split; congruence. Defined.

Lemma rmcast_init_correct_witness :
  ∃ ret s' free, rmcast_init 1024 16 5 0 (Some [104]) (Some 1001) 7 calls rmc0 = Ok (ret, s') ∧
    ipc_result calls net0 ret (net (cb s')) ∧
    pool_inv qlifo 1044 s' free ∧ Z.of_nat (length free) = 20 ∧
    plain (members (cb s')) ∅ ∧ qplain (membersq (cb s')) [] ∧ unreleased (outmsgbuf (cb s')) ∅ ∧
    sequence (self s') = 0 ∧ mem_id (self s') = 1001 ∧ session (self s') = 7 ∧
    0 ≤ hbeat_rate (cb s') ≤ 5 ∧ sent s' = [] ∧ ipc_out s' = [] ∧ mems s' = heap_empty.
Proof.
  apply (rmcast_init_correct rmc0 1024 16 5 0 [104] 1001 7 calls heap_empty_wf).
  - num.
  - num.
  - num.
  - cbn. set_solver.
  - cbn. set_solver.
Defined.

Lemma init_ipc_sockets_witness :
  ∃ ret n, init_ipc_sockets calls rmc0 = Ok (ret, with_net rmc0 n) ∧ ipc_result calls net0 ret n.
Proof. apply (init_ipc_sockets_correct calls rmc0); cbn; [done|set_solver..]. Defined.

(** A multicast socket that could not be bound. *)
Definition unbound : join_calls := JoinCalls 6 0 0 (-1) 0 224 0 0.

Lemma rmcast_join_witness :
  ∃ n, rmcast_join_on [50] 5000 None unbound hostA = Ok (0, activate (with_net hostA n)) ∧
    selectable n ∧ mcast_sock n = 6 ∧ fds n = [6; 5; 4; 3; 0; 1; 2] ∧
    group n = [50] ∧ port n = 5000 ∧ mcast_addr n = 224.
Proof. apply (rmcast_join_correct [50] 5000 None unbound hostA); num || reflexivity. Defined.

Lemma hbeat_registers_witness :
  ∃ free s' a m, handle_mcast (Timeval 3 0) (Some (hbA, addrA)) hostB = Ok (false, s') ∧
    pool_inv qlifo 148 s' (a :: tail free) ∧
    registered plain plain s' (u32 1001) (brk (mems hostB)) m ∅ ∧
    mem_id m = u32 1001 ∧ session m = u32 7 ∧ u64 (sequence m + 1) = u32 0 ∧
    last_hbeat m = Timeval 3 0 ∧ qplain (membersq (cb s')) [brk (mems hostB)] ∧
    sent s' = sent hostB ∧ ipc_out s' = ipc_out hostB ∧ self s' = self hostB.
Proof.
  destruct hostB_ok as [(free & Hp & Hl) Hm Hq _ _ [Hio Hme]]. exists free.
  apply (hbeat_registers qlifo qplain plain 148 hostB free (Timeval 3 0) hbA addrA 0 1001 7 ∅ [] Hp).
  - rewrite Hl. vm_compute. congruence.
  - exact hbA_ok.
  - vm_compute. congruence.
  - vm_compute. reflexivity.
  - rewrite Hme. exact heap_empty_wf.
  - exact Hm.
  - reflexivity.
  - vm_compute. reflexivity.
  - exact Hq.
  - vm_compute. reflexivity.
Defined.

(** Host B expects the message 0 of host A. *)
Lemma hostB1_expects m : registered plain plain hostB1 (u32 1001) 1 m ∅ → expects m 0.
Proof.
  intros [_ _ Hm _].
  assert (E : sequence <$> cells (mems hostB1) !! 1 = Some (2 ^ 64 - 1)) by (vm_compute; reflexivity).
  rewrite Hm in E. cbn in E. injection E as E. split; rewrite E; [split; num|reflexivity].
Qed.

(** Message 0 three times and message 1 twice, the copies late: 0 and 1 are
    delivered. *)
Lemma recv_refines_fifo_witness :
  ∃ s' m', recv_all (Timeval 4 0) addrA [data1 0; data1 0; data1 1; data1 0; data1 1] hostB1 = Ok (tt, s') ∧
    ipc_out s' = ipc_out hostB1 ++ concat (frame addrA <$> [[7; 8]; [7; 8]]) ∧
    registered plain plain s' (u32 1001) 1 m' ∅ ∧ expects m' 2.
Proof.
  destruct hostB1_ok as (free & m & Hp & Hl & Hreg & Hseq & _).
  apply (recv_refines_fifo qlifo plain plain 148 (Timeval 4 0) addrA 1 1001 _
           [(0, [7; 8]); (0, [7; 8]); (1, [7; 8]); (0, [7; 8]); (1, [7; 8])] 0 hostB1 free m).
  - num.
  - cbn. lia.
  - repeat (constructor; [cbn; split; [apply data1_ok|repeat split; num]|]). constructor.
  - exact Hp.
  - rewrite Hl. num.
  - exact Hreg.
  - exact (hostB1_expects m Hreg).
Defined.

Lemma duplicating_network_witness :
  ∃ A' ds B', send_all [[1; 2]; []; [3]] hostA = Ok (tt, A') ∧
    sent A' = sent hostA ++ (Packet ToGroup <$> ds) ∧
    recv_all (Timeval 4 0) addrA (relay [0; 0; 1; 0; 2; 1; 2]%nat ds) hostB1 = Ok (tt, B') ∧
    ipc_out B' = concat (frame addrA <$> [[1; 2]; []; [3]]) ∧
    r_data <$> read_all 3 100 (ipc_out B') = [[1; 2]; []; [3]].
Proof.
  destruct hostA_ok as [(freeA & HpA & _) _ _ Ho _ _].
  destruct hostB1_ok as (freeB & m & HpB & Hl & Hreg & Hseq & Hio).
  apply (duplicating_network qlifo plain plain unreleased 148 148 hostA hostB1 freeA freeB ∅
           [[1; 2]; []; [3]] (Timeval 4 0) addrA 1 m 100 [0; 0; 1; 0; 2; 1; 2]%nat HpA HpB).
  - num.
  - repeat constructor; num.
  - repeat constructor; num.
  - exact whole_link.
  - exact Ho.
  - num.
  - intros j _. reflexivity.
  - num.
  - num.
  - exact Hreg.
  - exact (hostB1_expects m Hreg).
  - exact Hio.
  - reflexivity.
  - repeat constructor; num.
  - reflexivity.
  - repeat constructor.
  - intros [|[|[|j]]] Hj; [set_solver..|cbn in Hj; lia].
  - rewrite Hl. num.
Defined.

Lemma ipc_message_overflow_witness :
  handle_ipc (IpcEvent 140 (Some (replicate 140 1))) hostA = Fault OutOfBounds.
Proof.
  destruct (bo_pool _ _ hostA_ok) as (free & Hp & _).
  apply (ipc_message_overflow qlifo 148 hostA free (replicate 140 1) Hp).
  - apply (bool_decide_unpack (map_Forall (λ _ x, m_size x ≤ 148) (cells (msgs hostA)))).
    vm_compute. exact I.
  - vm_compute. split; congruence.
Defined.

(** Host A with a request for one message at address 1. *)
Definition nack_msg : rmc_msg := Msg 148 0 (splice 20 (le_encode 8 (htonl 2)) (replicate 148 0)).
Definition hostA_nack : rmc := hostA <| msgs := h_set (msgs hostA) 1 nack_msg |>.

Lemma nack_handler_overruns_witness : handle_nack 1 hostA_nack = Fault OutOfBounds.
Proof.
  destruct hostA_ok as [(free & Hp & _) _ _ Ho _ _].
  apply (nack_handler_overruns unreleased hostA_nack 1 148 ∅ 2 0 nack_msg).
  - split.
    + apply heap_wf_set; [exact (pi_wf _ _ _ _ Hp)|]. vm_compute. eauto.
    + exists nack_msg. split; reflexivity.
    + exact Ho.
    + intros k d Hd. by rewrite lookup_empty in Hd.
  - reflexivity.
  - lia.
  - num.
  - lia.
  - reflexivity.
  - reflexivity.
Defined.

(** Host B joins and hears of host A. *)
Definition joined : join_calls := JoinCalls 6 0 0 0 0 224 0 0.
Definition hostB_joined : rmc := Eval vm_compute in run (rmcast_join_on [50] 5000 None joined hostB).
Definition hear : turn := Turn (Some (Some (hbA, addrA))) None (Timeval 3 0).
Definition hostB_heard : rmc :=
  Eval vm_compute in match daemon_iter hear hostB_joined with Ok (_, s) => s | Fault _ => rmc0 end.

Lemma hostB_life : rtc life hostB hostB_heard.
Proof.
  eapply rtc_l; [|apply (daemon_life [hear])].
  - apply (life_join [50] 5000 None joined 0 hostB hostB_joined). vm_compute. reflexivity.
  - vm_compute. reflexivity.
Qed.

Lemma reachable_invariant_witness :
  daemon_inv (Some (2002, 8)) hostB_heard ∧
  ∀ p x dgram, cells (msgs hostB_heard) !! p = Some x →
    ∃ b, buf_write (m_buf x) 0 (take (Z.to_nat (m_size x)) dgram) = Ok b.
Proof.
  destruct (reachable_invariant rmc0 128 20 5 0 [104; 111; 115; 116] 2002 8 calls)
    as (ret & s1 & E & Hinv).
  - split; [apply map_Forall_empty|cbn; lia|done].
  - exact heap_empty_wf.
  - num.
  - num.
  - num.
  - cbn. set_solver.
  - cbn. set_solver.
  - assert (s1 = hostB) as ->.
    { change (boot 2002 8 = Ok (ret, s1)) in E. vm_compute in E. injection E as <- <-. reflexivity. }
    clear E. exact (Hinv _ hostB_life).
Defined.

(** Host B, acknowledging, with the leave message of host A at address 1. *)
Definition leave_msg : rmc_msg :=
  Msg 148 0 (splice 1 [RMCAST_MSG_LEAVE] (splice 12 (le_encode 8 1001) (replicate 148 0))).
Definition hostB_leave : rmc :=
  hostB1 <| msgs := h_set (msgs hostB1) 1 leave_msg |> <| cb := cb hostB1 <| hb_ack := 1 |> |>.

Lemma hostB1_members : plain (members (cb hostB1)) {[KInt 1001 := 1]} ∧ qplain (membersq (cb hostB1)) [1].
Proof.
  destruct hostB_ok as [_ Hm Hq _ _ _]. split.
  - destruct (pt_put _ _ 1001 1 Hm) as (t & E & Ht); [split; num|num|].
    vm_compute in E. injection E as <-. exact Ht.
  - destruct (st_add _ _ 1 Hq) as (q & E & Hq'); [num|]. vm_compute in E. injection E as <-. exact Hq'.
Qed.

