(* ===== verification/RmctestExamples.v ===== *)
(** * Two terminals, run

    Two hosts that were started by the demonstration program, and hosts that
    leave: the instances of the theorems of [Rmctest] and [RmcastClose]. *)

From S2P Require Import Prelude StateMonad Machine Heap Pool Hashtable HashtableRepr HashtableOps HashtableProofs.
From S2P Require Import HashtableSpec Mqueue MqueueRepr MqueueProofs MqueueSpec Interfaces.
From S2P Require Import Wire RmcastState Rmcast RmcastApi RmcastPool RmcastWire RmcastProofs RmcastSend.
From S2P Require Import RmcastSpec RmcastEnd RmcastFifo RmcastSockets RmcastInit RmcastHbeat RmcastLeave.
From S2P Require Import RmcastExamples RmcastBeat RmcastClose Rmctest.

#[export] Instance whole_sends : SendsWhole.
Proof. intros o bs. reflexivity. Qed.

(** [rmctest 5000 234.1] on host 1001 and [rmctest] on host 2002. *)
Definition start (argv : list cstring) (addr rnd : Z) : res (outcome * rmc) :=
  main_start argv (Some [104; 111; 115; 116]) (Some addr) rnd calls (fun _ => None) joined rmc0.
Definition started (r : res (outcome * rmc)) : rmc := match r with Ok (_, s) => s | Fault _ => rmc0 end.

Definition argsA : list cstring := [[114]; [53; 48; 48; 48]; [50; 51; 52; 46; 49]].
Definition chatA : rmc := Eval vm_compute in started (start argsA 1001 7).
Definition chatB : rmc := Eval vm_compute in started (start [[114]] 2002 8).

Example chatA_port : port (net (cb chatA)) = 5000.
Proof. reflexivity. Qed.

Record chatting (s : rmc) (addr : Z) : Prop := {
  ch_active : active (cb s) = 1;
  ch_pool : ∃ free, pool_inv qlifo 1044 s free ∧ length free = 20%nat;
  ch_members : plain (members (cb s)) ∅;
  ch_membersq : qplain (membersq (cb s)) [];
  ch_out : unreleased (outmsgbuf (cb s)) ∅;
  ch_seq : sequence (self s) = 0 ∧ mem_id (self s) = i64 addr;
  ch_io : ipc_out s = [] ∧ mems s = heap_empty
}.

Lemma started_ok argv addr rnd : usage_ok argv = true → chatting (started (start argv addr rnd)) addr.
Proof.
  intros Hargs. unfold start.
  destruct (main_start_correct rmc0 argv [104; 111; 115; 116] addr rnd calls (fun _ => None) joined)
    as (_ & _ & Hrun); [apply heap_empty_wf|done|done|cbn; set_solver..|num|num|num|num|num|num|].
  destruct (Hrun Hargs eq_refl)
    as (s' & free & E & Ha & Hp & Hl & Hm & Hq & Ho & Hs & Hi & Hio & Hme & _).
  rewrite E. cbn [started]. clear E Hrun.
  split; [exact Ha|exists free; by split|exact Hm|exact Hq|exact Ho|by split|by split].
Qed.

Lemma chatA_ok : chatting chatA 1001.
Proof. exact (started_ok argsA 1001 7 eq_refl). Qed.
Lemma chatB_ok : chatting chatB 2002.
Proof. exact (started_ok [[114]] 2002 8 eq_refl). Qed.

(** Host 2002 hears the heartbeat of host 1001. *)
Definition hbChat : list Z := Eval vm_compute in first_sent (hbeat_tick (Timeval 10 0) chatA).
Definition chatB1 : rmc :=
  Eval vm_compute in match handle_mcast (Timeval 3 0) (Some (hbChat, addrA)) chatB with
                     | Ok (_, s) => s | Fault _ => rmc0 end.

Lemma hbChat_ok : is_hbeat hbChat 0 1001 7.
Proof. split; reflexivity. Qed.

Lemma chatB1_ok :
  ∃ free m, pool_inv qlifo 1044 chatB1 free ∧ length free = 20%nat ∧
    registered plain plain chatB1 1001 1 m ∅ ∧ expects m 0 ∧ ipc_out chatB1 = [].
Proof.
  destruct chatB_ok as [_ (free & Hp & Hl) Hm Hq _ _ [Hio Hme]].
  destruct (hbeat_registers_ok qlifo qplain plain 1044 chatB free (Timeval 3 0) hbChat addrA 0 1001 7 ∅ [])
    as (s' & a & m & E & Hp' & Hreg & _ & _ & _ & _ & _ & _ & Hio' & _);
    [exact Hp|rewrite Hl; int_lia|exact hbChat_ok|vm_compute; congruence|reflexivity| |exact Hm|
     apply lookup_empty|reflexivity|exact Hq|reflexivity|].
  { rewrite Hme. apply heap_empty_wf. }
  assert (s' = chatB1) as ->.
  { vm_compute in E. injection E as <-. reflexivity. }
  clear E. rewrite Hme in Hreg. exists (a :: tail free), m. split; [exact Hp'|]. split; [|split; [exact Hreg|split]].
  - destruct free; [done|]. cbn in *. lia.
  - destruct Hreg as [_ _ Hm1 _].
    assert (E : sequence <$> cells (mems chatB1) !! 1 = Some (2 ^ 64 - 1)) by (vm_compute; reflexivity).
    assert (E2 : Some (sequence m) = Some (2 ^ 64 - 1)) by (rewrite <- E; exact (f_equal (fmap sequence) (eq_sym Hm1))).
    injection E2 as E2. split; rewrite E2; [split; num|reflexivity].
  - rewrite Hio'. exact Hio.
Qed.

(** [hi], an empty line, [you] and [quit]. *)
Definition HI : cstring := [104; 105].
Definition YOU : cstring := [121; 111; 117].

Definition blank : chat := Chat (replicate 1000 0) 0 [].

Lemma chat_delivered_witness :
  ∃ c' A' ds B' v',
    chat_loop 4 chatA [HI; []; YOU; QUIT] blank = Ok c' ∧ stop c' = 1 ∧
    take_ipc 3 0 (ipc_in c') chatA = Ok ([], A') ∧ sent A' = sent chatA ++ (Packet ToGroup <$> ds) ∧
    recv_all (Timeval 4 0) addrA (relay [0; 1; 0; 1; 2]%nat ds) chatB1 = Ok (tt, B') ∧
    reader (replicate 3 (Poll 0 1 1)) (Screen (replicate 1024 0) [] [] (ipc_out B')) = Ok v' ∧
    printed v' = [(addrA, HI); (addrA, YOU); (addrA, QUIT)] ∧ stream v' = [].
Proof.
  destruct chatA_ok as [Ha (freeA & HpA & _) _ _ Ho [Hs Hid] _].
  destruct chatB1_ok as (freeB & m & HpB & Hl & Hreg & Hexp & Hio).
  apply (chat_delivered qlifo plain plain unreleased chatA chatB1 freeA freeB [HI; []; YOU] (Timeval 4 0)
           addrA 1 m [0; 1; 0; 1; 2]%nat blank 0 (replicate 1024 0) []).
  - exact HpA.
  - exact HpB.
  - exact whole_link.
  - reflexivity.
  - exact Ho.
  - num.
  - num.
  - num.
  - exact Hreg.
  - exact Hexp.
  - exact Hio.
  - reflexivity.
  - repeat constructor; try (vm_compute; congruence); num.
  - intros Hin. vm_compute in Hin. set_solver.
  - reflexivity.
  - repeat constructor.
  - intros [|[|[|j]]] Hj; [set_solver..|vm_compute in Hj; lia].
  - rewrite Hl. num.
  - reflexivity.
  - reflexivity.
  - reflexivity.
  - reflexivity.
Defined.

(** A line of 999 characters does not fit. *)
Lemma chat_line_bounds_witness :
  chat_iter chatA (Some (replicate 999 65)) blank = Fault OutOfBounds.
Proof.
  apply (chat_line_bounds chatA blank (replicate 999 65)).
  - reflexivity.
  - apply Forall_replicate. discriminate.
  - discriminate.
Defined.

(** After [hi] and the end of the input: [hi] five times. *)
Lemma chat_repeats_last_line_witness :
  ∃ c', chat_loop 5 chatA [HI] blank = Ok c' ∧ stop c' = 0 ∧
    ipc_in c' = concat (ipc_frame <$> replicate 5 (HI ++ [0])).
Proof.
  apply (chat_repeats_last_line chatA [] HI blank 4).
  - reflexivity.
  - repeat constructor; num.
  - discriminate.
  - intros Hin. vm_compute in Hin. set_solver.
  - reflexivity.
  - reflexivity.
Defined.

(** A message of 1024 bytes is one too many; and so is none after leaving. *)
Lemma reader_bounds_witness :
  let v := Screen (replicate 1024 0) [] [] (frame addrA (replicate 1024 65)) in
  reader_iter 1 1 v = Fault OutOfBounds ∧ reader_iter 0 1 v = Fault OutOfBounds.
Proof.
  apply (reader_bounds (Screen (replicate 1024 0) [] [] (frame addrA (replicate 1024 65))) addrA (replicate 1024 65) []).
  - reflexivity.
  - symmetry. apply app_nil_r.
  - reflexivity.
  - num.
Defined.

(** ** Leaving and closing *)

Lemma rmcast_lifetime_frees_witness :
  ∃ s1 s2 s3 s4 s5 d, rmcast_init 128 20 5 0 (Some [104; 111; 115; 116]) (Some 1001) 7 calls rmc0 = Ok (0, s1) ∧
    Z.of_nat (size (cells (msgs s1))) = 20 ∧
    rmcast_join_on [50] 5000 None joined s1 = Ok (0, s2) ∧ active (cb s2) = 1 ∧
    rmcast_leave s2 = Ok (tt, s3) ∧ active (cb s3) = 0 ∧
    rmcast_daemon [] s3 = Ok (tt, s4) ∧ sent s4 = [Packet ToGroup d] ∧ field 1 1 d = RMCAST_MSG_LEAVE ∧
    rmcast_close s4 = Ok (0, s5) ∧ cells (msgs s5) = ∅.
Proof.
  apply (rmcast_lifetime_frees rmc0 128 20 5 0 [104; 111; 115; 116] 1001 7 calls [50] 5000 None joined []).
  - reflexivity.
  - reflexivity.
  - unfold SIZEOF_HDR. int_lia.
  - int_lia.
  - done.
  - cbn. set_solver.
  - cbn. set_solver.
  - reflexivity.
  - num.
  - num.
  - num.
  - num.
  - num.
  - reflexivity.
Defined.

(** Host A after four messages. *)
Definition hostA4 : rmc :=
  Eval vm_compute in match send_all [[1]; [2]; [3]; [4]] hostA with Ok (_, s) => s | Fault _ => rmc0 end.

Lemma inmsgq_ok : qlifo (inmsgq (cb hostA4)) [] ∧ qlifo (inmsgq (cb hostB1)) [].
Proof.
  destruct (mqueue_init_ok 20) as (q & E & Hq & _); [int_lia|]. vm_compute in E. injection E as <-. by split.
Qed.

Lemma unreleased_repr t m : unreleased t m → repr Sane t m.
Proof. intros (css & l & Hh & _ & E). by exists css, l. Qed.

Lemma hostA4_ok :
  ∃ m, repr Sane (outmsgbuf (cb hostA4)) m ∧ size m = 4%nat ∧
    ∃ free, qlifo (bufmsgq (cb hostA4)) free ∧ length free = 16%nat.
Proof.
  destruct hostA_ok as [(free & Hp & Hl) _ _ Ho [Hs _] _].
  destruct (send_all_spec qlifo unreleased 148 [[1]; [2]; [3]; [4]] hostA free ∅ Hp)
    as (ds & s' & E & _ & _ & Hp' & m & Hm & Hsz);
    [repeat constructor; num|exact whole_link|exact Ho|num|reflexivity|num|num|].
  assert (s' = hostA4) as ->.
  { vm_compute in E. injection E as <-. reflexivity. }
  clear E. exists m. split; [exact (unreleased_repr _ _ Hm)|]. split; [exact Hsz|].
  exists (drop 4 free). split; [apply Hp'|]. rewrite length_drop, Hl. reflexivity.
Qed.

Lemma hostA_members : repr Sane (members (cb hostA4)) ∅.
Proof. exact (plain_repr _ _ (bo_members _ _ hostA_ok)). Qed.

Lemma leave_keeps_half_witness :
  ∃ (m : gmap hkey Z) free s' m' l, size m = 4%nat ∧ rmcast_leave hostA4 = Ok (tt, s') ∧ active (cb s') = 0 ∧
    sequence (self s') = 0 ∧ repr Sane (outmsgbuf (cb s')) m' ∧ qlifo (bufmsgq (cb s')) (l ++ free) ∧
    m' ⊆ m ∧ (map_to_list m).*2 ≡ₚ l ++ (map_to_list m').*2 ∧ Z.of_nat (size m) / 2 - 1 ≤ Z.of_nat (size m').
Proof.
  destruct hostA4_ok as (m & Hm & Hsz & free & Hf & Hl).
  destruct (leave_keeps_half hostA4 m free Hm Hf (proj1 inmsgq_ok) hostA_members) as (s' & m' & l & Hw).
  - rewrite Hl, Hsz. num.
  - exists m, free, s', m', l. split; [exact Hsz|exact Hw].
Defined.

Example hostA4_left :
  (fun r => match r with Ok (_, s) => n_entries (tbl (outmsgbuf (cb s))) | Fault _ => -1 end)
    (rmcast_leave hostA4) = 2.
Proof. vm_compute. reflexivity. Qed.

(** Host B has host A as a member and has sent nothing. *)
Lemma leave_receiver_overruns_witness : rmcast_leave hostB1 = Fault OutOfBounds.
Proof.
  destruct hostB1_ok as (free & m & Hp & _).
  apply (leave_receiver_overruns hostB1 {[KInt 1001 := 1]} free).
  - exact (unreleased_repr _ _ (bo_out _ _ hostB_ok)).
  - apply Hp.
  - exact (proj2 inmsgq_ok).
  - exact (plain_repr _ _ (proj1 hostB1_members)).
  - intros E. by apply (f_equal size) in E.
Defined.

(** ** The service, from the start *)

Definition envA : env := Env 128 20 5 [104] 1001 7 calls [50] 5000 None joined.
Definition envB : env := Env 1000 0 5 [105] 2002 8 calls [50] 5000 None joined.

Lemma rmc0_zeroed : zeroed rmc0.
Proof. by split. Qed.

Lemma env_ok_rmc0 : env_ok envA rmc0 ∧ env_ok envB rmc0.
Proof.
  split; (split; [split; num|num|split; cbn; set_solver|reflexivity|repeat split; num]).
Qed.

Lemma service_end_to_end_witness :
  ∃ A0 B0 A1 B1 hb A2 ds B2,
    start_host envA rmc0 = Ok (0, A0) ∧ start_host envB rmc0 = Ok (0, B0) ∧
    hbeat_tick (Timeval 10 0) A0 = Ok (tt, A1) ∧ sent A1 = sent rmc0 ++ [Packet ToGroup hb] ∧
    handle_mcast (Timeval 3 0) (Some (hb, addrA)) B0 = Ok (false, B1) ∧
    send_all [[1; 2]; []; [3]] A1 = Ok (tt, A2) ∧ sent A2 = sent A1 ++ (Packet ToGroup <$> ds) ∧
    recv_all (Timeval 4 0) addrA (relay [0; 0; 1; 0; 2; 1; 2]%nat ds) B1 = Ok (tt, B2) ∧
    r_data <$> read_all 3 100 (ipc_out B2) = [[1; 2]; []; [3]].
Proof.
  apply (service_end_to_end envA envB rmc0 rmc0 [[1; 2]; []; [3]] addrA (Timeval 10 0) (Timeval 3 0) (Timeval 4 0)
           100 [0; 0; 1; 0; 2; 1; 2]%nat).
  - exact rmc0_zeroed.
  - exact rmc0_zeroed.
  - exact (proj1 env_ok_rmc0).
  - exact (proj2 env_ok_rmc0).
  - num.
  - reflexivity.
  - repeat constructor; num.
  - repeat constructor; num.
  - exact whole_link.
  - num.
  - repeat constructor; num.
  - reflexivity.
  - repeat constructor.
  - intros [|[|[|j]]] Hj; [set_solver..|cbn in Hj; lia].
  - num.
Defined.
