(* ===== verification/RmsMsg.v ===== *)
(** * Messages of the rewrite: [src/rms_msg.c]

    A message of the public interface ([struct rms_msg] of [rms.h]) points at
    data that belongs to the application.  Memory is a heap of byte blocks;
    [ip_addr] is the address of the 4 bytes of this host's address in the control
    block. *)

From S2P Require Import Prelude Heap Wire.

Record rms_msg := RmsMsg {
  msg_size : Z;
  msg_mem : Z;
  msg_data : Z;
  msg_src : Z;
  msg_slen : Z
}.
#[global] Instance rms_msg_eta : Eta rms_msg := fun r =>
  RmsMsg (msg_size r) (msg_mem r) (msg_data r) (msg_src r) (msg_slen r).

Definition bytes := heap (list Z).

(** [memcpy]; of nothing, it touches nothing, and a negative length is a huge one. *)
Definition memcpy (h : bytes) (dst src n : Z) : res bytes :=
  if n =? 0 then Ok h else
  s ← h_load h src;
  bs ← buf_read s 0 n;
  d ← h_load h dst;
  d ← buf_write d 0 bs;
  h_store h dst d.

Definition rms_msg_init (msg : rms_msg) : Z * rms_msg :=
  (0, msg <| msg_size := 0 |> <| msg_mem := 0 |> <| msg_data := NULL |>).

(** The memory of the data, if the message owns it. *)
Definition drop_mem (msg : rms_msg) (h : bytes) : res (rms_msg * bytes) :=
  if truthy (msg_mem msg) then
    h ← h_free h (msg_data msg);
    Ok (msg <| msg_mem := 0 |>, h)
  else Ok (msg, h).

Definition rms_msg_free (msg : rms_msg) (h : bytes) : res (rms_msg * bytes) :=
  '(msg, h) ← drop_mem msg h;
  Ok (msg <| msg_data := NULL |>, h).

Definition rms_msg_reset (msg : rms_msg) (h : bytes) : res (rms_msg * bytes) :=
  '(msg, h) ← drop_mem msg h;
  Ok (msg <| msg_data := NULL |> <| msg_size := 0 |>, h).

Definition rms_msg_set_data (ip_addr : Z) (msg : rms_msg) (data len : Z) (h : bytes) : res (Z * rms_msg * bytes) :=
  '(msg, h) ← drop_mem msg h;
  Ok (0, msg <| msg_data := data |> <| msg_size := len |> <| msg_src := ip_addr |> <| msg_slen := 4 |>, h).

Definition rms_msg_get_size (msg : rms_msg) : Z := msg_size msg.

(** The arguments of [memcpy] are the wrong way round. *)
Definition rms_msg_get_source (msg : rms_msg) (dest : Z) (h : bytes) : res (Z * bytes) :=
  h ← memcpy h (msg_src msg) dest (msg_slen msg);
  Ok (msg_slen msg, h).

Definition rms_msg_get_data (msg : rms_msg) (data len : Z) (h : bytes) : res (Z * bytes) :=
  let len := if len <? msg_size msg then len else msg_size msg in
  h ← memcpy h data (msg_data msg) len;
  Ok (len, h).

(** ** Sequences of calls *)

Inductive mop := MFree | MReset | MSet (data len : Z).

Definition mexec (ip_addr : Z) (s : rms_msg * bytes) (op : mop) : res (rms_msg * bytes) :=
  let '(msg, h) := s in
  match op with
  | MFree => rms_msg_free msg h
  | MReset => rms_msg_reset msg h
  | MSet data len => '(_, msg, h) ← rms_msg_set_data ip_addr msg data len h; Ok (msg, h)
  end.

Fixpoint mexec_all (ip_addr : Z) (s : rms_msg * bytes) (ops : list mop) : res (rms_msg * bytes) :=
  match ops with
  | [] => Ok s
  | op :: ops => s ← mexec ip_addr s op; mexec_all ip_addr s ops
  end.

(** The data and the length a message refers to. *)
Definition mspec (r : Z * Z) (op : mop) : Z * Z :=
  match op with
  | MFree => (NULL, r.2)
  | MReset => (NULL, 0)
  | MSet data len => (data, len)
  end.

(** ** Lemmas *)

Lemma memcpy_ok h dst src n s d :
  heap_wf h → cells h !! src = Some s → cells h !! dst = Some d →
  (n ≤ length s)%nat → (n ≤ length d)%nat →
  memcpy h dst src (Z.of_nat n) = Ok (h_set h dst (take n s ++ drop n d)).
Proof.
  intros Hw Hs Hd Hn Hm. unfold memcpy. destruct (Z.eqb_spec (Z.of_nat n) 0) as [Hz|_].
  { assert (n = 0%nat) as -> by lia. cbn. unfold h_set. rewrite insert_id by done. by destruct h. }
  pose proof (buf_read_Ok s 0 n ltac:(lia)) as Er. change (Z.of_nat 0) with 0 in Er.
  rewrite (h_load_Ok h src s) by done. cbn. rewrite Er. cbn.
  rewrite (h_load_Ok h dst d) by done. cbn.
  assert (Hl : length (slice 0 n s) = n) by (unfold slice; rewrite drop_0, length_take; lia).
  pose proof (buf_write_Ok d 0 (slice 0 n s) ltac:(lia)) as Ew. change (Z.of_nat 0) with 0 in Ew. rewrite Ew. cbn. rewrite (h_store_Ok h dst) by eauto.
  unfold splice. rewrite Hl. done.
Qed.

Lemma mexec_all_ok ip_addr ops : ∀ msg h,
  msg_mem msg = 0 →
  ∃ msg', mexec_all ip_addr (msg, h) ops = Ok (msg', h) ∧ msg_mem msg' = 0 ∧
    (msg_data msg', msg_size msg') = foldl mspec (msg_data msg, msg_size msg) ops.
Proof.
  induction ops as [|op ops IH]; intros msg h Hm; cbn [mexec_all foldl]; [by eauto|].
  destruct op; cbn; unfold rms_msg_free, rms_msg_reset, rms_msg_set_data, drop_mem;
    rewrite truthy_false by done; cbn; edestruct IH as (msg' & E & Hm' & Hs); rewrite ?E; eauto.
Qed.

(** ** Theorems *)

(** C26: a message gives back the data it was set to.  [rms_msg_get_data] copies
    the first bytes, as many as both the buffer and the message have, into the
    buffer of the application, leaves the rest of it and returns how many; the
    message holds no copy: what it returns is what the application's memory
    contains at that time. *)
Theorem rms_msg_roundtrip ip_addr msg h h' data len dst room bs old :
  msg_mem msg = 0 → heap_wf h' → data ≠ dst → 0 ≤ room →
  cells h' !! data = Some bs → len = Z.of_nat (length bs) →
  cells h' !! dst = Some old → room ≤ Z.of_nat (length old) →
  ∃ msg', rms_msg_set_data ip_addr msg data len h = Ok (0, msg', h) ∧
    rms_msg_get_size msg' = len ∧
    let n := Z.to_nat (Z.min room len) in
    ∃ h'', rms_msg_get_data msg' dst room h' = Ok (Z.min room len, h'') ∧
      cells h'' !! dst = Some (take n bs ++ drop n old) ∧
      ∀ a, a ≠ dst → cells h'' !! a = cells h' !! a.
Proof.
  intros Hm Hw Hne Hr Hb Hl Ho Hro. unfold rms_msg_set_data, drop_mem. rewrite truthy_false by done. cbn.
  eexists. split; [done|]. split; [done|]. cbn. unfold rms_msg_get_data. cbn.
  replace (if room <? len then room else len) with (Z.min room len) by (destruct (Z.ltb_spec room len); lia).
  set (n := Z.to_nat (Z.min room len)).
  assert (Z.min room len = Z.of_nat n) as -> by lia.
  rewrite (memcpy_ok h' dst data n bs old) by (try done; lia). cbn.
  eexists. split; [done|]. split; [apply lookup_h_set|]. intros a Ha. by apply lookup_h_set_ne.
Qed.

(** A message never frees memory.  [mem] is never set, so whatever sequence
    of free, reset and set_data follows [rms_msg_init], nothing is freed and the
    message refers to the data and the length of the last calls;
    [rms_msg_free] forgets the data but not its length, so that reading a message
    that was not empty goes through the NULL pointer. *)
Theorem rms_msg_borrows ip_addr msg ops h :
  ∃ msg', mexec_all ip_addr ((rms_msg_init msg).2, h) ops = Ok (msg', h) ∧
    msg_mem msg' = 0 ∧ (msg_data msg', msg_size msg') = foldl mspec (NULL, 0) ops ∧
    ∀ data len, 0 < len → 0 < rms_msg_get_size msg' →
      ∃ msg2, mexec ip_addr (msg', h) MFree = Ok (msg2, h) ∧ rms_msg_get_size msg2 = rms_msg_get_size msg' ∧
        rms_msg_get_data msg2 data len h = Fault NullDeref.
Proof.
  destruct (mexec_all_ok ip_addr ops (rms_msg_init msg).2 h eq_refl) as (msg' & E & Hm & Hs).
  exists msg'. split; [done|]. split; [done|]. split; [done|]. intros data len Hl Hsz.
  cbn. unfold rms_msg_free, drop_mem. rewrite truthy_false by done. cbn. eexists. split; [done|]. split; [done|].
  unfold rms_msg_get_data, memcpy, rms_msg_get_size in *. cbn.
  destruct (Z.ltb_spec len (msg_size msg')), (Z.eqb_spec len 0), (Z.eqb_spec (msg_size msg') 0); try lia; done.
Qed.

(** [rms_msg_get_source] goes the wrong way: it leaves the buffer of the
    caller as it is and overwrites this host's own address in the control block
    with the caller's first four bytes. *)
Theorem rms_msg_get_source_swapped ip_addr msg h data len dest own d :
  msg_mem msg = 0 → heap_wf h → ip_addr ≠ dest →
  cells h !! ip_addr = Some own → length own = 4%nat → cells h !! dest = Some d → (4 ≤ length d)%nat →
  ∃ msg' h', rms_msg_set_data ip_addr msg data len h = Ok (0, msg', h) ∧
    rms_msg_get_source msg' dest h = Ok (4, h') ∧
    cells h' !! dest = Some d ∧ cells h' !! ip_addr = Some (take 4 d).
Proof.
  intros Hm Hw Hne Ho Hl Hd Hld. unfold rms_msg_set_data, drop_mem. rewrite truthy_false by done. cbn.
  assert (Em : memcpy h ip_addr dest 4 = Ok (h_set h ip_addr (take 4 d ++ drop 4 own)))
    by (apply (memcpy_ok h ip_addr dest 4); (done || lia)).
  eexists _, _. split; [done|]. unfold rms_msg_get_source. cbn -[memcpy]. rewrite Em. cbn.
  split; [done|]. rewrite lookup_h_set_ne, lookup_h_set by done. split; [done|].
  by rewrite (drop_ge own) by lia; rewrite app_nil_r.
Qed.

Module MsgExamples.
(** This host's address at 1, a message at 2, a buffer at 3. *)
Definition mem3 : bytes := h_new (h_new (h_new heap_empty [127; 0; 0; 1]) [7; 8; 9]) [0; 0; 0; 0; 0].
Definition msg0 : rms_msg := (rms_msg_init (RmsMsg 5 5 5 5 5)).2.

Lemma mem3_wf : heap_wf mem3.
Proof. by repeat apply heap_wf_new; apply heap_empty_wf. Qed.

Lemma rms_msg_roundtrip_witness :
  ∃ msg' h', rms_msg_set_data 1 msg0 2 3 mem3 = Ok (0, msg', mem3) ∧
    rms_msg_get_data msg' 3 2 mem3 = Ok (2, h') ∧ cells h' !! 3 = Some [7; 8; 0; 0; 0].
Proof.
  destruct (rms_msg_roundtrip 1 msg0 mem3 mem3 2 3 3 2 [7; 8; 9] [0; 0; 0; 0; 0])
    as (msg' & E & _ & h' & Eg & Hc & _); try done; [exact mem3_wf|].
  exists msg', h'. split; [exact E|]. split; [exact Eg|exact Hc].
Defined.

Lemma rms_msg_get_source_swapped_witness :
  ∃ msg' h', rms_msg_set_data 1 msg0 2 3 mem3 = Ok (0, msg', mem3) ∧
    rms_msg_get_source msg' 3 mem3 = Ok (4, h') ∧ cells h' !! 1 = Some [0; 0; 0; 0].
Proof.
  destruct (rms_msg_get_source_swapped 1 msg0 mem3 2 3 3 [127; 0; 0; 1] [0; 0; 0; 0; 0])
    as (msg' & h' & E & Eg & _ & Hc); try done; [exact mem3_wf|cbn; lia|].
  exists msg', h'. split; [exact E|]. split; [exact Eg|exact Hc].
Defined.
End MsgExamples.
