(* ===== verification/RmsChannel.v ===== *)
(** * Channels of the rewrite: [src/rms_channel.c], [src/rms_interface.c]

    The control block's part that the channels use, the channel objects of the
    application and the internal objects behind them.  A field that the functions
    use is a field of the record, whether or not [rms_internal.h] declares it
    ([buf_size], [group], [active], and both spellings of [isMcast]).  The socket
    calls give their answers as arguments, in the order of the calls.

    The eight queues and tables of an internal object are made by [mqueue_init],
    [htbl_init] and [syncqueue_init], which [rms_channel_open] calls without the
    sizes they take and whose answers it tests, although two of them return
    nothing ([void], [mqueue.h] and [async.h]): an answer is an argument, one for
    each object, and [structs] is the log of the objects that were made, each with
    the address of the internal object it belongs to. *)

From S2P Require Import Prelude Heap Pool Mqueue MqueueRepr Interfaces Wire.

Definition RMS_ERR_DSTRUCT_INIT : Z := -20012.
Definition RMS_ERR_CHANNEL_OPENED : Z := -20021.
Definition RMS_ERR_CHANNEL_CONNECTED : Z := -20022.
Definition RMS_ERR_SOCK_INIT : Z := -20031.
Definition RMS_INITIALIZED : Z := 12345.
Definition sizeof_rms_msg_hdr : Z := 12.            (* packed: 1 + 1 + 2 + 8 *)
Definition OPENED : Z := 321.

(** [struct rms_channel] *)
Record rms_channel := RmsChannel {
  meta_channel : Z;
  ch_init : Z;
  ch_connected : Z
}.
#[global] Instance rms_channel_eta : Eta rms_channel := fun r =>
  RmsChannel (meta_channel r) (ch_init r) (ch_connected r).

(** The queues and tables of an internal object, in the order in which they are
    made. *)
Inductive channel_struct := MqOutBuf | MqInBuf | HtOutBuf | SqIn | SqOut | SqHbeat | HtPeers | MqPeers.

(** [struct rms_meta_channel]; its queues and tables are in [structs]. *)
Record rms_meta_channel := MetaChannel {
  mc_id : Z;
  mc_port : Z;
  mc_sock : Z;
  mc_name : Z;
  mc_ip_str : Z;
  mc_group : Z;
  to_addr : Z * Z * Z;                (* family, address, port *)
  isMcast : Z;
  isMCast : Z;
  ttl : Z;
  mcastReTX : Z;
  mc_state : Z;
  hbeat_ack : Z;
  msg_per_sec : Z;
  msg_this_sec : Z;
  hbeat_rate : Z;
  buf_size : Z;
  oldest_seq : Z;
  hb_seq_p1 : Z;
  hb_seq_p2 : Z;
  hb_seq_p3 : Z;
  connected : Z;
  mc_active : Z
}.
#[global] Instance rms_meta_channel_eta : Eta rms_meta_channel := fun r =>
  MetaChannel (mc_id r) (mc_port r) (mc_sock r) (mc_name r) (mc_ip_str r) (mc_group r) (to_addr r)
    (isMcast r) (isMCast r) (ttl r) (mcastReTX r) (mc_state r) (hbeat_ack r) (msg_per_sec r)
    (msg_this_sec r) (hbeat_rate r) (buf_size r) (oldest_seq r) (hb_seq_p1 r) (hb_seq_p2 r)
    (hb_seq_p3 r) (connected r) (mc_active r).

(** The control block, the application's channels and the internal objects. *)
Record rms := Rms {
  initialized : Z;
  rms_error : Z;
  n_channels : Z;
  mq_channels : mqueue_t;
  mq_channels_tmp : mqueue_t;
  chans : heap rms_channel;
  metas : heap rms_meta_channel;
  structs : list (Z * channel_struct)
}.
#[global] Instance rms_eta : Eta rms := fun r =>
  Rms (initialized r) (rms_error r) (n_channels r) (mq_channels r) (mq_channels_tmp r) (chans r) (metas r) (structs r).

Section Channels.
Context `{Uninit mqueue_item} `{Uninit rms_meta_channel}.
(** [RMS_ERR_SOCK_OPT] is used and defined nowhere. *)
Variable RMS_ERR_SOCK_OPT : Z.

(** [free(channel->meta_channel); channel->meta_channel = NULL;] *)
Definition drop_meta (s : rms) (ch : Z) : res rms :=
  c ← h_load (chans s) ch;
  m ← h_free (metas s) (meta_channel c);
  chs ← h_store (chans s) ch (c <| meta_channel := NULL |>);
  Ok (s <| metas := m |> <| chans := chs |>).

Definition open_failed (s : rms) (ch : Z) : res (Z * rms) :=
  s ← drop_meta (s <| rms_error := RMS_ERR_DSTRUCT_INIT |>) ch;
  Ok (-1, s).

(** The initialisations of the objects [xs], one after the other, until one
    fails; what was made before is not freed then. *)
Fixpoint init_all (inits : channel_struct → Z) (s : rms) (ch p : Z) (xs : list channel_struct)
    (k : rms → res (Z * rms)) : res (Z * rms) :=
  match xs with
  | [] => k s
  | x :: xs =>
      if inits x <? 0 then open_failed s ch
      else init_all inits (s <| structs := structs s ++ [(p, x)] |>) ch p xs k
  end.

Definition upd_meta (s : rms) (p : Z) (f : rms_meta_channel → rms_meta_channel) : res rms :=
  m ← h_load (metas s) p;
  ms ← h_store (metas s) p (f m);
  Ok (s <| metas := ms |>).

Definition rms_channel_open (s : rms) (ch : Z) (inits : channel_struct → Z) : res (Z * rms) :=
  c ← h_load (chans s) ch;
  if ch_init c =? OPENED then Ok (-1, s <| rms_error := RMS_ERR_CHANNEL_OPENED |>)
  else
    let '(p, ms) := malloc (metas s) in
    chs ← h_store (chans s) ch (c <| meta_channel := p |>);
    let s := s <| metas := ms |> <| chans := chs |> in
    n ← add_int (n_channels s) 1;
    s ← upd_meta s p (fun m => m <| mc_id := n_channels s |> <| mc_port := 0 |> <| mc_sock := 0 |>
          <| mc_name := NULL |> <| mc_ip_str := NULL |> <| isMcast := 0 |> <| ttl := 255 |>
          <| mcastReTX := 0 |>);
    let s := s <| n_channels := n |> in
    init_all inits s ch p [MqOutBuf; MqInBuf; HtOutBuf] (fun s =>
    s ← upd_meta s p (fun m => m <| mc_state := 0 |> <| hbeat_ack := 0 |> <| msg_per_sec := 0 |>
          <| msg_this_sec := 0 |> <| hbeat_rate := 5 |> <| buf_size := 1500 + sizeof_rms_msg_hdr |>);
    init_all inits s ch p [SqIn; SqOut; SqHbeat; HtPeers; MqPeers] (fun s =>
    s ← upd_meta s p (fun m => m <| oldest_seq := 0 |> <| hb_seq_p1 := 0 |> <| hb_seq_p2 := 0 |>
          <| hb_seq_p3 := 0 |> <| connected := 0 |>);
    q ← mqueue_add (mq_channels s) ch;
    (* channel->init == 321; compares *)
    Ok (0, s <| mq_channels := q |>))).

Definition rms_channel_config (s : rms) (ch port max_msg_size hb_rate_sec hb_ack : Z) : res (Z * rms) :=
  c ← h_load (chans s) ch;
  s ← upd_meta s (meta_channel c) (fun m =>
        let m := if (max_msg_size >? 100) && (max_msg_size <? 1500)
                 then m <| buf_size := max_msg_size + sizeof_rms_msg_hdr |> else m in
        let m := m <| hbeat_rate := hb_rate_sec |> <| hbeat_ack := hb_ack |> in
        if truthy port && (mc_port m =? 0) then m <| mc_port := port |> else m);
  Ok (0, s).

(** [rms_util.c]: the socket is not closed when it cannot be bound. *)
Definition init_dgram_sock (socket_ret bind_ret : Z) : Z :=
  if socket_ret <? 0 then socket_ret
  else if bind_ret <? 0 then bind_ret
  else socket_ret.

Definition rms_channel_connect (s : rms) (ch peer port socket_ret bind_ret : Z) : res (Z * rms) :=
  c ← h_load (chans s) ch;
  let p := meta_channel c in
  s ← upd_meta s p (fun m => if mc_port m <=? 0 then m <| mc_port := port |> else m);
  s ← upd_meta s p (fun m => m <| mc_sock := init_dgram_sock socket_ret bind_ret |> <| isMCast := 0 |>);
  m ← h_load (metas s) p;
  if mc_sock m <? 0 then
    s ← drop_meta (s <| rms_error := RMS_ERR_SOCK_INIT |>) ch;
    Ok (-1, s)
  else if truthy (ch_connected c) then Ok (-1, s <| rms_error := RMS_ERR_CHANNEL_CONNECTED |>)
  else
    q ← mqueue_add (mq_channels_tmp s) ch;
    s ← upd_meta (s <| mq_channels_tmp := q |>) p (fun m => m <| connected := 1 |>);
    Ok (0, s).

(** [group] is the address of the copy of the group's name that [alloc_strcpy]
    makes, [addr] what [inet_addr] makes of it. *)
Definition rms_channel_join (s : rms) (ch group addr port socket_ret bind_ret set_ttl set_loop set_group : Z)
    : res (Z * rms) :=
  c ← h_load (chans s) ch;
  let p := meta_channel c in
  s ← upd_meta s p (fun m => m <| mc_port := port |> <| mc_sock := init_dgram_sock socket_ret bind_ret |>
        <| isMCast := 1 |>);
  if set_ttl <? 0 then Ok (-1, s)
  else if truthy set_loop then Ok (-1, s <| rms_error := RMS_ERR_SOCK_OPT |>)
  else
    s ← upd_meta s p (fun m => m <| mc_group := group |> <| to_addr := (2, addr, htons (mc_port m)) |>);
    if set_group <? 0 then Ok (-1, s <| rms_error := RMS_ERR_SOCK_OPT |>)
    else
      s ← upd_meta s p (fun m => m <| connected := 1 |> <| mc_active := 1 |>);
      q ← mqueue_add (mq_channels_tmp s) ch;
      Ok (0, s <| mq_channels_tmp := q |>).

Definition rms_channel_leave (s : rms) (ch drop_group : Z) : res (Z * rms) :=
  c ← h_load (chans s) ch;
  m ← h_load (metas s) (meta_channel c);
  if truthy (isMCast m) && (drop_group <? 0) then Ok (-1, s) else Ok (0, s).

Definition rms_recv (s : rms) (ch msg : Z) : Z * rms := (0, s).
Definition rms_timed_recv (s : rms) (ch msg timeout : Z) : Z * rms := (0, s).
Definition rms_send_cert (s : rms) (ch msg : Z) : Z * rms := (0, s).

(** [rms_interface.c]: [if(rmscb->initialized = RMS_INITIALIZED)] assigns. *)
Definition rms_init (s : rms) (rest : rms → res (Z * rms)) : res (Z * rms) :=
  let s := s <| initialized := RMS_INITIALIZED |> in
  if truthy (initialized s) then Ok (1, s) else rest s.
Definition rms_shutdown (s : rms) : Z * rms := (0, s <| initialized := -1 |>).
Definition rms_get_error (s : rms) : Z := rms_error s.
End Channels.

(** [rms_sys.c]: every function returns 0 and does nothing. *)
Definition rms_sys_set_ttl (ch ttl : Z) : Z := 0.
Definition rms_sys_get_ttl (ch : Z) : Z := 0.
Definition rms_sys_hbeat_get_rate (ch : Z) : Z := 0.
Definition rms_sys_hbeat_set_rate (ch rate : Z) : Z := 0.
Definition rms_sys_peer_count (ch : Z) : Z := 0.
Definition rms_sys_peer_enum (ch members num : Z) : Z := 0.
Definition rms_sys_peer_join_callback (ch rms_on_peer_join : Z) : Z := 0.
Definition rms_sys_peer_leave_callback (ch rms_on_peer_leave : Z) : Z := 0.
