(* ===== verification/RmsChannelSpec.v ===== *)
(** * Channels of the rewrite: what the functions do

    Theorems about [RmsChannel], against the interface [Stack] of the queues of
    channels. *)

From S2P Require Import Prelude Heap Pool Mqueue MqueueRepr MqueueProofs MqueueSpec Interfaces Wire RmsChannel.

Section Spec.
Context `{Uninit mqueue_item} `{Uninit rms_meta_channel}.
Context (rep : mqueue_t → list Z → Prop) `{!Stack rep}.

Lemma upd_meta_ok s p m f :
  heap_wf (metas s) → cells (metas s) !! p = Some m →
  upd_meta s p f = Ok (s <| metas := h_set (metas s) p (f m) |>).
Proof.
  intros Hw Hm. unfold upd_meta. rewrite (h_load_Ok _ _ _ Hw Hm). cbn. by rewrite h_store_Ok by eauto.
Qed.

(** Opened channels: the object of the application and the internal one. *)
Record has_meta (s : rms) (ch : Z) (c : rms_channel) (m : rms_meta_channel) : Prop := {
  hm_chans : heap_wf (chans s);
  hm_metas : heap_wf (metas s);
  hm_ch : cells (chans s) !! ch = Some c;
  hm_meta : cells (metas s) !! meta_channel c = Some m
}.

Lemma has_meta_set s ch c m m' :
  has_meta s ch c m → has_meta (s <| metas := h_set (metas s) (meta_channel c) m' |>) ch c m'.
Proof.
  intros [Hc Hm Hch Hp]. split; cbn; [done| |done|apply lookup_h_set]. by apply heap_wf_set; eauto.
Qed.

Lemma upd_meta_has s ch c m f :
  has_meta s ch c m →
  ∃ ms, upd_meta s (meta_channel c) f = Ok (s <| metas := ms |>) ∧ has_meta (s <| metas := ms |>) ch c (f m).
Proof.
  intros Hh. eexists. split; [by apply (upd_meta_ok s _ m); destruct Hh|]. by apply (has_meta_set s ch c m).
Qed.

Lemma drop_meta_ok s ch c m :
  has_meta s ch c m →
  drop_meta s ch = Ok (s <| metas := h_del (metas s) (meta_channel c) |>
                         <| chans := h_set (chans s) ch (c <| meta_channel := NULL |>) |>).
Proof.
  intros [Hc Hm Hch Hp]. unfold drop_meta. rewrite (h_load_Ok _ _ _ Hc Hch). cbn.
  rewrite h_free_Ok by eauto. cbn. by rewrite h_store_Ok by eauto.
Qed.

(** The objects of [xs] that are made before one of the calls fails. *)
Fixpoint made_of (inits : channel_struct → Z) (xs : list channel_struct) : list channel_struct :=
  match xs with
  | [] => []
  | x :: xs => if inits x <? 0 then [] else x :: made_of inits xs
  end.

Definition all_ok (inits : channel_struct → Z) (xs : list channel_struct) : bool := forallb (λ x, 0 <=? inits x) xs.

Lemma made_of_all inits xs : all_ok inits xs = true → made_of inits xs = xs.
Proof.
  induction xs as [|x xs IH]; [done|]. cbn. rewrite Z.ltb_antisym. destruct (0 <=? inits x); [|done].
  intros E. cbn. by rewrite IH.
Qed.

Lemma made_of_app inits xs ys :
  made_of inits (xs ++ ys) = if all_ok inits xs then xs ++ made_of inits ys else made_of inits xs.
Proof.
  induction xs as [|x xs IH]; [done|]. cbn. rewrite IH, Z.ltb_antisym. destruct (0 <=? inits x); cbn; [|done].
  unfold all_ok. by destruct (forallb _ xs).
Qed.

Definition with_structs (s : rms) (p : Z) (xs : list channel_struct) : rms :=
  s <| structs := structs s ++ ((p,.) <$> xs) |>.

Lemma init_all_eq inits ch p k xs : ∀ s,
  init_all inits s ch p xs k =
    (if all_ok inits xs then k (with_structs s p xs) else open_failed (with_structs s p (made_of inits xs)) ch).
Proof.
  unfold with_structs.
  induction xs as [|x xs IH]; intros s; cbn [init_all all_ok forallb made_of].
  { cbn. rewrite app_nil_r. by destruct s. }
  rewrite IH, Z.ltb_antisym. unfold all_ok. destruct (0 <=? inits x); cbn.
  - by rewrite <- !app_assoc.
  - rewrite app_nil_r. by destruct s.
Qed.

(** All of them, in the order of [rms_channel_open]. *)
Definition all_structs : list channel_struct := [MqOutBuf; MqInBuf; HtOutBuf; SqIn; SqOut; SqHbeat; HtPeers; MqPeers].

(** The settings of a channel that was opened as number [n]; what
    [rms_channel_open] does not set is what [malloc] gave. *)
Definition fresh_meta (n : Z) : rms_meta_channel :=
  MetaChannel n 0 0 NULL NULL (mc_group uninit) (to_addr uninit) 0 (isMCast uninit) 255 0 0 0 0 0 5 1512 0 0 0 0 0
    (mc_active uninit).

(** What [rms_channel_open] leaves when all went well. *)
Record opened (s : rms) (ch : Z) (c : rms_channel) (cs : list Z) (s' : rms) : Prop := {
  op_meta : has_meta s' ch (c <| meta_channel := brk (metas s) |>) (fresh_meta (n_channels s));
  op_others : ∀ a, a ≠ brk (metas s) → cells (metas s') !! a = cells (metas s) !! a;
  op_structs : structs s' = structs s ++ ((brk (metas s),.) <$> all_structs);
  op_channels : rep (mq_channels s') (ch :: cs);
  op_count : n_channels s' = n_channels s + 1;
  op_error : rms_error s' = rms_error s
}.

(** And when one of the initialisations failed: the internal object is gone, the
    objects that were made for it are not, and its number is used up. *)
Record open_leaks (inits : channel_struct → Z) (s : rms) (ch : Z) (c : rms_channel) (s' : rms) : Prop := {
  ol_ch : cells (chans s') !! ch = Some (c <| meta_channel := NULL |>);
  ol_metas : ∀ a, cells (metas s') !! a = cells (metas s) !! a;
  ol_structs : structs s' = structs s ++ ((brk (metas s),.) <$> made_of inits all_structs);
  ol_channels : mq_channels s' = mq_channels s;
  ol_count : n_channels s' = n_channels s + 1;
  ol_error : rms_error s' = RMS_ERR_DSTRUCT_INIT
}.

(** In between: [m] is what the new internal object holds, [xs] was made. *)
Record opening (s : rms) (ch : Z) (c : rms_channel) (s1 : rms) (m : rms_meta_channel) (xs : list channel_struct) : Prop := {
  og_meta : has_meta s1 ch (c <| meta_channel := brk (metas s) |>) m;
  og_others : ∀ a, a ≠ brk (metas s) → cells (metas s1) !! a = cells (metas s) !! a;
  og_structs : structs s1 = structs s ++ ((brk (metas s),.) <$> xs);
  og_channels : mq_channels s1 = mq_channels s;
  og_error : rms_error s1 = rms_error s
}.

Lemma opening_upd s ch c s1 m xs f :
  opening s ch c s1 m xs →
  ∃ s2, upd_meta s1 (brk (metas s)) f = Ok s2 ∧ opening s ch c s2 (f m) xs ∧ n_channels s2 = n_channels s1.
Proof.
  intros [Hh Ho Hx Hq He]. eexists. split; [by apply (upd_meta_ok s1 _ m f); destruct Hh|]. split; [|done].
  split; [exact (has_meta_set _ _ _ _ (f m) Hh)|intros a Ha; cbn|done..]. rewrite lookup_h_set_ne by done. by apply Ho.
Qed.

Lemma opening_structs s ch c s1 m xs ys :
  opening s ch c s1 m xs → opening s ch c (with_structs s1 (brk (metas s)) ys) m (xs ++ ys).
Proof.
  intros [[] Ho Hx Hq He]. split; [by split|done| |done|done]. cbn. by rewrite Hx, fmap_app, app_assoc.
Qed.

Lemma open_failed_ok inits s s1 ch c m xs :
  heap_wf (metas s) → opening s ch c s1 m xs → made_of inits all_structs = xs → n_channels s1 = n_channels s + 1 →
  ∃ s', open_failed s1 ch = Ok (-1, s') ∧ open_leaks inits s ch c s'.
Proof.
  intros Hw [Hh Ho Hx Hq _] <- Hn. unfold open_failed.
  rewrite (drop_meta_ok (s1 <| rms_error := RMS_ERR_DSTRUCT_INIT |>) ch (c <| meta_channel := brk (metas s) |>) m)
    by (by destruct Hh). cbn. eexists. split; [done|]. split; cbn; [|intros a|done..].
  - by rewrite lookup_h_set.
  - destruct (decide (a = brk (metas s))) as [->|Ha].
    + by rewrite lookup_h_del, heap_wf_brk.
    + rewrite lookup_h_del_ne by done. by apply Ho.
Qed.

Lemma channel_open_ok s ch c cs inits :
  heap_wf (chans s) → heap_wf (metas s) → cells (chans s) !! ch = Some c → ch_init c ≠ OPENED →
  in_int (n_channels s + 1) → rep (mq_channels s) cs → Z.of_nat (length cs) < INT_MAX →
  ∃ ret s', rms_channel_open s ch inits = Ok (ret, s') ∧
    if all_ok inits all_structs then ret = 0 ∧ opened s ch c cs s'
    else ret = -1 ∧ open_leaks inits s ch c s'.
Proof.
  intros Hc Hm Hch Hi Hn Hq Hl. unfold rms_channel_open. rewrite (h_load_Ok _ _ _ Hc Hch). cbn -[all_ok init_all all_structs].
  rewrite (proj2 (Z.eqb_neq _ _) Hi). rewrite h_store_Ok by eauto. cbn -[all_ok init_all all_structs]. rewrite add_int_Ok by done. cbn -[all_ok init_all all_structs].
  set (c1 := c <| meta_channel := brk (metas s) |>).
  set (s1 := s <| metas := h_new (metas s) uninit |> <| chans := h_set (chans s) ch c1 |>).
  assert (Hh1 : opening s ch c s1 uninit []).
  { split; [|by intros a Ha; cbn; rewrite lookup_h_new_ne|by rewrite app_nil_r|done..].
    split; cbn; [by apply heap_wf_set; eauto|by apply heap_wf_new|apply lookup_h_set|apply lookup_h_new]. }
  change all_structs with ([MqOutBuf; MqInBuf; HtOutBuf] ++ [SqIn; SqOut; SqHbeat; HtPeers; MqPeers]).
  set (xs1 := [MqOutBuf; MqInBuf; HtOutBuf]). set (xs2 := [SqIn; SqOut; SqHbeat; HtPeers; MqPeers]).
  assert (Hall : all_ok inits (xs1 ++ xs2) = all_ok inits xs1 && all_ok inits xs2) by apply forallb_app. rewrite Hall.
  pose proof (made_of_app inits xs1 xs2) as Hmade. change (xs1 ++ xs2) with all_structs in Hmade.
  edestruct (opening_upd _ _ _ _ _ _ (fun m => m <| mc_id := n_channels s |> <| mc_port := 0 |> <| mc_sock := 0 |>
    <| mc_name := NULL |> <| mc_ip_str := NULL |> <| isMcast := 0 |> <| ttl := 255 |> <| mcastReTX := 0 |>) Hh1)
    as (s2 & -> & Hh2 & _). cbn [mbind res_bind].
  set (s2' := s2 <| n_channels := n_channels s + 1 |>).
  assert (Hh2' : opening s ch c s2' _ []) by (destruct Hh2 as [[] ? ? ? ?]; by split; [split|..]).
  rewrite init_all_eq. destruct (all_ok inits xs1); cbn [andb].
  2: { destruct (open_failed_ok inits s _ ch c _ _ Hm (opening_structs _ _ _ _ _ _ (made_of inits xs1) Hh2') Hmade)
         as (s' & -> & Hu); [done|]. by eexists _, _. }
  edestruct (opening_upd _ _ _ _ _ _ (fun m => m <| mc_state := 0 |> <| hbeat_ack := 0 |> <| msg_per_sec := 0 |>
    <| msg_this_sec := 0 |> <| hbeat_rate := 5 |> <| buf_size := 1500 + sizeof_rms_msg_hdr |>)
    (opening_structs _ _ _ _ _ _ xs1 Hh2')) as (s3 & -> & Hh3 & Hn3). cbn [mbind res_bind].
  rewrite init_all_eq. destruct (all_ok inits xs2).
  2: { destruct (open_failed_ok inits s _ ch c _ _ Hm (opening_structs _ _ _ _ _ _ (made_of inits xs2) Hh3) Hmade)
         as (s' & -> & Hu); [by cbn; rewrite Hn3|]. by eexists _, _. }
  edestruct (opening_upd _ _ _ _ _ _ (fun m => m <| oldest_seq := 0 |> <| hb_seq_p1 := 0 |> <| hb_seq_p2 := 0 |>
    <| hb_seq_p3 := 0 |> <| connected := 0 |>) (opening_structs _ _ _ _ _ _ xs2 Hh3)) as (s4 & -> & Hh4 & Hn4). cbn [mbind res_bind].
  destruct Hh4 as [Hh4 Ho4 Hx4 Hq4 He4]. rewrite <- Hq4 in Hq.
  destruct (st_add (mq_channels s4) cs ch Hq Hl) as (q & -> & Hq').
  cbn [mbind res_bind]. eexists _, _. split; [done|]. split; [done|].
  split; [by destruct Hh4; split|done|done|done| |done]. cbn. rewrite Hn4. cbn. by rewrite Hn3.
Qed.

(** C27: [rms_channel_open], when the objects of the channel can all be made,
    registers the channel at the front of [mq_channels] with a new internal object
    that has the next number and the default settings, and changes no other
    channel. When one cannot be made it returns -1 with the error
    [RMS_ERR_DSTRUCT_INIT], frees the internal object and leaves the channel
    without one and unregistered; but the queues and tables that were made before
    are not freed, and the number stays used. *)
Theorem rms_channel_open_correct s ch c cs inits :
  heap_wf (chans s) → heap_wf (metas s) → cells (chans s) !! ch = Some c → ch_init c ≠ OPENED →
  in_int (n_channels s + 1) → rep (mq_channels s) cs → Z.of_nat (length cs) < INT_MAX →
  ∃ ret s', rms_channel_open s ch inits = Ok (ret, s') ∧
    if all_ok inits all_structs then ret = 0 ∧ opened s ch c cs s'
    else ret = -1 ∧ open_leaks inits s ch c s'.
Proof. apply channel_open_ok. Qed.

(** An open channel can be opened again.  The mark is compared, not set
    ([channel->init == 321;]), so the second call succeeds like the first: the
    channel is registered twice, and the first internal object stays allocated
    with nothing pointing at it. *)
Theorem rms_channel_open_repeats s ch c cs inits :
  heap_wf (chans s) → heap_wf (metas s) → cells (chans s) !! ch = Some c → ch_init c ≠ OPENED →
  INT_MIN ≤ n_channels s → n_channels s + 2 ≤ INT_MAX → rep (mq_channels s) cs →
  Z.of_nat (S (length cs)) < INT_MAX → all_ok inits all_structs = true →
  ∃ s1 s2 p1 p2 c2, rms_channel_open s ch inits = Ok (0, s1) ∧
    rms_channel_open s1 ch inits = Ok (0, s2) ∧
    rep (mq_channels s2) (ch :: ch :: cs) ∧ p1 ≠ p2 ∧
    is_Some (cells (metas s2) !! p1) ∧ is_Some (cells (metas s2) !! p2) ∧
    cells (metas s) !! p1 = None ∧ cells (chans s2) !! ch = Some c2 ∧ meta_channel c2 = p2.
Proof.
  intros Hc Hm Hch Hi Hlo Hhi Hq Hl Ha. unfold in_int in *.
  destruct (channel_open_ok s ch c cs inits) as (r1 & s1 & E1 & Ho1); [done..|unfold in_int; lia|done|lia|].
  rewrite Ha in Ho1. destruct Ho1 as [-> Ho1]. destruct (op_meta _ _ _ _ _ Ho1) as [Hc1 Hm1 Hch1 Hp1].
  destruct (channel_open_ok s1 ch (c <| meta_channel := brk (metas s) |>) (ch :: cs) inits)
    as (r2 & s2 & E2 & Ho2); [done..| |by apply Ho1|cbn; lia|].
  { rewrite (op_count _ _ _ _ _ Ho1). unfold in_int. lia. }
  rewrite Ha in Ho2. destruct Ho2 as [-> Ho2]. destruct (op_meta _ _ _ _ _ Ho2) as [_ _ Hch2 Hp2].
  cbn in Hp1, Hp2.
  assert (Hne : brk (metas s) ≠ brk (metas s1)) by (apply not_eq_sym, heap_wf_fresh; eauto).
  eexists s1, s2, (brk (metas s)), (brk (metas s1)), _.
  split; [done|]. split; [done|]. split; [apply Ho2|]. split; [done|].
  split; [rewrite (op_others _ _ _ _ _ Ho2) by done; eauto|]. split; [by eauto|].
  split; [by apply heap_wf_brk|]. by split.
Qed.

(** [rms_channel_connect].  With a socket the channel keeps its port, or
    takes the given one if it has none, and is handed to the manager; without
    one it returns -1 with the error set and frees the internal object although
    the channel stays registered, so that its next use goes through NULL. *)
Theorem rms_channel_connect_correct s ch c m cs peer port socket_ret bind_ret :
  has_meta s ch c m → ch_connected c = 0 → rep (mq_channels_tmp s) cs → Z.of_nat (length cs) < INT_MAX →
  let sock := init_dgram_sock socket_ret bind_ret in
  ∃ ret s', rms_channel_connect s ch peer port socket_ret bind_ret = Ok (ret, s') ∧
    mq_channels s' = mq_channels s ∧
    if sock <? 0 then
      ret = -1 ∧ rms_error s' = RMS_ERR_SOCK_INIT ∧ cells (metas s') !! meta_channel c = None ∧
      ∀ peer' port' a b, rms_channel_connect s' ch peer' port' a b = Fault NullDeref
    else
      ret = 0 ∧ rms_error s' = rms_error s ∧ rep (mq_channels_tmp s') (ch :: cs) ∧
      ∃ m', has_meta s' ch c m' ∧ connected m' = 1 ∧ mc_sock m' = sock ∧
        mc_port m' = (if mc_port m <=? 0 then port else mc_port m).
Proof.
  intros Hh Hcc Hq Hl sock. unfold rms_channel_connect at 1.
  rewrite (h_load_Ok _ _ _ (hm_chans _ _ _ _ Hh) (hm_ch _ _ _ _ Hh)). cbn [mbind res_bind].
  destruct (upd_meta_has s ch c m (fun m => if mc_port m <=? 0 then m <| mc_port := port |> else m) Hh)
    as (ms1 & -> & Hh1). cbn [mbind res_bind].
  destruct (upd_meta_has _ ch c _ (fun m => m <| mc_sock := init_dgram_sock socket_ret bind_ret |> <| isMCast := 0 |>) Hh1)
    as (ms2 & -> & Hh2). cbn [mbind res_bind]. fold sock in Hh2 |- *.
  rewrite (h_load_Ok _ _ _ (hm_metas _ _ _ _ Hh2) (hm_meta _ _ _ _ Hh2)). cbn [mbind res_bind].
  set (s2 := s <| metas := ms1 |> <| metas := ms2 |>) in *.
  set (m1 := if mc_port m <=? 0 then m <| mc_port := port |> else m) in *.
  match goal with |- context [mc_sock ?x <? 0] => change (mc_sock x) with sock end. destruct (Z.ltb_spec sock 0) as [Hs|Hs].
  - rewrite (drop_meta_ok (s2 <| rms_error := RMS_ERR_SOCK_INIT |>) ch c _ ltac:(by destruct Hh2; split)).
    cbn [mbind res_bind]. eexists _, _. split; [done|]. split; [done|]. split; [done|]. split; [done|].
    split; [apply lookup_h_del|]. intros peer' port' a b. unfold rms_channel_connect.
    rewrite (h_load_Ok _ ch (c <| meta_channel := NULL |>)); [done| |apply lookup_h_set].
    destruct Hh2. by apply heap_wf_set; eauto.
  - rewrite truthy_false by done. destruct (st_add (mq_channels_tmp s2) cs ch Hq Hl) as (q & -> & Hq').
    cbn [mbind res_bind].
    destruct (upd_meta_has (s2 <| mq_channels_tmp := q |>) ch c _ (fun m => m <| connected := 1 |>)
      ltac:(by destruct Hh2; split)) as (ms3 & -> & Hh3). cbn [mbind res_bind].
    eexists _, _. split; [done|]. split; [done|]. split; [done|]. split; [done|]. split; [done|].
    eexists. split; [exact Hh3|]. split; [done|]. split; [done|]. cbn. subst m1. by destruct (mc_port m <=? 0).
Qed.

(** [rms_channel_join].  When all the socket options are accepted the channel
    sends to the group on the given port, is connected and handed to the manager;
    otherwise it returns -1, with the error set unless it was the time to live
    that was refused, and is neither. *)
Theorem rms_channel_join_correct sock_opt s ch c m cs group addr port socket_ret bind_ret set_ttl set_loop set_group :
  has_meta s ch c m → rep (mq_channels_tmp s) cs → Z.of_nat (length cs) < INT_MAX →
  ∃ ret s' m', rms_channel_join sock_opt s ch group addr port socket_ret bind_ret set_ttl set_loop set_group
      = Ok (ret, s') ∧ has_meta s' ch c m' ∧ isMCast m' = 1 ∧ mc_port m' = port ∧
    mc_sock m' = init_dgram_sock socket_ret bind_ret ∧
    if (0 <=? set_ttl) && (set_loop =? 0) && (0 <=? set_group) then
      ret = 0 ∧ rms_error s' = rms_error s ∧ rep (mq_channels_tmp s') (ch :: cs) ∧
      connected m' = 1 ∧ to_addr m' = (2, addr, htons port) ∧ mc_group m' = group
    else
      ret = -1 ∧ rms_error s' = (if set_ttl <? 0 then rms_error s else sock_opt) ∧
      mq_channels_tmp s' = mq_channels_tmp s ∧ connected m' = connected m.
Proof.
  intros Hh Hq Hl. unfold rms_channel_join.
  rewrite (h_load_Ok _ _ _ (hm_chans _ _ _ _ Hh) (hm_ch _ _ _ _ Hh)). cbn [mbind res_bind].
  edestruct (upd_meta_has s ch c m) as (ms1 & -> & Hh1); [done|]. cbn [mbind res_bind].
  rewrite (Z.ltb_antisym 0 set_ttl). destruct (0 <=? set_ttl) eqn:Et; cbn [negb andb].
  2: { eexists _, _, _. split; [done|]. split; [exact Hh1|]. done. }
  unfold truthy. destruct (set_loop =? 0); cbn [negb andb].
  2: { eexists _, _, _. split; [done|]. split; [by destruct Hh1; split|]. done. }
  edestruct (upd_meta_has _ _ _ _ (fun m => m <| mc_group := group |> <| to_addr := (2, addr, htons (mc_port m)) |>)
    Hh1) as (ms2 & -> & Hh2). cbn [mbind res_bind].
  rewrite (Z.ltb_antisym 0 set_group). destruct (0 <=? set_group); cbn [negb].
  2: { eexists _, _, _. split; [done|]. split; [by destruct Hh2; split|]. done. }
  edestruct (upd_meta_has _ _ _ _ (fun m => m <| connected := 1 |> <| mc_active := 1 |>) Hh2) as (ms3 & -> & Hh3). cbn [mbind res_bind].
  destruct (st_add (mq_channels_tmp s) cs ch Hq Hl) as (q & E & Hq').
  change (mq_channels_tmp (setter _ _)) with (mq_channels_tmp s). rewrite E. cbn [mbind res_bind].
  eexists _, _, _. split; [done|]. split; [by destruct Hh3; split|]. done.
Qed.

(** [rms_channel_config] keeps the size of a message between 100 and 1500
    bytes and its header, and ignores any other; the port is set once; the
    heartbeat settings are taken as they are. *)
Theorem rms_channel_config_bounds s ch c m port size_ rate ack :
  has_meta s ch c m → 112 < buf_size m ≤ 1512 →
  ∃ s' m', rms_channel_config s ch port size_ rate ack = Ok (0, s') ∧ has_meta s' ch c m' ∧
    112 < buf_size m' ≤ 1512 ∧
    (100 < size_ < 1500 → buf_size m' = size_ + 12) ∧
    (¬ 100 < size_ < 1500 → buf_size m' = buf_size m) ∧
    mc_port m' = (if mc_port m =? 0 then port else mc_port m) ∧
    hbeat_rate m' = rate ∧ hbeat_ack m' = ack.
Proof.
  intros Hh Hb. unfold rms_channel_config.
  rewrite (h_load_Ok _ _ _ (hm_chans _ _ _ _ Hh) (hm_ch _ _ _ _ Hh)). cbn [mbind res_bind].
  edestruct (upd_meta_has s ch c m) as (ms & -> & Hh'); [done|]. cbn [mbind res_bind].
  eexists _, _. split; [done|]. split; [exact Hh'|]. clear Hh'. unfold sizeof_rms_msg_hdr.
  destruct (Z.gtb_spec size_ 100), (Z.ltb_spec size_ 1500), (truthy port) eqn:Hp, (mc_port m =? 0) eqn:Ep;
    cbn; rewrite ?Ep; cbn; split_and!; try lia; try done.
  all: apply Z.eqb_eq in Ep; unfold truthy in Hp; destruct (Z.eqb_spec port 0); [congruence|done].
Qed.

(** The library is never initialised: the test of [rms_init] assigns the mark
    ([initialized = RMS_INITIALIZED]), so every call, the first one too, returns 1
    without initialising anything, and after [rms_shutdown] as well. *)
Theorem rms_init_never s rest :
  rms_init s rest = Ok (1, s <| initialized := RMS_INITIALIZED |>) ∧
  rms_init (rms_shutdown s).2 rest = Ok (1, s <| initialized := RMS_INITIALIZED |>) ∧
  rms_get_error s = rms_error s.
Proof. by destruct s. Qed.
End Spec.

Module ChannelExamples.
#[export] Instance zero_item : Uninit mqueue_item := Item 0 0.
#[export] Instance zero_meta : Uninit rms_meta_channel :=
  MetaChannel 0 0 0 0 0 0 (0, 0, 0) 0 0 0 0 0 0 0 0 0 0 0 0 0 0 0 0.

(** One channel, at address 1, not open. *)
Definition closed : rms_channel := RmsChannel NULL 0 0.
Definition rms0 : rms :=
  Rms 0 0 0 QueueExamples.queue0 QueueExamples.queue0 (h_new heap_empty closed) heap_empty [].
Definition good (x : channel_struct) : Z := 0.
Definition no_sq_out (x : channel_struct) : Z := match x with SqOut => -1 | _ => 0 end.

Lemma rms0_chans : heap_wf (chans rms0).
Proof. apply heap_wf_new, heap_empty_wf. Qed.

(** The second case: the blocking queue [sq_out] cannot be made, the four objects
    before it are left. *)
Lemma rms_channel_open_correct_witness :
  (∃ s', rms_channel_open rms0 1 good = Ok (0, s') ∧ n_channels s' = 1) ∧
  (∃ s', rms_channel_open rms0 1 no_sq_out = Ok (-1, s') ∧ rms_error s' = RMS_ERR_DSTRUCT_INIT ∧
    structs s' = [(1, MqOutBuf); (1, MqInBuf); (1, HtOutBuf); (1, SqIn)] ∧ cells (metas s') !! 1 = None).
Proof.
  split.
  - destruct (rms_channel_open_correct qplain rms0 1 closed [] good) as (ret & s' & E & Hr);
      try done; [exact rms0_chans|exact heap_empty_wf|exact QueueExamples.queue0_plain|].
    destruct Hr as (-> & Ho). exists s'. split; [exact E|]. apply (op_count _ _ _ _ _ _ Ho).
  - destruct (rms_channel_open_correct qplain rms0 1 closed [] no_sq_out) as (ret & s' & E & Hr);
      try done; [exact rms0_chans|exact heap_empty_wf|exact QueueExamples.queue0_plain|].
    destruct Hr as (-> & Ho). exists s'. split; [exact E|]. split; [apply Ho|].
    split; [apply (ol_structs _ _ _ _ _ Ho)|]. apply (ol_metas _ _ _ _ _ Ho).
Defined.

Lemma rms_channel_open_repeats_witness :
  ∃ s1 s2, rms_channel_open rms0 1 good = Ok (0, s1) ∧
    rms_channel_open s1 1 good = Ok (0, s2) ∧ qplain (mq_channels s2) [1; 1].
Proof.
  destruct (rms_channel_open_repeats qplain rms0 1 closed [] good)
    as (s1 & s2 & p1 & p2 & c2 & E1 & E2 & Hq & _); try done;
    [exact rms0_chans|exact heap_empty_wf|exact QueueExamples.queue0_plain|].
  exists s1, s2. split; [exact E1|]. split; [exact E2|exact Hq].
Defined.

(** The channel, open. *)
Definition opened1 : rms_channel := RmsChannel 1 0 0.
Definition meta1 : rms_meta_channel := MetaChannel 0 0 0 0 0 0 (0, 0, 0) 0 0 255 0 0 0 0 0 5 1512 0 0 0 0 0 0.
Definition rms1 : rms :=
  Rms 0 0 1 QueueExamples.queue0 QueueExamples.queue0 (h_new heap_empty opened1) (h_new heap_empty meta1) [].

Lemma rms1_meta : has_meta rms1 1 opened1 meta1.
Proof. by split; [apply heap_wf_new, heap_empty_wf..|done|done]. Qed.

Lemma rms_channel_connect_correct_witness :
  (∃ s', rms_channel_connect rms1 1 0 700 4 0 = Ok (0, s') ∧ qplain (mq_channels_tmp s') [1]) ∧
  (∃ s', rms_channel_connect rms1 1 0 700 4 (-1) = Ok (-1, s') ∧
    rms_channel_connect s' 1 0 700 4 0 = Fault NullDeref).
Proof.
  split.
  - destruct (rms_channel_connect_correct qplain rms1 1 opened1 meta1 [] 0 700 4 0 rms1_meta)
      as (ret & s' & E & _ & -> & _ & Hq & _); [done|exact QueueExamples.queue0_plain|done|].
    exists s'. split; [exact E|exact Hq].
  - destruct (rms_channel_connect_correct qplain rms1 1 opened1 meta1 [] 0 700 4 (-1) rms1_meta)
      as (ret & s' & E & _ & -> & _ & _ & Hf); [done|exact QueueExamples.queue0_plain|done|].
    exists s'. split; [exact E|apply Hf].
Defined.

Lemma rms_channel_join_correct_witness :
  ∃ s', rms_channel_join (-1) rms1 1 9 100 700 4 0 0 0 0 = Ok (0, s') ∧ qplain (mq_channels_tmp s') [1].
Proof.
  destruct (rms_channel_join_correct qplain (-1) rms1 1 opened1 meta1 [] 9 100 700 4 0 0 0 0 rms1_meta)
    as (ret & s' & m' & E & _ & _ & _ & _ & -> & _ & Hq & _); [exact QueueExamples.queue0_plain|done|].
  exists s'. split; [exact E|exact Hq].
Defined.

Lemma rms_channel_config_bounds_witness :
  ∃ s' m', rms_channel_config rms1 1 700 1000 0 1 = Ok (0, s') ∧ has_meta s' 1 opened1 m' ∧ buf_size m' = 1012.
Proof.
  destruct (rms_channel_config_bounds rms1 1 opened1 meta1 700 1000 0 1 rms1_meta)
    as (s' & m' & E & Hh & _ & Hb & _); [done|].
  exists s', m'. split; [exact E|]. split; [exact Hh|]. by apply Hb.
Defined.
End ChannelExamples.
