(* ===== verification/RmsClose.v ===== *)
(** * Channels of the rewrite: closing, and [rms_shutdown] of [src/rms.c]

    [rms_channel_close] lacks a closing parenthesis in two of its loops; they
    are read as if it stood at the end of the call.  [mqueue_destroy],
    [htbl_destroy] and [mqueue_deq] are called and defined nowhere: the first two
    are not modelled (what they are given is not used afterwards; [structs] stays
    the log of what was made), the last is an argument, and so is what
    [rms_msg_free] makes of the [rms_meta_msg] it is given.  [syncqueue_deq] and
    [syncqueue_destroy] are given the address of the field that holds the queue
    instead of the queue, so that they read a [struct syncqueue] where there is
    none: what [syncqueue_deq(&sq_in)] answers is an argument, the list of its
    answers up to the first NULL, and [syncqueue_destroy] is not modelled.  [mqueue_remove(rmscb->mq_channels, channel)] passes an argument that
    the function does not have: the first channel of the queue is removed,
    whichever that is. *)

From S2P Require Import Prelude Heap Pool Mqueue MqueueRepr MqueueProofs MqueueSpec Interfaces Wire RmsChannel RmsChannelSpec.

(** The queues of an internal object, and what [syncqueue_deq] answers when it is
    given the address of its [sq_in]. *)
Record buffers := Buffers { mq_out_buf : mqueue_t; mq_in_buf : mqueue_t; sq_in_answers : list Z }.

Section Close.
Context `{Uninit mqueue_item}.
Variable rms_msg_free : Z → res unit.
Variable bufs : Z → buffers.

(** [while(msg = mqueue_remove(q)) { msg = mqueue_remove(q); }] *)
Fixpoint drain_pairs (fuel : nat) (q : mqueue_t) : res mqueue_t :=
  '(msg, q) ← mqueue_remove q;
  if truthy msg then
    match fuel with
    | O => Fault Diverges
    | S fuel => '(_, q) ← mqueue_remove q; drain_pairs fuel q
    end
  else Ok q.

(** [while(msg = syncqueue_deq(&sq_in)) rms_msg_free(msg)] *)
Fixpoint drain_sq_in (answers : list Z) : res unit :=
  match answers with
  | msg :: answers => if truthy msg then _ ← rms_msg_free msg; drain_sq_in answers else Ok tt
  | [] => Ok tt
  end.

Definition queue_fuel (q : mqueue_t) : nat := Z.to_nat (mqueue_size q).

Definition rms_channel_close (s : rms) (ch : Z) : res (Z * rms) :=
  c ← h_load (chans s) ch;
  if ch_init c =? OPENED then Ok (-1, s <| rms_error := RMS_ERR_CHANNEL_OPENED |>)
  else
    let p := meta_channel c in
    n ← add_int (n_channels s) 1;
    s ← upd_meta s p (fun m => m <| mc_id := n_channels s |> <| mc_port := 0 |> <| mc_sock := 0 |>
          <| mc_name := NULL |> <| mc_ip_str := NULL |> <| isMcast := 0 |> <| ttl := 255 |>
          <| mcastReTX := 0 |>);
    let s := s <| n_channels := n |> in
    _ ← drain_pairs (queue_fuel (mq_out_buf (bufs p))) (mq_out_buf (bufs p));
    _ ← drain_pairs (queue_fuel (mq_in_buf (bufs p))) (mq_in_buf (bufs p));
    _ ← drain_sq_in (sq_in_answers (bufs p));
    '(_, q) ← mqueue_remove (mq_channels s);
    (* channel->init == -1; compares *)
    chs ← h_free (chans s) ch;
    Ok (0, s <| mq_channels := q |> <| chans := chs |>).

(** The loop of [rms_shutdown] in [rms.c]. *)

(** [while((channel = mqueue_remove(mq_channels))) rms_channel_close(channel)] *)
Fixpoint close_channels (fuel : nat) (s : rms) : res rms :=
  '(ch, q) ← mqueue_remove (mq_channels s);
  let s := s <| mq_channels := q |> in
  if truthy ch then
    match fuel with
    | O => Fault Diverges
    | S fuel => '(_, s) ← rms_channel_close s ch; close_channels fuel s
    end
  else Ok s.

(** ** Closing a channel *)

Context (rep : mqueue_t → list Z → Prop) `{!Stack rep}.

Lemma drain_pairs_ok fuel : ∀ q cs,
  rep q cs → (length cs ≤ fuel)%nat → ∃ q', drain_pairs fuel q = Ok q'.
Proof.
  induction fuel as [|fuel IH]; intros q cs Hq Hl; cbn [drain_pairs];
    destruct (st_remove _ _ Hq) as (q1 & -> & Hq1); cbn [mbind res_bind].
  - destruct cs; [|cbn in Hl; lia]. cbn. by eexists.
  - destruct (truthy _); [|by eexists]. destruct (st_remove _ _ Hq1) as (q2 & -> & Hq2). cbn [mbind res_bind].
    apply (IH q2 _ Hq2). destruct cs as [|? [|? ?]]; cbn in *; lia.
Qed.

Lemma drain_sq_in_ok answers :
  Forall (λ c, rms_msg_free c = Ok tt) answers → drain_sq_in answers = Ok tt.
Proof. induction 1 as [|c answers Hc _ IH]; [done|]. cbn. rewrite Hc, IH. by destruct (truthy c). Qed.

(** The queues of the internal object [p] can be drained, and [rms_msg_free] takes
    whatever [syncqueue_deq(&sq_in)] answers. *)
Definition drainable (p : Z) : Prop :=
  (∃ cs, rep (mq_out_buf (bufs p)) cs) ∧ (∃ cs, rep (mq_in_buf (bufs p)) cs) ∧
  Forall (λ c, rms_msg_free c = Ok tt) (sq_in_answers (bufs p)).

(** What closing the channel [ch] does: the channel is freed, its internal
    object stays, and the first of the registered channels is unregistered. *)
Record closed (s : rms) (ch : Z) (cs : list Z) (s' : rms) : Prop := {
  cl_queue : rep (mq_channels s') (tail cs);
  cl_chans : chans s' = h_del (chans s) ch;
  cl_wf : heap_wf (metas s');
  cl_metas : dom (cells (metas s')) = dom (cells (metas s));
  cl_count : n_channels s' = n_channels s + 1;
  cl_rest : mq_channels_tmp s' = mq_channels_tmp s ∧ rms_error s' = rms_error s ∧ initialized s' = initialized s
}.

Lemma channel_close_ok s ch c m cs :
  has_meta s ch c m → ch_init c ≠ OPENED → in_int (n_channels s + 1) → drainable (meta_channel c) →
  rep (mq_channels s) cs → ∃ s', rms_channel_close s ch = Ok (0, s') ∧ closed s ch cs s'.
Proof.
  intros Hh Hi Hn ((c1 & Hq1) & (c2 & Hq2) & Hf) Hq. unfold rms_channel_close.
  rewrite (h_load_Ok _ _ _ (hm_chans _ _ _ _ Hh) (hm_ch _ _ _ _ Hh)). cbn [mbind res_bind].
  rewrite (proj2 (Z.eqb_neq _ _) Hi). cbv zeta. rewrite add_int_Ok by done. cbn [mbind res_bind].
  destruct Hh as [Hcw Hmw Hc Hm]. rewrite (upd_meta_ok _ _ _ _ Hmw Hm). cbn [mbind res_bind].
  destruct (drain_pairs_ok (queue_fuel (mq_out_buf (bufs (meta_channel c)))) _ _ Hq1) as (q1 & ->).
  { unfold queue_fuel. rewrite (st_size _ _ Hq1). lia. }
  destruct (drain_pairs_ok (queue_fuel (mq_in_buf (bufs (meta_channel c)))) _ _ Hq2) as (q2 & ->).
  { unfold queue_fuel. rewrite (st_size _ _ Hq2). lia. }
  rewrite (drain_sq_in_ok _ Hf).
  cbn [mbind res_bind]. destruct (st_remove _ _ Hq) as (q & E & Hq').
  match goal with |- context [mqueue_remove ?x] => change x with (mq_channels s) end.
  rewrite E. cbn [mbind res_bind].
  match goal with |- context [h_free ?x ch] => change x with (chans s) end.
  rewrite h_free_Ok by eauto. cbn [mbind res_bind]. eexists. split; [reflexivity|].
  split; cbn; try done.
  - apply heap_wf_set; eauto.
  - unfold h_set. cbn. rewrite dom_insert_L. apply elem_of_dom_2 in Hm. set_solver.
Qed.


(** ** Shutting down *)

(** The rest of the control block that [rms_shutdown] uses; [socks] are the
    sockets that are open. *)
Record service := Service {
  svc_active : Z;
  svc_state : Z;
  listening : Z;
  svc_sock : Z;
  socks : list Z;
  svc_rms : rms
}.

Variable mqueue_deq : mqueue_t → res (Z * mqueue_t).

(** The same with [mqueue_deq] and the channels that wait for the manager. *)
Fixpoint close_waiting (fuel : nat) (s : rms) : res rms :=
  '(ch, q) ← mqueue_deq (mq_channels_tmp s);
  let s := s <| mq_channels_tmp := q |> in
  if truthy ch then
    match fuel with
    | O => Fault Diverges
    | S fuel => '(_, s) ← rms_channel_close s ch; close_waiting fuel s
    end
  else Ok s.

Definition rms_shutdown (v : service) : res (Z * service) :=
  let socks' := if truthy (listening v) then filter (λ x, x ≠ svc_sock v) (socks v) else socks v in
  s ← close_channels (queue_fuel (mq_channels (svc_rms v))) (svc_rms v);
  s ← close_waiting (queue_fuel (mq_channels_tmp (svc_rms v))) s;
  Ok (0, Service 0 0 (listening v) (svc_sock v) socks' (s <| initialized := -1 |>)).

(** The elements at the even places. *)
Fixpoint evens {A} (l : list A) : list A :=
  match l with
  | x :: _ :: l => x :: evens l
  | _ => l
  end.

(** A channel that can be closed. *)
Definition closable (s : rms) (ch : Z) : Prop :=
  ∃ c, cells (chans s) !! ch = Some c ∧ ch_init c ≠ OPENED ∧
    is_Some (cells (metas s) !! meta_channel c) ∧ drainable (meta_channel c).

Record ready (s : rms) (cs : list Z) : Prop := {
  rd_queue : rep (mq_channels s) cs;
  rd_chans : heap_wf (chans s);
  rd_metas : heap_wf (metas s);
  rd_nodup : NoDup cs;
  rd_closable : ∀ ch, ch ∈ cs → closable s ch;
  rd_count : 0 ≤ n_channels s ∧ n_channels s + Z.of_nat (length cs) ≤ INT_MAX
}.

Lemma closable_after s ch other cs s' :
  closed s ch cs s' → other ≠ ch → closable s other → closable s' other.
Proof.
  intros [_ Hch _ Hm _ _] Hne (c & Hc & Hi & Hmc & Hd). exists c. rewrite Hch, lookup_h_del_ne by done.
  do 2 (split; [done|]). split; [|done]. apply elem_of_dom. rewrite Hm. by apply elem_of_dom.
Qed.

(** One turn of the loop: the channel that was taken out is closed, and the
    next one is taken out by that. *)
Lemma close_next s ch cs q :
  ready s (ch :: cs) → rep q cs →
  ∃ s', rms_channel_close (s <| mq_channels := q |>) ch = Ok (0, s') ∧ ready s' (tail cs) ∧
    chans s' = h_del (chans s) ch ∧ dom (cells (metas s')) = dom (cells (metas s)) ∧
    mq_channels_tmp s' = mq_channels_tmp s.
Proof.
  intros [_ Hcw Hmw Hnd Hcl [Hn1 Hn2]] Hq. cbn [length] in Hn2. set (s0 := s <| mq_channels := q |>).
  apply NoDup_cons in Hnd as [Hna Hnd]. destruct (Hcl ch) as (c & Hc & Hi & [m Hm] & Hd); [set_solver|].
  destruct (channel_close_ok s0 ch c m cs) as (s' & E & Hs'); try done; [cbn; int_lia|].
  exists s'. split; [done|]. pose proof Hs' as [Hq' Hch Hw' Hmd Hcnt [Htmp _]]. split; [|done].
  split; try done.
  - rewrite Hch. by apply heap_wf_del.
  - destruct cs; [done|]. by apply NoDup_cons in Hnd as [_ ?].
  - intros o Ho. assert (o ∈ cs) by (destruct cs; [done|cbn in Ho; set_solver]).
    eapply (closable_after s0 ch); [exact Hs'|by intros ->|]. apply (Hcl o). set_solver.
  - rewrite Hcnt. change (n_channels s0) with (n_channels s). destruct cs; cbn [tail length] in *; lia.
Qed.

Lemma close_channels_ok fuel : ∀ cs s,
  ready s cs → (length cs ≤ fuel)%nat →
  ∃ s', close_channels fuel s = Ok s' ∧ rep (mq_channels s') [] ∧
    dom (cells (chans s')) = dom (cells (chans s)) ∖ list_to_set (evens cs) ∧
    dom (cells (metas s')) = dom (cells (metas s)) ∧ mq_channels_tmp s' = mq_channels_tmp s.
Proof.
  induction fuel as [|fuel IH]; intros cs s Hr Hl;
    destruct (st_remove _ _ (rd_queue _ _ Hr)) as (q & E & Hq); cbn [close_channels]; rewrite E; cbn [mbind res_bind].
  - destruct cs; [|cbn in Hl; lia]. eexists. cbn. split; [done|]. split; [done|]. split; [set_solver|done].
  - destruct cs as [|ch cs]; [eexists; cbn; split; [done|]; split; [done|]; split; [set_solver|done]|].
    destruct (rd_closable _ _ Hr ch) as (c & Hc & _); [set_solver|]. cbn [hd tail] in *.
    rewrite truthy_true by exact (heap_wf_pos _ _ _ (rd_chans _ _ Hr) Hc).
    destruct (close_next s ch cs q Hr Hq) as (s1 & -> & Hr1 & Hch & Hmd & Htmp). cbn [mbind res_bind].
    destruct (IH (tail cs) s1 Hr1) as (s' & E' & Hq' & Hd & Hmd' & Htmp'); [destruct cs; cbn in *; lia|].
    exists s'. split; [done|]. split; [done|]. rewrite Hd, Hch, Hmd', Hmd, Htmp', Htmp. split; [|done].
    unfold h_del. cbn [cells]. rewrite dom_delete_L. destruct cs as [|o cs]; cbn [tail evens list_to_set]; set_solver.
Qed.

(** Closing a channel that was freed reads freed memory. *)
Lemma close_freed s ch :
  ch ≠ NULL → cells (chans s) !! ch = None → rms_channel_close s ch = Fault BadPtr.
Proof. intros Hn Hc. unfold rms_channel_close, h_load. by rewrite (proj2 (Z.eqb_neq _ _) Hn), Hc. Qed.

Lemma evens_sub {A} (l : list A) x : x ∈ evens l → x ∈ l.
Proof.
  revert x. assert (Hl : ∀ n (l : list A), (length l ≤ n)%nat → ∀ x, x ∈ evens l → x ∈ l); [|by apply (Hl (length l))].
  induction n as [|n IH]; intros [|a [|b k]] Hk x; cbn in *; try lia; try done.
  intros [->|Hx]%elem_of_cons; [left|]. do 2 right. apply (IH k); [lia|done].
Qed.

(** C39: [rms_shutdown] closes every other channel: each turn of its loop takes
    one channel out of [mq_channels] and closes it, and closing it takes out the
    next one, which is never closed. That is the end of it when no channel waits in
    [mq_channels_tmp]: it returns 0, with the internal objects all leaked. When a
    channel that was just closed waits there as well, as every channel does that
    was connected or joined, [rms_shutdown] goes on to close it again and reads
    freed memory. ([mqueue_deq], which takes it from [mq_channels_tmp], is defined
    nowhere: what it yields is a hypothesis.) *)
Theorem rms_shutdown_every_other v cs :
  ready (svc_rms v) cs →
  (mqueue_deq (mq_channels_tmp (svc_rms v)) = Ok (NULL, mq_channels_tmp (svc_rms v)) →
   ∃ v', rms_shutdown v = Ok (0, v') ∧ svc_active v' = 0 ∧ initialized (svc_rms v') = -1 ∧
    rep (mq_channels (svc_rms v')) [] ∧
    (∀ ch, ch ∈ evens cs → cells (chans (svc_rms v')) !! ch = None) ∧
    (∀ ch, ch ∈ cs → ch ∉ evens cs → is_Some (cells (chans (svc_rms v')) !! ch)) ∧
    dom (cells (metas (svc_rms v'))) = dom (cells (metas (svc_rms v)))) ∧
  (∀ ch q, ch ∈ evens cs → 0 < mqueue_size (mq_channels_tmp (svc_rms v)) →
    mqueue_deq (mq_channels_tmp (svc_rms v)) = Ok (ch, q) → rms_shutdown v = Fault BadPtr).
Proof.
  intros Hr. unfold rms_shutdown.
  destruct (close_channels_ok (queue_fuel (mq_channels (svc_rms v))) cs (svc_rms v) Hr)
    as (s & -> & Hq & Hd & Hm & Htmp).
  { unfold queue_fuel. rewrite (st_size _ _ (rd_queue _ _ Hr)). lia. }
  cbn [mbind res_bind].
  assert (Hgone : ∀ ch, ch ∈ evens cs → cells (chans s) !! ch = None).
  { intros ch Hch. apply not_elem_of_dom. rewrite Hd. set_solver. }
  split.
  - intros Hdeq.
    assert (close_waiting (queue_fuel (mq_channels_tmp (svc_rms v))) s = Ok (s <| mq_channels_tmp := mq_channels_tmp s |>)) as ->.
    { destruct (queue_fuel _); cbn [close_waiting]; rewrite Htmp, Hdeq; done. }
    cbn [mbind res_bind]. eexists. split; [done|]. cbn. split; [done|]. split; [done|]. split; [done|].
    split; [exact Hgone|]. split; [|done].
    intros ch Hch Hne. apply elem_of_dom. rewrite Hd. apply elem_of_difference. split; [|set_solver].
    destruct (rd_closable _ _ Hr ch Hch) as (c & Hc & _). apply elem_of_dom. by eexists.
  - intros ch q Hch Hsz Hdeq. unfold queue_fuel.
    destruct (Z.to_nat (mqueue_size (mq_channels_tmp (svc_rms v)))) as [|fuel] eqn:Ef; [lia|].
    destruct (rd_closable _ _ Hr ch) as (c & Hc & _); [by apply evens_sub|].
    pose proof (heap_wf_pos _ _ _ (rd_chans _ _ Hr) Hc) as Hpos.
    cbn [close_waiting]. rewrite Htmp, Hdeq. cbn [mbind res_bind]. rewrite (truthy_true ch) by exact Hpos.
    rewrite close_freed; [done|done|]. by apply Hgone.
Qed.
End Close.

(** ** Three channels *)

Module CloseExamples.
Import ChannelExamples.

Definition add3 : res mqueue_t :=
  q ← mqueue_add QueueExamples.queue0 1; q ← mqueue_add q 2; mqueue_add q 3.
Definition three : mqueue_t :=
  Eval vm_compute in match add3 with Ok q => q | Fault _ => QueueExamples.queue0 end.

Lemma three_plain : qplain three [3; 2; 1].
Proof.
  destruct (st_add _ _ 1 QueueExamples.queue0_plain) as (q1 & E1 & H1'); [cbn; int_lia|].
  destruct (st_add _ _ 2 H1') as (q2 & E2 & H2'); [cbn; int_lia|].
  destruct (st_add _ _ 3 H2') as (q3 & E3 & H3'); [cbn; int_lia|].
  assert (E : add3 = Ok q3) by (unfold add3; rewrite E1; cbn [mbind res_bind]; rewrite E2; exact E3).
  vm_compute in E. injection E as <-. exact H3'.
Qed.

(** Channel [i] has the internal object [i]; nothing is queued. *)
Definition rms3 : rms :=
  Rms 0 0 3 three QueueExamples.queue0
    (h_new (h_new (h_new heap_empty (RmsChannel 1 0 0)) (RmsChannel 2 0 0)) (RmsChannel 3 0 0))
    (h_new (h_new (h_new heap_empty meta1) meta1) meta1) [].
Definition no_data (p : Z) : buffers :=
  Buffers QueueExamples.queue0 QueueExamples.queue0 [].
Definition free_ok (p : Z) : res unit := Ok tt.
Definition running : service := Service 1 0 1 4 [4; 5] rms3.

Lemma no_data_drainable p : drainable free_ok no_data qplain p.
Proof.
  pose proof QueueExamples.queue0_plain as Hq. split; [by exists []|]. split; [by exists []|]. constructor.
Qed.

Lemma rms3_wf : heap_wf (chans rms3) ∧ heap_wf (metas rms3).
Proof. split; do 3 apply heap_wf_new; apply heap_empty_wf. Qed.


Lemma running_ready : ready free_ok no_data qplain rms3 [3; 2; 1].
Proof.
  split; [exact three_plain|apply rms3_wf|apply rms3_wf|..].
  - repeat constructor; set_solver.
  - intros ch Hch. assert (ch = 3 ∨ ch = 2 ∨ ch = 1) as [->|[->| ->]] by set_solver;
      (eexists; split; [reflexivity|]; split; [discriminate|]; split; [by eexists|apply no_data_drainable]).
  - split; vm_compute; congruence.
Qed.

(** No channel was connected; or all three were. *)
Lemma rms_shutdown_every_other_witness :
  (∃ v', rms_shutdown free_ok no_data mqueue_remove running = Ok (0, v') ∧ svc_active v' = 0 ∧
    initialized (svc_rms v') = -1 ∧ qplain (mq_channels (svc_rms v')) [] ∧
    (∀ ch, ch ∈ [3; 1] → cells (chans (svc_rms v')) !! ch = None) ∧
    (∀ ch, ch ∈ [3; 2; 1] → ch ∉ [3; 1] → is_Some (cells (chans (svc_rms v')) !! ch)) ∧
    dom (cells (metas (svc_rms v'))) = dom (cells (metas rms3))) ∧
  rms_shutdown free_ok no_data mqueue_remove (Service 1 0 1 4 [4; 5] (rms3 <| mq_channels_tmp := three |>)) = Fault BadPtr.
Proof.
  split.
  - apply (rms_shutdown_every_other free_ok no_data qplain mqueue_remove running [3; 2; 1] running_ready). reflexivity.
  - assert (Hr : ready free_ok no_data qplain (rms3 <| mq_channels_tmp := three |>) [3; 2; 1])
      by (destruct running_ready; by split).
    destruct (rms_shutdown_every_other free_ok no_data qplain mqueue_remove
      (Service 1 0 1 4 [4; 5] (rms3 <| mq_channels_tmp := three |>)) [3; 2; 1] Hr) as [_ Hf].
    eapply (Hf 3); [left|reflexivity|vm_compute; reflexivity].
Defined.
End CloseExamples.
