(* ===== verification/RmsState.v ===== *)
(** * The threads of the rewrite: state and primitives

    What [src/rms_manager.c], [src/rms_receiver.c], [src/rms_sender.c] and the
    part of [src/rms_util.c] they use work on: the control block behind [rmsb],
    the peers and the messages.  As in [RmsChannel], a field that the code uses is
    a field of the record.  Since [rms_msg_hdr] does not declare the [length] that
    the code uses, a header is a record and not bytes; its fields keep their
    declared width ([id] is an [unsigned short]), and [length] that of version
    0.1.  [buf], [hdr] and [data] of a message point into one buffer until a
    [recv] overwrites the pointers: [mm_buf], [mm_hdrp] and [mm_data] tell whether
    they still do.

    The pool of messages is declared as a [syncqueue_t] ([sq_meta_msg_pool] of
    [rms_internal.h]) and made with [syncqueue_init], but [alloc_meta_msg] and
    [release_meta_msg] pass it to [mqueue_remove] and [mqueue_add], which read it as
    a [struct mqueue]: the fields they would follow are those of another structure.
    The model gives these calls what they were written for, an [mqueue_t]; the
    theorems that use the pool are about the code with the pool declared so. *)

From Stdlib Require Import SpecFloat.
From S2P Require Import Prelude StateMonad Machine Heap Pool Hashtable Mqueue Wire.

Definition RMS_DATA : Z := 60.
Definition RMS_HEARTBEAT : Z := 71.
Definition RMS_NACK : Z := 72.
Definition RMS_LEAVE : Z := 75.
Definition RMS_RATE_FACTOR : Z := 500.
Definition SIZEOF_RMS_HDR : Z := 12.            (* packed: 1 + 1 + 2 + 8 *)
Definition SIZEOF_RMS_HBEAT : Z := 20.          (* packed: 8 + 8 + 2 + 2 *)

Record rms_msg_hdr := Hdr {
  h_version : Z;
  h_type : Z;
  h_id : Z;
  h_sequence : Z;
  h_length : Z
}.
#[global] Instance rms_msg_hdr_eta : Eta rms_msg_hdr := fun r =>
  Hdr (h_version r) (h_type r) (h_id r) (h_sequence r) (h_length r).

Record rms_meta_peer := Peer {
  pe_id : Z;
  pe_hostname : cstring;
  pe_sent : Z;               (* sequence_sent *)
  pe_rcvd : Z;               (* sequence_rcvd *)
  pe_sync : Z;               (* sequence_sync *)
  pe_lost : Z;
  pe_last_hbeat : timeval;
  pe_unseq : htbl_t          (* ht_unseq_msgs *)
}.
#[global] Instance rms_meta_peer_eta : Eta rms_meta_peer := fun r =>
  Peer (pe_id r) (pe_hostname r) (pe_sent r) (pe_rcvd r) (pe_sync r) (pe_lost r) (pe_last_hbeat r) (pe_unseq r).

Record rms_meta_msg := Meta {
  mm_buf : bool;
  mm_size : Z;
  mm_length : Z;
  mm_hdrp : bool;
  mm_data : bool;
  mm_hdr : rms_msg_hdr;      (* the header in the buffer *)
  mm_bytes : list Z          (* what follows it *)
}.
#[global] Instance rms_meta_msg_eta : Eta rms_meta_msg := fun r =>
  Meta (mm_buf r) (mm_size r) (mm_length r) (mm_hdrp r) (mm_data r) (mm_hdr r) (mm_bytes r).

(** A datagram that was sent, to the group or to a host. *)
Record rms_packet := RmsPacket { rp_dest : option Z; rp_hdr : rms_msg_hdr; rp_data : list Z }.

(** The control block; [b_msg] is the variable [msg] of the thread. *)
Record rmsb := Rmsb {
  b_active : Z;
  b_version : Z;
  b_hostname : option cstring;
  b_self : rms_meta_peer;
  b_pool : mqueue_t;         (* sq_meta_msg_pool, declared as a syncqueue_t: see above *)
  b_bufsize : Z;
  b_peers : htbl_t;          (* ht_peers, peers *)
  b_peersq : mqueue_t;       (* mq_peers *)
  b_out : htbl_t;            (* outmsgbuf *)
  b_oldest : Z;              (* oldest_seq *)
  b_p1 : Z;                  (* hb_seq_p1, ... *)
  b_p2 : Z;
  b_p3 : Z;
  b_hb_ack : Z;
  b_hbeat_rate : Z;
  b_msg_per_sec : spec_float;
  b_msg_this_sec : spec_float;
  b_ucast : Z;               (* ucast_addr.sin_addr.s_addr *)
  b_msg : Z;
  b_peer_heap : heap rms_meta_peer;
  b_msg_heap : heap rms_meta_msg;
  b_sent : list rms_packet;
  b_ipc : list Z             (* what was written to the ipc socket *)
}.
#[global] Instance rmsb_eta : Eta rmsb := fun r =>
  Rmsb (b_active r) (b_version r) (b_hostname r) (b_self r) (b_pool r) (b_bufsize r) (b_peers r) (b_peersq r)
    (b_out r) (b_oldest r) (b_p1 r) (b_p2 r) (b_p3 r) (b_hb_ack r) (b_hbeat_rate r) (b_msg_per_sec r)
    (b_msg_this_sec r) (b_ucast r) (b_msg r) (b_peer_heap r) (b_msg_heap r) (b_sent r) (b_ipc r).

(** What the sockets answer. *)
Class RmsNet := {
  rms_sendto_ret : rms_packet → Z;
  (** [send] on the ipc socket, after the bytes already written *)
  rms_send_ret : list Z → list Z → Z
}.

Abbreviation R := (ST rmsb).

Definition set_self (f : rms_meta_peer → rms_meta_peer) : R unit := modify (fun s => s <| b_self := f (b_self s) |>).
Definition set_msg (p : Z) : R unit := modify (fun s => s <| b_msg := p |>).

Definition load_peer (p : Z) : R rms_meta_peer := fun s => x ← h_load (b_peer_heap s) p; Ok (x, s).
Definition upd_peer (p : Z) (f : rms_meta_peer → rms_meta_peer) : R unit := fun s =>
  x ← h_load (b_peer_heap s) p; h ← h_store (b_peer_heap s) p (f x); Ok (tt, s <| b_peer_heap := h |>).
Definition load_meta (p : Z) : R rms_meta_msg := fun s => x ← h_load (b_msg_heap s) p; Ok (x, s).
Definition upd_meta (p : Z) (f : rms_meta_msg → res rms_meta_msg) : R unit := fun s =>
  x ← h_load (b_msg_heap s) p; y ← f x;
  h ← h_store (b_msg_heap s) p y; Ok (tt, s <| b_msg_heap := h |>).

(** [msg->hdr->...] *)
Definition get_hdr (p : Z) : R rms_msg_hdr :=
  x ← load_meta p; lift (if mm_hdrp x then Ok (mm_hdr x) else Fault BadPtr).
Definition upd_hdr (p : Z) (f : rms_msg_hdr → rms_msg_hdr) : R unit :=
  upd_meta p (fun x => if mm_hdrp x then Ok (x <| mm_hdr := f (mm_hdr x) |>) else Fault BadPtr).

(** [msg->data[...]] *)
Definition rd_data {A} (p : Z) (f : list Z → res A) : R A :=
  x ← load_meta p; lift (if mm_data x then f (mm_bytes x) else Fault BadPtr).
Definition wr_data (p : Z) (f : list Z → res (list Z)) : R unit :=
  upd_meta p (fun x => if mm_data x then b ← f (mm_bytes x); Ok (x <| mm_bytes := b |>) else Fault BadPtr).

Section Primitives.
Context `{Uninit htbl_entry} `{Uninit mqueue_item} `{RmsNet} `{Fresh}.

(** [sendto(sock, msg->buf, n, ...)] *)
Definition sendto (p n : Z) (d : option Z) : R Z :=
  x ← load_meta p;
  bs ← lift (if mm_buf x then buf_read (mm_bytes x) 0 (n - SIZEOF_RMS_HDR) else Fault BadPtr);
  let pk := RmsPacket d (mm_hdr x) bs in
  _ ← modify (fun s => s <| b_sent := b_sent s ++ [pk] |>);
  mret (rms_sendto_ret pk).

(** ** [rms_util.c] *)

(** The result and the copy. *)
Definition alloc_strcpy (src : option cstring) : Z * option cstring :=
  match src with Some s => (Z.of_nat (length s), Some s) | None => (0, None) end.

Definition rms_meta_peer_init (hostname : cstring) (i : Z) : res rms_meta_peer :=
  '(_, t) ← htbl_init 10 0;
  Ok (Peer (i64 i) hostname 0 0 0 0 (Timeval 0 0) t).

Definition rms_meta_peer_free (p : Z) : R unit := fun s =>
  h ← h_free (b_peer_heap s) p; Ok (tt, s <| b_peer_heap := h |>).

Definition new_meta_msg : R Z :=
  size ← gets b_bufsize;
  v ← gets b_version;
  p ← gets (fun s => brk (b_msg_heap s));
  _ ← modify (fun s => s <| b_msg_heap := h_new (b_msg_heap s)
        (Meta true size fresh_int true true (Hdr v fresh_int fresh_int fresh_int fresh_int)
           (fresh_bytes (Z.to_nat (size - SIZEOF_RMS_HDR)))) |>);
  mret p.

Definition clear_meta_msg (p : Z) : R unit := fun s =>
  x ← h_load (b_msg_heap s) p;
  if mm_buf x then h ← h_free (b_msg_heap s) p; Ok (tt, s <| b_msg_heap := h |>) else Fault BadPtr.

Definition alloc_meta_msg : R Z :=
  q ← gets b_pool;
  '(msg, q) ← lift (mqueue_remove q);
  _ ← modify (fun s => s <| b_pool := q |>);
  if truthy msg then mret msg else new_meta_msg.

Definition release_meta_msg (msg : Z) : R unit :=
  q ← gets b_pool;
  q ← lift (mqueue_add q msg);
  modify (fun s => s <| b_pool := q |>).
End Primitives.
