(* ===== verification/RmsManager.v ===== *)
(** * The threads of the rewrite: [rms_manager.c], [rms_receiver.c], [rms_sender.c]

    The functions of the manager, one definition per message type, the two ways
    data enters a turn ([recv_mcast], [recv_ipc]) and the periodic work.  The
    receiver and the sender are copies of the two halves of the manager's loop.
    As the calls of one thread share the variable [msg], it is part of the state
    ([b_msg]).  [htbl_enum_keys] is called and defined nowhere: it is a parameter. *)

From Stdlib Require Import SpecFloat.
From S2P Require Import Prelude StateMonad Machine Heap Pool Hashtable Mqueue Wire RmsState.

Section Manager.
Context `{Uninit htbl_entry} `{Uninit mqueue_item} `{RmsNet} `{Fresh}.
(** The table and the length of the array; the keys and their number. *)
Variable htbl_enum_keys : htbl_t → Z → res (list Z * Z).

(** ** Negative acknowledgements *)

(** [for(itr = peer->sequence_rcvd + 1; itr!=seq2; itr++)]: [itr] is an [int] and
    is converted for the comparison.  Every turn writes to the message unless the
    number is cached, which bounds the turns. *)
Fixpoint nack_loop (fuel : nat) (peer msg seq2 itr cnt : Z) : R Z :=
  if u64 itr =? seq2 then mret cnt
  else match fuel with
       | O => lift (Fault Diverges)
       | S fuel =>
           p ← load_peer peer;
           '(found, _) ← lift (htbl_get (pe_unseq p) itr);
           cnt ← (if found =? 0 then
                    _ ← wr_data msg (fun b => set_field b (SIZEOF_LONG * cnt) 8 (htonl itr));
                    cnt ← lift (add_int cnt 1);
                    _ ← upd_peer peer (fun p => p <| pe_lost := u64 (pe_lost p + 1) |>);
                    _ ← set_self (fun p => p <| pe_lost := u64 (pe_lost p + 1) |>);
                    mret cnt
                  else mret cnt);
           itr ← lift (add_int itr 1);
           nack_loop fuel peer msg seq2 itr cnt
       end.

Definition send_nack (peer msg : Z) : R Z :=
  p ← load_peer peer;
  let seq2 := u64 (pe_sent p - 1) in
  _ ← upd_hdr msg (fun h => h <| h_type := RMS_NACK |>);
  _ ← upd_hdr msg (fun h => h <| h_sequence := htonl (pe_rcvd p) |>);
  _ ← upd_hdr msg (fun h => h <| h_id := u16 (htonl (pe_id p)) |>);
  x ← load_meta msg;
  let fuel := (length (mm_bytes x) + Z.to_nat (htbl_count (pe_unseq p)))%nat in
  cnt ← nack_loop fuel peer msg seq2 (i32 (pe_rcvd p + 1)) 1;
  _ ← wr_data msg (fun b => set_field b 0 8 (htonl cnt));
  let cnt := i32 (cnt * SIZEOF_LONG) in
  _ ← upd_hdr msg (fun h => h <| h_length := htons cnt |>);
  _ ← modify (fun s => s <| b_ucast := htonl (pe_id p) |>);
  addr ← gets b_ucast;
  sendto msg (SIZEOF_RMS_HDR + cnt) (Some addr).

(** ** The buffer of sent messages *)

(** [while(oldest_seq < bound)]; [n] is the distance, and [assign] what becomes
    of the variable the removed message is stored to. *)
Fixpoint clear_outbuf (assign : Z → R unit) (n : nat) : R unit :=
  match n with
  | O => mret tt
  | S n =>
      t ← gets b_out;
      old ← gets b_oldest;
      '(r, d, t) ← lift (htbl_remove t (i32 old));
      _ ← modify (fun s => s <| b_out := t |>);
      _ ← (if truthy r then _ ← assign (default NULL d); release_meta_msg (default NULL d) else mret tt);
      _ ← modify (fun s => s <| b_oldest := u64 (b_oldest s + 1) |>);
      clear_outbuf assign n
  end.

(** ** Heartbeats *)

Definition write_acks (msg data acks : Z) : R unit :=
  for_m 0 acks (fun itr =>
    q ← gets b_peersq;
    '(peer, q) ← lift (mqueue_peek_at_index q itr);
    _ ← modify (fun s => s <| b_peersq := q |>);
    p ← load_peer peer;
    _ ← wr_data msg (fun b => set_field b (data + itr * 2 * SIZEOF_LONG) 8 (htonl (pe_id p)));
    wr_data msg (fun b => set_field b (data + (itr * 2 + 1) * SIZEOF_LONG) 8 (htonl (pe_rcvd p)))).

(** [rms_msg_hbeat] in the data of a message: [lost] and [namelen] of 8 bytes,
    [acks] and [pgback] of 2.  The [msg] of [send_hbeat] is its own. *)
Definition send_hbeat (pgback : option (list Z)) (len : Z) : R Z :=
  msg ← alloc_meta_msg;
  _ ← upd_hdr msg (fun h => h <| h_type := RMS_HEARTBEAT |>);
  me ← gets b_self;
  _ ← upd_hdr msg (fun h => h <| h_sequence := htonl (pe_sent me) |>);
  _ ← upd_hdr msg (fun h => h <| h_id := u16 (htonl (pe_id me)) |>);
  let data := SIZEOF_RMS_HBEAT in
  _ ← wr_data msg (fun b => set_field b 0 8 (htonl (pe_lost me)));
  hname ← gets b_hostname;
  data ← match hname with
         | Some name =>
             let n := Z.of_nat (length name) in
             _ ← wr_data msg (fun b => set_field b 8 8 (htons n));
             _ ← wr_data msg (fun b => buf_write b data ((u8 <$> name) ++ [0]));   (* sprintf *)
             mret (data + n)
         | None => _ ← wr_data msg (fun b => set_field b 8 8 0); mret data
         end;
  ack ← gets b_hb_ack;
  offset ← (if truthy ack then
              q ← gets b_peersq;
              let acks := u16 (mqueue_size q) in
              _ ← wr_data msg (fun b => set_field b 16 2 acks);
              _ ← write_acks msg data acks;
              _ ← wr_data msg (fun b => set_field b 16 2 (htons acks));
              mret (acks * (2 * SIZEOF_LONG))
            else _ ← wr_data msg (fun b => set_field b 16 2 0); mret 0);
  let data := data + offset in
  x ← load_meta msg;
  offset ← match pgback with
           | Some bytes =>
               if len <? mm_size x - (SIZEOF_RMS_HDR + data) then
                 bs ← lift (buf_read bytes 0 len);
                 _ ← wr_data msg (fun b => buf_write b data bs);
                 mret (offset + len)
               else mret offset
           | None => _ ← wr_data msg (fun b => set_field b 18 2 0); mret offset
           end;
  _ ← upd_hdr msg (fun h => h <| h_length := htons (SIZEOF_RMS_HBEAT + offset) |>);
  ret ← sendto msg (SIZEOF_RMS_HDR + SIZEOF_RMS_HBEAT + offset) None;
  _ ← release_meta_msg msg;
  _ ← modify (fun s => s <| b_p3 := b_p2 s |>);
  _ ← modify (fun s => s <| b_p2 := b_p1 s |>);
  _ ← modify (fun s => s <| b_p1 := pe_sent (b_self s) |>);
  p3 ← gets b_p3;
  old ← gets b_oldest;
  _ ← clear_outbuf (fun _ => mret tt) (Z.to_nat (p3 - old));
  mret ret.

(** ** Delivery to the application *)

Definition ipc_send (bs : list Z) : R Z :=
  o ← gets b_ipc;
  let k := rms_send_ret o bs in
  _ ← modify (fun s => s <| b_ipc := o ++ take (Z.to_nat k) bs |>);
  mret k.

(** [while(ret < nfound) ret += send(ipc_sock, msg->data+ret, nfound-ret, 0)];
    [nfound] turns are enough when every [send] makes progress. *)
Fixpoint ipc_send_all (fuel : nat) (msg nfound ret : Z) : R unit :=
  if ret <? nfound then
    match fuel with
    | O => lift (Fault Diverges)
    | S fuel =>
        bs ← rd_data msg (fun b => buf_read b ret (nfound - ret));
        k ← ipc_send bs;
        ipc_send_all fuel msg nfound (ret + k)
    end
  else mret tt.

(** The length and the data of the message in [msg], and [sequence_rcvd++]. *)
Definition deliver (peer msg : Z) : R unit :=
  h ← get_hdr msg;
  let nfound := h_length h in
  _ ← ipc_send (le_encode 4 nfound);
  _ ← ipc_send_all (Z.to_nat nfound) msg nfound 0;
  upd_peer peer (fun p => p <| pe_rcvd := u64 (pe_rcvd p + 1) |>).

(** [while(htbl_remove(peer->ht_unseq_msgs, peer->sequence_sent, &msg))] *)
Fixpoint release_unseq (fuel : nat) (peer : Z) : R unit :=
  p ← load_peer peer;
  '(r, d, t) ← lift (htbl_remove (pe_unseq p) (i32 (pe_sent p)));
  _ ← upd_peer peer (fun p => p <| pe_unseq := t |>);
  if truthy r then
    match fuel with
    | O => lift (Fault Diverges)
    | S fuel =>
        _ ← set_msg (default NULL d);
        _ ← deliver peer (default NULL d);
        release_unseq fuel peer
    end
  else mret tt.

(** ** The messages *)

Definition peers_get (key : Z) : R (option Z) :=
  t ← gets b_peers;
  '(r, d) ← lift (htbl_get t (i32 key));
  mret (if truthy r then d else None).

Definition on_data : R unit :=
  msg ← gets b_msg;
  h ← get_hdr msg;
  found ← peers_get (h_id h);
  match found with
  | None => release_meta_msg msg
  | Some peer =>
      _ ← upd_peer peer (fun p => p <| pe_sent := h_sequence h |>);
      p ← load_peer peer;
      if negb (u64 (pe_rcvd p + 1) =? h_sequence h) then
        _ ← (if pe_rcvd p <? h_sequence h then
               '(_, t) ← lift (htbl_put (pe_unseq p) (i32 (h_sequence h)) msg);
               _ ← upd_peer peer (fun p => p <| pe_unseq := t |>);
               msg ← alloc_meta_msg;
               _ ← set_msg msg;
               _ ← send_nack peer msg;
               mret tt
             else mret tt);
        msg ← gets b_msg;
        release_meta_msg msg
      else
        _ ← deliver peer msg;
        p ← load_peer peer;
        release_unseq (Z.to_nat (htbl_count (pe_unseq p))) peer
  end.

(** The peer of a heartbeat; a new one is registered under the name that is read
    where the fields of the heartbeat are. *)
Definition hbeat_peer (msg hid namelen : Z) : R Z :=
  found ← peers_get hid;
  match found with
  | Some peer => mret peer
  | None =>
      name ← (if truthy namelen then rd_data msg (fun b => cstring_at b 0)
              else mret [110; 111; 110; 97; 109; 101]);    (* noname *)
      p ← lift (rms_meta_peer_init name hid);
      peer ← gets (fun s => brk (b_peer_heap s));
      _ ← modify (fun s => s <| b_peer_heap := h_new (b_peer_heap s) p |>);
      t ← gets b_peers;
      '(_, t) ← lift (htbl_put t (i32 (pe_id p)) peer);
      _ ← modify (fun s => s <| b_peers := t |>);
      q ← gets b_peersq;
      q ← lift (mqueue_add q peer);
      _ ← modify (fun s => s <| b_peersq := q |>);
      mret peer
  end.

Fixpoint read_acks (n : nat) (peer msg data itr : Z) : R unit :=
  match n with
  | O => mret tt
  | S n =>
      who ← rd_data msg (fun b => get_field b (data + itr * 2 * SIZEOF_LONG) 8);
      me ← gets (fun s => pe_id (b_self s));
      if ntohl who =? me then
        v ← rd_data msg (fun b => get_field b (data + (itr * 2 + 1) * SIZEOF_LONG) 8);
        upd_peer peer (fun p => p <| pe_sync := ntohl v |>)
      else read_acks n peer msg data (itr + 1)
  end.

Definition on_heartbeat (now : timeval) : R unit :=
  msg ← gets b_msg;
  h ← get_hdr msg;
  namelen ← rd_data msg (fun b => get_field b 8 8);
  peer ← hbeat_peer msg (h_id h) namelen;
  x ← rd_data msg (fun b => get_field b 0 8);
  _ ← upd_peer peer (fun p => p <| pe_lost := ntohs x |>);
  _ ← (if truthy namelen then wr_data msg (fun b => set_field b 8 8 (htonl namelen)) else mret tt);
  let data := SIZEOF_RMS_HBEAT + (if truthy namelen then htonl namelen else 0) in
  acks ← rd_data msg (fun b => get_field b 16 2);
  _ ← (if truthy acks then
         _ ← wr_data msg (fun b => set_field b 16 2 (ntohs acks));
         read_acks (Z.to_nat (ntohs acks)) peer msg data 0
       else mret tt);
  pg ← rd_data msg (fun b => get_field b 18 2);
  _ ← (if truthy pg then wr_data msg (fun b => set_field b 18 2 (ntohs pg)) else mret tt);
  _ ← upd_peer peer (fun p => p <| pe_last_hbeat := now |>);
  p ← load_peer peer;
  _ ← (if negb (u64 (pe_sent p + 1) =? h_sequence h) then
         if pe_sent p <? h_sequence h then _ ← send_nack peer msg; mret tt else mret tt
       else mret tt);
  release_meta_msg msg.

(** [for(itr=1; itr <= count; itr++)]: [seq] points into the message [at_], while
    [msg] is set to what is sent again.  Every turn reads the message, so that
    [fuel] need not exceed its size. *)
Fixpoint resend_loop (fuel : nat) (at_ itr count : Z) : R unit :=
  if itr <=? count then
    match fuel with
    | O => lift (Fault Diverges)
    | S fuel =>
        x ← rd_data at_ (fun b => get_field b (SIZEOF_LONG * itr) 8);
        _ ← wr_data at_ (fun b => set_field b (SIZEOF_LONG * itr) 8 (ntohl x));
        t ← gets b_out;
        '(r, d) ← lift (htbl_get t (i32 (ntohl x)));
        _ ← (if truthy r then
               let msg := default NULL d in
               _ ← set_msg msg;
               m ← load_meta msg;
               addr ← gets b_ucast;
               _ ← sendto msg (mm_length m + SIZEOF_RMS_HDR) (Some addr);
               mret tt
             else mret tt);
        itr ← lift (add_int itr 1);
        resend_loop fuel at_ itr count
    end
  else mret tt.

Definition on_nack : R unit :=
  msg ← gets b_msg;
  h ← get_hdr msg;
  count ← rd_data msg (fun b => get_field b 0 8);
  _ ← modify (fun s => s <| b_ucast := htonl (h_id h) |>);
  x ← load_meta msg;
  resend_loop (length (mm_bytes x)) msg 1 (i32 count).

Definition drop_unseq (peer : Z) : R unit :=
  p ← load_peer peer;
  '(keys, count) ← lift (htbl_enum_keys (pe_unseq p) (htbl_count (pe_unseq p)));
  for_m 0 count (fun itr =>
    k ← lift (arr_get keys itr);
    p ← load_peer peer;
    '(r, d, t) ← lift (htbl_remove (pe_unseq p) (i32 k));
    _ ← upd_peer peer (fun p => p <| pe_unseq := t |>);
    if truthy r then _ ← set_msg (default NULL d); release_meta_msg (default NULL d) else mret tt).

Definition on_leave : R unit :=
  msg ← gets b_msg;
  h ← get_hdr msg;
  t ← gets b_peers;
  '(r, d, t) ← lift (htbl_remove t (i32 (h_id h)));
  _ ← modify (fun s => s <| b_peers := t |>);
  if truthy r then
    let peer := default NULL d in
    _ ← drop_unseq peer;
    q ← gets b_peersq;
    '(_, q) ← lift (mqueue_remove_item q peer);
    _ ← modify (fun s => s <| b_peersq := q |>);
    rms_meta_peer_free peer
  else mret tt.

(** The [switch]. *)
Definition on_msg (now : timeval) : R unit :=
  msg ← gets b_msg;
  h ← get_hdr msg;
  if h_type h =? RMS_DATA then on_data
  else if h_type h =? RMS_HEARTBEAT then on_heartbeat now
  else if h_type h =? RMS_NACK then on_nack
  else if h_type h =? RMS_LEAVE then on_leave
  else release_meta_msg msg.

(** ** From the group *)

(** The assignments that take a header to host order. *)
Definition ntoh_hdr (h : rms_msg_hdr) : rms_msg_hdr :=
  h <| h_length := ntohs (h_length h) |> <| h_sequence := ntohl (h_sequence h) |>
    <| h_id := u16 (ntohl (h_id h)) |>.

(** [recvfrom] to [&msg->buf]: the bytes land in the fields [buf] (8 bytes), [size],
    [length], [hdr] (8 bytes) and [data] of the message. *)
Definition over_buf (bs : list Z) (x : rms_meta_msg) : res rms_meta_msg :=
  let n := Z.of_nat (length bs) in
  if 32 <? n then Fault OutOfBounds
  else
    let f := splice 0 (take 8 (drop 8 bs)) (le_encode 4 (mm_size x) ++ le_encode 4 (mm_length x)) in
    Ok (x <| mm_buf := mm_buf x && (n =? 0) |>
          <| mm_size := i32 (le_decode (take 4 f)) |> <| mm_length := i32 (le_decode (drop 4 f)) |>
          <| mm_hdrp := mm_hdrp x && (n <=? 16) |> <| mm_data := mm_data x && (n <=? 24) |>).

(** [recvfrom] cuts a datagram at the size it is given, a [size_t]. *)
Definition cut (size : Z) (dgram : list Z) : list Z :=
  if Z.of_nat (length dgram) <=? u64 size then dgram else take (Z.to_nat (u64 size)) dgram.

(** [None]: [recvfrom] returned -1.  The result tells whether the rest of the turn
    is skipped ([continue]); the comparisons of [ret] with a [size_t] are unsigned. *)
Definition recv_mcast (now : timeval) (r : option (list Z)) : R bool :=
  msg ← alloc_meta_msg;
  _ ← set_msg msg;
  x ← load_meta msg;
  let bs := match r with Some dgram => cut (mm_size x) dgram | None => [] end in
  let ret := match r with Some _ => Z.of_nat (length bs) | None => -1 end in
  _ ← upd_meta msg (over_buf bs);
  if u64 ret <? SIZEOF_RMS_HDR then mret true
  else
    _ ← upd_hdr msg ntoh_hdr;
    h ← get_hdr msg;
    if u64 ret <? h_length h + SIZEOF_RMS_HDR then mret true
    else _ ← on_msg now; mret false.

(** ** From the application *)

(** The length that was read, and what the second [recv] returned. *)
Definition ipc_event : Type := Z * option (list Z).

(** [recv] to [&msg->data], the last field of the message. *)
Definition over_data (bs : list Z) (x : rms_meta_msg) : res rms_meta_msg :=
  let n := Z.of_nat (length bs) in
  if 8 <? n then Fault OutOfBounds else Ok (x <| mm_data := mm_data x && (n =? 0) |>).

(** [realloc(msg->buf, size)]; a buffer that cannot hold a header counts as none. *)
Definition enlarge (size : Z) (x : rms_meta_msg) : res rms_meta_msg :=
  if mm_buf x then
    let ok := SIZEOF_RMS_HDR <=? size in
    Ok (x <| mm_size := size |> <| mm_buf := ok |> <| mm_hdrp := ok |> <| mm_data := ok |>
          <| mm_bytes := realloc (size - SIZEOF_RMS_HDR) (mm_bytes x) |>)
  else Fault BadPtr.

(** The second half: number the message, send it and keep it; the result is [err]. *)
Definition send_data (msg n : Z) : R bool :=
  _ ← upd_meta msg (fun x => Ok (x <| mm_length := n |>));
  me ← gets b_self;
  _ ← upd_hdr msg (fun h => h <| h_type := RMS_DATA |> <| h_length := htons n |>
        <| h_sequence := htonl (pe_sent me) |> <| h_id := u16 (htonl (pe_id me)) |>);
  ret ← sendto msg (n + SIZEOF_RMS_HDR) None;
  if 0 <? ret then
    t ← gets b_out;
    '(_, t) ← lift (htbl_put t (i32 (pe_sent me)) msg);
    _ ← modify (fun s => s <| b_out := t |>);
    _ ← set_self (fun p => p <| pe_sent := u64 (pe_sent p + 1) |>);
    _ ← modify (fun s => s <| b_msg_this_sec := f_add (b_msg_this_sec s) (f_of_int 1) |>);
    mret false
  else mret true.

(** [None]: the first [recv] returned nothing. *)
Definition recv_ipc (e : option ipc_event) : R unit :=
  err ← match e with
        | None => mret true
        | Some (ipc_read, r) =>
            msg ← alloc_meta_msg;
            _ ← set_msg msg;
            bsz ← gets b_bufsize;
            _ ← (if bsz <? ipc_read then
                   _ ← modify (fun s => s <| b_bufsize := grow ipc_read |>);
                   upd_meta msg (enlarge (grow ipc_read))
                 else mret tt);
            let bs := default [] r in
            let ret := match r with Some bs => Z.of_nat (length bs) | None => -1 end in
            _ ← upd_meta msg (over_data bs);
            if ret =? ipc_read then send_data msg ipc_read else mret true
        end;
  if err : bool then msg ← gets b_msg; release_meta_msg msg else mret tt.

(** ** The periodic work *)

Definition rms_rate (mps : spec_float) : Z :=
  let r := f_to_int (f_div (f_of_int RMS_RATE_FACTOR) mps) in
  if 5 <? r then 5 else if r <? 1 then 1 else r.

Definition hbeat_tick (now : timeval) : R unit :=
  me ← gets b_self;
  r ← gets b_hbeat_rate;
  if r <=? tv_sec now - tv_sec (pe_last_hbeat me) then
    _ ← send_hbeat None 0;
    _ ← modify (fun s =>
          let mps := f_div (b_msg_this_sec s) (f_sub (f_time now) (f_time (pe_last_hbeat me))) in
          s <| b_msg_per_sec := mps |> <| b_hbeat_rate := rms_rate mps |> <| b_msg_this_sec := f_of_int 0 |>);
    set_self (fun p => p <| pe_last_hbeat := now |>)
  else mret tt.

(** The [if] of the loop has an empty body: the assignment always happens. *)
Definition ack_tick : R unit :=
  ack ← gets b_hb_ack;
  if truthy ack then
    q ← gets b_peersq;
    _ ← for_m 0 (mqueue_size q) (fun itr =>
          q ← gets b_peersq;
          '(peer, q) ← lift (mqueue_peek_at_index q itr);
          _ ← modify (fun s => s <| b_peersq := q |>);
          p ← load_peer peer;
          set_self (fun me => me <| pe_sync := pe_sync p |>));
    me ← gets b_self;
    old ← gets b_oldest;
    clear_outbuf set_msg (Z.to_nat (pe_sync me - old))
  else mret tt.

(** ** The threads *)

(** What one [select] found, and what the calls returned. *)
Record rms_turn := RmsTurn {
  rt_mcast : option (option (list Z));
  rt_ipc : option (option ipc_event);
  rt_now : timeval
}.

Definition manager_iter (e : rms_turn) : R unit :=
  skip ← match rt_mcast e with Some r => recv_mcast (rt_now e) r | None => mret false end;
  if skip : bool then mret tt
  else
    _ ← match rt_ipc e with Some ev => recv_ipc ev | None => mret tt end;
    _ ← hbeat_tick (rt_now e);
    ack_tick.

Definition send_leave : R unit :=
  msg ← alloc_meta_msg;
  _ ← set_msg msg;
  me ← gets b_self;
  _ ← upd_hdr msg (fun h => h <| h_type := RMS_LEAVE |> <| h_length := 0 |>
        <| h_sequence := htonl (pe_sent me) |> <| h_id := u16 (htonl (pe_id me)) |>);
  _ ← sendto msg SIZEOF_RMS_HDR None;
  release_meta_msg msg.

(** The turns of a thread while [rmsb->active], and what follows the loop. *)
Fixpoint turns_of (iter : rms_turn → R unit) (fin : R unit) (turns : list rms_turn) : R unit :=
  a ← gets b_active;
  if truthy a then
    match turns with
    | [] => mret tt
    | e :: turns => _ ← iter e; turns_of iter fin turns
    end
  else fin.

Definition rms_manager : list rms_turn → R unit := turns_of manager_iter send_leave.

(** The receiver reads the group only. *)
Definition receiver_iter (e : rms_turn) : R unit :=
  match rt_mcast e with Some r => _ ← recv_mcast (rt_now e) r; mret tt | None => mret tt end.
Definition rms_receiver : list rms_turn → R unit := turns_of receiver_iter (mret tt).

(** The sender reads the ipc socket only. *)
Definition sender_iter (e : rms_turn) : R unit :=
  match rt_ipc e with Some ev => recv_ipc ev | None => mret tt end.
Definition rms_sender : list rms_turn → R unit := turns_of sender_iter (mret tt).
End Manager.
