(* ===== verification/RmsRun.v ===== *)
(** * The threads of the rewrite: running a computation

    The rules by which a handler is run on the messages and peers of a state, and
    the pool of messages: while its messages are distinct and whole,
    [alloc_meta_msg] hands out a message that nobody else holds. *)

From S2P Require Import Prelude StateMonad Machine Heap Pool Hashtable Mqueue Interfaces Wire RmsState.

(** Message [a] is [x], peer [p] is [y]. *)
Definition msg_at (s : rmsb) (a : Z) (x : rms_meta_msg) : Prop :=
  heap_wf (b_msg_heap s) ∧ cells (b_msg_heap s) !! a = Some x.
Definition peer_at (s : rmsb) (p : Z) (y : rms_meta_peer) : Prop :=
  heap_wf (b_peer_heap s) ∧ cells (b_peer_heap s) !! p = Some y.

Definition put_meta (s : rmsb) (a : Z) (x : rms_meta_msg) : rmsb :=
  s <| b_msg_heap := h_set (b_msg_heap s) a x |>.
Definition put_peer (s : rmsb) (p : Z) (y : rms_meta_peer) : rmsb :=
  s <| b_peer_heap := h_set (b_peer_heap s) p y |>.

(** The three pointers of the message are as [new_meta_msg] set them. *)
Definition whole (x : rms_meta_msg) : Prop := mm_buf x = true ∧ mm_hdrp x = true ∧ mm_data x = true.

Section Store.
Implicit Types (s : rmsb).

Lemma msg_at_put s a x y : msg_at s a x → msg_at (put_meta s a y) a y.
Proof. intros [Hw Ha]. split; [apply heap_wf_set; eauto|apply lookup_h_set]. Qed.
Lemma msg_at_put_ne s a b x y z : msg_at s a x → msg_at s b z → a ≠ b → msg_at (put_meta s a y) b z.
Proof. intros [Hw Ha] [_ Hb] Hn. split; [apply heap_wf_set; eauto|]. cbn. by rewrite lookup_h_set_ne. Qed.
Lemma peer_at_put s p x y : peer_at s p x → peer_at (put_peer s p y) p y.
Proof. intros [Hw Ha]. split; [apply heap_wf_set; eauto|apply lookup_h_set]. Qed.
Lemma put_meta_twice s a x y : put_meta (put_meta s a x) a y = put_meta s a y.
Proof. unfold put_meta. cbn. by rewrite h_set_twice. Qed.
Lemma put_peer_twice s a x y : put_peer (put_peer s a x) a y = put_peer s a y.
Proof. unfold put_peer. cbn. by rewrite h_set_twice. Qed.

Lemma put_meta_id s a x : msg_at s a x → put_meta s a x = s.
Proof. intros [_ Ha]. unfold put_meta. rewrite h_set_id by done. by destruct s. Qed.
Lemma put_peer_id s p y : peer_at s p y → put_peer s p y = s.
Proof. intros [_ Ha]. unfold put_peer. rewrite h_set_id by done. by destruct s. Qed.

Lemma load_meta_run s a x : msg_at s a x → load_meta a s = Ok (x, s).
Proof. intros [Hw Ha]. unfold load_meta. by rewrite (h_load_Ok _ _ _ Hw Ha). Qed.
Lemma upd_meta_run s a x f y : msg_at s a x → f x = Ok y → upd_meta a f s = Ok (tt, put_meta s a y).
Proof.
  intros [Hw Ha] E. unfold upd_meta. rewrite (h_load_Ok _ _ _ Hw Ha). cbn. rewrite E. cbn.
  by rewrite h_store_Ok by eauto.
Qed.
Lemma upd_meta_fault s a x f e : msg_at s a x → f x = Fault e → upd_meta a f s = Fault e.
Proof. intros [Hw Ha] E. unfold upd_meta. rewrite (h_load_Ok _ _ _ Hw Ha). cbn. by rewrite E. Qed.
Lemma upd_hdr_run s a x f :
  msg_at s a x → mm_hdrp x = true → upd_hdr a f s = Ok (tt, put_meta s a (x <| mm_hdr := f (mm_hdr x) |>)).
Proof. intros Ha Hh. unfold upd_hdr. apply (upd_meta_run _ _ x); [done|]. by rewrite Hh. Qed.
Lemma get_hdr_run s a x : msg_at s a x → mm_hdrp x = true → get_hdr a s = Ok (mm_hdr x, s).
Proof. intros Ha Hh. unfold get_hdr. rewrite (bind_run _ _ _ _ _ (load_meta_run _ _ _ Ha)). by rewrite Hh. Qed.
Lemma rd_data_run {A} s a x (f : list Z → res A) v :
  msg_at s a x → mm_data x = true → f (mm_bytes x) = Ok v → rd_data a f s = Ok (v, s).
Proof.
  intros Ha Hd E. unfold rd_data. rewrite (bind_run _ _ _ _ _ (load_meta_run _ _ _ Ha)).
  unfold lift. by rewrite Hd, E.
Qed.
Lemma rd_data_fault {A} s a x (f : list Z → res A) e :
  msg_at s a x → mm_data x = true → f (mm_bytes x) = Fault e → rd_data a f s = Fault e.
Proof.
  intros Ha Hd E. unfold rd_data. rewrite (bind_run _ _ _ _ _ (load_meta_run _ _ _ Ha)).
  unfold lift. by rewrite Hd, E.
Qed.
Lemma wr_data_run s a x f b :
  msg_at s a x → mm_data x = true → f (mm_bytes x) = Ok b →
  wr_data a f s = Ok (tt, put_meta s a (x <| mm_bytes := b |>)).
Proof. intros Ha Hd E. unfold wr_data. apply (upd_meta_run _ _ x); [done|]. rewrite Hd. cbn. by rewrite E. Qed.
Lemma wr_data_fault s a x f e :
  msg_at s a x → mm_data x = true → f (mm_bytes x) = Fault e → wr_data a f s = Fault e.
Proof. intros Ha Hd E. unfold wr_data. apply (upd_meta_fault _ _ x); [done|]. rewrite Hd. cbn. by rewrite E. Qed.

Lemma load_peer_run s p y : peer_at s p y → load_peer p s = Ok (y, s).
Proof. intros [Hw Ha]. unfold load_peer. by rewrite (h_load_Ok _ _ _ Hw Ha). Qed.
Lemma upd_peer_run s p y f : peer_at s p y → upd_peer p f s = Ok (tt, put_peer s p (f y)).
Proof.
  intros [Hw Ha]. unfold upd_peer. rewrite (h_load_Ok _ _ _ Hw Ha). cbn. by rewrite h_store_Ok by eauto.
Qed.

Lemma sendto_run `{RmsNet} s a x (n : nat) d :
  msg_at s a x → mm_buf x = true → (n ≤ length (mm_bytes x))%nat →
  let pk := RmsPacket d (mm_hdr x) (slice 0 n (mm_bytes x)) in
  sendto a (SIZEOF_RMS_HDR + Z.of_nat n) d s = Ok (rms_sendto_ret pk, s <| b_sent := b_sent s ++ [pk] |>).
Proof.
  intros Ha Hb Hn pk. unfold sendto. rewrite (bind_run _ _ _ _ _ (load_meta_run _ _ _ Ha)).
  replace (SIZEOF_RMS_HDR + Z.of_nat n - SIZEOF_RMS_HDR) with (Z.of_nat n) by lia.
  rewrite Hb, (bind_lift _ _ _ _ (buf_read_Ok (mm_bytes x) 0 n ltac:(lia))). done.
Qed.
End Store.

(** ** The pool *)

Section Pool.
Context `{Uninit htbl_entry} `{Uninit mqueue_item} `{RmsNet} `{Fresh}.
Context (srep : mqueue_t → list Z → Prop) `{!Stack srep}.

(** A message as large as new ones are. *)
Definition sized (s : rmsb) (x : rms_meta_msg) : Prop :=
  whole x ∧ mm_size x = b_bufsize s ∧ Z.of_nat (length (mm_bytes x)) = b_bufsize s - SIZEOF_RMS_HDR.

Record rms_pool (s : rmsb) (free : list Z) : Prop := {
  rp_wf : heap_wf (b_msg_heap s);
  rp_rep : srep (b_pool s) free;
  rp_nodup : NoDup free;
  rp_msg : ∀ a, a ∈ free → ∃ x, cells (b_msg_heap s) !! a = Some x ∧ sized s x;
  rp_room : SIZEOF_RMS_HDR ≤ b_bufsize s;
  rp_count : Z.of_nat (length free) < INT_MAX
}.

(** What taking a message out of the pool does to the state. *)
Definition took (s : rmsb) (q : mqueue_t) (h : heap rms_meta_msg) : rmsb :=
  s <| b_pool := q |> <| b_msg_heap := h |>.

Lemma took_pool s q : (s <| b_pool := q |>) = took s q (b_msg_heap s).
Proof. by destruct s. Qed.

Lemma alloc_ok s free :
  rms_pool s free →
  ∃ a q h x, alloc_meta_msg s = Ok (a, took s q h) ∧ msg_at (took s q h) a x ∧ sized s x ∧
    rms_pool (took s q h) (tail free) ∧ (a ∉ tail free) ∧
    (∀ b, is_Some (cells (b_msg_heap s) !! b) → cells h !! b = cells (b_msg_heap s) !! b) ∧
    hd a free = a ∧ (free ≠ [] → h = b_msg_heap s).
Proof.
  intros [Hw Hr Hnd Hm Hrm Hc]. unfold alloc_meta_msg. rewrite bind_gets.
  destruct (st_remove _ _ Hr) as (q & E & Hr'). rewrite (bind_lift _ _ _ _ E), bind_modify.
  destruct free as [|a free]; cbn [hd tail] in *.
  - change (truthy NULL) with false. cbn iota. unfold new_meta_msg. rewrite !bind_gets, bind_modify.
    eexists _, q, _, _. split; [reflexivity|]. cbn.
    assert (Hwf : ∀ x, heap_wf (h_new (b_msg_heap s) x)) by (intros; by apply heap_wf_new).
    split; [split; [apply Hwf|apply lookup_h_new]|]. split.
    { do 2 (split; [done|]). cbn. rewrite fresh_bytes_length. lia. }
    split; [split; cbn; [apply Hwf|done|constructor|by intros ? ?%elem_of_nil|done|done]|].
    split; [by apply not_elem_of_nil|]. split; [|done].
    intros b Hb. cbn. apply lookup_h_new_ne. by apply heap_wf_fresh.
  - destruct (Hm a) as (x & Hx & Hs); [left|]. rewrite truthy_true by exact (heap_wf_pos _ _ _ Hw Hx).
    rewrite took_pool. exists a, q, (b_msg_heap s), x. split; [done|]. split; [done|]. split; [done|].
    apply NoDup_cons in Hnd as [Hna Hnd]. split; [|done]. split; try done.
    + intros b Hb. apply Hm. by right.
    + cbn in Hc |- *. lia.
Qed.

Lemma release_ok s free a :
  srep (b_pool s) free → Z.of_nat (length free) < INT_MAX →
  ∃ q, release_meta_msg a s = Ok (tt, s <| b_pool := q |>) ∧ srep q (a :: free).
Proof.
  intros Hr Hc. unfold release_meta_msg. rewrite bind_gets.
  destruct (st_add _ _ a Hr Hc) as (q & E & Hr'). rewrite (bind_lift _ _ _ _ E). by exists q.
Qed.
End Pool.
