(* ===== verification/RmsNack.v ===== *)
(** * The rewrite: negative acknowledgements

    [send_nack] lists the numbers between the last that was received and the one
    before the newest that are not cached; it writes past its message when the
    newest number is not ahead of the last received one. *)

From S2P Require Import Prelude StateMonad Machine Heap Pool Hashtable HashtableRepr HashtableProofs Mqueue.
From S2P Require Import Interfaces Wire Gap RmsState RmsManager RmsRun.

Lemma splice_app off a b buf :
  (off + length a + length b ≤ length buf)%nat →
  splice (off + length a) b (splice off a buf) = splice off (a ++ b) buf.
Proof.
  intros Hl. apply list_eq. intros i.
  rewrite !lookup_splice by (rewrite ?splice_length, ?length_app; lia). rewrite length_app.
  repeat case_decide; try lia; try done.
  - rewrite lookup_app_r by lia. f_equal. lia.
  - by rewrite lookup_app_l by lia.
Qed.

Lemma splice_before off a b buf :
  (off + length a + length b ≤ length buf)%nat →
  splice off a (splice (off + length a) b buf) = splice off (a ++ b) buf.
Proof.
  intros Hl. apply list_eq. intros i.
  rewrite !lookup_splice by (rewrite ?splice_length, ?length_app; lia). rewrite length_app.
  repeat case_decide; try lia; try done.
  - by rewrite lookup_app_l by lia.
  - rewrite lookup_app_r by lia. f_equal. lia.
Qed.

Lemma splice_nil off buf : splice off [] buf = buf.
Proof. unfold splice. cbn. by rewrite Nat.add_0_r, take_drop. Qed.

(** The numbers as they go into the message. *)
Definition nums (l : list Z) : list Z := concat ((fun i => le_encode 8 (htonl i)) <$> l).

Lemma nums_length l : length (nums l) = (8 * length l)%nat.
Proof. induction l as [|i l IH]; [done|]. unfold nums in *. cbn [fmap list_fmap concat]. rewrite length_app, IH, le_encode_length. cbn. lia. Qed.

(** The negative acknowledgement for the numbers [l] that are asked of peer [y]. *)
Definition nack_packet (version : Z) (y : rms_meta_peer) (l : list Z) : rms_packet :=
  let cnt := 1 + Z.of_nat (length l) in
  RmsPacket (Some (htonl (pe_id y)))
    (Hdr version RMS_NACK (u16 (htonl (pe_id y))) (htonl (pe_rcvd y)) (htons (8 * cnt)))
    (le_encode 8 (htonl cnt) ++ nums l).

Section Nack.
Context `{Uninit htbl_entry} `{Uninit mqueue_item} `{RmsNet} `{Fresh}.
Context (urep : htbl_t → gmap hkey Z → Prop) `{!PutTable urep}.

(** [s] with peer [p], message [a] and the host itself replaced. *)
Definition nack_state (s : rmsb) (p a : Z) y x me : rmsb :=
  put_meta (put_peer s p y) a x <| b_self := me |>.

Definition more_lost (k : Z) (y : rms_meta_peer) : rms_meta_peer := y <| pe_lost := u64 (pe_lost y + k) |>.

Lemma more_lost_add j k y : more_lost k (more_lost j y) = more_lost (j + k) y.
Proof.
  assert (E : u64 (u64 (pe_lost y + j) + k) = u64 (pe_lost y + (j + k))).
  { unfold u64. by rewrite Zplus_mod_idemp_l, Z.add_assoc. }
  unfold more_lost. cbn. by rewrite E.
Qed.

(** One turn that lists a number. *)
Lemma nack_write {B} s p a y0 x0 y x me cnt z (k : Z → R B) :
  peer_at s p y0 → msg_at s a x0 → mm_data x = true → 0 ≤ cnt < INT_MAX →
  8 * (cnt + 1) ≤ Z.of_nat (length (mm_bytes x)) →
  ((_ ← wr_data a (fun b => set_field b (SIZEOF_LONG * cnt) 8 (htonl z));
    cnt ← lift (add_int cnt 1);
    _ ← upd_peer p (fun y => y <| pe_lost := u64 (pe_lost y + 1) |>);
    _ ← set_self (fun y => y <| pe_lost := u64 (pe_lost y + 1) |>);
    mret cnt) ≫= k) (nack_state s p a y x me) =
  k (cnt + 1) (nack_state s p a (more_lost 1 y)
     (x <| mm_bytes := splice (8 * Z.to_nat cnt) (le_encode 8 (htonl z)) (mm_bytes x) |>) (more_lost 1 me)).
Proof.
  intros Hp Ha Hd Hc Hl. unfold nack_state.
  assert (Ha' : msg_at (put_meta (put_peer s p y) a x <| b_self := me |>) a x)
    by (by eapply (msg_at_put (put_peer s p y))).
  apply bind_run. erewrite bind_run; cycle 1.
  { eapply wr_data_run; [done|done|]. unfold SIZEOF_LONG.
    replace (8 * cnt) with (Z.of_nat (8 * Z.to_nat cnt)) by lia. apply set_field_Ok. lia. }
  rewrite (bind_lift _ _ _ _ (add_int_Ok cnt 1 ltac:(int_lia))).
  erewrite bind_run by (eapply upd_peer_run; by eapply (peer_at_put s p y0)).
  unfold set_self. rewrite bind_modify. unfold mret, M_ret, more_lost, put_meta, put_peer. cbn.
  by rewrite !h_set_twice.
Qed.

Lemma nack_loop_lists s p a y0 x0 mu n :
  peer_at s p y0 → msg_at s a x0 →
  ∀ fuel itr cnt y x me,
  urep (pe_unseq y) mu → mm_data x = true → 0 ≤ itr → itr + Z.of_nat n ≤ INT_MAX → 0 ≤ cnt →
  Z.of_nat (length (mm_bytes x)) ≤ INT_MAX →
  8 * (cnt + Z.of_nat (length (missing mu itr n))) ≤ Z.of_nat (length (mm_bytes x)) → (n ≤ fuel)%nat →
  u64 (pe_lost y) = pe_lost y → u64 (pe_lost me) = pe_lost me →
  let l := missing mu itr n in let k := Z.of_nat (length l) in
  nack_loop fuel p a (itr + Z.of_nat n) itr cnt (nack_state s p a y x me) =
    Ok (cnt + k, nack_state s p a (more_lost k y)
          (x <| mm_bytes := splice (8 * Z.to_nat cnt) (nums l) (mm_bytes x) |>) (more_lost k me)).
Proof.
  intros Hp Ha. induction n as [|n IH]; intros fuel itr cnt y x me Hu Hd Hi Hn Hc Hb Hl Hf Hy Hm l k.
  - assert (E : nack_loop fuel p a (itr + Z.of_nat 0) itr cnt = mret cnt).
    { destruct fuel; cbn [nack_loop]; rewrite u64_id, Z.add_0_r, Z.eqb_refl by int_lia; done. }
    rewrite E. unfold mret, M_ret. subst k l. change (missing mu itr 0) with (@nil Z). cbn [length].
    rewrite Z.add_0_r. unfold more_lost. rewrite !Z.add_0_r, Hy, Hm. change (nums []) with (@nil Z).
    rewrite splice_nil. destruct x, y, me; done.
  - destruct fuel as [|fuel]; [lia|]. cbn [nack_loop]. rewrite u64_id by int_lia.
    rewrite (proj2 (Z.eqb_neq itr _)) by lia.
    erewrite bind_run by (apply load_peer_run; by eapply (peer_at_put s p y0)).
    rewrite (bind_lift _ _ _ _ (pt_get _ _ itr Hu)). unfold Spec.get. subst k l.
    revert Hl. rewrite missing_S. replace (itr + Z.of_nat (S n)) with (itr + 1 + Z.of_nat n) by lia.
    destruct (mu !! KInt itr) as [d|]; intros Hl.
    + change (1 =? 0) with false. cbn iota. rewrite bind_ret.
      rewrite (bind_lift _ _ _ _ (add_int_Ok itr 1 ltac:(int_lia))). apply IH; try done; lia.
    + change (0 =? 0) with true. cbn iota. cbn [length] in Hl.
      rewrite (nack_write s p a y0 x0) by (try done; int_lia).
      rewrite (bind_lift _ _ _ _ (add_int_Ok itr 1 ltac:(int_lia))).
      set (b1 := splice (8 * Z.to_nat cnt) (le_encode 8 (htonl itr)) (mm_bytes x)).
      assert (Hb1 : length b1 = length (mm_bytes x)) by (apply splice_length; rewrite le_encode_length; lia).
      assert (E : splice (8 * Z.to_nat (cnt + 1)) (nums (missing mu (itr + 1) n)) b1 =
                  splice (8 * Z.to_nat cnt) (nums (itr :: missing mu (itr + 1) n)) (mm_bytes x)).
      { replace (8 * Z.to_nat (cnt + 1))%nat
          with (8 * Z.to_nat cnt + length (le_encode 8 (htonl itr)))%nat by (rewrite le_encode_length; lia).
        apply splice_app. rewrite nums_length, le_encode_length. lia. }
      assert (Hidem : ∀ z, u64 (u64 z) = u64 z) by (intros; unfold u64; by rewrite Z.mod_mod).
      rewrite (IH fuel (itr + 1) (cnt + 1)); try done; try lia; try apply Hidem.
      2, 3: change (mm_bytes (x <| mm_bytes := b1 |>)) with b1; rewrite Hb1; lia.
      rewrite !more_lost_add. change (mm_bytes (x <| mm_bytes := b1 |>)) with b1. rewrite E.
      cbn [length]. replace (1 + Z.of_nat (length (missing mu (itr + 1) n)))
        with (Z.of_nat (S (length (missing mu (itr + 1) n)))) by lia.
      f_equal. f_equal. lia.
Qed.

(** [send_nack] up to its loop. *)
Lemma send_nack_start s p a y x :
  peer_at s p y → msg_at s a x → whole x →
  let h := Hdr (h_version (mm_hdr x)) RMS_NACK (u16 (htonl (pe_id y))) (htonl (pe_rcvd y)) (h_length (mm_hdr x)) in
  let fuel := (length (mm_bytes x) + Z.to_nat (htbl_count (pe_unseq y)))%nat in
  send_nack p a s =
    (cnt ← nack_loop fuel p a (u64 (pe_sent y - 1)) (i32 (pe_rcvd y + 1)) 1;
     _ ← wr_data a (fun b => set_field b 0 8 (htonl cnt));
     let cnt := i32 (cnt * SIZEOF_LONG) in
     _ ← upd_hdr a (fun h => h <| h_length := htons cnt |>);
     _ ← modify (fun s => s <| b_ucast := htonl (pe_id y) |>);
     addr ← gets b_ucast;
     sendto a (SIZEOF_RMS_HDR + cnt) (Some addr)) (put_meta s a (x <| mm_hdr := h |>)).
Proof.
  intros Hp Ha (_ & Hh & _) h fuel. unfold send_nack. rewrite (bind_run _ _ _ _ _ (load_peer_run _ _ _ Hp)).
  cbv zeta. erewrite bind_run by (by eapply upd_hdr_run).
  erewrite bind_run by (eapply upd_hdr_run; [by eapply msg_at_put|done]).
  erewrite bind_run by (eapply upd_hdr_run; [eapply msg_at_put; by eapply msg_at_put|done]).
  rewrite !put_meta_twice. erewrite bind_run by (eapply load_meta_run; by eapply msg_at_put). done.
Qed.

Lemma nack_state_id s p a y x : peer_at s p y → put_meta s a x = nack_state s p a y x (b_self s).
Proof. intros Hp. unfold nack_state. rewrite (put_peer_id _ _ _ Hp). by destruct s. Qed.

(** [send_nack] after its loop, which left the numbers [l] in the message. *)
Lemma send_nack_end s a x0 x y l b h :
  msg_at s a x0 → whole x → mm_bytes x = splice 8 (nums l) b → mm_hdr x = h →
  let k := Z.of_nat (length l) in let pk := RmsPacket (Some (htonl (pe_id y)))
    (h <| h_length := htons (8 * (1 + k)) |>) (le_encode 8 (htonl (1 + k)) ++ nums l) in
  8 * (1 + k) ≤ Z.of_nat (length b) ≤ INT_MAX →
  ∃ x', (_ ← wr_data a (fun b => set_field b 0 8 (htonl (1 + k)));
     let cnt := i32 ((1 + k) * SIZEOF_LONG) in
     _ ← upd_hdr a (fun h => h <| h_length := htons cnt |>);
     _ ← modify (fun s => s <| b_ucast := htonl (pe_id y) |>);
     addr ← gets b_ucast;
     sendto a (SIZEOF_RMS_HDR + cnt) (Some addr)) (put_meta s a x) =
   Ok (rms_sendto_ret pk, put_meta s a x' <| b_ucast := htonl (pe_id y) |> <| b_sent := b_sent s ++ [pk] |>) ∧
   whole x' ∧ mm_size x' = mm_size x ∧ length (mm_bytes x') = length b.
Proof.
  intros Ha (Hxb & Hxh & Hxd) Eb <- k pk Hl.
  assert (Hl2 : length (mm_bytes x) = length b).
  { rewrite Eb. apply splice_length. rewrite nums_length. lia. }
  erewrite bind_run by (eapply wr_data_run; [by eapply msg_at_put|done|apply (set_field_Ok _ 0 8); lia]).
  cbv zeta. erewrite bind_run by (eapply upd_hdr_run; [eapply msg_at_put; by eapply msg_at_put|done]).
  rewrite !put_meta_twice. set (x3 := _ <| mm_hdr := _ |>). rewrite bind_modify, bind_gets. cbn [b_ucast setter].
  assert (E8 : i32 ((1 + k) * SIZEOF_LONG) = Z.of_nat (8 * (1 + length l))).
  { unfold SIZEOF_LONG. rewrite i32_id; int_lia. }
  assert (Hb : length (le_encode 8 (htonl (1 + k)) ++ nums l) = (8 * (1 + length l))%nat).
  { rewrite length_app, nums_length, le_encode_length. lia. }
  assert (E3 : mm_bytes x3 = splice 0 (le_encode 8 (htonl (1 + k)) ++ nums l) b).
  { change (mm_bytes x3) with (splice 0 (le_encode 8 (htonl (1 + k))) (mm_bytes x)). rewrite Eb.
    apply (splice_before 0 (le_encode 8 (htonl (1 + k))) (nums l)). rewrite nums_length, le_encode_length. lia. }
  assert (Hl3 : length (mm_bytes x3) = length b) by (rewrite E3; apply splice_length; lia).
  assert (Epk : RmsPacket (Some (htonl (pe_id y))) (mm_hdr x3) (slice 0 (8 * (1 + length l)) (mm_bytes x3)) = pk).
  { unfold pk. f_equal; [|rewrite E3, <- Hb; apply slice_splice; lia].
    change (mm_hdr x3) with (mm_hdr x <| h_length := htons (i32 ((1 + k) * SIZEOF_LONG)) |>). rewrite E8.
    by replace (Z.of_nat (8 * (1 + length l))) with (8 * (1 + k)) by lia. }
  rewrite E8, (sendto_run _ a x3); [|by eapply (msg_at_put s)|done|lia]. rewrite Epk. exists x3. done.
Qed.

(** What is sent, and what it leaves of the state. *)
Lemma send_nack_ok s p a y x mu :
  peer_at s p y → msg_at s a x → whole x → urep (pe_unseq y) mu →
  0 ≤ pe_rcvd y → pe_rcvd y + 2 ≤ pe_sent y ≤ INT_MAX →
  u64 (pe_lost y) = pe_lost y → u64 (pe_lost (b_self s)) = pe_lost (b_self s) →
  let l := missing mu (pe_rcvd y + 1) (Z.to_nat (pe_sent y - 2 - pe_rcvd y)) in
  let k := Z.of_nat (length l) in let pk := nack_packet (h_version (mm_hdr x)) y l in
  8 * (1 + k) ≤ Z.of_nat (length (mm_bytes x)) ≤ INT_MAX →
  ∃ x', send_nack p a s = Ok (rms_sendto_ret pk,
          nack_state s p a (more_lost k y) x' (more_lost k (b_self s))
            <| b_ucast := htonl (pe_id y) |> <| b_sent := b_sent s ++ [pk] |>) ∧
        whole x' ∧ mm_size x' = mm_size x ∧ length (mm_bytes x') = length (mm_bytes x).
Proof.
  intros Hp Ha Hx Hu Hr Hq Hy Hm l k pk Hl. rewrite (send_nack_start s p a y x) by done. cbv zeta.
  rewrite (nack_state_id _ _ _ _ _ Hp).
  replace (u64 (pe_sent y - 1)) with (pe_rcvd y + 1 + Z.of_nat (Z.to_nat (pe_sent y - 2 - pe_rcvd y)))
    by (rewrite u64_id; int_lia).
  rewrite i32_id by int_lia. pose proof Hx as (Hxb & Hxh & Hxd).
  set (x1 := x <| mm_hdr := _ |>).
  erewrite bind_run; cycle 1.
  { change (mm_bytes x) with (mm_bytes x1) in Hl.
    apply (nack_loop_lists s p a y x mu); try done; try int_lia; try (apply Hl).
    pose proof (missing_length mu (Z.to_nat (pe_sent y - 2 - pe_rcvd y)) (pe_rcvd y + 1)).
    pose proof (int_keys_length mu (pe_rcvd y + 1)). rewrite (pt_count _ _ Hu).
    change (mm_bytes x1) with (mm_bytes x) in Hl. assert (k = Z.of_nat (length l)) by done. unfold l in *. lia. }
  fold l. fold k. cbv zeta. set (y2 := more_lost k y). set (me2 := more_lost k (b_self s)).
  set (x2 := x1 <| mm_bytes := _ |>). set (s1 := put_peer s p y2 <| b_self := me2 |>).
  change (nack_state s p a y2 x2 me2) with (put_meta s1 a x2).
  destruct (send_nack_end s1 a x x2 y l (mm_bytes x) (mm_hdr x1)) as (x' & E & Hx'); [done..|].
  exists x'. split; [exact E|done].
Qed.

(** The loop when the numbers it counts through do not meet its end. *)
Lemma nack_loop_runs_off s p a y0 x0 mu ks seq n :
  peer_at s p y0 → msg_at s a x0 → (∀ z d, mu !! KInt z = Some d → z ∈ ks) →
  ∀ fuel y x me itr cnt j,
  urep (pe_unseq y) mu → mm_data x = true → 0 ≤ cnt → Z.of_nat (length (mm_bytes x)) ≤ INT_MAX →
  itr mod 2 ^ 32 = (seq + 1 + j) mod 2 ^ 32 → 0 ≤ j → j + Z.of_nat n < 2 ^ 32 - 2 →
  (length (mm_bytes x) - Z.to_nat cnt + cached_from ks itr ≤ n)%nat → (n < fuel)%nat →
  ∃ f, nack_loop fuel p a (u64 (seq - 1)) itr cnt (nack_state s p a y x me) = Fault f ∧ overrun f.
Proof.
  intros Hp Ha Hks. induction n as [n IH] using lt_wf_ind.
  intros fuel y x me itr cnt j Hu Hd Hc Hb Hi Hj0 Hj Hn Hf.
  destruct fuel as [|fuel]; [lia|]. cbn [nack_loop].
  rewrite (proj2 (Z.eqb_neq _ _) (itr_not_seq2 seq itr j Hi ltac:(lia))).
  erewrite bind_run by (apply load_peer_run; by eapply (peer_at_put s p y0)).
  rewrite (bind_lift _ _ _ _ (pt_get _ _ itr Hu)).
  assert (Hi' : (itr + 1) mod 2 ^ 32 = (seq + 1 + (j + 1)) mod 2 ^ 32)
    by (rewrite Z.add_assoc, Zplus_mod, Hi, <- Zplus_mod; done).
  unfold Spec.get. destruct (mu !! KInt itr) as [d|] eqn:Emu.
  - change (1 =? 0) with false. cbn iota. rewrite bind_ret.
    destruct (add_int_cases itr 1) as [E|E]; cycle 1.
    { unfold mbind, M_bind, lift. rewrite E. eexists; split; [done|by right]. }
    rewrite (bind_lift _ _ _ _ E). pose proof (cached_from_lt ks itr (Hks _ _ Emu)).
    destruct n as [|n]; [lia|]. apply (IH n ltac:(lia) fuel y x me (itr + 1) cnt (j + 1)); try done; lia.
  - change (0 =? 0) with true. cbn iota.
    destruct (set_field_cases (mm_bytes x) (SIZEOF_LONG * cnt) 8 (htonl itr))
      as [(b & Eb & Hbl & Hroom)|Eb]; [unfold SIZEOF_LONG; lia| |]; cycle 1.
    { eexists; split; [|by left]. apply bind_fault, bind_fault.
      eapply wr_data_fault; [by eapply (msg_at_put (put_peer s p y))|done|done]. }
    unfold SIZEOF_LONG in Hroom. rewrite (nack_write s p a y0 x0) by (try done; int_lia).
    destruct (add_int_cases itr 1) as [E|E]; cycle 1.
    { unfold mbind, M_bind, lift. rewrite E. eexists; split; [done|by right]. }
    rewrite (bind_lift _ _ _ _ E). pose proof (cached_from_le ks itr). set (b1 := splice _ _ _).
    assert (Hb1 : length b1 = length (mm_bytes x)) by (apply splice_length; rewrite le_encode_length; lia).
    destruct n as [|n]; [lia|].
    apply (IH n ltac:(lia) fuel _ _ _ (itr + 1) (cnt + 1) (j + 1)); try done; try lia;
      change (mm_bytes (x <| mm_bytes := b1 |>)) with b1; lia.
Qed.

(** [send_nack] does not return when the last number that was sent is the last
    that was received. *)
Lemma send_nack_runs_off s p a y x mu :
  peer_at s p y → msg_at s a x → whole x → urep (pe_unseq y) mu → pe_sent y = pe_rcvd y →
  0 < Z.of_nat (length (mm_bytes x)) ≤ INT_MAX → Z.of_nat (size mu) < INT_MAX →
  ∃ f, send_nack p a s = Fault f ∧ overrun f.
Proof.
  intros Hp Ha Hx Hu Hq Hl Hsz. rewrite (send_nack_start s p a y x) by done. cbv zeta.
  rewrite (nack_state_id _ _ _ _ _ Hp), Hq. set (x1 := x <| mm_hdr := _ |>).
  pose proof (int_keys_length mu (i32 (pe_rcvd y + 1))).
  edestruct (nack_loop_runs_off s p a y x mu (int_keys mu) (pe_rcvd y)
    (length (mm_bytes x) - 1 + cached_from (int_keys mu) (i32 (pe_rcvd y + 1)))%nat Hp Ha) as (f & E & Hf);
    [intros; by eapply int_keys_spec|..|exists f; split; [apply bind_fault, E|done]]; try done.
  - apply Hx.
  - change (mm_bytes x1) with (mm_bytes x). lia.
  - rewrite Z.add_0_r. apply i32_mod.
  - int_lia.
  - rewrite (pt_count _ _ Hu). lia.
Qed.
End Nack.
