(* ===== verification/RmsSpec.v ===== *)
(** * The rewrite: what its handlers do with a message

    Negative acknowledgements and data messages, on a message that is in the
    buffer; file [RmsFaults] is about how it gets there. *)

From S2P Require Import Prelude StateMonad Machine Heap Pool Hashtable HashtableRepr HashtableProofs Mqueue.
From S2P Require Import Interfaces Wire RmcastWire Gap RmsState RmsManager RmsRun RmsNack.

Section Spec.
Context `{Uninit htbl_entry} `{Uninit mqueue_item} `{RmsNet} `{Fresh}.
Context (prep urep : htbl_t → gmap hkey Z → Prop) `{!PutTable prep} `{!Table urep}.

(** ** Negative acknowledgements *)

(** C10: the negative acknowledgement of the rewrite goes to the peer and lists, in
    order and after their number plus one, exactly the numbers above the last one
    received and below the one before the newest that are not cached: the number
    just before the newest is never asked for, even when it is all that is missing.
    Both counts of lost messages grow by the number of entries. *)
Theorem send_nack_requests s p a y x mu :
  peer_at s p y → msg_at s a x → whole x → urep (pe_unseq y) mu →
  0 ≤ pe_rcvd y → pe_rcvd y + 2 ≤ pe_sent y ≤ INT_MAX →
  u64 (pe_lost y) = pe_lost y → u64 (pe_lost (b_self s)) = pe_lost (b_self s) →
  let l := missing mu (pe_rcvd y + 1) (Z.to_nat (pe_sent y - 2 - pe_rcvd y)) in
  let pk := nack_packet (h_version (mm_hdr x)) y l in
  8 * (1 + Z.of_nat (length l)) ≤ Z.of_nat (length (mm_bytes x)) ≤ INT_MAX →
  (∃ s', send_nack p a s = Ok (rms_sendto_ret pk, s') ∧ b_sent s' = b_sent s ++ [pk] ∧
     peer_at s' p (more_lost (Z.of_nat (length l)) y) ∧
     b_self s' = more_lost (Z.of_nat (length l)) (b_self s) ∧ b_pool s' = b_pool s) ∧
  (∀ i, i ∈ l ↔ pe_rcvd y < i < pe_sent y - 1 ∧ mu !! KInt i = None).
Proof.
  intros Hp Ha Hx Hu Hr Hq Hy Hm l pk Hl. split.
  - destruct (send_nack_ok urep s p a y x mu Hp Ha Hx Hu Hr Hq Hy Hm Hl) as (x' & E & _).
    eexists. split; [exact E|]. split; [done|]. split; [|done]. by eapply (peer_at_put s p y).
  - intros i. unfold l. rewrite elem_of_missing. split; intros [? ?]; (split; [lia|done]).
Qed.

(** ** Data *)

(** What [send] on a blocking stream socket does. *)
Class RmsNetOk := {
  rms_send_progress o bs : bs ≠ [] → 1 ≤ rms_send_ret o bs ≤ Z.of_nat (length bs);
  rms_send_whole o bs : (length bs ≤ 4)%nat → rms_send_ret o bs = Z.of_nat (length bs)
}.
Context `{!RmsNetOk}.

Lemma ipc_send_all_ok a x fuel : ∀ s (n r : nat),
  msg_at s a x → mm_data x = true → (n ≤ length (mm_bytes x))%nat → (r ≤ n)%nat → (n - r ≤ fuel)%nat →
  ipc_send_all fuel a (Z.of_nat n) (Z.of_nat r) s =
    Ok (tt, s <| b_ipc := b_ipc s ++ slice r (n - r) (mm_bytes x) |>).
Proof.
  assert (Hend : ∀ s (n : nat), s <| b_ipc := b_ipc s ++ slice n (n - n) (mm_bytes x) |> = s).
  { intros s n. rewrite Nat.sub_diag. unfold slice. rewrite take_0, app_nil_r. by destruct s. }
  induction fuel as [|fuel IH]; intros s n r Ha Hd Hl Hr Hf; cbn [ipc_send_all].
  - assert (r = n) as -> by lia. rewrite (proj2 (Z.ltb_ge _ _)) by lia. by rewrite Hend.
  - destruct (Z.ltb_spec (Z.of_nat r) (Z.of_nat n)) as [Hlt|Hge]; cycle 1.
    { assert (r = n) as -> by lia. by rewrite Hend. }
    set (bs := slice r (n - r) (mm_bytes x)).
    assert (Hbs : length bs = (n - r)%nat) by (apply slice_length; lia).
    erewrite bind_run; cycle 1.
    { eapply rd_data_run; [done|done|]. replace (Z.of_nat n - Z.of_nat r) with (Z.of_nat (n - r)) by lia.
      apply buf_read_Ok. lia. }
    destruct (rms_send_progress (b_ipc s) bs) as [Hk1 Hk2]; [intros E; rewrite E in Hbs; cbn in Hbs; lia|].
    fold bs. unfold ipc_send at 1. set (k := rms_send_ret (b_ipc s) bs) in *.
    erewrite bind_run; [|rewrite bind_gets, bind_modify; reflexivity]. fold k.
    replace (Z.of_nat r + k) with (Z.of_nat (r + Z.to_nat k)) by lia.
    rewrite IH; [|done|done|done|lia|lia]. cbn. rewrite <- app_assoc.
    replace (n - (r + Z.to_nat k))%nat with (n - r - Z.to_nat k)%nat by lia.
    unfold bs. rewrite <- slice_split by lia. done.
Qed.

(** What the application gets of a message: its length and its data. *)
Definition frame (x : rms_meta_msg) : list Z :=
  le_encode 4 (h_length (mm_hdr x)) ++ slice 0 (Z.to_nat (h_length (mm_hdr x))) (mm_bytes x).

(** A message whose length fits. *)
Definition framed (x : rms_meta_msg) : Prop :=
  whole x ∧ 0 ≤ h_length (mm_hdr x) ≤ Z.of_nat (length (mm_bytes x)).

Lemma deliver_ok s p a y x :
  peer_at s p y → msg_at s a x → framed x →
  deliver p a s = Ok (tt, put_peer s p (y <| pe_rcvd := u64 (pe_rcvd y + 1) |>) <| b_ipc := b_ipc s ++ frame x |>).
Proof.
  intros Hp Ha [(_ & Hh & Hd) Hl]. unfold deliver. rewrite (bind_run _ _ _ _ _ (get_hdr_run _ _ _ Ha Hh)).
  cbv zeta. set (n := h_length (mm_hdr x)) in *. unfold ipc_send at 1.
  erewrite bind_run; [|rewrite bind_gets, bind_modify; reflexivity].
  rewrite rms_send_whole by (by rewrite le_encode_length). rewrite Nat2Z.id, take_ge by lia.
  set (s1 := s <| b_ipc := _ |>). replace n with (Z.of_nat (Z.to_nat n)) at 2 by lia.
  erewrite bind_run by (apply (ipc_send_all_ok a x _ s1 (Z.to_nat n) 0); [done|done|lia..]).
  erewrite upd_peer_run by exact Hp. rewrite Nat.sub_0_r. unfold s1, frame. fold n. cbn. by rewrite <- app_assoc.
Qed.
(** Peer [y], at address [p], is known under the id [i]; [mu] are the messages that
    are cached for it. *)
Record known (s : rmsb) (i p : Z) (y : rms_meta_peer) (mu : gmap hkey Z) : Prop := {
  kn_peer : peer_at s p y;
  kn_table : ∃ mm, prep (b_peers s) mm ∧ mm !! KInt (i32 i) = Some p;
  kn_cached : urep (pe_unseq y) mu
}.

Lemma peers_get_found s i p y mu : known s i p y mu → peers_get i s = Ok (Some p, s).
Proof.
  intros [_ (mm & Hm & Hp) _]. unfold peers_get. rewrite bind_gets.
  erewrite bind_lift by exact (pt_get _ _ _ Hm). unfold Spec.get. by rewrite Hp.
Qed.

(** Up to the comparison of the numbers. *)
Lemma on_data_known s a x p y mu :
  b_msg s = a → msg_at s a x → mm_hdrp x = true → known s (h_id (mm_hdr x)) p y mu →
  let q := h_sequence (mm_hdr x) in let s1 := put_peer s p (y <| pe_sent := q |>) in
  on_data s = (if negb (u64 (pe_rcvd y + 1) =? q) then
        _ ← (if pe_rcvd y <? q then
               '(_, t) ← lift (htbl_put (pe_unseq y) (i32 q) a);
               _ ← upd_peer p (fun p => p <| pe_unseq := t |>);
               msg ← alloc_meta_msg;
               _ ← set_msg msg;
               _ ← send_nack p msg;
               mret tt
             else mret tt);
        msg ← gets b_msg;
        release_meta_msg msg
      else
        _ ← deliver p a;
        y ← load_peer p;
        release_unseq (Z.to_nat (htbl_count (pe_unseq y))) p) s1.
Proof.
  intros Em Ha Hh Hk q s1. unfold on_data. rewrite bind_gets, Em, (bind_run _ _ _ _ _ (get_hdr_run _ _ _ Ha Hh)).
  rewrite (bind_run _ _ _ _ _ (peers_get_found _ _ _ _ _ Hk)).
  rewrite (bind_run _ _ _ _ _ (upd_peer_run _ _ _ _ (kn_peer _ _ _ _ _ Hk))). fold s1.
  erewrite bind_run by (eapply load_peer_run; eapply peer_at_put; apply Hk). done.
Qed.

(** A number that is not ahead goes back to the pool. *)
Lemma on_data_old s a x p y mu :
  b_msg s = a → msg_at s a x → mm_hdrp x = true → known s (h_id (mm_hdr x)) p y mu →
  u64 (pe_rcvd y + 1) ≠ h_sequence (mm_hdr x) → h_sequence (mm_hdr x) ≤ pe_rcvd y →
  on_data s = release_meta_msg a (put_peer s p (y <| pe_sent := h_sequence (mm_hdr x) |>)).
Proof.
  intros Em Ha Hh Hk Hn Hle. rewrite (on_data_known s a x p y mu) by done. cbv zeta.
  rewrite (proj2 (Z.eqb_neq _ _) Hn), (proj2 (Z.ltb_ge _ _) Hle). cbn [negb]. rewrite bind_ret, bind_gets.
  cbn. by rewrite Em.
Qed.

Lemma release_unseq_stop fuel s p y mu :
  peer_at s p y → urep (pe_unseq y) mu → mu !! KInt (i32 (pe_sent y)) = None →
  ∃ t, urep t mu ∧ release_unseq fuel p s = Ok (tt, put_peer s p (y <| pe_unseq := t |>)).
Proof.
  intros Hp Hu Hn. destruct (tb_remove _ _ (i32 (pe_sent y)) Hu) as (t & E & Ht).
  unfold Spec.remove in E, Ht. rewrite Hn in E, Ht. cbn in E, Ht. exists t. split; [done|].
  destruct fuel; cbn [release_unseq]; rewrite (bind_run _ _ _ _ _ (load_peer_run _ _ _ Hp)),
    (bind_lift _ _ _ _ E), (bind_run _ _ _ _ _ (upd_peer_run _ _ _ _ Hp)); done.
Qed.

(** The loop takes out at most one message, the copy of the one just delivered. *)
Lemma release_unseq_copy s p y mu n c x :
  peer_at s p y → urep (pe_unseq y) mu → size mu = n →
  mu !! KInt (i32 (pe_sent y)) = Some c → msg_at s c x → framed x →
  ∃ t, urep t (delete (KInt (i32 (pe_sent y))) mu) ∧
    release_unseq n p s = Ok (tt,
      put_peer s p (y <| pe_rcvd := u64 (pe_rcvd y + 1) |> <| pe_unseq := t |>) <| b_msg := c |>
        <| b_ipc := b_ipc s ++ frame x |>).
Proof.
  intros Hp Hu Hn Ek Hx Hf. destruct (tb_remove _ _ (i32 (pe_sent y)) Hu) as (t & E & Ht).
  unfold Spec.remove in E, Ht. rewrite Ek in E, Ht. cbn in E, Ht.
  destruct n as [|n]. { apply map_size_empty_inv in Hn. by rewrite Hn, lookup_empty in Ek. }
  cbn [release_unseq]. rewrite (bind_run _ _ _ _ _ (load_peer_run _ _ _ Hp)), (bind_lift _ _ _ _ E).
  rewrite (bind_run _ _ _ _ _ (upd_peer_run _ _ _ _ Hp)). change (truthy 1) with true. cbn iota.
  cbn [default from_option]. unfold set_msg. rewrite bind_modify. change (Datatypes.id c) with c.
  set (s2 := put_peer s p _ <| b_msg := c |>). set (y2 := y <| pe_unseq := t |>) in *.
  assert (Hp2 : peer_at s2 p y2) by (by eapply (peer_at_put s p y)).
  erewrite bind_run by (by apply (deliver_ok s2 p c y2 x)).
  destruct (release_unseq_stop n (put_peer s2 p (y2 <| pe_rcvd := u64 (pe_rcvd y2 + 1) |>) <| b_ipc := b_ipc s2 ++ frame x |>) p
    (y2 <| pe_rcvd := u64 (pe_rcvd y2 + 1) |>) (delete (KInt (i32 (pe_sent y))) mu)) as (t' & Ht' & E');
    [by eapply (peer_at_put s2 p y2)|done|apply lookup_delete_eq|].
  exists t'. split; [done|]. rewrite E'. unfold s2, y2, put_peer. cbn. by rewrite !h_set_twice.
Qed.

(** The state after the message that is next in sequence was delivered. *)
Definition delivered (s : rmsb) (p : Z) (y : rms_meta_peer) (x : rms_meta_msg) (t : htbl_t) : rmsb :=
  put_peer s p (y <| pe_sent := h_sequence (mm_hdr x) |> <| pe_rcvd := h_sequence (mm_hdr x) |> <| pe_unseq := t |>)
    <| b_ipc := b_ipc s ++ frame x |>.

(** The same when copy [xc] of it, at [c], is cached. *)
Definition delivered_twice (s : rmsb) (p : Z) (y : rms_meta_peer) (x : rms_meta_msg) (c : Z) (xc : rms_meta_msg) (t : htbl_t) : rmsb :=
  let q := h_sequence (mm_hdr x) in
  put_peer s p (y <| pe_sent := q |> <| pe_rcvd := u64 (q + 1) |> <| pe_unseq := t |>)
    <| b_msg := c |> <| b_ipc := b_ipc s ++ frame x ++ frame xc |>.

Lemma on_data_next s a x p y mu :
  b_msg s = a → msg_at s a x → framed x → known s (h_id (mm_hdr x)) p y mu →
  u64 (pe_rcvd y + 1) = h_sequence (mm_hdr x) →
  let k := KInt (i32 (h_sequence (mm_hdr x))) in
  (mu !! k = None → ∃ t, urep t mu ∧ on_data s = Ok (tt, delivered s p y x t)) ∧
  (∀ c xc, mu !! k = Some c → msg_at s c xc → framed xc →
     ∃ t, urep t (delete k mu) ∧ on_data s = Ok (tt, delivered_twice s p y x c xc t)).
Proof.
  intros Em Ha Hf Hk Hq k.
  assert (E : on_data s = release_unseq (size mu) p (delivered s p y x (pe_unseq y)) ∧
              peer_at (delivered s p y x (pe_unseq y)) p
                (y <| pe_sent := h_sequence (mm_hdr x) |> <| pe_rcvd := h_sequence (mm_hdr x) |>)).
  { pose proof (kn_peer _ _ _ _ _ Hk) as Hp. split; [|by eapply (peer_at_put s p y)].
    rewrite (on_data_known s a x p y mu) by (try done; apply Hf). cbv zeta.
    rewrite Hq, Z.eqb_refl. cbn [negb].
    erewrite bind_run by (apply deliver_ok; [by eapply peer_at_put|exact Ha|done]).
    erewrite bind_run by (apply load_peer_run; eapply (peer_at_put (put_peer s p _)); by eapply peer_at_put).
    cbn [pe_unseq setter]. rewrite put_peer_twice. unfold delivered. cbn. rewrite Hq.
    rewrite (pt_count _ _ (kn_cached _ _ _ _ _ Hk)), Nat2Z.id. by destruct y. }
  destruct E as [-> Hp2]. split.
  - intros Hn. edestruct (release_unseq_stop (size mu)) as (t & Ht & E); [exact Hp2|apply Hk|exact Hn|].
    exists t. split; [done|]. rewrite E. unfold delivered, put_peer. cbn. by rewrite h_set_twice.
  - intros c xc Hc Hxc Hfc. edestruct (release_unseq_copy (delivered s p y x (pe_unseq y)) p) as (t & Ht & E);
      [exact Hp2|apply Hk|reflexivity|exact Hc|exact Hxc|exact Hfc|].
    exists t. split; [done|]. rewrite E. unfold delivered, delivered_twice, put_peer. cbn.
    by rewrite h_set_twice, <- app_assoc.
Qed.

(** C11: the data message of the rewrite that is next in sequence is handed to the
    application, length first.  The loop that should then release the messages that
    follow looks for the number just delivered instead: the messages that are cached
    behind it stay there, and when a copy of the delivered message is cached the
    application gets it twice and the peer advances by two, so that the message
    after it is dropped as a duplicate. *)
Theorem rms_data_next s a x p y mu :
  b_msg s = a → msg_at s a x → framed x → known s (h_id (mm_hdr x)) p y mu →
  let q := h_sequence (mm_hdr x) in let k := KInt (i32 q) in
  u64 (pe_rcvd y + 1) = q → q + 2 < 2 ^ 64 →
  (mu !! k = None → ∃ t, urep t mu ∧ on_data s = Ok (tt, delivered s p y x t)) ∧
  (∀ c xc, mu !! k = Some c → msg_at s c xc → framed xc →
     ∃ t, urep t (delete k mu) ∧ on_data s = Ok (tt, delivered_twice s p y x c xc t) ∧
     let s' := delivered_twice s p y x c xc t in
     ∀ a2 x2, msg_at s' a2 x2 → mm_hdrp x2 = true → h_id (mm_hdr x2) = h_id (mm_hdr x) →
       h_sequence (mm_hdr x2) = q + 1 →
       ∃ s2, on_data (s' <| b_msg := a2 |>) = release_meta_msg a2 s2 ∧ b_ipc s2 = b_ipc s').
Proof.
  intros Em Ha Hf Hk q k Hq Hlt. destruct (on_data_next s a x p y mu Em Ha Hf Hk Hq) as [Hnone Hsome].
  split; [exact Hnone|]. intros c xc Hc Hxc Hfc. destruct (Hsome c xc Hc Hxc Hfc) as (t & Ht & E). clear Hnone Hsome.
  exists t. split; [done|]. split; [exact E|]. clear E. intros s' a2 x2 Hx2 Hh2 Hi2 Hq2.
  assert (0 ≤ q) by (rewrite <- Hq; apply Z.mod_pos_bound; lia).
  eexists. split; [eapply (on_data_old _ a2 x2 p); [done|exact Hx2|done| | |]|done].
  - rewrite Hi2. destruct Hk as [Hp Hm _]. split; [by eapply (peer_at_put s p y)|exact Hm|exact Ht].
  - cbn [pe_rcvd setter]. rewrite Hq2. cbn. fold q. rewrite (u64_id (q + 1)) by lia. rewrite u64_id; lia.
  - rewrite Hq2. cbn. fold q. rewrite u64_id; lia.
Qed.

(** ** Heartbeats *)

(** A field that is converted in place when it is not zero. *)
Lemma maybe_convert s a x (c : bool) (off n : nat) v :
  msg_at s a x → whole x → (off + n ≤ length (mm_bytes x))%nat →
  ∃ x', (if c then wr_data a (fun b => set_field b (Z.of_nat off) n v) else mret tt) s = Ok (tt, put_meta s a x') ∧
    whole x' ∧ length (mm_bytes x') = length (mm_bytes x) ∧
    (∀ o m, (o + m ≤ off ∨ off + n ≤ o)%nat → slice o m (mm_bytes x') = slice o m (mm_bytes x)).
Proof.
  intros Ha Hx Hl. destruct c; [|exists x; by rewrite (put_meta_id _ _ _ Ha)].
  erewrite wr_data_run; [|done|apply Hx|apply set_field_Ok; lia].
  eexists. split; [reflexivity|]. split; [done|]. cbn [mm_bytes setter]. split.
  - apply splice_length. rewrite le_encode_length. lia.
  - intros o m Ho. apply slice_splice_ne; rewrite le_encode_length; lia.
Qed.

(** A heartbeat of a known peer without acknowledgements, up to the comparison of
    the numbers. *)
Lemma on_heartbeat_known s a x p y mu now :
  b_msg s = a → msg_at s a x → whole x → (20 ≤ length (mm_bytes x))%nat →
  known s (h_id (mm_hdr x)) p y mu → le_decode (slice 16 2 (mm_bytes x)) = 0 →
  ∃ x' n, whole x' ∧ length (mm_bytes x') = length (mm_bytes x) ∧
    let y' := y <| pe_lost := n |> <| pe_last_hbeat := now |> in
    on_heartbeat now s = (
      _ ← (if negb (u64 (pe_sent y + 1) =? h_sequence (mm_hdr x)) then
             if pe_sent y <? h_sequence (mm_hdr x) then _ ← send_nack p a; mret tt else mret tt
           else mret tt);
      release_meta_msg a) (put_peer (put_meta s a x') p y').
Proof.
  intros Em Ha Hx Hl Hk Hacks. pose proof Hx as (_ & Hh & Hd). unfold on_heartbeat.
  rewrite bind_gets, Em, (bind_run _ _ _ _ _ (get_hdr_run _ _ _ Ha Hh)).
  erewrite bind_run by (eapply rd_data_run; [done|done|apply (get_field_Ok _ 8 8); lia]).
  set (namelen := le_decode (slice 8 8 (mm_bytes x))).
  erewrite bind_run by (unfold hbeat_peer; rewrite (bind_run _ _ _ _ _ (peers_get_found _ _ _ _ _ Hk)); reflexivity).
  erewrite bind_run by (eapply rd_data_run; [done|done|apply (get_field_Ok _ 0 8); lia]).
  rewrite (bind_run _ _ _ _ _ (upd_peer_run _ _ _ _ (kn_peer _ _ _ _ _ Hk))). set (y1 := y <| pe_lost := _ |>).
  set (s1 := put_peer s p y1). assert (Ha1 : msg_at s1 a x) by done.
  destruct (maybe_convert s1 a x (truthy namelen) 8 8 (htonl namelen)) as (x1 & E1 & Hx1 & Hl1 & Hs1); [done|done|lia|].
  rewrite (bind_run _ _ _ _ _ E1). clear E1. cbv zeta.
  assert (Ha2 : msg_at (put_meta s1 a x1) a x1) by (by eapply msg_at_put).
  erewrite bind_run by (eapply rd_data_run; [done|apply Hx1|apply (get_field_Ok _ 16 2); lia]).
  rewrite (Hs1 16%nat 2%nat), Hacks by lia. change (truthy 0) with false. cbn iota. rewrite bind_ret.
  erewrite bind_run by (eapply rd_data_run; [done|apply Hx1|apply (get_field_Ok _ 18 2); lia]).
  set (pg := le_decode _).
  destruct (maybe_convert (put_meta s1 a x1) a x1 (truthy pg) 18 2 (ntohs pg)) as (x2 & E2 & Hx2 & Hl2 & _);
    [done|done|lia|]. rewrite put_meta_twice in E2.
  rewrite (bind_run _ _ _ _ _ E2). clear E2.
  assert (Hp2 : peer_at (put_meta s1 a x2) p y1) by (eapply (peer_at_put s); apply Hk).
  rewrite (bind_run _ _ _ _ _ (upd_peer_run _ _ _ _ Hp2)).
  erewrite bind_run by (eapply load_peer_run, peer_at_put; exact Hp2).
  eexists x2, _. split; [done|]. split; [by rewrite Hl2|]. cbv zeta. cbn [pe_sent setter].
  assert (Es : put_peer (put_meta s1 a x2) p (y1 <| pe_last_hbeat := now |>) =
    put_peer (put_meta s a x2) p (y1 <| pe_last_hbeat := now |>)).
  { unfold s1, put_peer, put_meta. cbn. by rewrite h_set_twice. }
  rewrite Es. done.
Qed.

(** In the rewrite, a message that is lost while nothing else is missing stops the
    receiver: the next heartbeat of the peer announces a number beyond the next one,
    and the negative acknowledgement counts from the last number received away from
    its end, past the end of the message or of the counter. *)
Theorem rms_heartbeat_overruns s a x p y mu now :
  b_msg s = a → msg_at s a x → whole x → 20 ≤ Z.of_nat (length (mm_bytes x)) ≤ INT_MAX →
  known s (h_id (mm_hdr x)) p y mu → Z.of_nat (size mu) < INT_MAX →
  le_decode (slice 16 2 (mm_bytes x)) = 0 →
  pe_sent y = pe_rcvd y → 0 ≤ pe_sent y → pe_sent y + 1 < h_sequence (mm_hdr x) < 2 ^ 64 →
  ∃ f, on_heartbeat now s = Fault f ∧ overrun f.
Proof.
  intros Em Ha Hx Hl Hk Hsz Hacks Hq Hq0 Hlt.
  destruct (on_heartbeat_known s a x p y mu now) as (x' & n & Hx' & Hl' & ->); try done; [lia|].
  rewrite u64_id by lia. rewrite (proj2 (Z.eqb_neq _ _)), (proj2 (Z.ltb_lt _ _)) by lia. cbn [negb].
  set (y' := y <| pe_lost := n |> <| pe_last_hbeat := now |>).
  destruct (send_nack_runs_off urep (put_peer (put_meta s a x') p y') p a y' x' mu) as (f & E & Hf).
  - eapply (peer_at_put (put_meta s a x') p y). apply Hk.
  - by eapply (msg_at_put s).
  - done.
  - apply Hk.
  - done.
  - lia.
  - done.
  - exists f. split; [by do 2 apply bind_fault|done].
Qed.
End Spec.
