(* ===== verification/RmsFaults.v ===== *)
(** * The rewrite: how a message gets in and out

    What becomes of the identity of the sender on the way, of a datagram that is
    received over the message instead of into its buffer, of the data an
    application sends, and of a message when the ipc socket fails. *)

From S2P Require Import Prelude StateMonad Machine Heap Pool Hashtable HashtableRepr HashtableProofs Mqueue.
From S2P Require Import Interfaces Wire RmsState RmsManager RmsRun.

(** ** Headers *)

(** Four bytes turned around, of which the first two then count. *)
Lemma u16_htonl_u16 z : u16 (htonl (u16 z)) = 0.
Proof.
  assert (E : htonl (u16 z) = 65536 * (u16 z / 256 mod 256 + 256 * (u16 z mod 256))).
  { pose proof (Z.mod_pos_bound z (2 ^ 16) ltac:(lia)) as Hr. fold (u16 z) in Hr.
    unfold htonl. cbn [le_encode rev app le_decode].
    replace (u16 z / 256 / 256) with 0 by (rewrite Z.div_div by lia; symmetry; apply Z.div_small; lia).
    change (0 mod 256) with 0. change (0 / 256) with 0. change (0 mod 256) with 0. lia. }
  rewrite E. unfold u16 at 1. change (2 ^ 16) with 65536. rewrite Z.mul_comm. by apply Z.mod_mul.
Qed.

(** Of the header that the rewrite sends, the receiver gets back the type, the
    number (its low 32 bits) and the length (its low 16), but never the identity of
    the sender: [id] has 16 bits and is converted as if it had 32, so that it is 0
    for every host, and all hosts are taken for one peer. *)
Theorem rms_header_roundtrip v ty id seq n :
  ntoh_hdr (Hdr v ty (u16 (htonl id)) (htonl seq) (htons n)) = Hdr v ty 0 (u32 seq) (u16 n).
Proof.
  unfold ntoh_hdr, ntohl, ntohs. cbn -[htonl htons u16 u32].
  change (htonl (htonl seq)) with (le_decode (rev (le_encode 4 (le_decode (rev (le_encode 4 seq)))))).
  change (htons (htons n)) with (le_decode (rev (le_encode 2 (le_decode (rev (le_encode 2 n)))))).
  by rewrite u16_htonl_u16, !swap_twice.
Qed.

Section Faults.
Context `{Uninit htbl_entry} `{Uninit mqueue_item} `{RmsNet} `{Fresh}.
Context (srep : mqueue_t → list Z → Prop) `{!Stack srep}.
Context (orep : htbl_t → gmap hkey Z → Prop) `{!PutTable orep}.
Context (htbl_enum_keys : htbl_t → Z → res (list Z * Z)).

(** C37: every datagram of more than 16 bytes that reaches the manager or the receiver
    of the rewrite is fatal: it is received over the fields of the message instead of
    into its buffer, so that the pointer to the header is overwritten before it is
    used, and past 32 bytes the end of the message. *)
Theorem rms_mcast_overwrites s free now d :
  rms_pool srep s free → 16 < Z.of_nat (length d) ≤ b_bufsize s → b_bufsize s ≤ INT_MAX →
  recv_mcast htbl_enum_keys now (Some d) s = Fault (if 32 <? Z.of_nat (length d) then OutOfBounds else BadPtr).
Proof.
  intros Hp Hd Hb. destruct (alloc_ok srep _ _ Hp) as (a & q & h & x & E & Ha & ((Hxb & Hxh & Hxd) & Hsz & _) & _).
  unfold recv_mcast. rewrite (bind_run _ _ _ _ _ E). unfold set_msg. rewrite bind_modify.
  set (s1 := took s q h <| b_msg := a |>). assert (Ha1 : msg_at s1 a x) by done.
  rewrite (bind_run _ _ _ _ _ (load_meta_run _ _ _ Ha1)). cbv zeta.
  assert (Ec : cut (mm_size x) d = d).
  { unfold cut. rewrite Hsz, u64_id, (proj2 (Z.leb_le _ _)); [done|lia|int_lia]. }
  rewrite Ec. destruct (Z.ltb_spec 32 (Z.of_nat (length d))) as [Hlt|Hge].
  - apply bind_fault. eapply upd_meta_fault; [done|]. unfold over_buf. by rewrite (proj2 (Z.ltb_lt _ _) Hlt).
  - erewrite bind_run; cycle 1.
    { eapply upd_meta_run; [done|]. unfold over_buf. rewrite (proj2 (Z.ltb_ge _ _) Hge). reflexivity. }
    rewrite u64_id by int_lia. rewrite (proj2 (Z.ltb_ge _ _)) by (unfold SIZEOF_RMS_HDR; lia).
    apply bind_fault. unfold upd_hdr. eapply upd_meta_fault; [by eapply msg_at_put|]. cbn.
    by rewrite Hxh, (proj2 (Z.leb_gt _ _)) by lia.
Qed.

(** ** Data from the application *)

(** The part of [recv_ipc] before the data is received. *)
Lemma recv_ipc_alloc s a free x n r :
  rms_pool srep s (a :: free) → cells (b_msg_heap s) !! a = Some x → n ≤ b_bufsize s →
  ∃ q, srep q free ∧ let s1 := took s q (b_msg_heap s) <| b_msg := a |> in
    msg_at s1 a x ∧ sized s x ∧
    recv_ipc (Some (n, r)) s =
      (err ← (_ ← upd_meta a (over_data (default [] r));
              if match r with Some bs => Z.of_nat (length bs) | None => -1 end =? n
              then send_data a n else mret true);
       if err : bool then msg ← gets b_msg; release_meta_msg msg else mret tt) s1.
Proof.
  intros Hp Hx Hn. destruct (alloc_ok srep _ _ Hp) as (a' & q & h & x' & E & Ha & Hs & Hp' & _ & _ & Ea & Eh).
  cbn in Ea. subst a'. rewrite Eh in * by done. assert (x' = x) as -> by (destruct Ha; cbn in *; congruence).
  exists q. split; [apply Hp'|]. split; [done|]. split; [done|].
  unfold recv_ipc. unfold mbind at 1, M_bind at 1. rewrite (bind_run _ _ _ _ _ E). unfold set_msg. rewrite bind_modify, bind_gets.
  change (b_bufsize (took s q (b_msg_heap s) <| b_msg := a |>)) with (b_bufsize s).
  rewrite (proj2 (Z.ltb_ge (b_bufsize s) n)) by done. rewrite bind_ret. done.
Qed.

(** A message that is sent: its header is written, the buffer goes out as it is,
    and it is kept under its number. *)
Lemma send_data_ok s a x (n : nat) mo :
  msg_at s a x → mm_buf x = true → mm_hdrp x = true → (n ≤ length (mm_bytes x))%nat →
  orep (b_out s) mo → mo !! KInt (i32 (pe_sent (b_self s))) = None → Z.of_nat (size mo) < INT_MAX →
  let me := b_self s in
  let pk := RmsPacket None (Hdr (h_version (mm_hdr x)) RMS_DATA (u16 (htonl (pe_id me))) (htonl (pe_sent me))
              (htons (Z.of_nat n))) (slice 0 n (mm_bytes x)) in
  0 < rms_sendto_ret pk →
  ∃ s', send_data a (Z.of_nat n) s = Ok (false, s') ∧ b_sent s' = b_sent s ++ [pk] ∧
    pe_sent (b_self s') = u64 (pe_sent me + 1) ∧ b_pool s' = b_pool s ∧
    orep (b_out s') (<[KInt (i32 (pe_sent me)) := a]> mo).
Proof.
  intros Ha Hb Hh Hn Ho Hk Hsz me pk Hret. unfold send_data.
  erewrite bind_run by (by eapply (upd_meta_run s a x)). rewrite bind_gets.
  erewrite bind_run by (eapply upd_hdr_run; [by eapply msg_at_put|done]). rewrite put_meta_twice.
  set (x2 := _ <| mm_hdr := _ |>). rewrite (Z.add_comm (Z.of_nat n)). change (b_self (put_meta s a _)) with me.
  erewrite bind_run by (eapply sendto_run; [by eapply msg_at_put|done|exact Hn]).
  match goal with |- context [0 <? ?r] => change r with (rms_sendto_ret pk) end. rewrite (proj2 (Z.ltb_lt _ _) Hret), bind_gets.
  assert (Hi : in_int (i32 (pe_sent me))) by apply i32_range.
  destruct (pt_put _ _ (i32 (pe_sent me)) a Ho Hi Hsz) as (t & E & Ht). unfold Spec.put in E, Ht.
  fold me in Hk. rewrite Hk in E, Ht. cbn in E, Ht. erewrite bind_lift by exact E. cbn beta iota.
  rewrite bind_modify. unfold set_self. rewrite !bind_modify.
  eexists. split; [reflexivity|]. done.
Qed.

(** Of the data, only the length counts. *)
Lemma recv_ipc_length n bs bs' s :
  length bs' = length bs → recv_ipc (Some (n, Some bs')) s = recv_ipc (Some (n, Some bs)) s.
Proof.
  intros E. assert (over_data bs' = over_data bs) as Ed by (unfold over_data; by rewrite E).
  unfold recv_ipc. cbn [default from_option]. change (Datatypes.id bs') with bs'. by rewrite Ed, E.
Qed.

(** C38: what an application sends through the rewrite is never sent.  A message of
    more than 8 bytes is received past the end of the message object; one of at most
    8 bytes overwrites the pointer to the data, and what goes out under its number,
    and is kept for retransmission, is what the buffer held before: the result does
    not depend on the bytes that were written. *)
Theorem rms_ipc_data_lost s a free x mo bs :
  rms_pool srep s (a :: free) → cells (b_msg_heap s) !! a = Some x →
  orep (b_out s) mo → mo !! KInt (i32 (pe_sent (b_self s))) = None → Z.of_nat (size mo) < INT_MAX →
  let n := length bs in let me := b_self s in
  let pk := RmsPacket None (Hdr (h_version (mm_hdr x)) RMS_DATA (u16 (htonl (pe_id me))) (htonl (pe_sent me))
              (htons (Z.of_nat n))) (slice 0 n (mm_bytes x)) in
  Z.of_nat n + SIZEOF_RMS_HDR ≤ b_bufsize s → 0 < rms_sendto_ret pk →
  (8 < Z.of_nat n → recv_ipc (Some (Z.of_nat n, Some bs)) s = Fault OutOfBounds) ∧
  (Z.of_nat n ≤ 8 →
    (∃ s', recv_ipc (Some (Z.of_nat n, Some bs)) s = Ok (tt, s') ∧ b_sent s' = b_sent s ++ [pk] ∧
       pe_sent (b_self s') = u64 (pe_sent me + 1) ∧ orep (b_out s') (<[KInt (i32 (pe_sent me)) := a]> mo)) ∧
    ∀ bs', length bs' = n →
      recv_ipc (Some (Z.of_nat n, Some bs')) s = recv_ipc (Some (Z.of_nat n, Some bs)) s).
Proof.
  intros Hp Hx Ho Hk Hsz n me pk Hn Hret.
  assert (Hb : Z.of_nat n ≤ b_bufsize s) by (unfold SIZEOF_RMS_HDR in Hn; lia).
  destruct (recv_ipc_alloc s a free x (Z.of_nat n) (Some bs) Hp Hx Hb) as (q & Hq & Ha & Hs & E).
  set (s1 := took s q (b_msg_heap s) <| b_msg := a |>) in *. cbn [default from_option] in E.
  change (Datatypes.id bs) with bs in E. fold n in E. split; intros Hle.
  - rewrite E. do 2 apply bind_fault. eapply upd_meta_fault; [done|]. unfold over_data.
    fold n. by rewrite (proj2 (Z.ltb_lt _ _) Hle).
  - split; [|intros; by apply recv_ipc_length]. destruct Hs as ((Hxb & Hxh & Hxd) & Hsx & Hlx).
    set (x1 := x <| mm_data := mm_data x && (Z.of_nat n =? 0) |>).
    assert (Eu : upd_meta a (over_data bs) s1 = Ok (tt, put_meta s1 a x1)).
    { eapply upd_meta_run; [done|]. unfold over_data. fold n. by rewrite (proj2 (Z.ltb_ge _ _) Hle). }
    destruct (send_data_ok (put_meta s1 a x1) a x1 n mo) as (s' & Es & Hsent & Hseq & _ & Hout); try done.
    { by eapply msg_at_put. } { change (mm_bytes x1) with (mm_bytes x). lia. }
    exists s'. split; [|done]. rewrite E, (bind_run _ _ _ false s'); [done|].
    rewrite (bind_run _ _ _ _ _ Eu). by rewrite Z.eqb_refl.
Qed.

(** ** A failing ipc socket *)

Lemma sender_error s a free x n :
  rms_pool srep s (a :: free) → cells (b_msg_heap s) !! a = Some x → 0 ≤ n ≤ b_bufsize s →
  ∃ q s1, srep q (a :: free) ∧ recv_ipc (Some (n, None)) s = Ok (tt, s1) ∧
    b_pool s1 = q ∧ b_msg s1 = a ∧ b_active s1 = b_active s ∧ b_msg_heap s1 = b_msg_heap s.
Proof.
  intros Hp Hx Hn. destruct (recv_ipc_alloc s a free x n None Hp Hx) as (q & Hq & Ha & Hs & ->); [lia|].
  set (s1 := took s q (b_msg_heap s) <| b_msg := a |>) in *.
  assert (Eu : upd_meta a (over_data []) s1 = Ok (tt, s1)).
  { rewrite (upd_meta_run _ _ _ _ x Ha); [by rewrite put_meta_id|]. unfold over_data. cbn.
    rewrite andb_true_r. by destruct x. }
  erewrite bind_run; [|cbn [default from_option]; rewrite (bind_run _ _ _ _ _ Eu), (proj2 (Z.eqb_neq _ _)) by lia; reflexivity].
  cbn iota. rewrite bind_gets. change (b_msg s1) with a.
  destruct (release_ok srep s1 free a Hq) as (q' & -> & Hq'); [pose proof (rp_count _ _ _ Hp); cbn in *; lia|].
  by eexists q', _.
Qed.

(** In the rewrite, when the ipc socket fails or is closed a message is given back
    to the pool that the thread does not hold any more: after a failed read of the
    data and a read that returns nothing the pool has the same message twice, and the
    next two allocations hand it out to two owners. *)
Theorem rms_double_release s a free x n now :
  rms_pool srep s (a :: free) → cells (b_msg_heap s) !! a = Some x → 0 ≤ n ≤ b_bufsize s →
  truthy (b_active s) = true → Z.of_nat (length free) + 2 < INT_MAX →
  ∃ s', rms_sender [RmsTurn None (Some (Some (n, None))) now; RmsTurn None (Some None) now] s = Ok (tt, s') ∧
    srep (b_pool s') (a :: a :: free) ∧
    ∃ s1 s2, alloc_meta_msg s' = Ok (a, s1) ∧ alloc_meta_msg s1 = Ok (a, s2).
Proof.
  intros Hp Hx Hn Hact Hl. destruct (sender_error s a free x n Hp Hx Hn) as (q & s1 & Hq & E & Eq & Em & Eact & Eh).
  unfold rms_sender. cbn [turns_of]. rewrite bind_gets, Hact. cbn [sender_iter rt_ipc].
  rewrite (bind_run _ _ _ _ _ E), bind_gets, Eact, Hact. clear E.
  rewrite <- Eq in Hq. destruct (release_ok srep s1 (a :: free) a Hq) as (q2 & E2 & Hq2); [cbn; lia|].
  erewrite bind_run; [|unfold recv_ipc; rewrite bind_ret, bind_gets, Em; exact E2]. rewrite bind_gets.
  change (b_active (s1 <| b_pool := q2 |>)) with (b_active s1). rewrite Eact, Hact. eexists. split; [reflexivity|].
  split; [done|]. assert (Ha : truthy a = true) by (apply truthy_true; eapply heap_wf_pos; [apply Hp|done]).
  unfold alloc_meta_msg. rewrite bind_gets. destruct (st_remove _ _ Hq2) as (q3 & E3 & Hq3). cbn in E3, Hq3.
  cbn [b_pool setter]. destruct (st_remove _ _ Hq3) as (q4 & E4 & _). cbn in E4.
  eexists _, _. split.
  - rewrite (bind_lift _ _ _ _ E3), bind_modify, Ha. reflexivity.
  - rewrite bind_gets. cbn [b_pool setter]. rewrite (bind_lift _ _ _ _ E4), bind_modify, Ha. reflexivity.
Qed.
End Faults.
