(* ===== verification/RmsHbeat.v ===== *)
(** * The rewrite: sending a heartbeat

    The heartbeat announces the state of the host, and the messages that were sent
    before the heartbeat before the last are forgotten. *)

From S2P Require Import Prelude StateMonad Machine Heap Pool Hashtable HashtableRepr HashtableProofs Mqueue.
From S2P Require Import Interfaces Wire RmcastWire RmsState RmsManager RmsRun.

Lemma slice_app o n m (b : list Z) : slice o (n + m) b = slice o n b ++ slice (o + n) m b.
Proof.
  rewrite (slice_split o (n + m) n) by lia. unfold slice at 1. rewrite take_take.
  replace (n `min` (n + m))%nat with n by lia. by replace (n + m - n)%nat with m by lia.
Qed.

(** The data of a heartbeat: the fields of [rms_msg_hbeat], and behind them the name. *)
Definition hbeat_data (lost namelen : Z) : list Z := le_encode 8 lost ++ le_encode 8 namelen ++ [0; 0; 0; 0].

Lemma hbeat_data_written lost namelen name b :
  (20 + length name ≤ length b)%nat →
  let b' := splice 18 (le_encode 2 0) (splice 16 (le_encode 2 0) (splice 20 name
              (splice 8 (le_encode 8 namelen) (splice 0 (le_encode 8 lost) b)))) in
  slice 0 20 b' = hbeat_data lost namelen ∧ length b' = length b.
Proof.
  intros Hl.
  set (b1 := splice 0 (le_encode 8 lost) b). assert (L1 : length b1 = length b) by (unfold b1; wire; lia).
  set (b2 := splice 8 (le_encode 8 namelen) b1). assert (L2 : length b2 = length b) by (unfold b2; wire; lia).
  set (b3 := splice 20 name b2). assert (L3 : length b3 = length b) by (unfold b3; wire; lia).
  set (b4 := splice 16 (le_encode 2 0) b3). assert (L4 : length b4 = length b) by (unfold b4; wire; lia).
  set (b5 := splice 18 (le_encode 2 0) b4). assert (L5 : length b5 = length b) by (unfold b5; wire; lia).
  cbv zeta. split; [|done].
  assert (Hs : ∀ o n z c, (o + n ≤ length c)%nat → slice o n (splice o (le_encode n z) c) = le_encode n z).
  { intros o n z c Hc. rewrite <- (le_encode_length n z) at 1. apply slice_splice. by rewrite le_encode_length. }
  assert (E1 : slice 0 8 b5 = le_encode 8 lost).
  { unfold b5, b4, b3, b2. rewrite !slice_splice_ne by (rewrite ?le_encode_length; fold b2 b3 b4; lia). apply Hs. lia. }
  assert (E2 : slice 8 8 b5 = le_encode 8 namelen).
  { unfold b5, b4, b3. rewrite !slice_splice_ne by (rewrite ?le_encode_length; fold b3 b4; lia). apply Hs. lia. }
  assert (E3 : slice 16 2 b5 = [0; 0]).
  { unfold b5. rewrite slice_splice_ne by (rewrite ?le_encode_length; lia). apply (Hs 16%nat 2%nat 0). lia. }
  assert (E4 : slice 18 2 b5 = [0; 0]) by (apply (Hs 18%nat 2%nat 0); lia).
  change 20%nat with (8 + (8 + (2 + 2)))%nat. rewrite !slice_app. cbn [Nat.add]. by rewrite E1, E2, E3, E4.
Qed.

Section Hbeat.
Context `{Uninit htbl_entry} `{Uninit mqueue_item} `{RmsNet} `{Fresh}.
Context (srep : mqueue_t → list Z → Prop) `{!Stack srep}.
Context (orep : htbl_t → gmap hkey Z → Prop) `{!Table orep}.

(** ** Forgetting messages *)

(** The kept messages with the [n] numbers from [lo] on. *)
Definition kept (mo : gmap hkey Z) (lo : Z) (n : nat) : list Z :=
  omap (fun i => mo !! KInt i) (seqZ lo (Z.of_nat n)).

Lemma kept_S mo lo n : kept mo lo (S n) = match mo !! KInt lo with Some d => d :: kept mo (lo + 1) n | None => kept mo (lo + 1) n end.
Proof.
  unfold kept. rewrite seqZ_cons by lia. replace (Z.pred (Z.of_nat (S n))) with (Z.of_nat n) by lia. done.
Qed.

Lemma kept_delete mo lo n i : i < lo → kept (delete (KInt i) mo) lo n = kept mo lo n.
Proof.
  revert lo. induction n as [|n IH]; intros lo Hi; [done|]. rewrite !kept_S, IH by lia.
  by rewrite lookup_delete_ne by (intros [=]; lia).
Qed.

(** [mo] without the numbers from [lo] to [hi]. *)
Definition forgets (mo mo' : gmap hkey Z) (lo hi : Z) : Prop :=
  ∀ i, mo' !! KInt i = if decide (lo ≤ i < hi) then None else mo !! KInt i.

Lemma clear_outbuf_ok n : ∀ s mo free,
  orep (b_out s) mo → srep (b_pool s) free → 0 ≤ b_oldest s → b_oldest s + Z.of_nat n ≤ INT_MAX →
  Z.of_nat (length free + n) < INT_MAX →
  ∃ t q mo', orep t mo' ∧ forgets mo mo' (b_oldest s) (b_oldest s + Z.of_nat n) ∧
    srep q (rev (kept mo (b_oldest s) n) ++ free) ∧
    clear_outbuf (fun _ => mret tt) n s =
      Ok (tt, s <| b_out := t |> <| b_pool := q |> <| b_oldest := b_oldest s + Z.of_nat n |>).
Proof.
  induction n as [|n IH]; intros s mo free Ho Hq Hlo Hhi Hl.
  { exists (b_out s), (b_pool s), mo. split; [done|]. split; [|split; [done|]].
    - intros i. by rewrite decide_False by lia.
    - cbn. rewrite Z.add_0_r. by destruct s. }
  cbn [clear_outbuf]. rewrite !bind_gets. rewrite i32_id by int_lia.
  destruct (tb_remove _ _ (b_oldest s) Ho) as (t & E & Ht). unfold Spec.remove in E, Ht.
  set (mo1 := delete (KInt (b_oldest s)) mo).
  assert (∃ r d q, htbl_remove (b_out s) (b_oldest s) = Ok (r, d, t) ∧ orep t mo1 ∧
    (∃ free', srep q free' ∧ (length free' ≤ length free + 1)%nat ∧
      rev (kept mo (b_oldest s) (S n)) ++ free = rev (kept mo1 (b_oldest s + 1) n) ++ free') ∧
    (if truthy r then _ ← mret tt; release_meta_msg (default NULL d) else mret tt) (s <| b_out := t |>) =
      Ok (tt, s <| b_out := t |> <| b_pool := q |>)) as (r & d & q & E' & Ht' & (free' & Hq' & Hl' & Hk) & Er).
  { unfold mo1. rewrite kept_S, kept_delete by lia. destruct (mo !! KInt (b_oldest s)) as [d|] eqn:Ed; cbn in E, Ht.
    - set (s0 := s <| b_out := t |>). destruct (release_ok srep s0 free d Hq) as (q & Eq & Hq'); [lia|].
      exists 1, (Some d), q. split; [done|]. split; [done|]. split;
        [|change (truthy 1) with true; cbn iota; rewrite bind_ret; change (default NULL (Some d)) with d; exact Eq].
      exists (d :: free). split; [done|]. cbn. rewrite <- app_assoc. split; [lia|done].
    - exists 0, None, (b_pool s). rewrite delete_id by done. split; [done|]. split; [done|]. split.
      + exists free. split; [done|]. split; [lia|done].
      + by destruct s. }
  rewrite (bind_lift _ _ _ _ E'), bind_modify, (bind_run _ _ _ _ _ Er), bind_modify. cbn [b_oldest setter]. clear E E' Er.
  rewrite u64_id by int_lia. set (s1 := _ <| b_oldest := _ |>).
  destruct (IH s1 mo1 free') as (t2 & q2 & mo2 & Ht2 & Hf2 & Hq2 & E2); [done|done|cbn; lia|cbn; lia|lia|].
  exists t2, q2, mo2. split; [done|]. split; [|split].
  - intros i. rewrite (Hf2 i). cbn [s1 b_oldest setter]. unfold mo1. repeat case_decide; try lia; try done.
    + assert (i = b_oldest s) as -> by lia. apply lookup_delete_eq.
    + apply lookup_delete_ne. intros [=]. lia.
  - rewrite Hk. exact Hq2.
  - rewrite E2. unfold s1. cbn. by replace (b_oldest s + 1 + Z.of_nat n) with (b_oldest s + Z.of_nat (S n)) by lia.
Qed.

(** ** The heartbeat *)

(** What goes out: the name is announced but, not being counted, not sent. *)
Definition hbeat_packet (version : Z) (me : rms_meta_peer) (name : cstring) : rms_packet :=
  RmsPacket None (Hdr version RMS_HEARTBEAT (u16 (htonl (pe_id me))) (htonl (pe_sent me)) (htons SIZEOF_RMS_HBEAT))
    (hbeat_data (htonl (pe_lost me)) (htons (Z.of_nat (length name)))).

(** Message [a] while it is filled: header [h], data [b]. *)
Definition filling (s : rmsb) (a : Z) (x : rms_meta_msg) (h : rms_msg_hdr) (b : list Z) : rmsb :=
  put_meta s a (x <| mm_hdr := h |> <| mm_bytes := b |>).

Lemma filling_at s a x h b : msg_at s a x → msg_at (filling s a x h b) a (x <| mm_hdr := h |> <| mm_bytes := b |>).
Proof. apply msg_at_put. Qed.

Lemma bind_upd_filling {B} s a x h b f (k : unit → R B) :
  msg_at s a x → whole x → (upd_hdr a f ≫= k) (filling s a x h b) = k tt (filling s a x (f h) b).
Proof.
  intros Ha Hx. erewrite bind_run by (eapply upd_hdr_run; [by apply filling_at|apply Hx]).
  unfold filling. by rewrite put_meta_twice.
Qed.

Lemma bind_wr_filling {B} s a x h b f b' (k : unit → R B) :
  msg_at s a x → whole x → f b = Ok b' → (wr_data a f ≫= k) (filling s a x h b) = k tt (filling s a x h b').
Proof.
  intros Ha Hx E. erewrite bind_run by (eapply wr_data_run; [by apply filling_at|apply Hx|exact E]).
  unfold filling. by rewrite put_meta_twice.
Qed.

(** The part of [send_hbeat] that follows the datagram. *)
Definition hbeat_after (a ret : Z) : R Z :=
  _ ← release_meta_msg a;
  _ ← modify (fun s => s <| b_p3 := b_p2 s |>);
  _ ← modify (fun s => s <| b_p2 := b_p1 s |>);
  _ ← modify (fun s => s <| b_p1 := pe_sent (b_self s) |>);
  p3 ← gets b_p3;
  old ← gets b_oldest;
  _ ← clear_outbuf (fun _ => mret tt) (Z.to_nat (p3 - old));
  mret ret.

Lemma send_hbeat_start s a free x name :
  rms_pool srep s (a :: free) → cells (b_msg_heap s) !! a = Some x → b_hostname s = Some name → b_hb_ack s = 0 →
  (21 + length name ≤ length (mm_bytes x))%nat →
  let pk := hbeat_packet (h_version (mm_hdr x)) (b_self s) name in
  ∃ q x', srep q free ∧
    send_hbeat None 0 s = hbeat_after a (rms_sendto_ret pk)
      (put_meta (s <| b_pool := q |>) a x' <| b_sent := b_sent s ++ [pk] |>).
Proof.
  intros Hp Hx Hname Hack Hl pk.
  destruct (alloc_ok srep _ _ Hp) as (a' & q & h & x' & E & Ha & (Hw & _) & Hp' & _ & _ & Ea & Eh).
  cbn in Ea. subst a'. rewrite Eh in * by done. assert (x' = x) as -> by (destruct Ha; cbn in *; congruence).
  rewrite <- took_pool in *. set (s1 := s <| b_pool := q |>) in *. clear Eh.
  unfold send_hbeat. rewrite (bind_run _ _ _ _ _ E). clear E.
  replace s1 with (filling s1 a x (mm_hdr x) (mm_bytes x)) by (unfold filling; destruct x; by apply put_meta_id).
  rewrite bind_upd_filling, bind_gets, !bind_upd_filling by done. cbv zeta.
  change (b_self (filling _ _ _ _ _)) with (b_self s). set (me := b_self s).
  rewrite (bind_wr_filling _ _ _ _ _ _ (splice 0 (le_encode 8 (htonl (pe_lost me))) (mm_bytes x)))
    by (try done; apply (set_field_Ok _ 0 8); lia).
  rewrite bind_gets. change (b_hostname (filling _ _ _ _ _)) with (b_hostname s). rewrite Hname.
  set (n := length name). set (b1 := splice 0 _ (mm_bytes x)).
  assert (L1 : length b1 = length (mm_bytes x)) by (unfold b1; wire; lia).
  rewrite bind_assoc, (bind_wr_filling _ _ _ _ _ _ (splice 8 (le_encode 8 (htons (Z.of_nat n))) b1))
    by (try done; apply (set_field_Ok _ 8 8); lia).
  set (b2 := splice 8 _ b1). assert (L2 : length b2 = length (mm_bytes x)) by (unfold b2; wire; lia).
  set (nm := (u8 <$> name) ++ [0]). assert (Ln : length nm = S n) by (unfold nm; rewrite length_app, length_fmap; cbn; lia).
  rewrite bind_assoc, (bind_wr_filling _ _ _ _ _ _ (splice 20 nm b2))
    by (try done; apply (buf_write_Ok b2 20 nm); lia).
  set (b3 := splice 20 _ b2). assert (L3 : length b3 = length (mm_bytes x)) by (unfold b3; wire; lia).
  rewrite bind_ret, bind_gets. change (b_hb_ack (filling _ _ _ _ _)) with (b_hb_ack s). rewrite Hack.
  change (truthy 0) with false. cbn iota.
  rewrite bind_assoc, (bind_wr_filling _ _ _ _ _ _ (splice 16 (le_encode 2 0) b3))
    by (try done; apply (set_field_Ok _ 16 2); lia).
  set (b4 := splice 16 _ b3). assert (L4 : length b4 = length (mm_bytes x)) by (unfold b4; wire; lia).
  rewrite bind_ret, (bind_run _ _ _ _ _ (load_meta_run _ _ _ (filling_at _ _ _ _ _ Ha))).
  rewrite bind_assoc, (bind_wr_filling _ _ _ _ _ _ (splice 18 (le_encode 2 0) b4))
    by (try done; apply (set_field_Ok _ 18 2); lia).
  rewrite bind_ret, bind_upd_filling by done.
  destruct (hbeat_data_written (htonl (pe_lost me)) (htons (Z.of_nat n)) nm (mm_bytes x)) as [Eb L5]; [lia|].
  fold b1 b2 b3 b4 in Eb, L5. set (b5 := splice 18 _ b4) in *.
  erewrite bind_run by (apply (sendto_run _ _ _ 20 None (filling_at _ _ _ _ _ Ha)); [apply Hw|cbn; lia]).
  cbv zeta. cbn [mm_bytes mm_hdr setter]. rewrite Eb.
  change (RmsPacket None _ (hbeat_data _ _)) with pk. unfold filling.
  eexists q, _. split; [apply Hp'|]. reflexivity.
Qed.

(** C12: a heartbeat of the rewrite without acknowledgements ([hb_ack] is 0) carries the
    number the host will use next and its count of lost messages; the length of the
    host name is announced but the name is not sent, since it is not counted in the
    length of the datagram.  The pool is taken as the [mqueue_t] it is used as.  The
    host then
    forgets the messages with numbers below the number of two heartbeats ago, and no
    others, and gives them back to the pool on top of the heartbeat's own. *)
Theorem rms_heartbeat_sent s a free x name mo :
  rms_pool srep s (a :: free) → cells (b_msg_heap s) !! a = Some x → b_hostname s = Some name → b_hb_ack s = 0 →
  (21 + length name ≤ length (mm_bytes x))%nat →
  orep (b_out s) mo → 0 ≤ b_oldest s ≤ b_p2 s → b_p2 s ≤ INT_MAX →
  Z.of_nat (length free) + 1 + (b_p2 s - b_oldest s) < INT_MAX →
  let pk := hbeat_packet (h_version (mm_hdr x)) (b_self s) name in
  ∃ s' mo', send_hbeat None 0 s = Ok (rms_sendto_ret pk, s') ∧ b_sent s' = b_sent s ++ [pk] ∧
    b_p1 s' = pe_sent (b_self s) ∧ b_p2 s' = b_p1 s ∧ b_p3 s' = b_p2 s ∧ b_oldest s' = b_p2 s ∧
    orep (b_out s') mo' ∧ forgets mo mo' (b_oldest s) (b_p2 s) ∧
    srep (b_pool s') (rev (kept mo (b_oldest s) (Z.to_nat (b_p2 s - b_oldest s))) ++ a :: free).
Proof.
  intros Hp Hx Hname Hack Hl Ho Hold Hp2 Hc pk.
  destruct (send_hbeat_start s a free x name Hp Hx Hname Hack Hl) as (q & x' & Hq & E). cbv zeta in E.
  fold pk in E. rewrite E. clear E. unfold hbeat_after. set (s1 := put_meta _ a x' <| b_sent := _ |>).
  destruct (release_ok srep s1 free a Hq) as (q1 & E1 & Hq1); [lia|].
  rewrite (bind_run _ _ _ _ _ E1), !bind_modify, !bind_gets. clear E1. set (s2 := _ <| b_p1 := _ |>).
  change (b_p3 s2) with (b_p2 s). change (b_oldest s2) with (b_oldest s). set (n := Z.to_nat (b_p2 s - b_oldest s)).
  destruct (clear_outbuf_ok n s2 mo (a :: free)) as (t & q2 & mo' & Ht & Hf & Hq2 & E2);
    [done|done|cbn; lia|change (b_oldest s2) with (b_oldest s); lia|cbn; lia|].
  rewrite (bind_run _ _ _ _ _ E2). clear E2. change (b_oldest s2) with (b_oldest s) in *.
  replace (b_oldest s + Z.of_nat n) with (b_p2 s) in * by lia.
  eexists _, mo'. split; [reflexivity|]. by repeat (split; [done|]).
Qed.
End Hbeat.
