(* ===== verification/RmsExamples.v ===== *)
(** * The threads of the rewrite, run

    A host with one peer, one message in hand, one that is cached and one in the
    pool.  It instantiates the theorems about the rewrite. *)

From Stdlib Require Import SpecFloat.
From S2P Require Import Prelude StateMonad Machine Heap Pool Hashtable HashtableRepr HashtableProofs.
From S2P Require Import HashtableSpec Mqueue MqueueRepr MqueueProofs MqueueSpec Interfaces.
From S2P Require Import Wire Gap RmsState RmsManager RmsRun RmsNack RmsSpec RmsFaults RmsHbeat.

#[local] Instance entry0 : Uninit htbl_entry := Entry 0 0 0 0 0.
#[local] Instance item0 : Uninit mqueue_item := Item 0 0.
#[local] Instance net_whole : RmsNet :=
  {| rms_sendto_ret p := 12 + Z.of_nat (length (rp_data p)); rms_send_ret _ bs := Z.of_nat (length bs) |}.
#[local] Program Instance fresh0 : Fresh := {| fresh_bytes n := replicate n 0; fresh_int := 0 |}.
Next Obligation. intros. apply length_replicate. Qed.

#[local] Instance net_whole_ok : RmsNetOk.
Proof. split; [|done]. intros o bs Hbs. cbn. destruct bs; [done|]. cbn. lia. Qed.

Definition no_keys (t : htbl_t) (n : Z) : res (list Z * Z) := Ok ([], 0).

(** ** Tables and queues *)

Definition no_table : htbl_t := Htbl (Hashtbl 0 0 [] [] (Pool 0 0 0 0)) heap_empty heap_empty.
Definition no_queue : mqueue_t := MqueueT (Mqueue 0 0 0 (Pool 0 0 0 0) 0 0) heap_empty.
Definition table_of (r : res (Z * htbl_t)) : htbl_t := match r with Ok (_, t) => t | Fault _ => no_table end.
Definition queue_of (r : res mqueue_t) : mqueue_t := match r with Ok q => q | Fault _ => no_queue end.

Definition empty10 : htbl_t := Eval vm_compute in table_of (htbl_init 10 0).
Definition put1 (k d : Z) : htbl_t := table_of (htbl_put empty10 k d).
Definition pool1 : mqueue_t := Eval vm_compute in queue_of (mqueue_add (queue_of (mqueue_init 4)) 3).

Lemma empty10_ok : plain empty10 ∅.
Proof.
  destruct (htbl_init_plain 10) as (t & E & Ht); [int_lia|]. vm_compute in E. injection E as <-. exact Ht.
Qed.

Lemma put1_ok k d : in_int k → plain (put1 k d) {[KInt k := d]}.
Proof.
  intros Hk. destruct (pt_put _ _ k d empty10_ok Hk) as (t & E & Ht); [vm_compute; congruence|].
  unfold put1. rewrite E. exact Ht.
Qed.

Lemma pool1_ok : qlifo pool1 [3].
Proof.
  destruct (mqueue_init_ok 4) as (q & E & Hq & _ & _); [int_lia|]. vm_compute in E. injection E as <-.
  destruct (st_add _ _ 3 Hq) as (q & E & Hq'); [vm_compute; congruence|]. vm_compute in E. injection E as <-. exact Hq'.
Qed.

(** ** The host *)

(** Message number [seq], of type [ty], in a buffer of 52 bytes. *)
Definition meta (ty seq len : Z) (bs : list Z) : rms_meta_msg :=
  Meta true 52 0 true true (Hdr 0 ty 0 seq len) (bs ++ replicate (40 - length bs) 0).

Definition peer0 (sent : Z) (t : htbl_t) : rms_meta_peer := Peer 0 [104] sent 4 0 0 (Timeval 0 0) t.

(** [first] is in hand, at address 1; address 2 is cached, address 3 in the pool. *)
Definition host (first : rms_meta_msg) (p : rms_meta_peer) : rmsb :=
  Rmsb 1 0 None (Peer 7 [105] 9 0 0 0 (Timeval 0 0) empty10) pool1 52 (put1 0 1) no_queue empty10 0 0 0 0 0 1
    (f_of_int 0) (f_of_int 0) 0 1 (h_new heap_empty p)
    (h_new (h_new (h_new heap_empty first) (meta RMS_DATA 5 2 [8; 9])) (meta RMS_DATA 0 0 [1])) [] [].

Lemma host_peer x p : peer_at (host x p) 1 p.
Proof. split; [apply heap_wf_new, heap_empty_wf|reflexivity]. Qed.
Lemma host_msg x p : msg_at (host x p) 1 x.
Proof. split; [do 3 apply heap_wf_new; apply heap_empty_wf|reflexivity]. Qed.
Lemma host_known x p t mu :
  h_id (mm_hdr x) = 0 → pe_unseq p = t → plain t mu → known plain plain (host x p) (h_id (mm_hdr x)) 1 p mu.
Proof.
  intros -> <- Ht. split; [apply host_peer| |done]. exists {[KInt 0 := 1]}. split; [|apply lookup_singleton_eq].
  apply put1_ok. int_lia.
Qed.
Lemma host_pool x p : rms_pool qlifo (host x p) [3].
Proof.
  split; [apply host_msg|exact pool1_ok|apply NoDup_singleton| |vm_compute; congruence|vm_compute; congruence].
  intros a ->%list_elem_of_singleton. eexists. split; [reflexivity|]. by repeat split.
Qed.

(** ** The theorems at this host *)

(** Numbers 5 to 8 are missing, 6 is cached: 5 and 7 are asked for, 8 is not. *)
Lemma send_nack_requests_witness :
  ∃ s', send_nack 1 1 (host (meta 0 0 0 []) (peer0 9 (put1 6 2))) = Ok (36, s') ∧
    b_sent s' = [nack_packet 0 (peer0 9 (put1 6 2)) [5; 7]].
Proof.
  set (y := peer0 9 (put1 6 2)). set (x := meta 0 0 0 []).
  destruct (send_nack_requests plain (host x y) 1 1 y x {[KInt 6 := 2]}) as [(s' & E & Hs & _) _].
  - apply host_peer.
  - apply host_msg.
  - done.
  - apply put1_ok. int_lia.
  - cbn. lia.
  - cbn. int_lia.
  - reflexivity.
  - reflexivity.
  - vm_compute. split; congruence.
  - exists s'. split; [exact E|exact Hs].
Defined.

(** Number 5, of which a copy is cached. *)
Lemma rms_data_next_witness :
  ∃ t, on_data (host (meta RMS_DATA 5 2 [6; 7]) (peer0 4 (put1 5 2))) =
      Ok (tt, delivered_twice (host (meta RMS_DATA 5 2 [6; 7]) (peer0 4 (put1 5 2))) 1 (peer0 4 (put1 5 2))
                (meta RMS_DATA 5 2 [6; 7]) 2 (meta RMS_DATA 5 2 [8; 9]) t) ∧
    plain t ∅.
Proof.
  set (y := peer0 4 (put1 5 2)). set (x := meta RMS_DATA 5 2 [6; 7]).
  destruct (rms_data_next plain plain (host x y) 1 x 1 y {[KInt 5 := 2]}) as [_ H2].
  - reflexivity.
  - apply host_msg.
  - split; [done|]. vm_compute. split; congruence.
  - apply (host_known x y (put1 5 2)); [done|done|]. apply put1_ok. int_lia.
  - reflexivity.
  - reflexivity.
  - destruct (H2 2 (meta RMS_DATA 5 2 [8; 9])) as (t & Ht & E & _).
    + apply lookup_singleton_eq.
    + split; [apply (host_msg x y)|reflexivity].
    + split; [done|]. vm_compute. split; congruence.
    + exists t. split; [exact E|]. clear E. by rewrite delete_singleton_eq in Ht.
Defined.

(** Everything up to 4 was received, and the heartbeat announces 6. *)
Lemma rms_heartbeat_overruns_witness :
  ∃ f, on_heartbeat (Timeval 5 0) (host (meta RMS_HEARTBEAT 6 20 []) (peer0 4 empty10)) = Fault f ∧ overrun f.
Proof.
  set (y := peer0 4 empty10). set (x := meta RMS_HEARTBEAT 6 20 []).
  apply (rms_heartbeat_overruns plain plain (host x y) 1 x 1 y ∅).
  - reflexivity.
  - apply host_msg.
  - done.
  - vm_compute. split; congruence.
  - apply (host_known x y empty10); [done|done|exact empty10_ok].
  - vm_compute. reflexivity.
  - reflexivity.
  - reflexivity.
  - cbn. lia.
  - vm_compute. split; reflexivity.
Defined.

Lemma rms_mcast_overwrites_witness :
  recv_mcast no_keys (Timeval 5 0) (Some (replicate 20 7)) (host (meta 0 0 0 []) (peer0 4 empty10)) = Fault BadPtr.
Proof.
  apply (rms_mcast_overwrites qlifo no_keys (host (meta 0 0 0 []) (peer0 4 empty10)) [3] (Timeval 5 0) (replicate 20 7)).
  - apply host_pool.
  - vm_compute. split; congruence.
  - vm_compute. congruence.
Defined.

(** The application sends 6 and 7; the buffer holds 1 and 0. *)
Lemma rms_ipc_data_lost_witness :
  ∃ s', recv_ipc (Some (2, Some [6; 7])) (host (meta 0 0 0 []) (peer0 4 empty10)) = Ok (tt, s') ∧
    b_sent s' = [RmsPacket None (Hdr 0 RMS_DATA 0 (htonl 9) (htons 2)) [1; 0]].
Proof.
  set (s := host (meta 0 0 0 []) (peer0 4 empty10)).
  destruct (rms_ipc_data_lost qlifo plain s 3 [] (meta RMS_DATA 0 0 [1]) ∅ [6; 7]) as [_ H2].
  - apply host_pool.
  - reflexivity.
  - exact empty10_ok.
  - apply lookup_empty.
  - vm_compute. reflexivity.
  - vm_compute. congruence.
  - vm_compute. reflexivity.
  - destruct (H2 ltac:(vm_compute; congruence)) as [(s' & E & Hs & _) _]. exists s'. split; [exact E|exact Hs].
Defined.

Lemma rms_double_release_witness :
  ∃ s', rms_sender [RmsTurn None (Some (Some (2, None))) (Timeval 5 0); RmsTurn None (Some None) (Timeval 6 0)]
          (host (meta 0 0 0 []) (peer0 4 empty10)) = Ok (tt, s') ∧ qlifo (b_pool s') [3; 3].
Proof.
  destruct (rms_double_release qlifo (host (meta 0 0 0 []) (peer0 4 empty10)) 3 [] (meta RMS_DATA 0 0 [1]) 2 (Timeval 5 0))
    as (s' & E & Hq & _).
  - apply host_pool.
  - reflexivity.
  - vm_compute. split; congruence.
  - reflexivity.
  - vm_compute. reflexivity.
  - exists s'. split; [exact E|exact Hq].
Defined.

(** Message 0, at address 2, was sent before the heartbeat before the last. *)
Definition host_kept : rmsb :=
  host (meta 0 0 0 []) (peer0 4 empty10) <| b_hostname := Some [104] |> <| b_out := put1 0 2 |> <| b_p2 := 1 |>.

Lemma rms_heartbeat_sent_witness :
  ∃ s' mo', send_hbeat None 0 host_kept = Ok (32, s') ∧
    b_sent s' = [hbeat_packet 0 (b_self host_kept) [104]] ∧ b_oldest s' = 1 ∧
    plain (b_out s') mo' ∧ mo' !! KInt 0 = None ∧ qlifo (b_pool s') [2; 3].
Proof.
  destruct (rms_heartbeat_sent qlifo plain host_kept 3 [] (meta RMS_DATA 0 0 [1]) [104] {[KInt 0 := 2]})
    as (s' & mo' & E & Hs & _ & _ & _ & Hold & Ho & Hf & Hq).
  - destruct (host_pool (meta 0 0 0 []) (peer0 4 empty10)) as [H1 H2 H3 H4 H5 H6]. by split.
  - reflexivity.
  - reflexivity.
  - reflexivity.
  - cbn. lia.
  - apply put1_ok. int_lia.
  - vm_compute. split; congruence.
  - vm_compute. congruence.
  - vm_compute. reflexivity.
  - exists s', mo'. split; [exact E|]. clear E. split; [exact Hs|]. split; [exact Hold|]. split; [exact Ho|].
    split; [apply (Hf 0)|exact Hq].
Defined.
