(* ===== verification/RmsInit.v ===== *)
(** * Starting the rewrite: [src/rms.c]

    [rms_init] sets up the control block and starts the three threads.  It calls
    [uthread_init] without the priority that function takes, and [rms_peer_init],
    which is defined nowhere: both are parameters, as are the answers of the calls
    to the system.  A failed start of a thread goes unnoticed. *)

From S2P Require Import Prelude Machine Heap Pool Hashtable Mqueue MqueueRepr MqueueSpec UthreadLife RmsChannel RmsState.

Definition RMS_ERR_THREADING : Z := -20011.

(** The control block, as far as [rms.c] sets it. *)
Record rms_cb := RmsCb {
  rc_version : Z;
  rc_channels : mqueue_t;          (* mq_channels *)
  rc_channels_tmp : mqueue_t;      (* the queue in mq_channels_tmp *)
  rc_msg_pool : mqueue_t;          (* the queue in mq_meta_msg_pool *)
  rc_state : Z;
  rc_hostname : option cstring;
  rc_id : Z;
  rc_ip_addr : Z;
  rc_self : option rms_meta_peer;
  rc_initialized : Z;
  rc_maxsock : Z;
  rc_n_channels : Z;
  rc_sock : Z;
  rc_listening : Z;
  rc_error : Z;
  rc_active : Z;
  rc_mgr : uthread_t;              (* rms_mgr_thr, ... *)
  rc_snd : uthread_t;
  rc_rcv : uthread_t;
  rc_threads : pthreads            (* the threads there are *)
}.
#[global] Instance rms_cb_eta : Eta rms_cb := fun r =>
  RmsCb (rc_version r) (rc_channels r) (rc_channels_tmp r) (rc_msg_pool r) (rc_state r) (rc_hostname r) (rc_id r)
    (rc_ip_addr r) (rc_self r) (rc_initialized r) (rc_maxsock r) (rc_n_channels r) (rc_sock r) (rc_listening r)
    (rc_error r) (rc_active r) (rc_mgr r) (rc_snd r) (rc_rcv r) (rc_threads r).

(** What is answered while one thread is set up and started. *)
Record thread_calls := ThreadCalls {
  tc_key : Z;
  tc_setsched : Z;
  tc_setscope : Z;
  tc_create : Z;
  tc_id : Z
}.

Section Init.
Context `{Uninit mqueue_item} `{Uninit uthread}.
Variable rms_peer_init : cstring → Z → res rms_meta_peer.
(** The control block and the functions of the threads, by address. *)
Variables rmsb_addr manager_addr sender_addr receiver_addr : Z.

(** [if(call < 0) { rmsb->error = RMS_ERR_THREADING; return -1; }] *)
Definition or_fail (ret : Z) (s : rms_cb) (k : res (Z * rms_cb)) : res (Z * rms_cb) :=
  if ret <? 0 then Ok (-1, s <| rc_error := RMS_ERR_THREADING |>) else k.

(** The second part: the threads. *)
Definition start_threads (prio : Z) (cm cs cr : thread_calls) (s : rms_cb) : res (Z * rms_cb) :=
  '(ret, t) ← uthread_init manager_addr prio (tc_key cm) (tc_setsched cm);
  let s := s <| rc_mgr := t |> in
  or_fail ret s (
  '(ret, t) ← uthread_init sender_addr prio (tc_key cs) (tc_setsched cs);
  let s := s <| rc_snd := t |> in
  or_fail ret s (
  '(ret, t) ← uthread_init receiver_addr prio (tc_key cr) (tc_setsched cr);
  let s := s <| rc_rcv := t |> in
  or_fail ret s (
  '(ret, t, p) ← uthread_start (rc_mgr s) rmsb_addr (tc_setscope cm) (tc_create cm) (tc_id cm) (rc_threads s);
  let s := s <| rc_mgr := t |> <| rc_threads := p |> in
  or_fail ret s (
  '(ret, t, p) ← uthread_start (rc_snd s) rmsb_addr (tc_setscope cs) (tc_create cs) (tc_id cs) (rc_threads s);
  let s := s <| rc_snd := t |> <| rc_threads := p |> in
  or_fail ret s (
  '(ret, t, p) ← uthread_start (rc_rcv s) rmsb_addr (tc_setscope cr) (tc_create cr) (tc_id cr) (rc_threads s);
  let s := s <| rc_rcv := t |> <| rc_threads := p |> in
  or_fail ret s (Ok (0, s))))))).

(** [hname]: what [gethostname] stored, [None] when it failed; [addr]: the address
    [gethostbyname] found, [None] when it returned [NULL]. *)
Definition rms_init (hname : option cstring) (addr : option Z) (prio : Z) (cm cs cr : thread_calls)
    (s : rms_cb) : res (Z * rms_cb) :=
  let s := s <| rc_version := 0 |> in
  q ← mqueue_init 3; let s := s <| rc_channels := q |> in
  q ← mqueue_init 3; let s := s <| rc_channels_tmp := q |> in
  q ← mqueue_init 10; let s := s <| rc_msg_pool := q |> in
  let s := s <| rc_state := 0 |> in
  match hname with
  | None => Ok (-1, s)
  | Some name =>
      let s := s <| rc_hostname := Some name |> in
      match addr with
      | None => Fault NullDeref
      | Some a =>
          let s := s <| rc_id := a |> <| rc_ip_addr := a |> in
          me ← rms_peer_init name a;
          let s := s <| rc_self := Some me |> <| rc_initialized := RMS_INITIALIZED |>
            <| rc_maxsock := 0 |> <| rc_n_channels := 0 |> <| rc_sock := 0 |> <| rc_listening := 0 |>
            <| rc_error := 0 |> <| rc_active := 1 |> in
          start_threads prio cm cs cr s
      end
  end.

Definition rms_get_error (s : rms_cb) : Z := rc_error s.
Definition rms_error_desc (err : Z) : cstring := [82; 77; 83; 32; 101; 114; 114; 111; 114].   (* RMS error *)

(** ** The threads that are running afterwards *)

(** A thread, if its start succeeded. *)
Definition started (f : Z) (c : thread_calls) : list made :=
  if (tc_setscope c =? 0) && (tc_create c =? 0) then [Made f rmsb_addr false] else [].

(** [pthread] functions answer 0 or a positive error number. *)
Definition answers (c : thread_calls) : Prop := 0 ≤ tc_setscope c ∧ 0 ≤ tc_create c.

Lemma uthread_init_ok f prio c :
  prio ≤ 0 → ∃ u, uthread_init f prio (tc_key c) (tc_setsched c) = Ok (0, Some u) ∧
    status u = UTHREAD_STATUS_INIT ∧ run u = f ∧ attr_detached u = false.
Proof.
  intros Hp. unfold uthread_init. cbv zeta. destruct (Z.gtb_spec prio 0) as [|_]; [lia|]. cbn. eauto.
Qed.

(** Whatever happens, the answer is not negative. *)
Lemma uthread_start_ok u c p :
  status u = UTHREAD_STATUS_INIT → answers c → attr_detached u = false →
  ∃ ret t p', uthread_start (Some u) rmsb_addr (tc_setscope c) (tc_create c) (tc_id c) p = Ok (ret, t, p') ∧
    0 ≤ ret ∧ created p' = created p ++ started (run u) c.
Proof.
  intros Hs [H1 H2] Hd. unfold uthread_start, started. cbn [deref mbind res_bind]. rewrite Hs. cbn [negb Z.eqb].
  change (UTHREAD_STATUS_INIT =? UTHREAD_STATUS_INIT) with true. cbn [negb]. cbv zeta.
  destruct (Z.eqb_spec (tc_setscope c) 0) as [_|]; cbn [andb]; cycle 1.
  { eexists _, _, _. split; [reflexivity|]. by rewrite app_nil_r. }
  unfold pthread_create. destruct (Z.eqb_spec (tc_create c) 0) as [_|].
  - eexists _, _, _. split; [reflexivity|]. split; [lia|]. cbn. by rewrite Hd.
  - eexists _, _, _. split; [reflexivity|]. by rewrite app_nil_r.
Qed.

Lemma or_fail_ok ret s k : 0 ≤ ret → or_fail ret s k = k.
Proof. intros. unfold or_fail. by rewrite (proj2 (Z.ltb_ge _ _)). Qed.

Lemma start_threads_ok prio cm cs cr s :
  prio ≤ 0 → answers cm → answers cs → answers cr →
  ∃ s', start_threads prio cm cs cr s = Ok (0, s') ∧
    created (rc_threads s') = created (rc_threads s) ++
      started manager_addr cm ++ started sender_addr cs ++ started receiver_addr cr ∧
    rc_error s' = rc_error s ∧ rc_initialized s' = rc_initialized s ∧ rc_active s' = rc_active s.
Proof.
  intros Hp Hm Hs Hr. unfold start_threads.
  destruct (uthread_init_ok manager_addr prio cm Hp) as (um & -> & Sm & Rm & Dm).
  destruct (uthread_init_ok sender_addr prio cs Hp) as (us & -> & Ss & Rs & Ds).
  destruct (uthread_init_ok receiver_addr prio cr Hp) as (ur & -> & Sr & Rr & Dr).
  cbn -[uthread_start or_fail]. rewrite !or_fail_ok by lia.
  destruct (uthread_start_ok um cm (rc_threads s) Sm Hm Dm) as (r1 & t1 & p1 & -> & H1 & C1).
  cbn -[uthread_start or_fail]. rewrite or_fail_ok by done.
  destruct (uthread_start_ok us cs p1 Ss Hs Ds) as (r2 & t2 & p2 & -> & H2 & C2).
  cbn -[uthread_start or_fail]. rewrite or_fail_ok by done.
  destruct (uthread_start_ok ur cr p2 Sr Hr Dr) as (r3 & t3 & p3 & -> & H3 & C3).
  cbn -[or_fail]. rewrite or_fail_ok by done. eexists. split; [reflexivity|]. split; [|done].
  cbn. by rewrite C3, C2, C1, Rm, Rs, Rr, <- !app_assoc.
Qed.

(** [rms_init] does not notice that a thread could not be started: it looks for a
    negative answer, and the pthread functions answer with positive error numbers.
    However the starts end, it returns 0 and reports the rewrite as initialised and
    active without an error, and the threads that run are those whose start
    succeeded, possibly none.  Without a host name it returns -1, and a host whose
    name has no address makes it follow a null pointer. *)
Theorem rms_init_unnoticed name addr me prio cm cs cr s :
  rms_peer_init name addr = Ok me → prio ≤ 0 → answers cm → answers cs → answers cr →
  created (rc_threads s) = [] →
  (∃ s', rms_init (Some name) (Some addr) prio cm cs cr s = Ok (0, s') ∧
     created (rc_threads s') = started manager_addr cm ++ started sender_addr cs ++ started receiver_addr cr ∧
     rms_get_error s' = 0 ∧ rc_initialized s' = RMS_INITIALIZED ∧ rc_active s' = 1) ∧
  (∃ s', rms_init None (Some addr) prio cm cs cr s = Ok (-1, s') ∧ rc_initialized s' = rc_initialized s) ∧
  rms_init (Some name) None prio cm cs cr s = Fault NullDeref.
Proof.
  intros Hpi Hp Hm Hs Hr Hc. unfold rms_init.
  destruct (mqueue_init_ok 3) as (q3 & E3 & _); [int_lia|]. destruct (mqueue_init_ok 10) as (q10 & E10 & _); [int_lia|].
  rewrite E3, E10. cbn [mbind res_bind]. rewrite Hpi. cbn [mbind res_bind].
  split; [|split; [by eexists|done]].
  match goal with |- context [start_threads _ _ _ _ ?s1] =>
    destruct (start_threads_ok prio cm cs cr s1 Hp Hm Hs Hr) as (s' & -> & Hs' & He & Hi & Ha) end.
  exists s'. split; [done|]. unfold rms_get_error. rewrite Hs', He, Hi, Ha. cbn. clear - Hc. by rewrite Hc.
Qed.
End Init.

(** No thread can be made ([EAGAIN]). *)
Module InitExamples.
#[local] Instance item0 : Uninit mqueue_item := Item 0 0.
#[local] Instance thread0 : Uninit uthread := Uthread 0 0 0 false None 0 0 0 0 0 0 0.
Definition no_table : htbl_t := Htbl (Hashtbl 0 0 [] [] (Pool 0 0 0 0)) heap_empty heap_empty.
Definition no_queue : mqueue_t := MqueueT (Mqueue 0 0 0 (Pool 0 0 0 0) 0 0) heap_empty.
Definition peer_init (name : cstring) (i : Z) : res rms_meta_peer := Ok (Peer i name 0 0 0 0 (Timeval 0 0) no_table).
Definition cb0 : rms_cb :=
  RmsCb 0 no_queue no_queue no_queue 0 None 0 0 None 0 0 0 0 0 0 0 None None None (Pthreads [] ∅).
Definition eagain : thread_calls := ThreadCalls 0 0 0 11 0.

Lemma rms_init_unnoticed_witness :
  ∃ s', rms_init peer_init 1 2 3 4 (Some [104]) (Some 7) 0 eagain eagain eagain cb0 = Ok (0, s') ∧
    created (rc_threads s') = [] ∧ rms_get_error s' = 0.
Proof.
  destruct (rms_init_unnoticed peer_init 1 2 3 4 [104] 7 (Peer 7 [104] 0 0 0 0 (Timeval 0 0) no_table) 0
    eagain eagain eagain cb0) as [(s' & E & Hc & He & _) _].
  - reflexivity.
  - lia.
  - by vm_compute.
  - by vm_compute.
  - by vm_compute.
  - reflexivity.
  - exists s'. split; [exact E|]. split; [exact Hc|exact He].
Defined.
End InitExamples.
